(* ===== verification/_CoqProject ===== *)
-Q . S2P
Prelude.v
Async.v
JsString.v
Numbers.v
Encoding.v
Errors.v
Store.v
Database.v
Pool.v
Evolution.v
Toy.v
Redis.v
RateLimit.v
Http.v
Config.v
AuditLog.v
Mail.v
RefreshTokens.v
Family.v
Sessions.v
Users.v
Password.v
EmailTokens.v
UserService.v
Seed.v
Keys.v
Lifecycle.v
Jwt.v
ToyJose.v
Guards.v
Mfa.v
Risk.v
AuthService.v
Recovery.v
AuthDemo.v
AuthRoutes.v
Rbac.v
Clients.v
AdminRoutes.v
AdminApi.v
Codes.v
OAuth.v
OAuthFlow.v
OAuthGrants.v
OAuthTokens.v
OAuthDemo.v
OAuthRoutes.v
Gateway.v
Resource.v
Documents.v
Edge.v
EdgeApi.v
Client.v
Router.v
Views.v
Dom.v
Otp.v
Screens.v
Account.v
App.v
Wiring.v
Site.v
Deployment.v
SignIn.v
DeploymentDemo.v
