(* ===== verification/Prelude.v ===== *)
(** * The identity platform, modelled and verified

    The program (TypeScript, src/src) is an identity platform: an authorization
    server (registration, login, second factor, rotating refresh tokens, OAuth2
    with PKCE, OpenID Connect, role administration), an API gateway that
    verifies access tokens remotely, a resource API behind it, and a
    single-page browser client. This library models it as executable
    definitions and proves what makes it correct.

    ** How the parts interact

    The browser client (Client, Router, Views, Screens, Account) sends requests
    to one origin.
    The authorization server (App) dispatches them to the routers (AuthRoutes,
    AdminRoutes, OAuthRoutes), whose handlers call the services (AuthService,
    UserService, Mfa, Risk, OAuth), which call the repositories (Users,
    Sessions, RefreshTokens, EmailTokens, Rbac, Clients, Codes) and the keys
    (Keys, Jwt). All of them share one store (Store): the tables, the Redis
    keyspace, the key directory, the outgoing mail, the clock and the random
    source. The gateway (Gateway) verifies tokens with the keys the
    authorization server publishes and forwards requests, with the identity in
    headers, to the resource API (Resource). Deployment composes the browser,
    the authorization server, the gateway and the resource API, and SignIn
    follows a user through all of them.

    ** The model of effects

    An async function is a value of [Async.Async]: a tree of awaited
    operations, each one atomic step on the store (one SQL statement, one Redis
    command, one reading of the clock, one draw of randomness), or an exception.
    [run] executes it alone; [pstep] interleaves the awaits of any number of
    computations with each other and with any other activity, so the theorems
    on races quantify over all interleavings. [catch] is try/catch, exceptions
    are values of [Errors.Err]. A transaction ([Database.withTransaction]) is
    one step; Pool models it statement by statement and proves that it does the
    same.

    ** The files

    - Prelude, Async, JsString, Numbers, Encoding: records with update notation,
      the effect monad with its step relation, the string functions, the numbers
      and the codecs of the language (base64, percent-encoding, query strings).
    - Errors (common/errors, common/middleware/error-handler.ts), Http
      (common/middleware/request-id.ts, common/validation, the handlers and
      their chains), RateLimit (modules/rate-limit), Guards (common/guards).
    - Store (infrastructure/database/migrations, config/index.ts as a record),
      Config (config/index.ts: reading the environment), Database
      (infrastructure/database/pool.ts and migrate.ts), Pool (the clients of
      pool.ts and of the audit sink), Seed (seed.ts), Redis
      (infrastructure/redis), AuditLog (modules/audit), Mail (modules/email).
    - RefreshTokens, Jwt (modules/tokens), Family (an abstract specification of
      rotation that RefreshTokens refines), Sessions (modules/sessions), Users,
      Password, EmailTokens, UserService (modules/users), Keys (modules/keys),
      Mfa (modules/mfa), Risk (modules/risk).
    - AuthService, Recovery, AuthRoutes: modules/auth and the routes of the
      second factor.
    - Rbac, Clients, AdminRoutes, AdminApi: modules/roles and modules/clients.
    - Codes, OAuth, OAuthFlow, OAuthGrants, OAuthTokens, OAuthRoutes:
      modules/oauth with the keys and health routes.
    - Gateway, Resource, Documents, Edge, EdgeApi: modules/gateway,
      modules/resources and their composition.
    - Client (api.ts, tokens.ts, config.ts), Router (router.ts, main.ts), Views
      (what the forms ask of the browser), Dom (ui.ts), Otp (the boxes of
      views/mfa.ts), Screens (the forms of views), Account (views/account.ts):
      apps/frontend/client. Site: apps/frontend/server.ts.
    - App, Wiring, Deployment, SignIn: app.factory.ts (the routes, and the
      objects behind them), and the whole system. Lifecycle: the start and
      the shutdown of the processes (apps/*/main.ts) and the scripts.
    - Evolution: the order along which the rows of every table move, and the
      counting argument behind every single-use credential.
    - Toy, ToyJose, AuthDemo, OAuthDemo, DeploymentDemo: concrete instances of
      the external libraries, and the properties applied at concrete inputs.

    A source function keeps its name; a method f of class C is [C.f] where the
    name alone would be ambiguous; a route handler is named after its verb and
    path ([post_login] is POST /auth/login).

    ** What the theorems show

    - Refresh tokens: a replay revokes the family and its session, concurrent
      presentations have one winner, and calls one after the other follow an
      abstract specification of families at the times of the clock (Family,
      which also shows what a race of two presentations leaves behind); through
      the browser, one expired access token is recovered from silently, and two
      parallel refreshes can log the user out.
    - Login: who gets in, that whoever should get in does, and lockout; the
      second factor; refreshing; recovering a password. From end to end: the
      credentials typed into the form lead to the account page, whose two
      requests, however they interleave, are answered with what the two servers
      know of the user, and which shows exactly that ([SignIn.sign_in]).
    - OAuth: what every grant checks, that a code is exchanged once and a
      replay revokes, and that a correct exchange succeeds.
    - Tokens and keys: verification accepts what a key of the server signed,
      unexpired and unrevoked; what is signed verifies; there always is a
      current key.
    - Edge: the resource API sees the identity of the verified token whatever
      headers the client sends; documents are isolated.
    - State: the session cache is coherent and refines the database, single-use
      e-mail tokens, the RBAC query against its definition, migrations applied
      once and resumable, the seed idempotent, rate limits under concurrency.
      A transaction takes effect as a whole or not at all and gives its client
      back without an open transaction, whatever fails
      ([Pool.transaction_refined]). A configuration is loaded exactly when no
      variable is refused, with the value of each; the error lists the others.
    - Wiring: the parts of the authorization server share one database, Redis
      and key service, and every router verifies tokens against the denylist,
      although most were given the token service before it had one
      ([Wiring.auth_server_wired]): the assumption of the shared store.
    - Browser: every request of the client ends after at most four fetches, the
      router settles, a form sends what its inputs hold and only with its button
      held, the boxes submit six digits or nothing, no value of an account
      becomes markup, sign-out forgets the tokens.
    - Processes: a server that waits for its close event serves every request it
      has accepted; the authorization server does not wait. It starts only
      with a signing key; the script for the keys makes no second one.
    - HTTP: every request gets an answer, with its request id unless it is an
      OPTIONS request; a request that does not fit the schemas of its route is
      refused with the list of its faults, and handlers run on the parsed
      values; no administration route acts without its permission.

    ** Fuel

    [LocalKeyProvider.getCurrentSigningKey_rec] and [apiRequest_rec] recurse
    once at most (theorems [current_key_total], [apiRequest_bounded]), so their
    fuel is 2; [settle_at] follows at most two redirects ([router_settles]);
    [RedisService.delByPrefix_rec] asks for as many pages as an iteration of
    SCAN can have ([run_delByPrefix]).
    Everything else is structural.

    ** Parameters

    Code outside src/ is an argument of the definitions, grouped in type
    classes with their documented behaviour as separate classes of laws:
    argon2, otplib, qrcode, node's crypto, the clock and the random source, the
    cursor of Redis' SCAN (Store, [Platform], [PlatformLaws], [CryptoLaws]), jose (Jwt), zod's string
    formats (Http), the URL class (Clients), the remote JWKS client (Gateway),
    Express's path matching (App), the packages helmet and cors (Http,
    [Middlewares]), the SQL of the migration files and the errors of CREATE
    TABLE IF NOT EXISTS (Database), node-postgres (Pool).

    ** Idealisations

    Strings are sequences of bytes; that they are UTF-8 is not checked. A UUID
    primary key the database draws is unique. The statements of a transaction
    do not interleave with those of others. Foreign keys are modelled where
    the code depends on their errors or cascades (Rbac, Resource). Rows that
    ORDER BY leaves tied keep their insertion order, and ORDER BY name is the
    order of the bytes, as in the database image of docker-compose.yml. The
    gateway's copy of the published keys is a function of the state: the laws of
    Gateway leave out that jose keeps it for a minute (harmless, since no key is
    withdrawn) and does not fetch it again within half a minute of a fetch (a
    new key is refused until then). A request that HEAD makes of a GET route is
    answered like GET; that its body is not sent is not modelled. Promise.all of independent
    reads runs them in sequence, except for the two requests of the account
    page, whose interleavings Deployment and SignIn cover. A date in a JSON answer is its time
    value. The blanks around a header's value are lost on the wire. The
    urlencoded body of a request is the parsed object. The elements of a form
    are looked up when its handler runs; nothing moves them in between.

    ** Not modelled

    Body parsing and cookies (third-party middleware; the requests are the
    parsed ones); which headers helmet and cors set; the
    health routes of the gateway and the resource API; the logger; the text of engine errors; the
    OpenAPI document and its viewer; listening on a port, and which connection
    the pool picks, which are the libraries'; the singletons getDatabase and
    getRedis, which no code calls; animation, timers and styles in the browser;
    the script that copies files. *)
From stdpp Require Import base gmap strings list.
From Stdlib Require Import ZArith Lia.

(** * Functional record update

    [r <| field := v |>] and [r <| field ::= f |>], resolved through the
    eta-expansion of the record that each [Settable] instance gives. *)

Class Settable (R : Type) := mk_eta : R → R.
Class Setter {R T : Type} (proj : R → T) := set_field : (T → T) → R → R.
Global Arguments set_field {R T} proj {_} f r.

Ltac solve_setter :=
  match goal with
  | |- @Setter ?R ?T ?proj =>
      let f := fresh "f" in
      let r := fresh "r" in
      intros f r;
      let eta := eval hnf in (@mk_eta R _ r) in
      let pat := eval pattern (proj r) in eta in
      match pat with ?g _ => exact (g (f (proj r))) end
  end.
#[export] Hint Extern 1 (Setter _) => solve_setter : typeclass_instances.

Declare Scope update_scope.
Delimit Scope update_scope with upd.
Notation "r <| p := v |>" := (set_field p (λ _, v) r)
  (at level 12, left associativity, p at level 11, v at level 200,
   format "r  <|  p  :=  v  |>") : update_scope.
Notation "r <| p ::= f |>" := (set_field p f r)
  (at level 12, left associativity, p at level 11, f at level 200,
   format "r  <|  p  ::=  f  |>") : update_scope.
Global Open Scope update_scope.

(** * Case analysis and simplification tactics *)

(** [break_match]: destruct the scrutinee of one [match] or [if] of the
    context, keeping the equation. *)
Ltac break_match_in H :=
  match type of H with
  | context [match ?x with _ => _ end] =>
      lazymatch x with
      | context [match _ with _ => _ end] => fail
      | _ => let E := fresh "E" in destruct x eqn:E
      end
  end.
Ltac break_match_goal :=
  match goal with
  | |- context [match ?x with _ => _ end] =>
      lazymatch x with
      | context [match _ with _ => _ end] => fail
      | _ => let E := fresh "E" in destruct x eqn:E
      end
  end.
Ltac break_match_hyp :=
  match goal with H : _ |- _ => break_match_in H end.
Ltac break_match := break_match_goal || break_match_hyp.

Create HintDb sql discriminated.
Create HintDb steps discriminated.

(** * Tables

    A table of the relational store is the list of its rows. A statement
    [SELECT .. WHERE P], [UPDATE .. SET f WHERE P] or [DELETE .. WHERE P]
    is one of the following functions of the table; [RETURNING] gives the
    updated rows and [rows[0]] the first of them. *)

Section tables.
Context {R : Type}.
Implicit Types (t : list R) (r : R).

Definition sql_select (P : R → Prop) `{!∀ r, Decision (P r)} t : list R :=
  filter P t.

Definition sql_first (P : R → Prop) `{!∀ r, Decision (P r)} t : option R :=
  head (sql_select P t).

Definition sql_set (P : R → Prop) `{!∀ r, Decision (P r)} (f : R → R) r : R :=
  if decide (P r) then f r else r.

Definition sql_update (P : R → Prop) `{!∀ r, Decision (P r)}
    (f : R → R) t : list R := sql_set P f <$> t.

Definition sql_returning (P : R → Prop) `{!∀ r, Decision (P r)}
    (f : R → R) t : list R := f <$> sql_select P t.

Definition sql_delete (P : R → Prop) `{!∀ r, Decision (P r)} t : list R :=
  filter (λ r, ¬ P r) t.

Section select.
Context (P : R → Prop) `{!∀ r, Decision (P r)}.

Lemma elem_of_select t r : r ∈ sql_select P t ↔ P r ∧ r ∈ t.
Proof. apply list_elem_of_filter. Qed.

Lemma sql_first_Some t r : sql_first P t = Some r → P r ∧ r ∈ t.
Proof.
  unfold sql_first. intros Hh. apply elem_of_select.
  destruct (sql_select P t) as [|r0 l]; [done|].
  simpl in Hh. simplify_eq. set_solver.
Qed.

Lemma sql_first_None t : sql_first P t = None ↔ ∀ r, r ∈ t → ¬ P r.
Proof.
  unfold sql_first. split.
  - intros Hnone r Hr HP.
    assert (r ∈ sql_select P t) as Hin by (apply elem_of_select; done).
    destruct (sql_select P t); [set_solver | done].
  - intros Hno. destruct (sql_select P t) as [|r l] eqn:E; [done|].
    assert (r ∈ sql_select P t) as Hin by (rewrite E; set_solver).
    apply elem_of_select in Hin as [HP Hr]. by destruct (Hno r).
Qed.

Lemma sql_first_app t t' :
  sql_first P (t ++ t') =
    match sql_first P t with Some r => Some r | None => sql_first P t' end.
Proof.
  unfold sql_first, sql_select. rewrite filter_app.
  by destruct (filter P t).
Qed.

(** The last row, when no earlier one matches. *)
Lemma sql_first_last t r :
  (∀ x, x ∈ t → ¬ P x) → sql_first P (t ++ [r]) = if decide (P r) then Some r else None.
Proof.
  intros Hno. rewrite sql_first_app, (proj2 (sql_first_None t) Hno).
  unfold sql_first, sql_select. rewrite filter_cons. by case_decide.
Qed.

(** At most one row carries a value of a unique column. *)
Lemma sql_first_unique {K} (key : R → K) (k : K) t r :
  NoDup (key <$> t) → (∀ r', P r' → key r' = k) →
  r ∈ t → P r → sql_first P t = Some r.
Proof.
  intros Hnd Hkey Hr HP.
  destruct (sql_first P t) as [r'|] eqn:E.
  - apply sql_first_Some in E as [HP' Hr'].
    apply list_elem_of_lookup in Hr as [i Hi].
    apply list_elem_of_lookup in Hr' as [j Hj].
    assert (i = j) as ->; [|congruence].
    apply (NoDup_lookup (key <$> t) i j k); [done| |].
    + rewrite list_lookup_fmap, Hi. simpl. by rewrite (Hkey r).
    + rewrite list_lookup_fmap, Hj. simpl. by rewrite (Hkey r').
  - rewrite sql_first_None in E. by destruct (E r).
Qed.
End select.

Section update.
Context (P : R → Prop) `{!∀ r, Decision (P r)} (f : R → R).

Lemma elem_of_update t r :
  r ∈ sql_update P f t ↔ ∃ r0, r0 ∈ t ∧ r = sql_set P f r0.
Proof.
  unfold sql_update. rewrite list_elem_of_fmap. naive_solver.
Qed.

Lemma sql_set_true r : P r → sql_set P f r = f r.
Proof. intros. unfold sql_set. by rewrite decide_True. Qed.

Lemma sql_set_false r : ¬ P r → sql_set P f r = r.
Proof. intros. unfold sql_set. by rewrite decide_False. Qed.

(** A column the assignment leaves alone keeps its values. *)
Lemma sql_update_key {K} (key : R → K) t :
  (∀ r, P r → key (f r) = key r) → key <$> sql_update P f t = key <$> t.
Proof.
  intros Hf. unfold sql_update. rewrite <- list_fmap_compose.
  apply list_fmap_ext. intros i r _. unfold compose, sql_set.
  case_decide; auto.
Qed.

Lemma sql_update_nothing t :
  (∀ r, r ∈ t → ¬ P r) → sql_update P f t = t.
Proof.
  intros Hno. unfold sql_update. rewrite <- (list_fmap_id t) at 2.
  apply list_fmap_ext. intros i r Hi. apply sql_set_false, Hno.
  by eapply list_elem_of_lookup_2.
Qed.

(** Rows outside [K] are untouched by an update inside [K]. *)
Lemma elem_of_update_other (K : R → Prop) t r :
  (∀ r0, P r0 → K r0) → (∀ r0, P r0 → K (f r0)) → ¬ K r →
  r ∈ sql_update P f t ↔ r ∈ t.
Proof.
  intros HP Hf Hr. rewrite elem_of_update. unfold sql_set. split.
  - intros (r0 & Hr0 & ->). case_decide as Hd; [|done]. by destruct Hr; apply Hf.
  - intros Hin. exists r. split; [done|]. rewrite decide_False; [done|]. intros Hd. by apply Hr, HP.
Qed.

(** An update that gives [Q] to every row of [K] without it. *)
Lemma update_establishes (K Q : R → Prop) t r :
  (∀ r0, P r0 → Q (f r0)) → (∀ r0, K r0 → ¬ P r0 → Q r0) →
  r ∈ sql_update P f t → K r → Q r.
Proof.
  intros Hf HK. rewrite elem_of_update. unfold sql_set. intros (r0 & Hr0 & ->).
  case_decide; auto.
Qed.

Lemma sql_select_update (Q : R → Prop) `{!∀ r, Decision (Q r)} t :
  (∀ r, Q (sql_set P f r) ↔ Q r) →
  sql_select Q (sql_update P f t) = sql_set P f <$> sql_select Q t.
Proof.
  intros HQ. induction t as [|r t IH]; [done|].
  unfold sql_select, sql_update in *. rewrite fmap_cons, !filter_cons.
  pose proof (HQ r). repeat case_decide; try tauto.
  rewrite fmap_cons. by f_equal.
Qed.

(** The first row a later query sees, when the assignment does not
    change which rows the query matches. *)
Lemma sql_first_update (Q : R → Prop) `{!∀ r, Decision (Q r)} t :
  (∀ r, Q (sql_set P f r) ↔ Q r) →
  sql_first Q (sql_update P f t) = sql_set P f <$> sql_first Q t.
Proof.
  intros HQ. unfold sql_first. rewrite sql_select_update by done.
  by destruct (sql_select Q t).
Qed.

Lemma sql_returning_head t :
  head (sql_returning P f t) = f <$> sql_first P t.
Proof. unfold sql_returning, sql_first. by destruct (sql_select P t). Qed.

Lemma sql_returning_nil t :
  sql_returning P f t = [] ↔ ∀ r, r ∈ t → ¬ P r.
Proof.
  rewrite <- (sql_first_None P). unfold sql_returning, sql_first.
  destruct (sql_select P t); by split.
Qed.
End update.
End tables.

#[export] Hint Rewrite @elem_of_select @elem_of_update : sql.

(** A predicate on rows holds of the whole table after an update when the
    assignment establishes or keeps it. *)
Lemma Forall_sql_update {R} (Q P : R → Prop) `{!∀ r, Decision (P r)} f (t : list R) :
  (∀ r, r ∈ t → Q r → P r → Q (f r)) → Forall Q t → Forall Q (sql_update P f t).
Proof.
  rewrite !Forall_forall. intros Hf HQ r.
  rewrite elem_of_update. intros (r0 & Hr0 & ->).
  unfold sql_set. case_decide; auto.
Qed.

(** Number of rows matching a predicate. *)
Definition sql_count {R} (P : R → Prop) `{!∀ r, Decision (P r)} (t : list R) : nat :=
  length (sql_select P t).

Section counts.
Context {R : Type} (Q : R → Prop) `{!∀ r, Decision (Q r)}.

Lemma sql_count_app (t t' : list R) :
  sql_count Q (t ++ t') = sql_count Q t + sql_count Q t'.
Proof. unfold sql_count, sql_select. by rewrite filter_app, length_app. Qed.

Lemma sql_count_cons (r : R) (t : list R) :
  sql_count Q (r :: t) = (if decide (Q r) then 1 else 0) + sql_count Q t.
Proof.
  unfold sql_count, sql_select. rewrite filter_cons. by case_decide.
Qed.

(** An update never takes a row out of [Q] : the count cannot drop. *)
Lemma sql_count_update_le (P : R → Prop) `{!∀ r, Decision (P r)} f (t : list R) :
  (∀ r, Q r → P r → Q (f r)) → sql_count Q t ≤ sql_count Q (sql_update P f t).
Proof.
  intros Hf. induction t as [|r t IH]; [done|].
  unfold sql_update in *. rewrite fmap_cons, !sql_count_cons.
  unfold sql_set at 1. specialize (Hf r).
  repeat case_decide; try lia; tauto.
Qed.

(** An update that moves some row into [Q] strictly raises the count. *)
Lemma sql_count_update_lt (P : R → Prop) `{!∀ r, Decision (P r)} f (t : list R) r :
  (∀ r', Q r' → P r' → Q (f r')) →
  r ∈ t → P r → ¬ Q r → Q (f r) →
  sql_count Q t < sql_count Q (sql_update P f t).
Proof.
  intros Hf Hr HP HnQ HQ. induction t as [|r' t IH]; [set_solver|].
  pose proof (sql_count_update_le P f t Hf) as Hle.
  unfold sql_update in *. rewrite fmap_cons, !sql_count_cons.
  unfold sql_set at 1. pose proof (Hf r') as Hf'.
  apply elem_of_cons in Hr as [->|Hr].
  - repeat case_decide; try lia; tauto.
  - specialize (IH Hr). repeat case_decide; try lia; tauto.
Qed.

(** A unique column bounds the count of rows carrying one value. *)
Lemma sql_count_unique {K} (key : R → K) (k : K) (t : list R) :
  NoDup (key <$> t) → (∀ r, Q r → key r = k) → sql_count Q t ≤ 1.
Proof.
  intros Hnd Hk. induction t as [|r t IH]; [unfold sql_count; simpl; lia|].
  rewrite fmap_cons in Hnd. apply NoDup_cons in Hnd as [Hnotin Hnd].
  rewrite sql_count_cons. case_decide as HQ; [|by apply IH].
  enough (sql_count Q t = 0) by lia.
  unfold sql_count, sql_select.
  destruct (filter Q t) as [|r' l] eqn:E; [done|].
  assert (r' ∈ filter Q t) as Hin by (rewrite E; set_solver).
  apply list_elem_of_filter in Hin as [HQ' Hr'].
  destruct Hnotin. rewrite (Hk r HQ), <- (Hk r' HQ').
  by apply list_elem_of_fmap_2.
Qed.
End counts.

(** * Tables that only grow

    [grows le t t']: every row of [t] is still in [t'], in a form related to
    the former one by [le], and new rows come after the old ones. *)

Definition grows {R} (le : R → R → Prop) (t t' : list R) : Prop :=
  ∃ old new, t' = old ++ new ∧ Forall2 le t old.

Section grows.
Context {R : Type} (le : R → R → Prop) `{!PreOrder le}.

#[global] Instance grows_preorder : PreOrder (grows le).
Proof.
  split.
  - intros t. exists t, []. split; [by rewrite app_nil_r | reflexivity].
  - intros t1 t2 t3 (o2 & n2 & E2 & F2) (o3 & n3 & E3 & F3).
    rewrite E2 in F3. apply Forall2_app_inv_l in F3 as (k1 & k2 & Fk1 & Fk2 & ->).
    exists k1, (k2 ++ n3). split; [by rewrite E3, app_assoc | by etrans].
Qed.

Lemma grows_app t new : grows le t (t ++ new).
Proof. exists t, new. by split. Qed.

Lemma grows_update (Q : R → Prop) `{!∀ r, Decision (Q r)} f t :
  (∀ r, Q r → le r (f r)) → grows le t (sql_update Q f t).
Proof.
  intros Hf. exists (sql_update Q f t), []. split; [by rewrite app_nil_r|].
  unfold sql_update. apply Forall2_fmap_r, Forall_Forall2_diag, Forall_true.
  intros r. unfold compose, sql_set. case_decide; [by apply Hf | reflexivity].
Qed.

Lemma grows_elem t t' r : grows le t t' → r ∈ t → ∃ r', r' ∈ t' ∧ le r r'.
Proof.
  intros (old & new & -> & F) Hr. apply list_elem_of_lookup in Hr as [i Hi].
  destruct (Forall2_lookup_l _ _ _ _ _ F Hi) as (r' & Hi' & Hle).
  exists r'. split; [|done]. apply elem_of_app. left.
  by eapply list_elem_of_lookup_2.
Qed.

(** A predicate that rows never leave holds of ever more rows. *)
Lemma grows_count (Q : R → Prop) `{!∀ r, Decision (Q r)} t t' :
  (∀ r r', le r r' → Q r → Q r') → grows le t t' → sql_count Q t ≤ sql_count Q t'.
Proof.
  intros HQ (old & new & -> & F). rewrite sql_count_app.
  enough (sql_count Q t ≤ sql_count Q old) by lia.
  induction F as [|r r' l l' Hr _ IH]; [done|].
  rewrite !sql_count_cons. pose proof (HQ r r' Hr).
  repeat case_decide; try lia; tauto.
Qed.
End grows.

(** * Tables with a unique column

    [evolves le key t t']: the table only grows, row by row along [le], and
    the values of the column [key] stay pairwise distinct. *)

Definition evolves {R K} (le : R → R → Prop) (key : R → K) (t t' : list R) : Prop :=
  grows le t t' ∧ (NoDup (key <$> t) → NoDup (key <$> t')).

Section evolves.
Context {R K : Type} (le : R → R → Prop) `{!PreOrder le} (key : R → K).

#[global] Instance evolves_preorder : PreOrder (evolves le key).
Proof.
  split; [by split|]. intros t1 t2 t3 [G2 U2] [G3 U3]. split; [by etrans | auto].
Qed.

Lemma evolves_update (Q : R → Prop) `{!∀ r, Decision (Q r)} f t :
  (∀ r, Q r → le r (f r)) → (∀ r r', le r r' → key r' = key r) →
  evolves le key t (sql_update Q f t).
Proof.
  intros Hf Hk. split; [by apply grows_update|].
  rewrite sql_update_key; [done|]. intros r HQ. by apply Hk, Hf.
Qed.

Lemma evolves_insert t r : key r ∉ key <$> t → evolves le key t (t ++ [r]).
Proof.
  intros Hr. split; [by apply grows_app|].
  rewrite fmap_app. intros Hnd. apply NoDup_app.
  split; [done|]. split; [|apply NoDup_singleton].
  intros k Hk Hin. apply list_elem_of_singleton in Hin as ->. done.
Qed.
End evolves.

(** The condition of a join. *)
Lemma elem_of_if {A} (Q : Prop) `{!Decision Q} (x y : A) :
  x ∈ (if decide Q then [y] else []) ↔ Q ∧ x = y.
Proof. case_decide; set_solver. Qed.

(** Two rows with the same value in a unique column are the same row. *)
Lemma unique_row {R K} (key : R → K) (t : list R) (r r' : R) :
  NoDup (key <$> t) → r ∈ t → r' ∈ t → key r = key r' → r = r'.
Proof.
  intros Hnd Hr Hr' Hk.
  apply list_elem_of_lookup in Hr as [i Hi]. apply list_elem_of_lookup in Hr' as [j Hj].
  enough (i = j) as -> by congruence.
  apply (NoDup_lookup (key <$> t) i j (key r)); [done| |].
  - by rewrite list_lookup_fmap, Hi.
  - by rewrite list_lookup_fmap, Hj, Hk.
Qed.

(** A relation on a part of the state, seen on the whole state. *)
Definition pull {S T} (f : S → T) (R : T → T → Prop) (s s' : S) : Prop := R (f s) (f s').

#[export] Instance pull_preorder {S T} (f : S → T) (R : T → T → Prop) `{!PreOrder R} :
  PreOrder (pull f R).
Proof. split; unfold pull; [by intros s | by intros s1 s2 s3 ??; etrans]. Qed.
