(* ===== verification/Async.v ===== *)
(** Asynchronous computations over a shared store.

    An [async] function of the program is a tree of awaited operations: each
    [Await] is one statement executed atomically by the database, by Redis or
    by the runtime (the clock, the random source), and the code between two
    awaits runs without interruption. [run] executes a computation alone;
    [pstep] interleaves the awaits of any number of computations with each
    other and with the environment. *)
From S2P Require Import Prelude.
From stdpp Require Import base gmap strings list relations.

Inductive outcome (E A : Type) : Type :=
  | Rejected (e : E)
  | Resolved (a : A).
Global Arguments Rejected {E A} e.
Global Arguments Resolved {E A} a.

Definition is_resolved {E A} (o : outcome E A) : bool :=
  match o with Resolved _ => true | Rejected _ => false end.

Inductive Async (S E A : Type) : Type :=
  | Ret (a : A)
  | Throw (e : E)
  | Await {X : Type} (op : S → X * S) (k : X → Async S E A).
Global Arguments Ret {S E A} a.
Global Arguments Throw {S E A} e.
Global Arguments Await {S E A X} op k.

Fixpoint abind {S E A B} (f : A → Async S E B) (p : Async S E A) : Async S E B :=
  match p with
  | Ret a => f a
  | Throw e => Throw e
  | Await op k => Await op (λ x, abind f (k x))
  end.

(** [try p catch h] *)
Fixpoint catch {S E A} (h : E → Async S E A) (p : Async S E A) : Async S E A :=
  match p with
  | Ret a => Ret a
  | Throw e => h e
  | Await op k => Await op (λ x, catch h (k x))
  end.

#[export] Instance async_ret S E : MRet (Async S E) := λ A, Ret.
#[export] Instance async_bind S E : MBind (Async S E) := λ A B f p, abind f p.

(** One awaited operation that cannot fail, and one that may. *)
Definition atomically {S E X} (op : S → X * S) : Async S E X := Await op Ret.
Definition attempt {S E X} (op : S → outcome E X * S) : Async S E X :=
  Await op (λ r, match r with Resolved x => Ret x | Rejected e => Throw e end).

Definition reads {S E X} (f : S → X) : Async S E X := atomically (λ s, (f s, s)).
Definition writes {S E} (f : S → S) : Async S E () := atomically (λ s, ((), f s)).

(** [try p finally q] *)
Definition finally {S E A} (p : Async S E A) (q : Async S E ()) : Async S E A :=
  a ← catch (λ e, _ ← q; Throw e) p;
  _ ← q;
  mret a.

(** [for (const x of xs) await body(x)] *)
Fixpoint for_each {S E A} (body : A → Async S E ()) (xs : list A) : Async S E () :=
  match xs with
  | [] => Ret ()
  | x :: xs => _ ← body x; for_each body xs
  end.

(** * Running one computation to the end *)

Fixpoint run {S E A} (p : Async S E A) (s : S) : outcome E A * S :=
  match p with
  | Ret a => (Resolved a, s)
  | Throw e => (Rejected e, s)
  | Await op k => let '(x, s') := op s in run (k x) s'
  end.

Section run.
Context {S E : Type}.
Implicit Types (s : S) (e : E).

Lemma run_ret {A} (a : A) s : run (mret a : Async S E A) s = (Resolved a, s).
Proof. done. Qed.

Lemma run_throw {A} e s : run (Throw e : Async S E A) s = (Rejected e, s).
Proof. done. Qed.

Lemma run_bind {A B} (p : Async S E A) (f : A → Async S E B) s :
  run (p ≫= f) s =
    match run p s with
    | (Resolved a, s') => run (f a) s'
    | (Rejected e, s') => (Rejected e, s')
    end.
Proof.
  unfold mbind, async_bind. revert s.
  induction p as [a|e|X op k IH]; intros s; simpl; try done.
  destruct (op s) as [x s']. apply IH.
Qed.

Lemma run_catch {A} (p : Async S E A) h s :
  run (catch h p) s =
    match run p s with
    | (Resolved a, s') => (Resolved a, s')
    | (Rejected e, s') => run (h e) s'
    end.
Proof.
  revert s. induction p as [a|e|X op k IH]; intros s; simpl; try done.
  destruct (op s) as [x s']. apply IH.
Qed.

Lemma run_finally {A} (f : S → S) (p : Async S E A) s :
  run (finally p (writes f)) s = ((run p s).1, f (run p s).2).
Proof. unfold finally. rewrite run_bind, run_catch. by destruct (run p s) as [[e|a] s']. Qed.

Lemma run_atomically {X} (op : S → X * S) s :
  run (atomically op : Async S E X) s = (Resolved (op s).1, (op s).2).
Proof. simpl. by destruct (op s). Qed.

Lemma run_attempt {X} (op : S → outcome E X * S) s :
  run (attempt op : Async S E X) s = op s.
Proof. simpl. by destruct (op s) as [[e|x] s']. Qed.

Lemma run_reads {X} (f : S → X) s :
  run (reads f : Async S E X) s = (Resolved (f s), s).
Proof. done. Qed.

Lemma run_writes (f : S → S) s :
  run (writes f : Async S E ()) s = (Resolved (), f s).
Proof. done. Qed.

(** A sequence whose first part is known to resolve. *)
Lemma run_bind_eq {A B} (p : Async S E A) (f : A → Async S E B) s a s1 :
  run p s = (Resolved a, s1) → run (p ≫= f) s = run (f a) s1.
Proof. intros Hp. by rewrite run_bind, Hp. Qed.

Lemma run_bind_throw {A B} (p : Async S E A) (f : A → Async S E B) s e s1 :
  run p s = (Rejected e, s1) → run (p ≫= f) s = (Rejected e, s1).
Proof. intros Hp. by rewrite run_bind, Hp. Qed.

(** What a completed run of a sequence says of its parts. *)
Lemma run_bind_resolved {A B} (p : Async S E A) (f : A → Async S E B) s b s' :
  run (p ≫= f) s = (Resolved b, s') →
  ∃ a s1, run p s = (Resolved a, s1) ∧ run (f a) s1 = (Resolved b, s').
Proof. rewrite run_bind. destruct (run p s) as [[e|a] s1]; naive_solver. Qed.

Lemma run_bind_rejected {A B} (p : Async S E A) (f : A → Async S E B) s e s' :
  run (p ≫= f) s = (Rejected e, s') →
  run p s = (Rejected e, s') ∨
  ∃ a s1, run p s = (Resolved a, s1) ∧ run (f a) s1 = (Rejected e, s').
Proof. rewrite run_bind. destruct (run p s) as [[e'|a] s1]; naive_solver. Qed.
End run.

(** * Results

    [leaves Φ p]: every value the computation can return, whatever the store
    answers, satisfies [Φ]. *)

Fixpoint leaves {S E A} (Φ : A → Prop) (p : Async S E A) : Prop :=
  match p with
  | Ret a => Φ a
  | Throw _ => True
  | Await op k => ∀ s, leaves Φ (k (op s).1)
  end.

Section leaves.
Context {S E : Type}.

Lemma leaves_ret {A} (Φ : A → Prop) a : Φ a → leaves Φ (mret a : Async S E A).
Proof. done. Qed.

Lemma leaves_throw {A} (Φ : A → Prop) e : leaves Φ (Throw e : Async S E A).
Proof. done. Qed.

Lemma leaves_bind {A B} (Φ : B → Prop) (p : Async S E A) f :
  (∀ a, leaves Φ (f a)) → leaves Φ (p ≫= f).
Proof. intros Hf. unfold mbind, async_bind. induction p; simpl; auto. Qed.

Lemma leaves_seq {A B} (Ψ : A → Prop) (Φ : B → Prop) (p : Async S E A) f :
  leaves Ψ p → (∀ a, Ψ a → leaves Φ (f a)) → leaves Φ (p ≫= f).
Proof. intros Hp Hf. unfold mbind, async_bind. induction p; simpl in *; auto. Qed.

Lemma leaves_mono {A} (Ψ Φ : A → Prop) (p : Async S E A) :
  (∀ a, Ψ a → Φ a) → leaves Ψ p → leaves Φ p.
Proof. intros HI Hp. induction p; simpl in *; auto. Qed.

Lemma leaves_catch {A} (Φ : A → Prop) (p : Async S E A) h :
  leaves Φ p → (∀ e, leaves Φ (h e)) → leaves Φ (catch h p).
Proof. intros Hp Hh. induction p; simpl in *; auto. Qed.

Lemma leaves_run {A} (Φ : A → Prop) (p : Async S E A) s a s' :
  leaves Φ p → run p s = (Resolved a, s') → Φ a.
Proof.
  revert s. induction p as [b|e|X op k IH]; intros s Hp Hr; simplify_eq/=; [done|].
  specialize (Hp s). destruct (op s) as [x s1]. by eapply IH.
Qed.
End leaves.

Create HintDb run discriminated.
#[export] Hint Rewrite @run_ret @run_throw @run_bind @run_catch @run_atomically
  @run_attempt @run_reads @run_writes : run.

(** Normalise the runs of the goal or of a hypothesis. *)
Ltac run_simpl := autorewrite with run; simpl.
(** Run the first part of a sequence: by computation, or as [H] says. *)
Ltac run_next := erewrite run_bind_eq by reflexivity; cbv beta iota.
Ltac run_next_by H := erewrite run_bind_eq by apply H; cbv beta iota.
Ltac run_simpl_in H := autorewrite with run in H; simpl in H.

(** * Step relations

    [respects R p]: every operation the computation [p] can await changes
    the store only along [R]. *)

Section steps.
Context {S E : Type} (R : S → S → Prop).

Fixpoint respects {A} (p : Async S E A) : Prop :=
  match p with
  | Ret _ => True
  | Throw _ => True
  | Await op k => ∀ s, R s (op s).2 ∧ respects (k (op s).1)
  end.

Lemma respects_ret {A} (a : A) : respects (mret a).
Proof. done. Qed.
Lemma respects_throw {A} (e : E) : respects (Throw e : Async S E A).
Proof. done. Qed.

Lemma respects_bind {A B} (p : Async S E A) (f : A → Async S E B) :
  respects p → (∀ a, respects (f a)) → respects (p ≫= f).
Proof.
  unfold mbind, async_bind. intros Hp Hf.
  induction p as [a|e|X op k IH]; simpl in *; auto.
  intros s. destruct (Hp s). auto.
Qed.

Lemma respects_catch {A} (p : Async S E A) h :
  respects p → (∀ e, respects (h e)) → respects (catch h p).
Proof.
  intros Hp Hh. induction p as [a|e|X op k IH]; simpl in *; auto.
  intros s. destruct (Hp s). auto.
Qed.

Lemma respects_atomically {X} (op : S → X * S) :
  (∀ s, R s (op s).2) → respects (atomically op).
Proof. simpl. auto. Qed.

Lemma respects_attempt {X} (op : S → outcome E X * S) :
  (∀ s, R s (op s).2) → respects (attempt op).
Proof. simpl. intros Hop s. split; [auto|]. by destruct (op s) as [[]]. Qed.

Lemma respects_writes (f : S → S) : (∀ s, R s (f s)) → respects (writes f).
Proof. simpl. auto. Qed.

Lemma respects_for_each {A} (body : A → Async S E ()) xs :
  (∀ x, respects (body x)) → respects (for_each body xs).
Proof.
  intros Hb. induction xs; simpl; [done|].
  apply respects_bind; auto.
Qed.

Context `{!PreOrder R}.

Lemma respects_reads {X} (f : S → X) : respects (reads f).
Proof. simpl. split; [reflexivity | done]. Qed.

(** A whole run moves the store along [R]. *)
Lemma respects_run {A} (p : Async S E A) s :
  respects p → R s (run p s).2.
Proof.
  revert s. induction p as [a|e|X op k IH]; intros s Hp; simpl in *;
    [reflexivity..|].
  destruct (Hp s) as [H1 H2]. destruct (op s) as [x s'].
  etrans; [exact H1 | by apply IH].
Qed.
End steps.

Lemma respects_mono {S E A} (R R' : S → S → Prop) (p : Async S E A) :
  (∀ s s', R s s' → R' s s') → respects R p → respects R' p.
Proof.
  intros HR. induction p as [a|e|X op k IH]; simpl; auto.
  intros Hp s. destruct (Hp s). auto.
Qed.

#[export] Hint Resolve respects_ret respects_throw respects_bind respects_catch
  respects_reads respects_for_each : steps.

(** [keeps f p]: the computation never changes the part [f] of the store. *)
Definition same {S T} (f : S → T) (s s' : S) : Prop := f s' = f s.
#[export] Instance same_preorder {S T} (f : S → T) : PreOrder (same f).
Proof. split; unfold same; [done | intros ???; congruence]. Qed.

Notation keeps f := (respects (same f)).

Lemma keeps_run {S E A T} (f : S → T) (p : Async S E A) s :
  keeps f p → f (run p s).2 = f s.
Proof. apply (respects_run (same f)). Qed.

Lemma keeps_run_eq {S E A T} (f : S → T) (p : Async S E A) s r s' :
  keeps f p → run p s = (r, s') → f s' = f s.
Proof. intros Hk Hr. rewrite <- (keeps_run f p s Hk). by rewrite Hr. Qed.

(** * Interleavings

    A configuration is a pool of computations in progress and the store. One
    step runs the next awaited operation of one computation, lets the
    environment act on the store, or starts a new request. *)

Section pool.
Context {S E A : Type}.
Context (env : S → S → Prop) (adm : Async S E A → Prop).

Inductive pstep : list (Async S E A) * S → list (Async S E A) * S → Prop :=
  | pstep_await ps s i X (op : S → X * S) k x s' :
      ps !! i = Some (Await op k) → op s = (x, s') →
      pstep (ps, s) (<[i := k x]> ps, s')
  | pstep_env ps s s' :
      env s s' → pstep (ps, s) (ps, s')
  | pstep_spawn ps s p :
      adm p → pstep (ps, s) (ps ++ [p], s).

(** A relation respected by every request and by the environment relates
    the stores of any interleaved execution. *)
Theorem pool_respects (R : S → S → Prop) `{!PreOrder R} c c' :
  (∀ s s', env s s' → R s s') →
  (∀ p, adm p → respects R p) →
  rtc pstep c c' → Forall (respects R) c.1 →
  R c.2 c'.2 ∧ Forall (respects R) c'.1.
Proof.
  intros Henv Hadm Hsteps. induction Hsteps as [c|c1 c2 c3 Hstep _ IH].
  - intros. split; [reflexivity | done].
  - intros Hall. enough (R c1.2 c2.2 ∧ Forall (respects R) c2.1) as [H12 Hall2].
    { destruct (IH Hall2). split; [by etrans | done]. }
    destruct Hstep as [ps s i X op k x s' Hi Hop|ps s s' He|ps s p Hp]; simpl in *.
    + pose proof (proj1 (Forall_lookup _ _) Hall _ _ Hi s) as [HR Hk].
      rewrite Hop in HR, Hk. split; [done|]. by apply Forall_insert.
    + auto.
    + split; [reflexivity|]. apply Forall_app_2; auto.
Qed.

Definition settled (r : outcome E A) : Async S E A :=
  match r with Resolved a => Ret a | Rejected e => Throw e end.

(** The pool can run one of its computations to the end. *)
Lemma pool_complete ps s i p :
  ps !! i = Some p →
  rtc pstep (ps, s) (<[i := settled (run p s).1]> ps, (run p s).2).
Proof.
  revert ps s. induction p as [a|e|X op k IH]; intros ps s Hi; simpl.
  - by rewrite list_insert_id.
  - by rewrite list_insert_id.
  - destruct (op s) as [x s'] eqn:Hop. eapply rtc_l; [by eapply pstep_await|].
    rewrite <- (list_insert_insert_eq ps i (settled _) (k x)).
    apply IH. apply list_lookup_insert_eq. by eapply lookup_lt_Some.
Qed.

(** What the next await of a computation makes of it. *)
Definition await_next (p : Async S E A) (s : S) : option (Async S E A * S) :=
  match p with Await op k => Some (k (op s).1, (op s).2) | _ => None end.

Lemma pstep_next ps s c' :
  pstep (ps, s) c' →
  (∃ i p q s', ps !! i = Some p ∧ await_next p s = Some (q, s') ∧ c' = (<[i := q]> ps, s')) ∨
  (∃ s', env s s' ∧ c' = (ps, s')) ∨ (∃ p, adm p ∧ c' = (ps ++ [p], s)).
Proof.
  inversion 1 as [? ? i X op k x s' Hi Hop|? ? s' He|? ? p Hp]; subst; [left|right; left|right; right].
  - exists i, (Await op k), (k x), s'. split; [done|]. split; [|done]. cbn. by rewrite Hop.
  - by exists s'.
  - by exists p.
Qed.

(** A schedule: which computation takes the next step. *)
Fixpoint schedule (turns : list nat) (c : list (Async S E A) * S) : list (Async S E A) * S :=
  match turns with
  | [] => c
  | i :: turns =>
      match c.1 !! i ≫= (λ p, await_next p c.2) with
      | Some (q, s) => schedule turns (<[i := q]> c.1, s)
      | None => schedule turns c
      end
  end.

Lemma schedule_steps turns c : rtc pstep c (schedule turns c).
Proof.
  revert c. induction turns as [|i turns IH]; intros [ps s]; [done|]. cbn.
  destruct (ps !! i) as [p|] eqn:Hi; [|apply IH]. cbn. destruct p as [a|e|X op k]; [apply IH..|]. cbn.
  destruct (op s) as [x s'] eqn:Hop. cbn. eapply rtc_l; [by eapply pstep_await|apply IH].
Qed.

(** The pool can run the first part of a computation. *)
Lemma pool_bind {B} ps s i (q : Async S E B) (f : B → Async S E A) b s' :
  ps !! i = Some (q ≫= f) → run q s = (Resolved b, s') → rtc pstep (ps, s) (<[i := f b]> ps, s').
Proof.
  unfold mbind, async_bind. revert ps s. induction q as [a|e|X op k IH]; intros ps s Hi Hq; simpl in *.
  - injection Hq as -> ->. by rewrite list_insert_id.
  - done.
  - destruct (op s) as [x s1] eqn:Hop. eapply rtc_l; [by eapply pstep_await|].
    rewrite <- (list_insert_insert_eq ps i (f b) (abind f (k x))).
    apply (IH x _ s1); [|done]. apply list_lookup_insert_eq. by eapply lookup_lt_Some.
Qed.

(** Computations that start with the same reading operation can all make it
    before any of them goes on. *)
Lemma pool_first {X} (op : S → X * S) (ks : list (X → Async S E A)) ps s x :
  op s = (x, s) →
  rtc pstep (ps ++ (Await op <$> ks), s) (ps ++ ((λ k, k x) <$> ks), s).
Proof.
  intros Hop. revert ps. induction ks as [|k ks IH]; intros ps; [done|]. rewrite !fmap_cons.
  eapply rtc_l.
  - eapply (pstep_await _ _ (length ps)); [by apply list_lookup_middle|exact Hop].
  - rewrite <- (Nat.add_0_r (length ps)), insert_app_r. simpl.
    specialize (IH (ps ++ [k x])). by rewrite <- !app_assoc in IH.
Qed.

(** Any number of requests served one after the other. *)
Fixpoint serve (ps : list (Async S E A)) (s : S) : list (Async S E A) * S :=
  match ps with
  | [] => ([], s)
  | p :: ps =>
      let '(ps', s') := serve ps (run p s).2 in (settled (run p s).1 :: ps', s')
  end.

Lemma pstep_cons q c c' :
  pstep c c' → pstep (q :: c.1, c.2) (q :: c'.1, c'.2).
Proof.
  intros []; simpl.
  - by apply (pstep_await (_ :: _) _ (Datatypes.S i) X op k x).
  - by apply pstep_env.
  - rewrite app_comm_cons. by apply pstep_spawn.
Qed.

Lemma pool_serve ps s : rtc pstep (ps, s) (serve ps s).
Proof.
  revert s. induction ps as [|p ps IH]; intros s; simpl; [done|].
  etrans; [by apply (pool_complete (p :: ps) s 0 p)|]. simpl.
  destruct (serve ps (run p s).2) as [ps' s'] eqn:Es.
  specialize (IH (run p s).2). rewrite Es in IH.
  by apply (rtc_congruence (λ c, (settled (run p s).1 :: c.1, c.2)) pstep)
    in IH; [|apply pstep_cons].
Qed.
End pool.

(** * Rely-guarantee reasoning

    [rg R Q p s]: from the store [s], with the environment moving the store
    along [R] before each awaited operation, every operation of [p] moves it
    along [R] too and every value returned satisfies [Q] of the store at that
    point and later. *)

Section rely_guarantee.
Context {S E : Type} (R : S → S → Prop) `{!PreOrder R}.

Fixpoint rg {A} (Q : A → S → Prop) (p : Async S E A) (s : S) : Prop :=
  match p with
  | Ret a => ∀ s', R s s' → Q a s'
  | Throw _ => True
  | Await op k => ∀ s', R s s' → R s' (op s').2 ∧ rg Q (k (op s').1) (op s').2
  end.

Lemma rg_ret {A} (Q : A → S → Prop) a s :
  (∀ s', R s s' → Q a s') → rg Q (mret a) s.
Proof. done. Qed.

Lemma rg_throw {A} (Q : A → S → Prop) (e : E) s : rg Q (Throw e) s.
Proof. done. Qed.

Lemma rg_stable {A} (Q : A → S → Prop) p s s' : R s s' → rg Q p s → rg Q p s'.
Proof.
  destruct p as [a|e|X op k]; simpl; [|done|]; intros Hs Hp s'' Hs''; apply Hp; by etrans.
Qed.

Lemma rg_mono {A} (Q Q' : A → S → Prop) p s :
  (∀ a s', R s s' → Q a s' → Q' a s') → rg Q p s → rg Q' p s.
Proof.
  revert s. induction p as [a|e|X op k IH]; intros s HQ Hp; simpl in *; auto.
  intros s' Hs'. destruct (Hp s' Hs') as [HR Hk]. split; [done|]. apply IH; [|done].
  intros a s'' Hs''. apply HQ. etrans; [exact Hs'|]. by etrans.
Qed.

Lemma rg_bind {A B} (Q : A → S → Prop) (Q' : B → S → Prop) (p : Async S E A) f s :
  rg Q p s → (∀ a s', R s s' → Q a s' → rg Q' (f a) s') → rg Q' (p ≫= f) s.
Proof.
  unfold mbind, async_bind.
  revert s. induction p as [a|e|X op k IH]; intros s Hp Hf; simpl in *; [|done|].
  { apply Hf; [reflexivity | apply Hp; reflexivity]. }
  intros s' Hs'. destruct (Hp s' Hs') as [HR Hk]. split; [done|]. apply IH; [done|].
  intros a s'' Hs''. apply Hf. etrans; [exact Hs'|]. by etrans.
Qed.

Lemma rg_catch {A} (Q : A → S → Prop) (p : Async S E A) h s :
  rg Q p s → (∀ e s', R s s' → rg Q (h e) s') → rg Q (catch h p) s.
Proof.
  revert s. induction p as [a|e|X op k IH]; intros s Hp Hh; simpl in *; [done| |].
  { apply Hh. reflexivity. }
  intros s' Hs'. destruct (Hp s' Hs') as [HR Hk]. split; [done|]. apply IH; [done|].
  intros e s'' Hs''. apply Hh. etrans; [exact Hs'|]. by etrans.
Qed.

(** A computation known only to move the store along [R]. *)
Lemma rg_respects {A} (p : Async S E A) s : respects R p → rg (λ _ _, True) p s.
Proof.
  revert s. induction p as [a|e|X op k IH]; intros s Hp; simpl in *; auto.
  intros s' _. destruct (Hp s'). auto.
Qed.

(** One awaited operation. *)
Lemma rg_atomically {X} (Q : X → S → Prop) (op : S → X * S) s :
  (∀ s', R s s' → R s' (op s').2 ∧ ∀ s'', R (op s').2 s'' → Q (op s').1 s'') →
  rg Q (atomically op) s.
Proof. done. Qed.

Lemma rg_attempt {X} (Q : X → S → Prop) (op : S → outcome E X * S) s :
  (∀ s', R s s' → R s' (op s').2 ∧
     ∀ x s'', (op s').1 = Resolved x → R (op s').2 s'' → Q x s'') →
  rg Q (attempt op) s.
Proof.
  intros Hop s' Hs'. destruct (Hop s' Hs') as [HR HQ]. split; [done|].
  destruct (op s') as [[e|x] s1]; simpl in *; [done|]. intros s'' Hs''. by apply HQ.
Qed.

Lemma rg_reads {X} (Q : X → S → Prop) (f : S → X) s :
  (∀ s' s'', R s s' → R s' s'' → Q (f s') s'') → rg Q (reads f) s.
Proof. intros HQ s' Hs'. split; [reflexivity|]. intros s'' Hs''. by apply (HQ s'). Qed.

(** A whole run, with no interference. *)
Lemma rg_run {A} (Q : A → S → Prop) (p : Async S E A) s a s' :
  rg Q p s → run p s = (Resolved a, s') → R s s' ∧ Q a s'.
Proof.
  revert s. induction p as [b|e|X op k IH]; intros s Hp Hr; simpl in *; simplify_eq.
  - split; [reflexivity | by apply Hp].
  - destruct (Hp s) as [HR Hk]; [reflexivity|]. destruct (op s) as [x s1]; simpl in *.
    destruct (IH _ _ Hk Hr). split; [by etrans | done].
Qed.

(** Any interleaving: what each computation was proved to return holds. *)
Theorem pool_rg {A} (env : S → S → Prop) (adm : Async S E A → Prop) (Pre : S → Prop)
    (Q : A → S → Prop) c c' :
  (∀ s s', env s s' → R s s') →
  (∀ s s', R s s' → Pre s → Pre s') →
  (∀ p s, adm p → Pre s → rg Q p s) →
  rtc (pstep env adm) c c' → Pre c.2 → Forall (λ p, rg Q p c.2) c.1 →
  R c.2 c'.2 ∧ Forall (λ p, rg Q p c'.2) c'.1.
Proof.
  intros Henv HPre Hadm Hsteps. induction Hsteps as [c|c1 c2 c3 Hstep _ IH].
  - intros. split; [reflexivity | done].
  - intros Hp Hall. enough (R c1.2 c2.2 ∧ Forall (λ p, rg Q p c2.2) c2.1) as [H12 Hall2].
    { destruct IH as [H23 Hall3]; [by eapply HPre|done|]. split; [by etrans | done]. }
    destruct Hstep as [ps s i X op k x s' Hi Hop|ps s s' He|ps s p Hadmp]; simpl in *.
    + pose proof (proj1 (Forall_lookup _ _) Hall _ _ Hi s) as [HR Hk]; [reflexivity|].
      rewrite Hop in HR, Hk. split; [done|]. apply Forall_insert; [|done].
      eapply Forall_impl; [exact Hall|]. intros q. by apply rg_stable.
    + split; [by apply Henv|]. eapply Forall_impl; [exact Hall|].
      intros q. apply rg_stable. by apply Henv.
    + split; [reflexivity|]. apply Forall_app_2; auto.
Qed.

(** ... in particular of the values returned so far. *)
Corollary pool_rg_values {A} (env : S → S → Prop) (adm : Async S E A → Prop) (Pre : S → Prop)
    (Q : A → S → Prop) c c' a :
  (∀ s s', env s s' → R s s') →
  (∀ s s', R s s' → Pre s → Pre s') →
  (∀ p s, adm p → Pre s → rg Q p s) →
  rtc (pstep env adm) c c' → Pre c.2 → Forall adm c.1 → Ret a ∈ c'.1 → Q a c'.2.
Proof.
  intros Henv HPre Hadm Hsteps Hp Hall Ha.
  destruct (pool_rg env adm Pre Q c c') as [_ Hall']; [done..| |].
  - eapply Forall_impl; [exact Hall|]. auto.
  - rewrite Forall_forall in Hall'. apply (Hall' _ Ha). reflexivity.
Qed.
End rely_guarantee.

(** * Counting successes across interleavings

    [earns I c Q n p]: started with [n] increments of the counter [c] to its
    credit, the computation keeps the invariant [I], only ever lets [c] grow,
    and every value it returns satisfies [Q] of its credit at that point. *)

Section earns.
Context {S E : Type} (I : S → Prop) (c : S → nat).

Fixpoint earns {A} (Q : nat → A → Prop) (n : nat) (p : Async S E A) : Prop :=
  match p with
  | Ret a => Q n a
  | Throw _ => True
  | Await op k => ∀ s, I s → I (op s).2 ∧ c s ≤ c (op s).2 ∧
                             earns Q (n + (c (op s).2 - c s)) (k (op s).1)
  end.

Lemma earns_mono {A} (Q Q' : nat → A → Prop) n p :
  (∀ m a, n ≤ m → Q m a → Q' m a) → earns Q n p → earns Q' n p.
Proof.
  revert n. induction p as [a|e|X op k IH]; intros n HQ Hp; simpl in *; auto.
  intros s HI. destruct (Hp s HI) as (HI' & Hc & Hk). split; [done|].
  split; [done|]. apply IH; [|done]. intros m a Hm. apply HQ. lia.
Qed.

Lemma earns_bind {A B} (Q : nat → B → Prop) n (p : Async S E A) f :
  earns (λ m a, earns Q m (f a)) n p → earns Q n (p ≫= f).
Proof.
  unfold mbind, async_bind.
  revert n. induction p as [a|e|X op k IH]; intros n Hp; simpl in *; auto.
  intros s HI. destruct (Hp s HI) as (? & ? & ?). auto.
Qed.

Lemma earns_catch {A} (Q : nat → A → Prop) n (p : Async S E A) h :
  earns Q n p → (∀ m e, earns Q m (h e)) → earns Q n (catch h p).
Proof.
  revert n. induction p as [a|e|X op k IH]; intros n Hp Hh; simpl in *; auto.
  intros s HI. destruct (Hp s HI) as (? & ? & ?). auto.
Qed.

(** One awaited operation. *)
Lemma earns_atomically {X} (Q : nat → X → Prop) n (op : S → X * S) :
  (∀ s, I s → I (op s).2 ∧ c s ≤ c (op s).2 ∧
              Q (n + (c (op s).2 - c s)) (op s).1) →
  earns Q n (atomically op).
Proof. done. Qed.

Lemma earns_attempt {X} (Q : nat → X → Prop) n (op : S → outcome E X * S) :
  (∀ s, I s → I (op s).2 ∧ c s ≤ c (op s).2 ∧
              ∀ x, (op s).1 = Resolved x → Q (n + (c (op s).2 - c s)) x) →
  earns Q n (attempt op).
Proof.
  intros Hop s HI. destruct (Hop s HI) as (? & ? & HQ).
  split; [done|]. split; [done|]. destruct (op s) as [[e|x] s']; simpl; auto.
Qed.

(** Computations that touch neither the invariant nor the counter. *)
Lemma earns_keeps {A T} (view : S → T) (Q : nat → A → Prop) n (p : Async S E A) :
  (∀ s s', view s' = view s → c s' = c s ∧ (I s → I s')) →
  keeps view p → (∀ a, Q n a) → earns Q n p.
Proof.
  intros Hview Hp HQ. induction p as [a|e|X op k IH]; simpl in *; auto.
  intros s HI. destruct (Hp s) as [Hs Hk]. apply Hview in Hs as [Hc HI'].
  split; [auto|]. split; [lia|]. rewrite Hc, Nat.sub_diag, Nat.add_0_r. auto.
Qed.

(** Computations that may move the counter, whatever they return. *)
Lemma earns_respects {A} (Q : nat → A → Prop) n (p : Async S E A) :
  respects (λ s s', I s → I s' ∧ c s ≤ c s') p →
  (∀ m a, n ≤ m → Q m a) → earns Q n p.
Proof.
  revert n. induction p as [a|e|X op k IH]; intros n Hp HQ; simpl in *; auto.
  intros s HI. destruct (Hp s) as [Hs Hk]. destruct (Hs HI) as [HI' Hc].
  split; [done|]. split; [done|]. apply IH; [done|]. intros. apply HQ. lia.
Qed.

Context {A : Type} (win : A → bool).

Definition earned (n : nat) (a : A) : Prop := win a = true → 1 ≤ n.

Definition won (p : Async S E A) : nat :=
  match p with Ret a => if win a then 1 else 0 | _ => 0 end.

Definition winners (ps : list (Async S E A)) : nat := sum_list_with won ps.

Lemma won_le_owed owed ps :
  Forall2 (earns earned) owed ps → winners ps ≤ sum_list_with id owed.
Proof.
  induction 1 as [|n p owed ps Hp _ IH]; [done|].
  unfold winners in *. simpl in *. enough (won p ≤ n) by lia.
  destruct p as [a| |]; simpl in *; try lia.
  unfold earned in Hp. destruct (win a); [auto | lia].
Qed.

Lemma sum_list_with_insert (l : list nat) i x y :
  l !! i = Some x →
  sum_list_with id (<[i := y]> l) + x = sum_list_with id l + y.
Proof.
  revert i. induction l as [|z l IH]; intros [|i] Hi; simplify_eq/=; [lia|].
  unfold id in *. specialize (IH _ Hi). lia.
Qed.

Lemma pool_owed (env : S → S → Prop) (adm : Async S E A → Prop) c0 cf cf' :
  (∀ s s', env s s' → I s → I s' ∧ c s ≤ c s') →
  (∀ p, adm p → earns earned 0 p) →
  rtc (pstep env adm) cf cf' → I cf.2 →
  (∃ owed, Forall2 (earns earned) owed cf.1 ∧ sum_list_with id owed + c0 ≤ c cf.2) →
  winners cf'.1 + c0 ≤ c cf'.2 ∧ I cf'.2.
Proof.
  intros Henv Hadm Hsteps.
  induction Hsteps as [cf|cf1 cf2 cf3 Hstep _ IH]; intros HI (owed & Howed & Hsum).
  - pose proof (won_le_owed _ _ Howed). split; [lia | done].
  - destruct Hstep as [ps s i X op k x s' Hi Hop|ps s s' He|ps s p Hp]; simpl in *.
    + destruct (Forall2_lookup_r _ _ _ _ _ Howed Hi) as (n & Hn & Hp).
      destruct (Hp s HI) as (HI' & Hc & Hk). rewrite Hop in HI', Hc, Hk.
      simpl in *. apply IH; [done|].
      exists (<[i := n + (c s' - c s)]> owed). split.
      * by apply Forall2_insert.
      * pose proof (sum_list_with_insert owed i n (n + (c s' - c s)) Hn). lia.
    + destruct (Henv _ _ He HI) as [HI' Hc]. apply IH; [done|].
      exists owed. split; [done|lia].
    + apply IH; [done|]. exists (owed ++ [0]). split.
      * apply Forall2_app; [done|]. constructor; [auto|constructor].
      * rewrite sum_list_with_app. simpl. lia.
Qed.

(** Across any interleaving of computations that each earn what they win,
    there are at most as many winners as increments of the counter. *)
Theorem pool_winners (env : S → S → Prop) (adm : Async S E A → Prop) cf cf' :
  (∀ s s', env s s' → I s → I s' ∧ c s ≤ c s') →
  (∀ p, adm p → earns earned 0 p) →
  rtc (pstep env adm) cf cf' → I cf.2 → Forall (earns earned 0) cf.1 →
  winners cf'.1 + c cf.2 ≤ c cf'.2 ∧ I cf'.2.
Proof.
  intros Henv Hadm Hsteps HI Hall. eapply pool_owed; eauto.
  exists (replicate (length cf.1) 0). clear Hsteps HI.
  induction Hall as [|p ps Hp _ (IH1 & IH2)]; simpl; [by split; [constructor|]|].
  split; [by constructor | done].
Qed.
End earns.
