(* ===== verification/JsString.v ===== *)
(** The string operations of the language that the program uses.

    A JavaScript string is modelled by the string of its code units below
    256: [s.split(/\s+/)], [toLowerCase], [startsWith], [includes], [join],
    [slice] and the character classes of the program's regular
    expressions. *)
From S2P Require Import Prelude.
From stdpp Require Import base strings list.
From Stdlib Require Import ZArith Ascii String.
Local Open Scope string_scope.
Local Open Scope nat_scope.

Definition code (c : ascii) : nat := nat_of_ascii c.

Definition in_range (lo hi : ascii) (c : ascii) : bool :=
  (code lo <=? code c) && (code c <=? code hi).

(** [\s] (restricted to code units below 256). *)
Definition is_space (c : ascii) : bool :=
  ((9 <=? code c) && (code c <=? 13)) || (code c =? 32) || (code c =? 160).

Definition is_digit : ascii → bool := in_range "0" "9".
Definition is_lower : ascii → bool := in_range "a" "z".
Definition is_upper : ascii → bool := in_range "A" "Z".
Definition is_hex (c : ascii) : bool :=
  is_digit c || in_range "a" "f" c || in_range "A" "F" c.
(** [\w] *)
Definition is_word (c : ascii) : bool :=
  is_digit c || is_lower c || is_upper c || (code c =? 95).

Fixpoint all_chars (p : ascii → bool) (s : string) : bool :=
  match s with "" => true | String c s => p c && all_chars p s end.

Fixpoint some_char (p : ascii → bool) (s : string) : bool :=
  match s with "" => false | String c s => p c || some_char p s end.

Definition starts_with (s prefix : string) : bool := String.prefix prefix s.

(** [s.includes(sub)] on strings. *)
Fixpoint str_includes (s sub : string) : bool :=
  starts_with s sub ||
  match s with "" => false | String _ s => str_includes s sub end.

(** [s.slice(n)] for [0 <= n]. *)
Fixpoint slice_from (n : nat) (s : string) : string :=
  match n, s with
  | 0, _ => s
  | S n, String _ s => slice_from n s
  | S _, "" => ""
  end.

(** [s.slice(0, n)] for [0 <= n]. *)
Fixpoint slice_to (n : nat) (s : string) : string :=
  match n, s with
  | S n, String c s => String c (slice_to n s)
  | _, _ => ""
  end.

Definition lower_char (c : ascii) : ascii :=
  if is_upper c || ((192 <=? code c) && (code c <=? 222) && negb (code c =? 215))
  then ascii_of_nat (code c + 32) else c.

Fixpoint to_lower (s : string) : string :=
  match s with "" => "" | String c s => String (lower_char c) (to_lower s) end.

(** [parts.join(sep)] *)
Definition js_join (sep : string) (parts : list string) : string :=
  String.concat sep parts.

(** [s.split(/\s+/)]: pieces between maximal runs of white space, with an
    empty first or last piece when the string starts or ends with one. *)
Fixpoint split_ws (s : string) : list string :=
  match s with
  | "" => [""]
  | String c s' =>
      if is_space c then
        match s' with
        | String c' _ => if is_space c' then split_ws s' else "" :: split_ws s'
        | "" => "" :: split_ws s'
        end
      else
        match split_ws s' with
        | w :: ws => String c w :: ws
        | [] => [String c ""]
        end
  end.

(** [s.split(/\s+/).filter(Boolean)]: the entries of a scope string. *)
Definition scope_list (s : string) : list string :=
  filter (λ w, w ≠ "") (split_ws s).

(** [s.split(sep)] for a one-character separator. *)
Fixpoint split_on (sep : ascii) (s : string) : list string :=
  match s with
  | "" => [""]
  | String c s' =>
      if Ascii.eqb c sep then "" :: split_on sep s'
      else match split_on sep s' with
           | w :: ws => String c w :: ws
           | [] => [String c ""]
           end
  end.

(** A non-empty word without white space: an entry of a scope list. *)
Definition plain (w : string) : Prop :=
  w ≠ "" ∧ all_chars (λ c, negb (is_space c)) w = true.

(** Decidable membership, [xs.includes(x)] on arrays. *)
Definition includes (xs : list string) (x : string) : bool :=
  bool_decide (x ∈ xs).

Lemma includes_spec xs x : includes xs x = true ↔ x ∈ xs.
Proof. apply bool_decide_eq_true. Qed.

(** A string used as a condition: [undefined], [null] and the empty string
    are false. *)
Definition truthy (s : option string) : option string :=
  match s with Some "" => None | _ => s end.

(** The value of a string of decimal digits; [None] for any other string. *)
Fixpoint decimal_from (acc : Z) (s : string) : option Z :=
  match s with
  | "" => Some acc
  | String c s =>
      if is_digit c then decimal_from (acc * 10 + (Z.of_nat (code c) - 48))%Z s else None
  end.
Definition decimal (s : string) : option Z := decimal_from 0 s.

(** [s.trim()] *)
Fixpoint trim_start (s : string) : string :=
  match s with
  | String c rest => if is_space c then trim_start rest else s
  | EmptyString => EmptyString
  end.
Fixpoint trim_end (s : string) : string :=
  match s with
  | EmptyString => EmptyString
  | String c rest =>
      match trim_end rest with
      | EmptyString => if is_space c then EmptyString else String c EmptyString
      | rest' => String c rest'
      end
  end.
Definition js_trim (s : string) : string := trim_end (trim_start s).

(** * Lemmas *)

Example split_ws_ex : split_ws "  a  bc " = [""; "a"; "bc"; ""].
Proof. reflexivity. Qed.
Example scope_list_ex : scope_list " openid  email" = ["openid"; "email"].
Proof. reflexivity. Qed.

Lemma split_ws_nonempty s : split_ws s ≠ [].
Proof.
  induction s as [|c s IH]; simpl; [done|].
  destruct (is_space c).
  - destruct s as [|c' s]; [done|]. by destruct (is_space c').
  - by destruct (split_ws s).
Qed.

Lemma split_ws_no_space s w :
  w ∈ split_ws s → all_chars (λ c, negb (is_space c)) w = true.
Proof.
  revert w. induction s as [|c s IH]; intros w Hw.
  - simpl in Hw. apply list_elem_of_singleton in Hw as ->. done.
  - simpl in Hw. destruct (is_space c) eqn:Hc.
    + assert (w = "" ∨ w ∈ split_ws s) as [->|Hw']; [|done|auto].
      destruct s as [|c' s']; [apply elem_of_cons in Hw; tauto|].
      destruct (is_space c'); [by right | apply elem_of_cons in Hw; tauto].
    + destruct (split_ws s) as [|w0 ws] eqn:E.
      * by destruct (split_ws_nonempty s).
      * apply elem_of_cons in Hw as [->|Hw].
        -- simpl. rewrite Hc. simpl. apply IH. by left.
        -- apply IH. by right.
Qed.

Lemma scope_list_plain s w : w ∈ scope_list s → plain w.
Proof.
  unfold scope_list. rewrite list_elem_of_filter. intros [Hne Hw].
  split; [done|]. by eapply split_ws_no_space.
Qed.

(** A word followed by a separator is the first entry. *)
Lemma split_ws_word w s :
  all_chars (λ c, negb (is_space c)) w = true →
  split_ws (w +:+ s) =
    match split_ws s with w' :: ws => (w +:+ w') :: ws | [] => [] end.
Proof.
  induction w as [|c w IH]; simpl; intros Hw.
  - by destruct (split_ws s) eqn:E; [destruct (split_ws_nonempty s)|].
  - apply andb_prop in Hw as [Hc Hw]. apply negb_true_iff in Hc.
    rewrite Hc. unfold String.app in *. rewrite IH by done.
    destruct (split_ws s) eqn:E; [by destruct (split_ws_nonempty s)|done].
Qed.

Lemma split_ws_space s :
  (∀ c s', s = String c s' → is_space c = false) →
  split_ws (String " " s) = "" :: split_ws s.
Proof.
  intros Hs. destruct s as [|c s]; [done|].
  specialize (Hs c s eq_refl). simpl. by rewrite Hs.
Qed.

Lemma truthy_some v s : truthy v = Some s → v = Some s ∧ s ≠ "".
Proof. by destruct v as [[|c v]|]; intros [= <-]. Qed.

Lemma truthy_nonempty s : s ≠ "" → truthy (Some s) = Some s.
Proof. by destruct s. Qed.

Lemma app_empty_r s : s +:+ "" = s.
Proof. induction s as [|c s IH]; simpl; [done|]. unfold String.app in *. by rewrite IH. Qed.

(** A property of characters is checked on all of them. *)
Lemma ascii_forall (p : ascii → bool) :
  forallb (λ n, p (ascii_of_nat n)) (seq 0 256) = true → ∀ c, p c = true.
Proof.
  intros H c. rewrite forallb_forall in H. rewrite <- (ascii_nat_embedding c). apply H, in_seq.
  pose proof (nat_ascii_bounded c). lia.
Qed.

Lemma string_assoc (a b c : string) : (a +:+ b) +:+ c = a +:+ b +:+ c.
Proof. induction a as [|x a IH]; [done|]. change (String x ((a +:+ b) +:+ c) = String x (a +:+ b +:+ c)). by rewrite IH. Qed.

Lemma string_app_cons c s s' : String c s +:+ s' = String c (s +:+ s').
Proof. done. Qed.

Lemma join_cons2 sep w w' ws :
  js_join sep (w :: w' :: ws) = w +:+ sep +:+ js_join sep (w' :: ws).
Proof. done. Qed.

Lemma plain_head w : plain w → ∀ c s', w = String c s' → is_space c = false.
Proof.
  intros [_ Hw] c s' ->. simpl in Hw. apply andb_prop in Hw as [Hw _].
  by apply negb_true_iff.
Qed.

Lemma plain_join_head w ws :
  plain w → ∀ c s', js_join " " (w :: ws) = String c s' → is_space c = false.
Proof.
  intros Hw c s' Hj. destruct w as [|c0 w]; [by destruct Hw|].
  pose proof (plain_head _ Hw c0 w eq_refl) as Hc0.
  destruct ws as [|w' ws]; injection Hj as <- _; done.
Qed.

Lemma split_ws_join ws :
  ws ≠ [] → Forall plain ws → split_ws (js_join " " ws) = ws.
Proof.
  induction ws as [|w ws IH]; [done|]. intros _ Hall.
  apply Forall_cons in Hall as [Hw Hws].
  destruct ws as [|w' ws].
  - unfold js_join. simpl. rewrite <- (app_empty_r w) at 1.
    rewrite split_ws_word by apply Hw. simpl. by rewrite app_empty_r.
  - rewrite join_cons2, split_ws_word by apply Hw.
    change (" " +:+ js_join " " (w' :: ws)) with (String " " (js_join " " (w' :: ws))).
    apply Forall_cons in Hws as Hws'. destruct Hws' as [Hw' _].
    rewrite split_ws_space by by apply plain_join_head.
    rewrite IH by done. by rewrite app_empty_r.
Qed.

(** Printing a list of scopes and reading it back gives the same list. *)
Lemma scope_list_join ws : Forall plain ws → scope_list (js_join " " ws) = ws.
Proof.
  intros Hws. destruct ws as [|w ws]; [done|].
  unfold scope_list. rewrite split_ws_join by done.
  induction Hws as [|w' ws' [Hne _] _ IH]; [done|].
  rewrite filter_cons_True by done. by f_equal.
Qed.

Lemma Forall_plain_scope_list s : Forall plain (scope_list s).
Proof. apply Forall_forall. intros w. apply scope_list_plain. Qed.

Lemma lower_char_idem c : lower_char (lower_char c) = lower_char c.
Proof. destruct c as [[] [] [] [] [] [] [] []]; reflexivity. Qed.

Lemma to_lower_idem s : to_lower (to_lower s) = to_lower s.
Proof. induction s as [|c s IH]; simpl; [done|]. by rewrite lower_char_idem, IH. Qed.

Lemma slice_from_app p s : slice_from (String.length p) (p +:+ s) = s.
Proof. induction p as [|c p IH]; simpl; [done|]. unfold String.app in *. by rewrite IH. Qed.

Lemma starts_with_app p s : starts_with (p +:+ s) p = true.
Proof.
  unfold starts_with. induction p as [|c p IH]; simpl; [by destruct s|].
  destruct (ascii_dec c c); [done|congruence].
Qed.

Lemma all_chars_app p s s' :
  all_chars p (s +:+ s') = all_chars p s && all_chars p s'.
Proof.
  induction s as [|c s IH]; simpl; [done|]. unfold String.app in *.
  by rewrite IH, andb_assoc.
Qed.

Lemma all_chars_slice_to p n s : all_chars p s = true → all_chars p (slice_to n s) = true.
Proof.
  revert s. induction n as [|n IH]; intros [|c s]; simpl; try done.
  rewrite !andb_true_iff. intros [Hc Hs]. auto.
Qed.

(** Splitting undoes joining, when the separator occurs in no part. *)
Lemma split_on_none sep s :
  all_chars (λ c, negb (Ascii.eqb c sep)) s = true → split_on sep s = [s].
Proof.
  induction s as [|c s IH]; simpl; [done|]. intros [Hc Hs]%andb_true_iff.
  apply negb_true_iff in Hc. by rewrite Hc, (IH Hs).
Qed.

Lemma split_on_app sep s rest :
  all_chars (λ c, negb (Ascii.eqb c sep)) s = true →
  split_on sep (s +:+ String sep rest) = s :: split_on sep rest.
Proof.
  induction s as [|c s IH]; simpl; [by rewrite Ascii.eqb_refl|].
  intros [Hc Hs]%andb_true_iff. apply negb_true_iff in Hc. rewrite Hc.
  unfold String.app in *. by rewrite (IH Hs).
Qed.

Lemma split_on_join sep s parts :
  Forall (λ p, all_chars (λ c, negb (Ascii.eqb c sep)) p = true) (s :: parts) →
  split_on sep (js_join (String sep "") (s :: parts)) = s :: parts.
Proof.
  revert s. induction parts as [|t parts IH]; intros s Hall.
  - apply Forall_cons in Hall as [Hs _]. by apply split_on_none.
  - apply Forall_cons in Hall as [Hs Hall].
    change (js_join (String sep "") (s :: t :: parts))
      with (s +:+ String sep (js_join (String sep "") (t :: parts))).
    by rewrite split_on_app, IH.
Qed.

Lemma all_chars_impl (p q : ascii → bool) s :
  (∀ c, p c = true → q c = true) → all_chars p s = true → all_chars q s = true.
Proof.
  intros Hpq. induction s as [|c s IH]; simpl; [done|]. intros [Hc Hs]%andb_true_iff. by rewrite Hpq, IH.
Qed.

(** A string whose pieces are made of some characters. *)
Lemma split_on_chars (p : ascii → bool) sep s :
  forallb (all_chars p) (split_on sep s) = true →
  all_chars (λ c, p c || Ascii.eqb c sep) s = true.
Proof.
  induction s as [|c s IH]; simpl; [done|]. destruct (Ascii.eqb c sep).
  - rewrite orb_true_r. exact IH.
  - destruct (split_on sep s) as [|w ws]; simpl in *.
    + intros [[-> _]%andb_true_iff _]%andb_true_iff. by apply IH.
    + intros [[-> Hw]%andb_true_iff Hws]%andb_true_iff. apply IH. by rewrite Hw, Hws.
Qed.

(** Nothing is trimmed from a word. *)
Definition no_blank (c : ascii) : bool := negb (is_space c).

Lemma js_trim_word s : all_chars no_blank s = true → js_trim s = s.
Proof.
  assert (Hend : ∀ s, all_chars no_blank s = true → trim_end s = s).
  { clear s. induction s as [|c s IH]; simpl; [done|]. intros [Hc%negb_true_iff Hs]%andb_true_iff.
    rewrite IH, Hc by done. by destruct s. }
  intros Hs. unfold js_trim. replace (trim_start s) with s; [by apply Hend|].
  destruct s as [|c s]; [done|]. simpl in *. apply andb_true_iff in Hs as [Hc%negb_true_iff _]. by rewrite Hc.
Qed.

Lemma string_leb_trans a b c :
  String.leb a b = true → String.leb b c = true → String.leb a c = true.
Proof.
  unfold String.leb. revert b c. induction a as [|x a IH]; intros [|y b] [|z c]; simpl; try done.
  specialize (IH b c). unfold Ascii.compare.
  destruct (N.compare_spec (N_of_ascii x) (N_of_ascii y)) as [Exy|Lxy|Lyx];
    destruct (N.compare_spec (N_of_ascii y) (N_of_ascii z)) as [Eyz|Lyz|Lzy]; try done;
    destruct (N.compare_spec (N_of_ascii x) (N_of_ascii z)); try done; lia.
Qed.
