(* ===== verification/Numbers.v ===== *)
(** The numbers of the language: [Number(s)] on a string, with the rounding to
    double precision, and the decimal digits [String(n)] writes. *)
From S2P Require Import Prelude JsString.
From stdpp Require Import base strings list pretty.
From Stdlib Require Import ZArith Ascii Lia.
Local Open Scope string_scope.
Local Open Scope list_scope.
Local Open Scope Z_scope.

(** * Double precision *)

(** [Finite m e] is m * 2^e. *)
Inductive JsNumber : Type :=
  | NotANumber
  | Infinity (negative : bool)
  | Finite (m e : Z).

Definition floor_log2 (num den : Z) : Z :=
  let l := Z.log2 num - Z.log2 den in
  if num * 2 ^ Z.max 0 (- l) <? den * 2 ^ Z.max 0 l then l - 1 else l.

Definition round_half_even (n d : Z) : Z :=
  let q := n / d in
  let r := n mod d in
  if (2 * r <? d) || ((2 * r =? d) && Z.even q) then q else q + 1.

(** The double next to [num / den], for 0 <= num and 0 < den. *)
Definition to_double (num den : Z) : JsNumber :=
  if num =? 0 then Finite 0 0
  else
    let e := Z.max (-1074) (floor_log2 num den - 52) in
    let m := round_half_even (num * 2 ^ Z.max 0 (- e)) (den * 2 ^ Z.max 0 e) in
    if (0 <=? e) && (2 ^ 1024 <=? m * 2 ^ e) then Infinity false else Finite m e.

Definition negate (x : JsNumber) : JsNumber :=
  match x with
  | NotANumber => NotANumber
  | Infinity n => Infinity (negb n)
  | Finite m e => Finite (- m) e
  end.

(** [Number.isInteger(x)], and which. *)
Definition integer_value (x : JsNumber) : option Z :=
  match x with
  | Finite m e =>
      if 0 <=? e then Some (m * 2 ^ e)
      else if m mod 2 ^ (- e) =? 0 then Some (m / 2 ^ (- e)) else None
  | _ => None
  end.

(** * Numerals *)

Definition digit_value (c : ascii) : Z := Z.of_nat (code c) - 48.

(** The digits at the front: their number, their value, what follows. *)
Fixpoint digits (acc : Z) (count : nat) (s : string) : Z * nat * string :=
  match s with
  | String c rest => if is_digit c then digits (acc * 10 + digit_value c) (S count) rest else (acc, count, s)
  | EmptyString => (acc, count, s)
  end.

Definition hex_digit_value (c : ascii) : option Z :=
  if is_digit c then Some (digit_value c)
  else if in_range "a" "f" c then Some (Z.of_nat (code c) - 87)
  else if in_range "A" "F" c then Some (Z.of_nat (code c) - 55)
  else None.

Fixpoint based (base acc : Z) (s : string) : option Z :=
  match s with
  | EmptyString => Some acc
  | String c rest =>
      match hex_digit_value c with
      | Some d => if d <? base then based base (acc * base + d) rest else None
      | None => None
      end
  end.

(** A literal with a prefix: at least one digit, no sign. *)
Definition prefixed (base : Z) (s : string) : JsNumber :=
  match s with
  | EmptyString => NotANumber
  | _ => match based base 0 s with Some n => to_double n 1 | None => NotANumber end
  end.

(** [+], [-] or nothing. *)
Definition signed (s : string) : bool * string :=
  match s with
  | String "-" rest => (true, rest)
  | String "+" rest => (false, rest)
  | _ => (false, s)
  end.

(** The exponent part: empty, or [e] with a signed sequence of digits. *)
Definition exponent_part (s : string) : option Z :=
  match s with
  | EmptyString => Some 0
  | String c rest =>
      if Ascii.eqb c "e" || Ascii.eqb c "E" then
        let '(neg, body) := signed rest in
        match digits 0 0 body with
        | (n, S _, EmptyString) => Some (if neg : bool then - n else n)
        | _ => None
        end
      else None
  end.

Definition fraction_part (acc : Z) (s : string) : Z * nat * string :=
  match s with
  | String "." rest => digits acc 0 rest
  | _ => (acc, 0%nat, s)
  end.

(** digits, an optional fraction, an optional exponent. *)
Definition decimal_literal (s : string) : JsNumber :=
  let '(whole, n, rest) := digits 0 0 s in
  let '(m, k, rest') := fraction_part whole rest in
  match exponent_part rest' with
  | Some e =>
      if (n + k =? 0)%nat then NotANumber
      else
        let scale := e - Z.of_nat k in
        to_double (m * 10 ^ Z.max 0 scale) (10 ^ Z.max 0 (- scale))
  | None => NotANumber
  end.

Definition unsigned_literal (s : string) : JsNumber :=
  if String.eqb s "Infinity" then Infinity false else decimal_literal s.

(** [Number(s)] *)
Definition js_Number (s : string) : JsNumber :=
  match js_trim s with
  | EmptyString => Finite 0 0
  | String "0" (String c rest) as t =>
      if Ascii.eqb c "x" || Ascii.eqb c "X" then prefixed 16 rest
      else if Ascii.eqb c "o" || Ascii.eqb c "O" then prefixed 8 rest
      else if Ascii.eqb c "b" || Ascii.eqb c "B" then prefixed 2 rest
      else unsigned_literal t
  | t =>
      let '(neg, body) := signed t in
      if neg : bool then negate (unsigned_literal body) else unsigned_literal body
  end.

Example number_plain : integer_value (js_Number "900") = Some 900. Proof. reflexivity. Qed.
Example number_blank : integer_value (js_Number "  ") = Some 0. Proof. reflexivity. Qed.
Example number_exponent : integer_value (js_Number " 1.5e3 ") = Some 1500. Proof. reflexivity. Qed.
Example number_hex : integer_value (js_Number "0x1F") = Some 31. Proof. reflexivity. Qed.
Example number_half : js_Number "2.5" = Finite (5 * 2 ^ 50) (-51). Proof. reflexivity. Qed.
Example number_rounds : integer_value (js_Number "1.00000000000000000001") = Some 1. Proof. reflexivity. Qed.
Example number_not : js_Number "15m" = NotANumber. Proof. reflexivity. Qed.
Example number_sign_hex : js_Number "-0x1F" = NotANumber. Proof. reflexivity. Qed.
Example number_huge : js_Number "1e400" = Infinity false. Proof. reflexivity. Qed.
Example number_even : integer_value (js_Number "9007199254740993") = Some 9007199254740992.
Proof. reflexivity. Qed.

(** * Integers up to 2^53 are exact *)

Lemma floor_log2_integer n : 0 < n → floor_log2 n 1 = Z.log2 n.
Proof.
  intros Hn. unfold floor_log2. rewrite Z.sub_0_r.
  pose proof (Z.log2_nonneg n). rewrite Z.max_l, Z.max_r by lia.
  pose proof (Z.log2_spec n Hn) as [Hlo _].
  destruct (Z.ltb_spec (n * 2 ^ 0) (1 * 2 ^ Z.log2 n)); lia.
Qed.

Lemma round_half_even_exact n : round_half_even n 1 = n.
Proof. unfold round_half_even. rewrite Z.div_1_r, Z.mod_1_r. reflexivity. Qed.

Lemma to_double_exact n : 0 <= n < 2 ^ 53 → integer_value (to_double n 1) = Some n.
Proof.
  intros Hn. unfold to_double. destruct (Z.eqb_spec n 0) as [->|Hz]; [done|].
  rewrite floor_log2_integer by lia.
  assert (Z.log2 n <= 52) as Hl.
  { apply Z.lt_succ_r. apply Z.log2_lt_pow2; lia. }
  pose proof (Z.log2_nonneg n). rewrite (Z.max_r (-1074)) by lia.
  set (k := 52 - Z.log2 n). replace (Z.log2 n - 52) with (- k) by lia.
  rewrite Z.opp_involutive, Z.max_r, Z.max_l by lia. rewrite Z.mul_1_l, Z.pow_0_r.
  rewrite round_half_even_exact.
  destruct (Z.leb_spec 0 (- k)) as [Hk|Hk]; cbn [andb].
  - assert (k = 0) as -> by lia. rewrite Z.pow_0_r, !Z.mul_1_r.
    destruct (Z.leb_spec (2 ^ 1024) n) as [Hb|Hb]; [|cbn; by rewrite Z.mul_1_r].
    assert (2 ^ 53 < 2 ^ 1024) by (by apply Z.pow_lt_mono_r). lia.
  - unfold integer_value. destruct (Z.leb_spec 0 (- k)); [lia|].
    rewrite Z.opp_involutive, Z.mod_mul, Z.div_mul by (apply Z.pow_nonzero; lia). done.
Qed.

(** * What [String(n)] writes is read back *)

Lemma pretty_digit_ok x : (x < 10)%N →
  is_digit (pretty_N_char x) = true ∧ digit_value (pretty_N_char x) = Z.of_N x.
Proof.
  intros. assert (x = 0 ∨ x = 1 ∨ x = 2 ∨ x = 3 ∨ x = 4 ∨ x = 5 ∨ x = 6 ∨ x = 7 ∨ x = 8 ∨ x = 9)%N as Hx by lia.
  destruct Hx as [->|[->|[->|[->|[->|[->|[->|[->|[->| ->]]]]]]]]]; split; reflexivity.
Qed.

Lemma digits_pretty_go x : ∀ s count, ∃ count', (count <= count')%nat ∧ (x ≠ 0%N → (count < count')%nat) ∧
  digits 0 count (pretty_N_go x s) = digits (Z.of_N x) count' s ∧
  all_chars is_digit (pretty_N_go x s) = all_chars is_digit s.
Proof.
  induction (N.lt_wf_0 x) as [x _ IH]. intros s count.
  destruct (decide (x = 0%N)) as [->|Hx]; [by exists count|].
  rewrite !pretty_N_go_step by lia.
  destruct (pretty_digit_ok (x mod 10)) as [Hd Hv]; [by apply N.mod_lt|].
  destruct (IH (x / 10)%N ltac:(by apply N.div_lt; lia) (String (pretty_N_char (x mod 10)) s) count)
    as (count' & Hle & _ & Heq & Hall).
  exists (S count'). split_and!; [lia|lia| |].
  - rewrite Heq. simpl. rewrite Hd, Hv. f_equal.
    rewrite (N.div_mod x 10) at 3 by done. lia.
  - rewrite Hall. simpl. by rewrite Hd.
Qed.

Lemma pretty_N_digits n : ∃ count, digits 0 0 (pretty n) = (Z.of_N n, S count, "") ∧
  all_chars is_digit (pretty n) = true.
Proof.
  unfold pretty, pretty_N. destruct (decide (n = 0%N)) as [->|Hn]; [by exists 0%nat|].
  destruct (digits_pretty_go n "" 0) as ([|count] & _ & Hlt & Hd & Ha); [specialize (Hlt Hn); lia|].
  exists count. rewrite Hd, Ha. done.
Qed.

Lemma digit_not_space c : is_digit c = true → is_space c = false.
Proof.
  unfold is_digit, is_space, in_range. intros H. apply andb_prop in H as [H1 H2].
  apply Nat.leb_le in H1, H2. change (code "0") with 48%nat in H1. change (code "9") with 57%nat in H2.
  apply orb_false_intro; [apply orb_false_intro|];
    [apply andb_false_iff; right; apply Nat.leb_gt|apply Nat.eqb_neq..]; lia.
Qed.

Lemma js_trim_digits s : all_chars is_digit s = true → js_trim s = s.
Proof.
  intros Hs. apply js_trim_word. apply (all_chars_impl is_digit); [|done].
  intros c Hc. unfold no_blank. by rewrite digit_not_space.
Qed.

(** A sequence of digits is its decimal value, rounded. *)
Lemma js_Number_digits s n count :
  all_chars is_digit s = true → digits 0 0 s = (n, S count, "") → js_Number s = to_double n 1.
Proof.
  intros Ha Hd.
  assert (unsigned_literal s = to_double n 1) as Hu.
  { unfold unsigned_literal. destruct (String.eqb_spec s "Infinity") as [->|]; [done|].
    unfold decimal_literal. rewrite Hd. simpl. by rewrite Z.mul_1_r. }
  unfold js_Number. rewrite js_trim_digits by done.
  destruct s as [|c s]; [done|]. simpl in Ha. apply andb_prop in Ha as [Hc Ha].
  destruct c as [[] [] [] [] [] [] [] []]; try discriminate Hc; try exact Hu.
  destruct s as [|c' s]; [exact Hu|]. simpl in Ha. apply andb_prop in Ha as [Hc' _].
  assert (∀ d, is_digit d = false → Ascii.eqb c' d = false) as Hne.
  { intros d Hd'. apply Ascii.eqb_neq. intros ->. congruence. }
  rewrite !Hne by done. exact Hu.
Qed.

(** [Number(String(n)) === n] *)
Lemma number_of_string n : 0 <= n < 2 ^ 53 → integer_value (js_Number (pretty n)) = Some n.
Proof.
  intros Hn. destruct (pretty_N_digits (Z.to_N n)) as (count & Hd & Ha).
  replace (pretty n) with (pretty (Z.to_N n)) by (destruct n; [done|done|lia]).
  rewrite (js_Number_digits _ _ _ Ha Hd), Z2N.id by lia. by apply to_double_exact.
Qed.
