(* ===== verification/Encoding.v ===== *)
(** The codecs of the runtime the Basic scheme goes through: base64 as
    [Buffer.from(s, 'base64')] reads it and [decodeURIComponent]. Strings are
    sequences of bytes; that the bytes are well-formed UTF-8 is not checked. *)
From S2P Require Import Prelude JsString.
From stdpp Require Import base strings list.
From Stdlib Require Import NArith ZArith Ascii.
Local Open Scope string_scope.
Local Open Scope list_scope.
Local Open Scope N_scope.

(** * Base64 *)

(** Both alphabets; any other character is skipped. *)
Definition b64_value (c : ascii) : option N :=
  let n := N_of_ascii c in
  if is_upper c then Some (n - 65)
  else if is_lower c then Some (n - 71)
  else if is_digit c then Some (n + 4)
  else if Ascii.eqb c "+" || Ascii.eqb c "-" then Some 62
  else if Ascii.eqb c "/" || Ascii.eqb c "_" then Some 63
  else None.

Definition b64_char (v : N) : ascii :=
  if v <? 26 then ascii_of_N (v + 65)
  else if v <? 52 then ascii_of_N (v + 71)
  else if v <? 62 then ascii_of_N (v - 4)
  else if v =? 62 then "+"%char else "/"%char.

Fixpoint b64_bytes (digits : list N) : list N :=
  match digits with
  | a :: b :: c :: d :: rest =>
      (a * 4 + b / 16) :: (b mod 16 * 16 + c / 4) :: (c mod 4 * 64 + d) :: b64_bytes rest
  | [a; b; c] => [a * 4 + b / 16; b mod 16 * 16 + c / 4]
  | [a; b] => [a * 4 + b / 16]
  | _ => []
  end.

Fixpoint b64_digits (bytes : list N) : list N :=
  match bytes with
  | x :: y :: z :: rest =>
      (x / 4) :: (x mod 4 * 16 + y / 16) :: (y mod 16 * 4 + z / 64) :: (z mod 64) :: b64_digits rest
  | [x; y] => [x / 4; x mod 4 * 16 + y / 16; y mod 16 * 4]
  | [x] => [x / 4; x mod 4 * 16]
  | [] => []
  end.

Definition b64_padding (n : nat) : string :=
  match (n mod 3)%nat with 1%nat => "==" | 2%nat => "=" | _ => "" end.

Definition from_base64 (s : string) : string :=
  String.string_of_list_ascii (map ascii_of_N (b64_bytes (omap b64_value (String.list_ascii_of_string s)))).

(** The encoding of RFC 4648, as a client produces it. *)
Definition to_base64 (s : string) : string :=
  String.string_of_list_ascii (map b64_char (b64_digits (map N_of_ascii (String.list_ascii_of_string s)))) +:+
  b64_padding (String.length s).

#[local] Ltac Zify.zify_post_hook ::= Z.to_euclidean_division_equations.

Lemma b64_bytes_digits bytes :
  Forall (λ b, b < 256) bytes → b64_bytes (b64_digits bytes) = bytes.
Proof.
  revert bytes. fix IH 1. intros [|x [|y [|z rest]]] Hall; [done|..].
  - apply Forall_cons in Hall as [Hx _]. cbn [b64_digits b64_bytes]. f_equal. lia.
  - apply Forall_cons in Hall as [Hx [Hy _]%Forall_cons]. cbn [b64_digits b64_bytes].
    f_equal; [lia|]. f_equal. lia.
  - apply Forall_cons in Hall as [Hx [Hy [Hz Hrest]%Forall_cons]%Forall_cons].
    cbn [b64_digits b64_bytes]. rewrite IH by done. f_equal; [lia|]. f_equal; [lia|]. f_equal. lia.
Qed.

Lemma b64_digits_small bytes :
  Forall (λ b, b < 256) bytes → Forall (λ d, d < 64) (b64_digits bytes).
Proof.
  revert bytes. fix IH 1. intros [|x [|y [|z rest]]] Hall; [constructor|..];
    repeat match goal with H : Forall _ (_ :: _) |- _ => apply Forall_cons in H as [? H] end;
    cbn [b64_digits]; repeat (apply Forall_cons; split; [lia|]); [constructor..|].
  by apply IH.
Qed.

Lemma b64_value_char d : d < 64 → b64_value (b64_char d) = Some d.
Proof.
  intros Hd. assert (Hall : forallb (λ n, bool_decide (b64_value (b64_char (N.of_nat n)) = Some (N.of_nat n)))
    (seq 0 64) = true) by by vm_compute.
  rewrite forallb_forall in Hall. specialize (Hall (N.to_nat d)). rewrite N2Nat.id in Hall.
  apply bool_decide_eq_true in Hall; [done|]. apply in_seq. lia.
Qed.

Lemma b64_padding_skipped n : omap b64_value (String.list_ascii_of_string (b64_padding n)) = [].
Proof. unfold b64_padding. by destruct (n mod 3)%nat as [|[|[|]]]. Qed.

Lemma base64_roundtrip s : from_base64 (to_base64 s) = s.
Proof.
  unfold from_base64, to_base64.
  set (bytes := map N_of_ascii (String.list_ascii_of_string s)).
  assert (Hb : Forall (λ b, b < 256) bytes).
  { apply Forall_map, Forall_true. intros c. apply N_ascii_bounded. }
  assert (Happ : ∀ a b, String.list_ascii_of_string (a +:+ b) = String.list_ascii_of_string a ++ String.list_ascii_of_string b).
  { induction a as [|c a IH]; intros b; [done|]. simpl. by rewrite IH. }
  rewrite Happ, String.list_ascii_of_string_of_list_ascii, omap_app, b64_padding_skipped, app_nil_r.
  assert (Hd : omap b64_value (map b64_char (b64_digits bytes)) = b64_digits bytes).
  { pose proof (b64_digits_small bytes Hb) as Hs. induction Hs as [|d ds Hd _ IH]; [done|].
    simpl. rewrite b64_value_char by done. f_equal. exact IH. }
  rewrite Hd, b64_bytes_digits by done. unfold bytes. rewrite map_map.
  rewrite (map_ext _ id) by apply ascii_N_embedding. rewrite map_id.
  apply String.string_of_list_ascii_of_string.
Qed.

(** * Percent encoding *)

Definition hex_of (n : N) : ascii :=
  if n <? 10 then ascii_of_N (n + 48) else ascii_of_N (n + 55).
Definition hex_val (c : ascii) : option N :=
  let n := N_of_ascii c in
  if is_digit c then Some (n - 48)
  else if in_range "A" "F" c then Some (n - 55)
  else if in_range "a" "f" c then Some (n - 87)
  else None.

(** [decodeURIComponent]: [None] when it throws. *)
Fixpoint decodeURIComponent (s : string) : option string :=
  match s with
  | EmptyString => Some EmptyString
  | String "%" (String a (String b rest)) =>
      match hex_val a, hex_val b, decodeURIComponent rest with
      | Some x, Some y, Some r => Some (String (ascii_of_N (16 * x + y)) r)
      | _, _, _ => None
      end
  | String "%" _ => None
  | String c rest =>
      match decodeURIComponent rest with Some r => Some (String c r) | None => None end
  end.

(** The characters [encodeURIComponent] leaves alone. *)
Definition uri_plain (c : ascii) : bool :=
  is_word c || existsb (Ascii.eqb c) ["-"; "."; "!"; "~"; "*"; "'"; "("; ")"]%char.

Fixpoint encodeURIComponent (s : string) : string :=
  match s with
  | EmptyString => EmptyString
  | String c rest =>
      if uri_plain c then String c (encodeURIComponent rest)
      else String "%" (String (hex_of (N_of_ascii c / 16))
             (String (hex_of (N_of_ascii c mod 16)) (encodeURIComponent rest)))
  end.

Lemma hex_val_of n : n < 16 → hex_val (hex_of n) = Some n.
Proof.
  intros Hn. assert (Hall : forallb (λ n, bool_decide (hex_val (hex_of (N.of_nat n)) = Some (N.of_nat n)))
    (seq 0 16) = true) by by vm_compute.
  rewrite forallb_forall in Hall. specialize (Hall (N.to_nat n)). rewrite N2Nat.id in Hall.
  apply bool_decide_eq_true in Hall; [done|]. apply in_seq. lia.
Qed.

Lemma decode_plain c rest :
  uri_plain c = true →
  decodeURIComponent (String c rest) =
    match decodeURIComponent rest with Some r => Some (String c r) | None => None end.
Proof. by destruct c as [[] [] [] [] [] [] [] []]. Qed.

Lemma uri_roundtrip s : decodeURIComponent (encodeURIComponent s) = Some s.
Proof.
  induction s as [|c s IH]; [done|]. cbn [encodeURIComponent].
  destruct (uri_plain c) eqn:Hc; [by rewrite decode_plain, IH|].
  pose proof (N_ascii_bounded c). cbn [decodeURIComponent].
  rewrite !hex_val_of, IH by lia. do 2 f_equal. rewrite <- (ascii_N_embedding c) at 3. f_equal. lia.
Qed.

(** * The first colon *)

(** [idx = s.indexOf(sep)]: the parts before and after; [None] when absent. *)
Fixpoint split_first (sep : ascii) (s : string) : option (string * string) :=
  match s with
  | EmptyString => None
  | String c rest =>
      if Ascii.eqb c sep then Some (EmptyString, rest)
      else match split_first sep rest with
           | Some (a, b) => Some (String c a, b)
           | None => None
           end
  end.

Lemma split_first_app sep a b :
  all_chars (λ c, negb (Ascii.eqb c sep)) a = true →
  split_first sep (a +:+ String sep b) = Some (a, b).
Proof.
  induction a as [|c a IH]; simpl.
  - intros _. by rewrite Ascii.eqb_refl.
  - intros [Hc Ha]%andb_prop. destruct (Ascii.eqb c sep); [done|]. change (a ++ String sep b)%string with (a +:+ String sep b).
    by rewrite IH.
Qed.

Lemma hex_of_plain n : n < 16 → uri_plain (hex_of n) = true.
Proof.
  intros Hn. assert (Hall : forallb (λ n, uri_plain (hex_of (N.of_nat n))) (seq 0 16) = true) by by vm_compute.
  rewrite forallb_forall in Hall. specialize (Hall (N.to_nat n)). rewrite N2Nat.id in Hall.
  apply Hall, in_seq. lia.
Qed.

(** What holds of "%" and of the characters left alone holds of the result. *)
Lemma encode_all (p : ascii → bool) s :
  p "%"%char = true → (∀ c, uri_plain c = true → p c = true) → all_chars p (encodeURIComponent s) = true.
Proof.
  intros Hpc Hp. induction s as [|c s IH]; [done|]. cbn [encodeURIComponent].
  destruct (uri_plain c) eqn:Hc.
  - cbn [all_chars]. by rewrite IH, Hp.
  - pose proof (N_ascii_bounded c). cbn [all_chars]. by rewrite Hpc, !Hp, IH by (apply hex_of_plain; lia).
Qed.

Lemma encode_avoids sep s :
  uri_plain sep = false → sep ≠ "%"%char →
  all_chars (λ c, negb (Ascii.eqb c sep)) (encodeURIComponent s) = true.
Proof.
  intros Hs Hpc. apply encode_all.
  - apply negb_true_iff, Ascii.eqb_neq. congruence.
  - intros c Hc. apply negb_true_iff, Ascii.eqb_neq. congruence.
Qed.

Lemma encode_nonempty s : s ≠ "" → encodeURIComponent s ≠ "".
Proof. destruct s as [|c s]; [done|]. intros _. cbn [encodeURIComponent]. by destruct (uri_plain c). Qed.

(** * Query strings *)

(** The decoding of [URLSearchParams]: what is not an escape stands for
    itself. *)
Fixpoint form_decode (s : string) : string :=
  match s with
  | EmptyString => EmptyString
  | String c rest =>
      if Ascii.eqb c "+" then String " " (form_decode rest)
      else if Ascii.eqb c "%" then
        match rest with
        | String a (String b rest') =>
            match hex_val a, hex_val b with
            | Some x, Some y => String (ascii_of_N (16 * x + y)) (form_decode rest')
            | _, _ => String c (form_decode rest)
            end
        | _ => String c (form_decode rest)
        end
      else String c (form_decode rest)
  end.

(** The encoding of [URLSearchParams]. *)
Definition form_plain (c : ascii) : bool :=
  is_word c || existsb (Ascii.eqb c) ["*"; "-"; "."]%char.

Fixpoint form_encode (s : string) : string :=
  match s with
  | EmptyString => EmptyString
  | String c rest =>
      if form_plain c then String c (form_encode rest)
      else if Ascii.eqb c " " then String "+" (form_encode rest)
      else String "%" (String (hex_of (N_of_ascii c / 16))
             (String (hex_of (N_of_ascii c mod 16)) (form_encode rest)))
  end.

(** [new URLSearchParams(query)], as the list of its entries. *)
Definition search_params (query : string) : list (string * string) :=
  (λ e, match split_first "=" e with
        | Some (k, v) => (form_decode k, form_decode v)
        | None => (form_decode e, EmptyString)
        end) <$> filter (λ e, e ≠ EmptyString) (split_on "&" query).

(** [params.get(k)] *)
Definition param_of (ps : list (string * string)) (k : string) : option string :=
  snd <$> sql_first (λ p, p.1 = k) ps.

Lemma form_decode_plain c rest :
  uri_plain c = true → form_decode (String c rest) = String c (form_decode rest).
Proof. by destruct c as [[] [] [] [] [] [] [] []]. Qed.

Lemma form_decode_escape c rest :
  form_decode (String "%" (String (hex_of (N_of_ascii c / 16)) (String (hex_of (N_of_ascii c mod 16)) rest)))
    = String c (form_decode rest).
Proof.
  pose proof (N_ascii_bounded c). cbn [form_decode].
  change (Ascii.eqb "%" "+") with false. change (Ascii.eqb "%" "%") with true. cbv iota.
  rewrite !hex_val_of by lia. f_equal. rewrite <- (ascii_N_embedding c) at 3. f_equal. lia.
Qed.

Lemma form_decode_uri s : form_decode (encodeURIComponent s) = s.
Proof.
  induction s as [|c s IH]; [done|]. cbn [encodeURIComponent].
  destruct (uri_plain c) eqn:Hc; [by rewrite form_decode_plain, IH|]. by rewrite form_decode_escape, IH.
Qed.

Lemma form_roundtrip s : form_decode (form_encode s) = s.
Proof.
  induction s as [|c s IH]; [done|]. cbn [form_encode]. destruct (form_plain c) eqn:Hc.
  - rewrite form_decode_plain, IH; [done|]. by destruct c as [[] [] [] [] [] [] [] []].
  - destruct (Ascii.eqb_spec c " ") as [->|_]; [by cbn; rewrite IH|]. by rewrite form_decode_escape, IH.
Qed.

Lemma form_encode_no_question s : all_chars (λ c, negb (Ascii.eqb c "?")) (form_encode s) = true.
Proof.
  assert (Hhex : ∀ n, n < 16 → negb (Ascii.eqb (hex_of n) "?") = true).
  { intros n Hn. pose proof (hex_of_plain n Hn) as Hp. apply negb_true_iff, Ascii.eqb_neq. intros E. by rewrite E in Hp. }
  induction s as [|c s IH]; [done|]. cbn [form_encode]. destruct (form_plain c) eqn:Hc.
  - cbn [all_chars]. rewrite IH. by destruct c as [[] [] [] [] [] [] [] []].
  - destruct (Ascii.eqb c " "); [by cbn [all_chars]; rewrite IH|].
    pose proof (N_ascii_bounded c). cbn [all_chars]. by rewrite !Hhex, IH by lia.
Qed.
