(* ===== verification/Errors.v ===== *)
(** JSON values, the application error hierarchy of
    src/common/errors/index.ts and the central error handler of
    src/common/middleware/error-handler.ts. *)
From S2P Require Import Prelude.
From stdpp Require Import base strings list.
From Stdlib Require Import ZArith.
Local Open Scope string_scope.
Local Open Scope list_scope.
Local Open Scope Z_scope.

(** Values that are serialised: response bodies, audit metadata. *)
Inductive json : Type :=
  | JNull
  | JBool (b : bool)
  | JNum (n : Z)
  | JStr (s : string)
  | JArr (vs : list json)
  | JObj (fields : list (string * json)).

Definition json_opt (o : option string) : json :=
  match o with Some s => JStr s | None => JNull end.

(** * The classes *)

Inductive error_class : Type :=
  | CAppError
  | CValidationError
  | CAuthError
  | CInvalidCredentialsError
  | CForbiddenError
  | CNotFoundError
  | CConflictError
  | CTooManyRequestsError
  | CUnauthorizedClientError
  | COAuthTokenError.

#[export] Instance error_class_eq_dec : EqDecision error_class.
Proof. solve_decision. Defined.

Record AppErr : Type := mkAppErr {
  cls : error_class;
  statusCode : Z;
  code : string;
  message : string;
  details : option json;
}.

(** A thrown value: an [AppError], one of the two plain [Error] subclasses of
    the program, or an error raised by a library (a driver, [jose], the body
    parser), of which the program only reads [code] and [statusCode]. *)
Inductive Err : Type :=
  | EApp (e : AppErr)
  | ECodeReplay (userId clientRef : string)
  | EKms (msg : string)
  | ELib (lib_status : option Z) (lib_code : option string) (msg : string).

Definition AppError (status : Z) (code message : string) : Err :=
  EApp (mkAppErr CAppError status code message None).
Definition ValidationError (message : string) (details : json) : Err :=
  EApp (mkAppErr CValidationError 400 "VALIDATION_ERROR" message (Some details)).
Definition AuthError (message code : string) : Err :=
  EApp (mkAppErr CAuthError 401 code message None).
Definition AuthError_default : Err :=
  AuthError "Authentication required" "AUTH_REQUIRED".
Definition InvalidCredentialsError : Err :=
  EApp (mkAppErr CInvalidCredentialsError 401 "INVALID_CREDENTIALS"
          "Invalid credentials" None).
Definition ForbiddenError (message code : string) : Err :=
  EApp (mkAppErr CForbiddenError 403 code message None).
Definition NotFoundError (resource : string) : Err :=
  EApp (mkAppErr CNotFoundError 404 "NOT_FOUND" (resource +:+ " not found") None).
Definition ConflictError (message : string) : Err :=
  EApp (mkAppErr CConflictError 409 "CONFLICT" message None).
Definition TooManyRequestsError (retryAfterSeconds : Z) : Err :=
  EApp (mkAppErr CTooManyRequestsError 429 "RATE_LIMITED" "Too many requests"
          (Some (JObj [("retryAfterSeconds", JNum retryAfterSeconds)]))).
Definition UnauthorizedClientError (message : string) : Err :=
  EApp (mkAppErr CUnauthorizedClientError 401 "UNAUTHORIZED_CLIENT" message None).
(** src/modules/oauth/oauth.service.ts *)
Definition OAuthTokenError (status : Z) (code description : string) : Err :=
  EApp (mkAppErr COAuthTokenError status code description None).

(** [err instanceof AppError] and [err instanceof AuthError]. *)
Definition instanceof_AppError (e : Err) : bool :=
  match e with EApp _ => true | _ => false end.

Definition instanceof_AuthError (e : Err) : bool :=
  match e with
  | EApp a => bool_decide (cls a = CAuthError ∨ cls a = CInvalidCredentialsError)
  | _ => false
  end.

(** [(err as AppError).code]: [undefined] on values without the property. *)
Definition err_code (e : Err) : option string :=
  match e with
  | EApp a => Some (code a)
  | ECodeReplay _ _ => None
  | EKms _ => None
  | ELib _ c _ => c
  end.

(** * The central error handler *)

Record Response : Type := mkResponse { status : Z; body : json }.

Definition errorHandler (err : Err) (requestId : string) : Response :=
  match err with
  | EApp a =>
      mkResponse (statusCode a)
        (JObj ([("error", JStr (code a)); ("message", JStr (message a))]
               ++ (match details a with Some d => [("details", d)] | None => [] end)
               ++ [("request_id", JStr requestId)])%list)
  | _ =>
      let sc := match err with ELib (Some n) _ _ => n | _ => 0 end in
      if negb (sc =? 0) && (sc <? 500) then
        mkResponse sc
          (JObj [("error", JStr "BAD_REQUEST"); ("message", JStr "Malformed request");
                 ("request_id", JStr requestId)])
      else
        mkResponse 500
          (JObj [("error", JStr "INTERNAL_ERROR");
                 ("message", JStr "An internal error occurred");
                 ("request_id", JStr requestId)])
  end.

Definition notFoundHandler : Response :=
  mkResponse 404 (JObj [("error", JStr "NOT_FOUND"); ("message", JStr "Route not found")]).

(** The part of an unknown error the handler may not disclose. *)
Definition with_message (e : Err) (msg : string) : Err :=
  match e with
  | EApp a => EApp a
  | ECodeReplay u c => ECodeReplay u c
  | EKms _ => EKms msg
  | ELib s c _ => ELib s c msg
  end.
