(* ===== verification/Store.v ===== *)
(** The shared store: the rows of the relational schema
    (src/infrastructure/database/migrations), the Redis keyspace, the key
    directory, the outgoing mail, the clock and the random source; the
    configuration (src/config/index.ts); and the external libraries as
    parameters. *)
From S2P Require Import Prelude Async Errors.
From stdpp Require Import base gmap strings list sorting.
From Stdlib Require Import ZArith.
Local Open Scope Z_scope.

(** * Configuration *)

Inductive risk_action := Deny | MfaStepUp | Allow.
#[export] Instance risk_action_eq_dec : EqDecision risk_action.
Proof. solve_decision. Defined.

(** The settings the modelled code reads. *)
Record AppConfig : Type := mkAppConfig {
  JWT_ISSUER : string;
  JWT_AUDIENCE : string;
  ACCESS_TOKEN_TTL : Z;
  REFRESH_TOKEN_TTL : Z;
  AUTHORIZATION_CODE_TTL : Z;
  ID_TOKEN_TTL : Z;
  SESSION_TTL : Z;
  PASSWORD_MIN_LENGTH : nat;
  EMAIL_VERIFICATION_TTL : Z;
  PASSWORD_RESET_TTL : Z;
  RATE_LIMIT_WINDOW : Z;
  RATE_LIMIT_LOGIN : Z;
  RATE_LIMIT_REGISTER : Z;
  RATE_LIMIT_FORGOT_PASSWORD : Z;
  RATE_LIMIT_TOKEN : Z;
  RATE_LIMIT_AUTHORIZE : Z;
  RATE_LIMIT_API : Z;
  RISK_FAILED_LOGINS_THRESHOLD : Z;
  RISK_HIGH_SCORE_ACTION : risk_action;
  MAX_FAILED_LOGINS : Z;
  LOCKOUT_MINUTES : Z;
  MFA_ISSUER : string;
  MFA_CHALLENGE_TTL : Z;
  GATEWAY_SHARED_SECRET : option string;
  CORS_ORIGINS_LIST : list string;
}.

(** The defaults of the schema. *)
Definition default_config : AppConfig :=
  mkAppConfig "https://auth.local" "api" 900 (60 * 60 * 24 * 14) 120 3600
    (60 * 60 * 24 * 30) 12 (60 * 60 * 24) (60 * 30)
    60 5 3 3 10 10 120 5 MfaStepUp 5 15 "Identity Platform" 300 None
    ["http://localhost:3000"; "http://localhost:8080"].

(** * Rows *)

Inductive user_status := UActive | UPendingVerification | ULocked | UDisabled.
#[export] Instance user_status_eq_dec : EqDecision user_status.
Proof. solve_decision. Defined.

Definition user_status_string (s : user_status) : string :=
  match s with
  | UActive => "active" | UPendingVerification => "pending_verification"
  | ULocked => "locked" | UDisabled => "disabled"
  end.

(** Time stamps are milliseconds since the epoch. *)
Record UserRow : Type := mkUserRow {
  u_id : string;
  u_email : string;
  u_password_hash : string;
  u_first_name : option string;
  u_last_name : option string;
  u_status : user_status;
  u_failed_login_count : Z;
  u_locked_until : option Z;
  u_mfa_required : bool;
  u_last_login_at : option Z;
  u_password_changed_at : Z;
  u_created_at : Z;
  u_updated_at : Z;
}.
#[export] Instance eta_UserRow : Settable UserRow := λ r,
  mkUserRow (u_id r) (u_email r) (u_password_hash r) (u_first_name r)
    (u_last_name r) (u_status r) (u_failed_login_count r) (u_locked_until r)
    (u_mfa_required r) (u_last_login_at r) (u_password_changed_at r)
    (u_created_at r) (u_updated_at r).

Record RoleRow : Type := mkRoleRow {
  role_id : string; role_name : string;
  role_description : option string; role_is_system : bool;
}.
Record PermissionRow : Type := mkPermissionRow { perm_id : string; perm_name : string }.
Record ScopeRow : Type :=
  mkScopeRow { scope_id : string; scope_name : string; scope_description : option string }.
Record UserRoleRow : Type := mkUserRoleRow { ur_user_id : string; ur_role_id : string }.
Record RolePermissionRow : Type :=
  mkRolePermissionRow { rp_role_id : string; rp_permission_id : string }.

Inductive client_type := Confidential | Public.
#[export] Instance client_type_eq_dec : EqDecision client_type.
Proof. solve_decision. Defined.
Inductive auth_method := ClientSecretBasic | ClientSecretPost | NoAuth.
#[export] Instance auth_method_eq_dec : EqDecision auth_method.
Proof. solve_decision. Defined.
Inductive client_status := CliActive | CliDisabled.
#[export] Instance client_status_eq_dec : EqDecision client_status.
Proof. solve_decision. Defined.

Record OAuthClientRow : Type := mkOAuthClientRow {
  c_id : string;
  c_client_id : string;
  c_client_secret_hash : option string;
  c_name : string;
  c_client_type : client_type;
  c_redirect_uris : list string;
  c_allowed_scopes : list string;
  c_grant_types : list string;
  c_token_endpoint_auth_method : auth_method;
  c_require_pkce : bool;
  c_status : client_status;
  c_created_at : Z;
}.
#[export] Instance eta_OAuthClientRow : Settable OAuthClientRow := λ r,
  mkOAuthClientRow (c_id r) (c_client_id r) (c_client_secret_hash r) (c_name r)
    (c_client_type r) (c_redirect_uris r) (c_allowed_scopes r) (c_grant_types r)
    (c_token_endpoint_auth_method r) (c_require_pkce r) (c_status r) (c_created_at r).

Record AuthorizationCodeRow : Type := mkAuthorizationCodeRow {
  ac_id : string;
  ac_code_hash : string;
  ac_client_id : string;
  ac_user_id : string;
  ac_redirect_uri : string;
  ac_scope : string;
  ac_nonce : option string;
  ac_code_challenge : option string;
  ac_code_challenge_method : option string;
  ac_expires_at : Z;
  ac_consumed_at : option Z;
}.
#[export] Instance eta_AuthorizationCodeRow : Settable AuthorizationCodeRow := λ r,
  mkAuthorizationCodeRow (ac_id r) (ac_code_hash r) (ac_client_id r) (ac_user_id r)
    (ac_redirect_uri r) (ac_scope r) (ac_nonce r) (ac_code_challenge r)
    (ac_code_challenge_method r) (ac_expires_at r) (ac_consumed_at r).

Inductive session_status := SActive | SRevoked.
#[export] Instance session_status_eq_dec : EqDecision session_status.
Proof. solve_decision. Defined.

Record SessionRow : Type := mkSessionRow {
  s_id : string;
  s_user_id : string;
  s_client_id : option string;
  s_ip : option string;
  s_user_agent : option string;
  s_device_id : option string;
  s_mfa_passed : bool;
  s_status : session_status;
  s_expires_at : Z;
  s_last_seen_at : Z;
  s_revoked_at : option Z;
  s_revoke_reason : option string;
}.
#[export] Instance eta_SessionRow : Settable SessionRow := λ r,
  mkSessionRow (s_id r) (s_user_id r) (s_client_id r) (s_ip r) (s_user_agent r)
    (s_device_id r) (s_mfa_passed r) (s_status r) (s_expires_at r)
    (s_last_seen_at r) (s_revoked_at r) (s_revoke_reason r).

Inductive rt_status := RActive | RRotated | RRevoked.
#[export] Instance rt_status_eq_dec : EqDecision rt_status.
Proof. solve_decision. Defined.

Record RefreshTokenRow : Type := mkRefreshTokenRow {
  rt_id : string;
  rt_session_id : string;
  rt_user_id : string;
  rt_client_id : option string;
  rt_token_hash : string;
  rt_family_id : string;
  rt_previous_token_id : option string;
  rt_scope : string;
  rt_status_ : rt_status;
  rt_expires_at : Z;
  rt_rotated_at : option Z;
  rt_revoked_at : option Z;
}.
#[export] Instance eta_RefreshTokenRow : Settable RefreshTokenRow := λ r,
  mkRefreshTokenRow (rt_id r) (rt_session_id r) (rt_user_id r) (rt_client_id r)
    (rt_token_hash r) (rt_family_id r) (rt_previous_token_id r) (rt_scope r)
    (rt_status_ r) (rt_expires_at r) (rt_rotated_at r) (rt_revoked_at r).

Inductive mfa_status := MPending | MActive | MDisabled.
#[export] Instance mfa_status_eq_dec : EqDecision mfa_status.
Proof. solve_decision. Defined.

(** src/modules/keys/kms.types.ts: the envelope stored for a TOTP secret. *)
Record EncryptedEnvelope : Type := mkEnvelope {
  env_v : Z; env_iv : string; env_ct : string; env_tag : string;
}.

(** One row per user: (user_id, type) is unique and the only type is totp. *)
Record MfaMethodRow : Type := mkMfaMethodRow {
  m_id : string;
  m_user_id : string;
  m_secret_encrypted : EncryptedEnvelope;
  m_status : mfa_status;
  m_is_primary : bool;
  m_enrolled_at : option Z;
  m_last_used_at : option Z;
}.
#[export] Instance eta_MfaMethodRow : Settable MfaMethodRow := λ r,
  mkMfaMethodRow (m_id r) (m_user_id r) (m_secret_encrypted r) (m_status r)
    (m_is_primary r) (m_enrolled_at r) (m_last_used_at r).

(** email_verifications and password_reset_tokens: [et_used_at] is the column
    consumed_at of the first and used_at of the second. *)
Record EmailTokenRow : Type := mkEmailTokenRow {
  et_id : string;
  et_user_id : string;
  et_token_hash : string;
  et_email : option string;
  et_expires_at : Z;
  et_used_at : option Z;
}.
#[export] Instance eta_EmailTokenRow : Settable EmailTokenRow := λ r,
  mkEmailTokenRow (et_id r) (et_user_id r) (et_token_hash r) (et_email r)
    (et_expires_at r) (et_used_at r).

Record AuditLogRow : Type := mkAuditLogRow {
  al_event_type : string;
  al_user_id : option string;
  al_client_id : option string;
  al_ip : option string;
  al_user_agent : option string;
  al_request_id : option string;
  al_metadata : list (string * json);
  al_created_at : Z;
}.

Inductive RiskLevel := Low | Medium | High.
#[export] Instance risk_level_eq_dec : EqDecision RiskLevel.
Proof. solve_decision. Defined.

(** src/modules/risk/risk.types.ts *)
Record RiskEvaluation : Type := mkRiskEvaluation {
  ev_level : RiskLevel;
  ev_score : Z;
  ev_signals : list (string * option string);
}.

Record RiskEventRow : Type := mkRiskEventRow {
  re_user_id : option string;
  re_session_id : option string;
  re_event_type : string;
  re_evaluation : RiskEvaluation;
  re_action_taken : risk_action;
  re_ip : option string;
  re_user_agent : option string;
  re_request_id : option string;
}.

Record DocumentRow : Type := mkDocumentRow {
  d_id : string;
  d_owner_id : string;
  d_title : string;
  d_content : string;
  d_created_at : Z;
  d_updated_at : Z;
}.

(** src/modules/email/email.types.ts (the text part). *)
Record EmailMessage : Type := mkEmail {
  mail_to : string; mail_subject : string; mail_text : string;
}.

(** src/modules/keys/local-key-provider.ts: a file signing-<kid>.json. *)
Record WrappedSigningKeyFile : Type := mkKeyFile {
  kf_kid : string;
  kf_createdAt : Z;
  kf_publicKeyPem : string;
  kf_wrappedPrivateKey : string;
}.

(** * Redis values *)

Record MfaChallengePayload : Type := mkChallenge {
  ch_userId : string; ch_sessionId : string; ch_attempts : Z;
}.

(** JSON documents are represented by the value they encode. *)
Inductive redis_value : Type :=
  | VStr (s : string)
  | VNum (n : Z)
  | VSet (members : gset string)
  | VSession (row : SessionRow)
  | VChallenge (c : MfaChallengePayload).

(** A key and the time at which it expires, if any. *)
Record redis_entry : Type := mkEntry { re_value : redis_value; re_expires : option Z }.

(** * The store *)

Record Db : Type := mkDb {
  users : list UserRow;
  roles : list RoleRow;
  permissions : list PermissionRow;
  user_roles : list UserRoleRow;
  role_permissions : list RolePermissionRow;
  oauth_clients : list OAuthClientRow;
  authorization_codes : list AuthorizationCodeRow;
  sessions : list SessionRow;
  refresh_tokens : list RefreshTokenRow;
  mfa_methods : list MfaMethodRow;
  email_verifications : list EmailTokenRow;
  password_reset_tokens : list EmailTokenRow;
  audit_logs : list AuditLogRow;
  risk_events : list RiskEventRow;
  documents : list DocumentRow;
  scopes : list ScopeRow;
}.
#[export] Instance eta_Db : Settable Db := λ d,
  mkDb (users d) (roles d) (permissions d) (user_roles d) (role_permissions d)
    (oauth_clients d) (authorization_codes d) (sessions d) (refresh_tokens d)
    (mfa_methods d) (email_verifications d) (password_reset_tokens d)
    (audit_logs d) (risk_events d) (documents d) (scopes d).

Record World : Type := mkWorld {
  w_now : Z;
  w_draws : N;
  w_db : Db;
  w_redis : gmap string redis_entry;
  w_mail : list EmailMessage;
  w_keys : list WrappedSigningKeyFile;
  w_rotateSeq : Z;
  w_masterFile : option string;
}.
#[export] Instance eta_World : Settable World := λ w,
  mkWorld (w_now w) (w_draws w) (w_db w) (w_redis w) (w_mail w) (w_keys w)
    (w_rotateSeq w) (w_masterFile w).

Definition empty_db : Db := mkDb [] [] [] [] [] [] [] [] [] [] [] [] [] [] [] [].
Definition empty_world (now : Z) : World := mkWorld now 0 empty_db ∅ [] [] 0 None.

(** An asynchronous function of the program. *)
Notation M := (Async World Err).

Definition on_db (f : Db → Db) (w : World) : World := w <| w_db ::= f |>.

(** [Date.now()] and SQL [now()] *)
Definition now_ms : M Z := reads w_now.

(** Draw from the random source: the value is a function of the number of
    draws made before. *)
Definition draw {X} (f : N → X) : M X :=
  atomically (λ w, (f (w_draws w), w <| w_draws ::= N.succ |>)).

(** A query that reads, a statement that writes. *)
Definition db_select {X} (q : Db → X) : M X := reads (λ w, q (w_db w)).
Definition db_exec (f : Z → Db → Db) : M () :=
  writes (λ w, on_db (f (w_now w)) w).

(** [ORDER BY created_at DESC] (rows of equal time in insertion order) and
    [LIMIT n OFFSET m]. *)
Definition newest_first {R} (time : R → Z) (a b : R) : Prop := time b ≤ time a.
#[export] Instance newest_first_dec {R} (time : R → Z) : RelDecision (newest_first time) :=
  λ a b, decide (time b ≤ time a).
#[export] Instance newest_first_total {R} (time : R → Z) : Total (newest_first time).
Proof. intros a b. unfold newest_first. lia. Qed.
#[export] Instance newest_first_trans {R} (time : R → Z) : Transitive (newest_first time).
Proof. intros a b c. unfold newest_first. lia. Qed.

Definition order_newest {R} (time : R → Z) (rows : list R) : list R :=
  merge_sort (newest_first time) rows.
Definition sql_page {R} (limit offset : Z) (rows : list R) : list R :=
  take (Z.to_nat limit) (drop (Z.to_nat offset) rows).

(** An INSERT that would repeat a key of a unique index. *)
Definition unique_violation : Err :=
  ELib None (Some "23505") "duplicate key value violates unique constraint".

(** An INSERT whose foreign key names no row, a negative LIMIT. *)
Definition foreign_key_violation : Err :=
  ELib None (Some "23503") "insert or update violates foreign key constraint".
Definition negative_limit : Err := ELib None (Some "2201W") "LIMIT must not be negative".

(** src/common/decorators/request-context.ts *)
Record RequestContext : Type := mkContext {
  requestId : string;
  ctx_ip : option string;
  ctx_userAgent : option string;
}.

(** * External libraries *)

(** Hashes, random encodings, Argon2, TOTP: pure functions of their
    arguments and of the draw they consume. [argon2_verify] gives [None] when
    the library throws (malformed hash). [redis_scan cursor prefix keys] is one
    page of SCAN: the next cursor and some keys that match [prefix*];
    [redis_scan_pages] bounds the pages that can follow a cursor. *)
Class Platform : Type := {
  cfg : AppConfig;
  sha256_hex : string → string;
  sha256_b64url : string → string;
  random_uuid : N → string;
  random_hex : nat → N → string;
  random_b64url : nat → N → string;
  argon2_hash : string → N → string;
  argon2_verify : string → string → option bool;
  totp_generateSecret : N → string;
  totp_check : string → string → Z → bool;
  totp_keyuri : string → string → string → string;
  qr_toDataURL : string → string;
  redis_scan : string → string → gmap string redis_entry → string * list string;
  redis_scan_pages : string → nat;
}.

(** A whole iteration of SCAN from a cursor: the keyspace at each page, which
    may change in between, and the keys of the page. *)
Inductive scanned `{P : Platform} (prefix : string)
    : string → list (gmap string redis_entry * list string) → Prop :=
  | scanned_last c m ks : redis_scan c prefix m = ("0"%string, ks) → scanned prefix c [(m, ks)]
  | scanned_more c m c' ks tr :
      redis_scan c prefix m = (c', ks) → c' ≠ "0"%string → scanned prefix c' tr → scanned prefix c ((m, ks) :: tr).

(** The idealisation the uniqueness theorems rely on: no two draws of the
    random source and no two tokens collide. *)
Class PlatformLaws (P : Platform) : Prop := {
  sha256_hex_inj : Inj (=) (=) sha256_hex;
  random_uuid_inj : Inj (=) (=) random_uuid;
  random_b64url_inj : ∀ n, Inj (=) (=) (random_b64url n);
  argon2_verify_hash : ∀ pw pw' salt,
    argon2_verify (argon2_hash pw salt) pw' = Some (bool_decide (pw = pw'));
  redis_scan_ends : ∀ c prefix m c' ks, redis_scan c prefix m = (c', ks) → c' ≠ "0"%string →
    (redis_scan_pages c' < redis_scan_pages c)%nat;
  redis_scan_matches : ∀ c prefix m c' ks k, redis_scan c prefix m = (c', ks) → k ∈ ks →
    String.prefix prefix k = true;
  (** every key that is there during the whole iteration is on some page *)
  redis_scan_complete : ∀ prefix tr k, scanned prefix "0" tr → String.prefix prefix k = true →
    Forall (λ page, is_Some (page.1 !! k)) tr → Exists (λ page, k ∈ page.2) tr;
}.
