(* ===== verification/Database.v ===== *)
(** src/infrastructure/database: transactions (pool.ts) and the migration
    runner (migrate.ts). A transaction is one step of the store: the database
    isolates it from the others. *)
From S2P Require Import Prelude Async JsString.
From stdpp Require Import base strings list sorting relations.
From Stdlib Require Import Ascii.
Local Open Scope string_scope.
Local Open Scope list_scope.

(** * Transactions *)

Section transaction.
(** The part of the state a rollback restores. *)
Context {S D E : Type} (get : S → D) (put : D → S → S).

(** [withTransaction(fn)]: BEGIN, [fn], COMMIT; ROLLBACK and rethrow. *)
Definition withTransaction {A} (fn : Async S E A) : Async S E A :=
  attempt (λ s,
    match run fn s with
    | (Resolved a, s') => (Resolved a, s')
    | (Rejected e, s') => (Rejected e, put (get s) s')
    end).

Lemma run_withTransaction {A} (fn : Async S E A) s :
  run (withTransaction fn) s =
    match run fn s with
    | (Resolved a, s') => (Resolved a, s')
    | (Rejected e, s') => (Rejected e, put (get s) s')
    end.
Proof. unfold withTransaction. rewrite run_attempt. by destruct (run fn s) as [[] ?]. Qed.

Lemma withTransaction_respects {A} (R : S → S → Prop) (fn : Async S E A) :
  (∀ s a s', run fn s = (Resolved a, s') → R s s') →
  (∀ s e s', run fn s = (Rejected e, s') → R s (put (get s) s')) →
  respects R (withTransaction fn).
Proof.
  intros Hok Hfail. apply respects_attempt. intros s.
  destruct (run fn s) as [[e|a] s'] eqn:Hr; [by eapply Hfail|by eapply Hok].
Qed.
End transaction.

(** * Migrations *)

(** The names in schema_migrations in the order of insertion (none while the
    table does not exist), and what the migrations change. *)
Record SchemaState (T : Type) : Type := mkSchema { sc_applied : list string; sc_state : T }.
Global Arguments mkSchema {T} _ _.
Global Arguments sc_applied {T} _.
Global Arguments sc_state {T} _.

Definition file_le {X} (a b : string * X) : Prop := String.leb a.1 b.1 = true.
#[export] Instance file_le_dec {X} : RelDecision (@file_le X) := λ a b, decide (String.leb a.1 b.1 = true).

(** [f.endsWith('.sql')] *)
Fixpoint ends_with (s suffix : string) : bool :=
  bool_decide (s = suffix) || match s with EmptyString => false | String _ s => ends_with s suffix end.

Section migrate.
Context {T E : Type} (duplicate_name : E).
(** The directory: names and what running the file does. *)
Context (dir : list (string * (T → outcome E T))).
(** Why CREATE TABLE IF NOT EXISTS fails, if it does: PostgreSQL reports a
    duplicate key when another session creates the table at the same time. *)
Context (create_fails : SchemaState T → option E).

Definition files : list (string * (T → outcome E T)) :=
  merge_sort file_le (filter (λ f, ends_with f.1 ".sql" = true) dir).

(** [tx.query(sql)] *)
Definition execute (sql : T → outcome E T) : Async (SchemaState T) E () :=
  attempt (λ s, match sql (sc_state s) with
                | Resolved t => (Resolved (), mkSchema (sc_applied s) t)
                | Rejected e => (Rejected e, s)
                end).

(** [INSERT INTO schema_migrations (name)], whose key is the name. *)
Definition record_name (name : string) : Async (SchemaState T) E () :=
  attempt (λ s, if decide (name ∈ sc_applied s) then (Rejected duplicate_name, s)
                else (Resolved (), mkSchema (sc_applied s ++ [name]) (sc_state s))).

Definition apply_file (f : string * (T → outcome E T)) : Async (SchemaState T) E () :=
  withTransaction (λ s, s) (λ s0 _, s0) (_ ← execute f.2; record_name f.1).

Fixpoint apply_files (applied : list string) (fs : list (string * (T → outcome E T)))
    : Async (SchemaState T) E (list string) :=
  match fs with
  | [] => mret []
  | f :: fs =>
      if includes applied f.1 then apply_files applied fs
      else
        _ ← apply_file f;
        executedNow ← apply_files applied fs;
        mret (f.1 :: executedNow)
  end.

(** [CREATE TABLE IF NOT EXISTS schema_migrations]: the new table has no names. *)
Definition create_table : Async (SchemaState T) E () :=
  attempt (λ s, (match create_fails s with Some e => Rejected e | None => Resolved () end, s)).

Definition runMigrations : Async (SchemaState T) E (list string) :=
  _ ← create_table;
  applied ← reads sc_applied;
  apply_files applied files.

(** * One run *)

(** The files that have not been applied. *)
Definition pending (s : SchemaState T) : list (string * (T → outcome E T)) :=
  filter (λ f, f.1 ∉ sc_applied s) files.

Lemma run_apply_file f s :
  run (apply_file f) s =
    match f.2 (sc_state s) with
    | Resolved t =>
        if decide (f.1 ∈ sc_applied s) then (Rejected duplicate_name, s)
        else (Resolved (), mkSchema (sc_applied s ++ [f.1]) t)
    | Rejected e => (Rejected e, s)
    end.
Proof.
  unfold apply_file. rewrite run_withTransaction, run_bind. unfold execute, record_name. rewrite run_attempt.
  destruct (f.2 (sc_state s)) as [e|t]; [done|]. rewrite run_attempt. simpl. by case_decide.
Qed.

(** The effects of a list of files on a state, one after the other. *)
Fixpoint replay (fs : list (string * (T → outcome E T))) (t : T) : option T :=
  match fs with
  | [] => Some t
  | f :: fs => match f.2 t with Resolved t' => replay fs t' | Rejected _ => None end
  end.

Lemma replay_app fs fs' t : replay (fs ++ fs') t = replay fs t ≫= replay fs'.
Proof. revert t. induction fs as [|f fs IH]; intros t; [done|]. simpl. by destruct (f.2 t). Qed.

(** The names of the files are distinct, as in a directory. *)
Context (dir_distinct : NoDup (fst <$> dir)).

Lemma files_perm : files ≡ₚ filter (λ f, ends_with f.1 ".sql" = true) dir.
Proof. apply merge_sort_Permutation. Qed.

Lemma files_distinct : NoDup (fst <$> files).
Proof.
  rewrite files_perm. clear -dir_distinct. induction dir as [|f d IH]; [constructor|].
  apply NoDup_cons in dir_distinct as [Hf Hd]. rewrite filter_cons. case_decide; [|by apply IH].
  apply NoDup_cons. split; [|by apply IH]. intros Hin. apply Hf.
  apply list_elem_of_fmap in Hin as (g & -> & [_ Hg]%list_elem_of_filter). by apply list_elem_of_fmap_2.
Qed.

Lemma run_apply_files applied fs s r s' :
  NoDup (fst <$> fs) → (∀ f, f ∈ fs → f.1 ∈ sc_applied s → f.1 ∈ applied) →
  run (apply_files applied fs) s = (r, s') →
  ∃ ran rest, filter (λ f, f.1 ∉ applied) fs = ran ++ rest ∧
    sc_applied s' = sc_applied s ++ (fst <$> ran) ∧ replay ran (sc_state s) = Some (sc_state s') ∧
    match r with
    | Resolved now => rest = [] ∧ now = fst <$> ran
    | Rejected e => ∃ f fs', rest = f :: fs' ∧ f.2 (sc_state s') = Rejected e
    end.
Proof.
  revert s r s'. induction fs as [|f fs IH]; intros s r s' Hn Hsub Hrun.
  { injection Hrun as <- <-. exists [], []. simpl. by rewrite app_nil_r. }
  apply NoDup_cons in Hn as [Hf Hn]. cbn [apply_files] in Hrun. rewrite filter_cons.
  destruct (includes applied f.1) eqn:Hin.
  - rewrite decide_False by (intros Hno; by apply Hno, includes_spec).
    apply IH; [done| |done]. intros g Hg. apply Hsub. by right.
  - assert (Hnot : f.1 ∉ applied) by (rewrite <- includes_spec; congruence).
    rewrite decide_True by done. rewrite run_bind, run_apply_file in Hrun.
    destruct (f.2 (sc_state s)) as [e|t] eqn:He.
    { injection Hrun as <- <-. exists [], (f :: filter (λ f, f.1 ∉ applied) fs).
      simpl. rewrite app_nil_r. split_and!; try done. by exists f, (filter (λ f, f.1 ∉ applied) fs). }
    rewrite decide_False in Hrun by (intros Hs; apply Hnot, Hsub; [by left|done]).
    rewrite run_bind in Hrun. set (s1 := mkSchema (sc_applied s ++ [f.1]) t) in Hrun.
    destruct (run (apply_files applied fs) s1) as [r1 s2] eqn:Hrest.
    destruct (IH s1 r1 s2 Hn) as (ran & rest & Hsplit & Happ & Hrep & Hres); [|done|].
    { intros g Hg [Hs|Hs]%elem_of_app; [apply Hsub; [by right|done]|].
      apply list_elem_of_singleton in Hs. destruct Hf. rewrite <- Hs. by apply list_elem_of_fmap_2. }
    exists (f :: ran), rest. rewrite Hsplit. split; [done|].
    assert (Hs' : s' = s2) by (destruct r1; by injection Hrun). subst s2.
    split; [rewrite Happ; unfold s1; simpl; by rewrite <- app_assoc|]. split; [simpl; by rewrite He|].
    destruct r1 as [e|now]; injection Hrun as <-; [exact Hres|]. destruct Hres as [-> ->]. by split.
Qed.

Lemma filter_out (ran rest : list (string * (T → outcome E T))) (names : list string) :
  (∀ f, f ∈ ran → f.1 ∈ names) → (∀ f, f ∈ rest → f.1 ∉ names) →
  filter (λ f, f.1 ∉ names) (ran ++ rest) = rest.
Proof.
  intros Hran Hrest. rewrite filter_app. assert (filter (λ f, f.1 ∉ names) ran = []) as ->.
  { induction ran as [|f ran IH]; [done|]. rewrite filter_cons, decide_False.
    - apply IH. intros g Hg. apply Hran. by right.
    - intros Hno. apply Hno, Hran. by left. }
  simpl. induction rest as [|f rest IH]; [done|]. rewrite filter_cons, decide_True by (apply Hrest; by left).
  f_equal. apply IH. intros g Hg. apply Hrest. by right.
Qed.

Lemma pending_after s s' ran rest :
  pending s = ran ++ rest → sc_applied s' = sc_applied s ++ (fst <$> ran) → pending s' = rest.
Proof.
  intros Hp Hs'.
  assert (Hn : NoDup (fst <$> (ran ++ rest))).
  { rewrite <- Hp. unfold pending. pose proof files_distinct as Hd. induction files as [|f fs IH]; [constructor|].
    apply NoDup_cons in Hd as [Hf Hd]. rewrite filter_cons. case_decide; [|by apply IH].
    apply NoDup_cons. split; [|by apply IH]. intros Hin. apply Hf.
    apply list_elem_of_fmap in Hin as (g & -> & [_ Hg]%list_elem_of_filter). by apply list_elem_of_fmap_2. }
  rewrite fmap_app in Hn. apply NoDup_app in Hn as (_ & Hd & _).
  rewrite <- (filter_out ran rest (fst <$> ran)).
  - rewrite <- Hp. unfold pending. rewrite list_filter_filter, Hs'. apply list_filter_iff.
    intros f. rewrite elem_of_app. tauto.
  - intros f Hf. by apply list_elem_of_fmap_2.
  - intros f Hf Hin. apply (Hd f.1 Hin). by apply list_elem_of_fmap_2.
Qed.

Lemma run_runMigrations s :
  run runMigrations s =
    match create_fails s with
    | Some e => (Rejected e, s)
    | None => run (apply_files (sc_applied s) files) s
    end.
Proof. unfold runMigrations, create_table. rewrite run_bind, run_attempt. by destruct (create_fails s). Qed.

(** A run of the migrations applies the pending files in order, each in a
    transaction of its own, until one fails. Every file before it stays
    applied and recorded, the failing one leaves no trace, and the next run
    starts with it; a run that succeeds leaves nothing pending and reports
    what it has applied, so that running it again does nothing. A run that
    cannot make the table does nothing at all. *)
Theorem migrations_resume (s : SchemaState T) :
  let '(r, s') := run runMigrations s in
  ∃ ran, pending s = ran ++ pending s' ∧ sc_applied s' = sc_applied s ++ (fst <$> ran) ∧
    replay ran (sc_state s) = Some (sc_state s') ∧
    match r with
    | Resolved now => now = fst <$> ran ∧ pending s' = [] ∧
        (create_fails s' = None → run runMigrations s' = (Resolved [], s'))
    | Rejected e => (create_fails s = Some e ∧ s' = s) ∨
        ∃ f rest, pending s' = f :: rest ∧ f.2 (sc_state s') = Rejected e
    end.
Proof.
  assert (Hone : ∀ s r s', create_fails s = None → run runMigrations s = (r, s') →
    ∃ ran, pending s = ran ++ pending s' ∧ sc_applied s' = sc_applied s ++ (fst <$> ran) ∧
      replay ran (sc_state s) = Some (sc_state s') ∧
      match r with
      | Resolved now => now = fst <$> ran ∧ pending s' = []
      | Rejected e => ∃ f rest, pending s' = f :: rest ∧ f.2 (sc_state s') = Rejected e
      end).
  { clear s. intros s r s' Hcreate Hrun. rewrite run_runMigrations, Hcreate in Hrun.
    destruct (run_apply_files (sc_applied s) files s r s') as (ran & rest & Hsplit & Happ & Hrep & Hres);
      [apply files_distinct|done|exact Hrun|].
    pose proof (pending_after s s' ran rest Hsplit Happ) as Hp. exists ran. rewrite Hp.
    split; [exact Hsplit|]. split; [done|]. split; [done|]. destruct r; [done|]. tauto. }
  destruct (create_fails s) as [e|] eqn:Hcreate.
  { rewrite run_runMigrations, Hcreate. exists []. simpl. rewrite app_nil_r. split_and!; auto. }
  destruct (run runMigrations s) as [r s'] eqn:Hrun. destruct (Hone s r s' Hcreate Hrun) as (ran & H1 & H2 & H3 & Hres).
  exists ran. split; [done|]. split; [done|]. split; [done|]. destruct r as [e|now]; [by right|].
  destruct Hres as [-> Hp]. split; [done|]. split; [done|]. intros Hcreate2.
  destruct (run runMigrations s') as [r2 s2] eqn:Hrun2.
  destruct (Hone s' r2 s2 Hcreate2 Hrun2) as (ran2 & Hs2 & Ha2 & Hr2 & Hres2). rewrite Hp in Hs2.
  symmetry in Hs2. apply app_nil in Hs2 as [-> Hp2]. simpl in *. rewrite app_nil_r in Ha2.
  assert (s2 = s') as -> by (destruct s2, s'; simpl in *; congruence).
  destruct r2 as [e|now2]; [|by destruct Hres2 as [-> _]]. destruct Hres2 as (f & rest & Hf & _). by rewrite Hp in Hf.
Qed.

(** * Runs that interleave *)

(** The state is the effect, on the initial one, of files that are distinct
    and recorded. *)
Definition consistent (t0 : T) (s : SchemaState T) : Prop :=
  ∃ ran, (∀ f, f ∈ ran → f ∈ files) ∧ NoDup (fst <$> ran) ∧ sc_applied s = fst <$> ran ∧
    replay ran t0 = Some (sc_state s).

Definition keeps_consistent (s s' : SchemaState T) : Prop := ∀ t0, consistent t0 s → consistent t0 s'.
#[local] Instance keeps_consistent_preorder : PreOrder keeps_consistent.
Proof. split; [by intros s t0|]. intros s1 s2 s3 H1 H2 t0 H. by apply H2, H1. Qed.

Lemma apply_file_consistent f : f ∈ files → respects keeps_consistent (apply_file f).
Proof.
  intros Hf. unfold apply_file. apply withTransaction_respects; [|by intros s e s' _ t0].
  intros s a s' Hrun t0 (ran & Hran & Hn & Ha & Hr).
  pose proof (run_apply_file f s) as Hfile. unfold apply_file in Hfile. rewrite run_withTransaction, Hrun in Hfile.
  destruct (f.2 (sc_state s)) as [e|t] eqn:He; [done|]. case_decide as Hin; [done|].
  injection Hfile as -> ->. exists (ran ++ [f]). split_and!.
  - intros g [Hg|Hg]%elem_of_app; [by apply Hran|]. by apply list_elem_of_singleton in Hg as ->.
  - rewrite fmap_app. apply NoDup_app. split; [done|]. split; [|apply NoDup_singleton].
    intros n Hn1 Hn2%list_elem_of_singleton. subst n. apply Hin. by rewrite Ha.
  - simpl. by rewrite Ha, fmap_app.
  - rewrite replay_app, Hr. simpl. by rewrite He.
Qed.

Lemma apply_files_consistent applied fs :
  (∀ f, f ∈ fs → f ∈ files) → respects keeps_consistent (apply_files applied fs).
Proof.
  induction fs as [|f fs IH]; intros Hfs; [done|]. cbn [apply_files].
  destruct (includes applied f.1); [apply IH; intros g Hg; apply Hfs; by right|].
  apply respects_bind; [apply apply_file_consistent, Hfs; by left|]. intros _.
  apply respects_bind; [apply IH; intros g Hg; apply Hfs; by right|]. by intros now.
Qed.

(** C38: Migrations are applied once, however many runners start at the same
    time (every replica of the server may run them): at every moment the
    schema is the effect of distinct files, each recorded, applied one after
    the other to the schema the database had at first. *)
Theorem migrations_once (t0 : T) (ps : list (Async (SchemaState T) E (list string)))
    (c' : list (Async (SchemaState T) E (list string)) * SchemaState T) :
  Forall (eq runMigrations) ps →
  rtc (pstep eq (eq runMigrations)) (ps, mkSchema [] t0) c' →
  consistent t0 c'.2 ∧ NoDup (sc_applied c'.2).
Proof.
  intros Hps Hsteps.
  assert (Hrun : respects keeps_consistent runMigrations).
  { unfold runMigrations. apply respects_bind; [by apply respects_attempt|]. intros _.
    apply respects_bind; [by apply respects_reads, _|]. intros applied. by apply apply_files_consistent. }
  destruct (pool_respects eq (eq runMigrations) keeps_consistent (ps, mkSchema [] t0) c') as [Hk _].
  { by intros s s' ->. }
  { by intros p <-. }
  { exact Hsteps. }
  { eapply Forall_impl; [exact Hps|]. by intros p <-. }
  assert (Hc : consistent t0 c'.2).
  { apply Hk. exists []. split; [by intros f Hf%elem_of_nil|]. split; [constructor|done]. }
  split; [exact Hc|]. destruct Hc as (ran & _ & Hn & -> & _). exact Hn.
Qed.
End migrate.

(** * At concrete inputs *)

Section witnesses.
Local Definition push (n : nat) (t : list nat) : outcome string (list nat) := Resolved (t ++ [n]).
Local Definition three_files : list (string * (list nat → outcome string (list nat))) :=
  [("003_third.sql", λ _, Rejected "syntax error"); ("001_first.sql", push 1); ("README", push 9);
   ("002_second.sql", push 2)].

Lemma three_distinct : NoDup (fst <$> three_files).
Proof. apply (bool_decide_unpack _). by vm_compute. Qed.

(** The third file fails; the second one stays. *)
Lemma migrations_resume_witness :
  let s := mkSchema ["001_first.sql"] [1%nat] in
  let '(r, s') := run (runMigrations "duplicate" three_files (λ _, None)) s in
  r = Rejected "syntax error" ∧ s' = mkSchema ["001_first.sql"; "002_second.sql"] [1%nat; 2%nat] ∧
  ∃ f rest, pending three_files s' = f :: rest ∧ f.1 = "003_third.sql".
Proof.
  intros s. pose proof (migrations_resume "duplicate" three_files (λ _, None) three_distinct s) as H.
  assert (E : run (runMigrations "duplicate" three_files (λ _, None)) s
    = (Rejected "syntax error", mkSchema ["001_first.sql"; "002_second.sql"] [1%nat; 2%nat])) by by vm_compute.
  rewrite E in H |- *. destruct H as (ran & _ & _ & _ & [[[=] _]|(f & rest & Hp & _)]). split; [done|]. split; [done|].
  exists f, rest. split; [exact Hp|]. assert (E2 : fst <$> pending three_files
    (mkSchema ["001_first.sql"; "002_second.sql"] [1%nat; 2%nat]) = ["003_third.sql"]) by by vm_compute.
  rewrite Hp in E2. by injection E2.
Defined.

Local Definition two_files : list (string * (list nat → outcome string (list nat))) :=
  [("002_second.sql", push 2); ("001_first.sql", push 1)].

(** Two replicas that start one after the other. *)
Lemma migrations_once_witness :
  let ps := replicate 2 (runMigrations "duplicate" two_files (λ _, None)) in
  let c := serve ps (mkSchema [] []) in
  sc_state c.2 = [1%nat; 2%nat] ∧ NoDup (sc_applied c.2).
Proof.
  intros ps c. split; [by vm_compute|].
  destruct (migrations_once "duplicate" two_files (λ _, None) [] ps c) as [_ H].
  - repeat constructor.
  - apply pool_serve.
  - exact H.
Defined.
End witnesses.
