(* ===== verification/Pool.v ===== *)
(** The connections of src/infrastructure/database/pool.ts: how a transaction
    takes a client out of the pool, drives it and gives it back, on every path;
    that it does what the one step [Database.withTransaction] does; and the
    audit sink (src/modules/audit/postgres-audit-sink.ts), which handles a
    client of its own. *)
From S2P Require Import Prelude Async Database.
From stdpp Require Import base gmap strings list relations.
Local Open Scope string_scope.
Local Open Scope list_scope.

(** * The driver *)

Definition client : Type := nat.

(** node-postgres: [pool.connect()], [client.query(text)] for BEGIN, COMMIT and
    ROLLBACK, a statement on the database as the client sees it, and
    [client.release()]. *)
Class Pg (S D E : Type) : Type := {
  pool_connect : S → outcome E client * S;
  client_control : client → string → S → outcome E () * S;
  client_statement {X} : client → (D → outcome E (X * D)) → S → outcome E X * S;
  client_release : client → S → S;
}.

(** What can be observed of the server and of the pool. *)
Class Observed (S D E : Type) : Type := {
  committed : S → D;
  (** the database as the client's open transaction has changed it *)
  workspace : S → client → option D;
  checked_out : S → gset client;
  (** the connection of the client is lost *)
  broken : S → client → Prop;
  (** the errors of the driver, as opposed to those of a statement *)
  fault : E → Prop;
}.

Section observed.
Context {S D E : Type} `{O : Observed S D E}.

Definition unmoved (s s' : S) : Prop := committed s' = committed s ∧ checked_out s' = checked_out s.

(** The open transactions of the other clients are as they were. *)
Definition others (c : client) (s s' : S) : Prop := ∀ c', c' ≠ c → workspace s' c' = workspace s c'.

Definition only (c : client) (s s' : S) : Prop := unmoved s s' ∧ others c s s'.

(** No client waits in the pool with an open transaction: the next one who
    takes it would go on with that transaction. *)
Definition clean (s : S) : Prop := ∀ c, c ∉ checked_out s → workspace s c = None.
End observed.

(** The documented behaviour. A transaction is isolated until it commits; a
    COMMIT whose answer is lost may have happened or not. BEGIN opens a
    transaction on a client that has none (on one that has, it is a warning and
    the open transaction goes on: no law). ROLLBACK fails only when the connection is
    lost, and the pool drops a client whose connection is lost. Any other is kept as it
    is: releasing it does not end its transaction. *)
Class PgLaws {S D E} (G : Pg S D E) (O : Observed S D E) : Prop := {
  connect_ok s c s' : pool_connect s = (Resolved c, s') →
    committed s' = committed s ∧ c ∉ checked_out s ∧ checked_out s' = {[c]} ∪ checked_out s ∧
    ∀ c', workspace s' c' = workspace s c';
  connect_fault s e s' : pool_connect s = (Rejected e, s') →
    fault e ∧ unmoved s s' ∧ ∀ c', workspace s' c' = workspace s c';
  begin_ok c s s' : workspace s c = None → client_control c "BEGIN" s = (Resolved (), s') →
    only c s s' ∧ workspace s' c = Some (committed s);
  begin_fault c s e s' : client_control c "BEGIN" s = (Rejected e, s') → fault e ∧ only c s s';
  statement_ok {X} c (op : D → outcome E (X * D)) s x s' d :
    workspace s c = Some d → client_statement c op s = (Resolved x, s') →
    only c s s' ∧ ∃ d', op d = Resolved (x, d') ∧ workspace s' c = Some d';
  statement_error {X} c (op : D → outcome E (X * D)) s e s' d :
    workspace s c = Some d → client_statement c op s = (Rejected e, s') →
    only c s s' ∧ (fault e ∨ op d = Rejected e);
  commit_ok c s s' d : workspace s c = Some d → client_control c "COMMIT" s = (Resolved (), s') →
    committed s' = d ∧ checked_out s' = checked_out s ∧ others c s s' ∧ workspace s' c = None;
  commit_fault c s e s' d : workspace s c = Some d → client_control c "COMMIT" s = (Rejected e, s') →
    fault e ∧ (committed s' = committed s ∨ committed s' = d) ∧ checked_out s' = checked_out s ∧ others c s s';
  rollback_ok c s s' : client_control c "ROLLBACK" s = (Resolved (), s') → only c s s' ∧ workspace s' c = None;
  rollback_fault c s e s' : client_control c "ROLLBACK" s = (Rejected e, s') → only c s s' ∧ broken s' c;
  release_law c s : committed (client_release c s) = committed s ∧
    checked_out (client_release c s) = checked_out s ∖ {[c]} ∧ others c s (client_release c s);
  release_broken c s : broken s c → workspace (client_release c s) c = None;
  release_idle c s : workspace s c = None → workspace (client_release c s) c = None;
}.

Section pool.
Context {S D E : Type} `{G : Pg S D E}.

Definition connect : Async S E client := attempt pool_connect.
Definition control (c : client) (text : string) : Async S E () := attempt (client_control c text).
Definition query {X} (op : D → outcome E (X * D)) (c : client) : Async S E X := attempt (client_statement c op).
Definition give_back (c : client) : Async S E () := writes (client_release c).

(** [withTransaction(fn)] *)
Definition transaction {A} (fn : client → Async S E A) : Async S E A :=
  c ← connect;
  finally
    (catch (λ err, _ ← catch (λ _, mret ()) (control c "ROLLBACK"); Throw err)
       (_ ← control c "BEGIN";
        result ← fn c;
        _ ← control c "COMMIT";
        mret result))
    (give_back c).

(** [withClient()] as the audit sink uses it: the client is given back, and a
    failed insertion is only logged. *)
Definition sink_write (insert : client → Async S E ()) : Async S E () :=
  c ← connect;
  finally (catch (λ _, mret ()) (insert c)) (give_back c).
End pool.

Section laws.
Context {S D E : Type} {G : Pg S D E} {O : Observed S D E} {L : PgLaws G O}.
Implicit Types (s : S) (d : D) (c : client).

#[export] Instance unmoved_preorder : PreOrder unmoved.
Proof. split; [by split|]. intros s1 s2 s3 [H1 H2] [H3 H4]. split; congruence. Qed.

#[export] Instance only_preorder c : PreOrder (only c).
Proof.
  split; [by split|]. intros s1 s2 s3 [H1 H2] [H3 H4]. split; [by etrans|]. intros c' Hc. by rewrite H4, H2.
Qed.

(** * Statements in a transaction

    [within fn p]: on a client with an open transaction, [p] does to the
    client's view of the database what [fn] does to a database. *)
Definition within {A} (fn : Async D E A) (p : client → Async S E A) : Prop :=
  ∀ c s d, workspace s c = Some d →
    let '(r, s') := run (p c) s in
    only c s s' ∧
    match r with
    | Resolved a => ∃ d', run fn d = (Resolved a, d') ∧ workspace s' c = Some d'
    | Rejected e => fault e ∨ ∃ d', run fn d = (Rejected e, d')
    end.

(** A statement of the database alone: a refused one changes nothing. *)
Definition statement {X} (op : D → outcome E (X * D)) : Async D E X :=
  attempt (λ d, match op d with Resolved (x, d') => (Resolved x, d') | Rejected e => (Rejected e, d) end).

Lemma within_statement {X} (op : D → outcome E (X * D)) : within (statement op) (query op).
Proof.
  intros c s d Hd. unfold query, statement. rewrite !run_attempt.
  destruct (client_statement c op s) as [[e|x] s'] eqn:Hq.
  - destruct (statement_error _ _ _ _ _ _ Hd Hq) as [Hu [Hf| ->]]; (split; [done|]); [by left|right; by eexists].
  - destruct (statement_ok _ _ _ _ _ _ Hd Hq) as (Hu & d' & -> & Hw). split; [done|]. by eexists.
Qed.

Lemma within_ret {A} (a : A) : within (mret a) (λ _, mret a).
Proof. intros c s d Hd. split; [done|]. by exists d. Qed.

Lemma within_throw {A} (e : E) : within (Throw e : Async D E A) (λ _, Throw e).
Proof. intros c s d Hd. split; [done|]. right. by exists d. Qed.

Lemma within_bind {A B} (fn : Async D E A) (p : client → Async S E A) (k : A → Async D E B) (q : A → client → Async S E B) :
  within fn p → (∀ a, within (k a) (q a)) → within (fn ≫= k) (λ c, p c ≫= λ a, q a c).
Proof.
  intros Hp Hq c s d Hd. specialize (Hp c s d Hd). rewrite run_bind.
  pose proof (run_bind fn k d) as Hfn.
  destruct (run (p c) s) as [[e|a] s1]; destruct Hp as [Hu Hp].
  - split; [done|]. destruct Hp as [Hf|[d' Hd']]; [by left|right]. exists d'. by rewrite Hfn, Hd'.
  - destruct Hp as (d1 & Hd1 & Hw). rewrite Hd1 in Hfn. specialize (Hq a c s1 d1 Hw). rewrite <- Hfn in Hq.
    destruct (run (q a c) s1) as [r s2]. destruct Hq as [Hu2 Hq]. split; [by etrans|exact Hq].
Qed.

(** * Transactions *)

(** The client has no open transaction, or the pool will drop it. *)
Definition done_with (c : client) (s : S) : Prop := workspace s c = None ∨ broken s c.

Lemma run_rollback c s :
  ∃ s', run (catch (λ _, mret ()) (control c "ROLLBACK") : Async S E ()) s = (Resolved (), s') ∧
    only c s s' ∧ done_with c s'.
Proof.
  rewrite run_catch. unfold control. rewrite run_attempt.
  destruct (client_control c "ROLLBACK" s) as [[e|[]] s1] eqn:Hr.
  - destruct (rollback_fault _ _ _ _ Hr). exists s1. by split_and!; [..|right].
  - destruct (rollback_ok _ _ _ Hr). exists s1. by split_and!; [..|left].
Qed.

(** What the body of the transaction leaves, before the client is released. *)
Definition settled_as {A} (fn : Async D E A) (d : D) (r : outcome E A) (d' : D) : Prop :=
  let whole := run (withTransaction (λ d, d) (λ d0 _, d0) fn) d in
  match r with
  | Resolved a => whole = (Resolved a, d')
  | Rejected e => whole = (Rejected e, d') ∨
      fault e ∧ (d' = d ∨ ∃ a, whole = (Resolved a, d'))
  end.

Lemma run_rolled_back {A} c (err : E) s :
  ∃ s', run (_ ← catch (λ _, mret ()) (control c "ROLLBACK"); Throw err : Async S E A) s = (Rejected err, s') ∧
    only c s s' ∧ done_with c s'.
Proof. destruct (run_rollback c s) as (s' & Hr & Hu). exists s'. by rewrite (run_bind_eq _ _ _ _ _ Hr). Qed.

Lemma run_driven {A} (fn : Async D E A) (p : client → Async S E A) c s :
  within fn p → workspace s c = None →
  ∃ r s', run (_ ← control c "BEGIN"; result ← p c; _ ← control c "COMMIT"; mret result) s = (r, s') ∧
    settled_as fn (committed s) r (committed s') ∧ checked_out s' = checked_out s ∧ others c s s' ∧
    match r with Resolved _ => workspace s' c = None | Rejected _ => True end.
Proof.
  intros Hp Hnone. unfold settled_as. rewrite run_withTransaction, run_bind. unfold control at 1. rewrite run_attempt.
  destruct (client_control c "BEGIN" s) as [[e|[]] s1] eqn:Hb.
  { destruct (begin_fault _ _ _ _ Hb) as (Hf & [Hc Ho] & Hoth). eexists _, s1. split; [done|]. auto. }
  destruct (begin_ok _ _ _ Hnone Hb) as [Hon1 Hw1]. specialize (Hp c s1 _ Hw1). rewrite run_bind.
  destruct (run (p c) s1) as [[e|a] s2]; destruct Hp as [Hon2 Hp];
    pose proof (PreOrder_Transitive _ _ _ Hon1 Hon2) as [[Hc2 Ho2] Hoth2].
  { eexists _, s2. split; [done|]. split; [|done]. rewrite Hc2.
    destruct Hp as [Hf|[d' ->]]; [right; by auto|by left]. }
  destruct Hp as (d2 & -> & Hw2). rewrite run_bind. unfold control. rewrite run_attempt.
  destruct (client_control c "COMMIT" s2) as [[e|[]] s3] eqn:Hcm.
  - destruct (commit_fault _ _ _ _ _ Hw2 Hcm) as (Hf & Hc3 & Ho3 & Hoth3). eexists _, s3. split; [done|].
    split; [right; split; [done|]|split; [congruence|split; [|done]]].
    + destruct Hc3 as [-> | ->]; [left; congruence|right; by exists a].
    + intros c' Hc'. by rewrite Hoth3, Hoth2.
  - destruct (commit_ok _ _ _ _ Hw2 Hcm) as (<- & Ho3 & Hoth3 & Hw3). eexists _, s3. split; [done|]. split; [done|].
    split; [congruence|]. split; [|done]. intros c' Hc'. by rewrite Hoth3, Hoth2.
Qed.

(** Giving back a client that is done with. *)
Lemma released_clean c s0 s s' :
  clean s0 → (∀ c', c' ≠ c → workspace s c' = workspace s0 c') → done_with c s →
  checked_out s = {[c]} ∪ checked_out s0 → c ∉ checked_out s0 → s' = client_release c s →
  clean s' ∧ checked_out s' = checked_out s0.
Proof.
  intros Hclean Hoth Hdone Ho Hfresh ->. destruct (release_law c s) as (_ & Ho' & Hoth').
  assert (Hback : checked_out (client_release c s) = checked_out s0) by (rewrite Ho', Ho; set_solver).
  split; [|exact Hback]. intros c' Hc'. rewrite Hback in Hc'. destruct (decide (c' = c)) as [->|Hne].
  - destruct Hdone; [by apply release_idle|by apply release_broken].
  - rewrite Hoth', Hoth by done. by apply Hclean.
Qed.

(** C37: The detailed transaction implements the one-step transaction the rest of
    the library uses, and gives its client back without an open transaction. From a pool in
    which no idle client has one, it ends as the one step does,
    with the same effect on the database; when the driver fails at any of its
    steps the call is rejected and nothing has changed, or the lost answer was
    the one to COMMIT and everything has. On every path the same clients are out
    of the pool afterwards as before, and again no idle client has an open
    transaction, so that the next one begins afresh. *)
Theorem transaction_refined {A} (fn : Async D E A) (p : client → Async S E A) s :
  within fn p → clean s →
  let '(r, s') := run (transaction p) s in
  clean s' ∧ checked_out s' = checked_out s ∧ settled_as fn (committed s) r (committed s').
Proof.
  intros Hp Hclean. unfold transaction, connect. rewrite run_bind, run_attempt.
  destruct (pool_connect s) as [[e|c] s1] eqn:Hcn.
  { destruct (connect_fault _ _ _ Hcn) as (Hf & [Hc Ho] & Hw). split; [|split; [done|right; auto]].
    intros c Hc'. rewrite Hw. apply Hclean. by rewrite <- Ho. }
  destruct (connect_ok _ _ _ Hcn) as (Hc1 & Hfresh & Ho1 & Hw1).
  unfold give_back. rewrite run_finally, run_catch.
  destruct (run_driven fn p c s1 Hp) as (r & s2 & -> & Hsettled & Ho2 & Hoth2 & Hok).
  { rewrite Hw1. by apply Hclean. }
  rewrite Hc1 in Hsettled.
  assert (Hw2 : ∀ c', c' ≠ c → workspace s2 c' = workspace s c') by (intros c' Hne; by rewrite Hoth2, Hw1).
  destruct r as [e|a]; cbn [fst snd].
  - destruct (run_rolled_back (A := A) c e s2) as (s3 & -> & [[Hc3 Ho3] Hoth3] & Hdone). cbn [fst snd].
    rewrite (proj1 (release_law c s3)), Hc3.
    destruct (released_clean c s s3 (client_release c s3)) as [? ?]; try done; [|congruence].
    intros c' Hne. by rewrite Hoth3, Hw2.
  - rewrite (proj1 (release_law c s2)).
    destruct (released_clean c s s2 (client_release c s2)) as [? ?]; try done; [by left|congruence].
Qed.

(** * The audit sink *)

(** The sink gives its client back and throws only when it did not get one. *)
Theorem sink_write_safe (insert : client → Async S E ()) s :
  (∀ c s, checked_out (run (insert c) s).2 = checked_out s) →
  let '(r, s') := run (sink_write insert) s in
  checked_out s' = checked_out s ∧ ∀ e, r = Rejected e → fault e ∧ committed s' = committed s.
Proof.
  intros Hins. unfold sink_write, connect. rewrite run_bind, run_attempt.
  destruct (pool_connect s) as [[e|c] s1] eqn:Hcn.
  { destruct (connect_fault _ _ _ Hcn) as (Hf & [Hc Ho] & _). split; [done|]. by intros ? [= <-]. }
  destruct (connect_ok _ _ _ Hcn) as (_ & Hfresh & Ho1 & _). unfold give_back. rewrite run_finally, run_catch.
  specialize (Hins c s1). destruct (run (insert c) s1) as [[e|[]] s2]; cbn in *;
    (split; [rewrite (proj1 (proj2 (release_law c s2))), Hins, Ho1; set_solver|done]).
Qed.
End laws.

(** * A concrete driver

    It loses a connection when its list of faults says so. *)

Section toy.
Context {D : Type}.

Record ToyPool : Type := mkToyPool {
  tp_db : D; tp_out : gset nat; tp_open : gmap nat D; tp_lost : gset nat; tp_faults : list bool;
}.

Definition toy_query {X} (c : client) (op : ToyPool → outcome string X * ToyPool) (s : ToyPool)
    : outcome string X * ToyPool :=
  let '(mkToyPool db out open lost faults) := s in
  if default false (head faults) || bool_decide (c ∈ lost)
  then (Rejected "fault", mkToyPool db out open ({[c]} ∪ lost) (tail faults))
  else op (mkToyPool db out open lost (tail faults)).

Definition toy_control (c : client) (text : string) (s : ToyPool) : outcome string () * ToyPool :=
  let '(mkToyPool db out open lost faults) := s in
  (Resolved (),
   if bool_decide (text = "BEGIN") then mkToyPool db out (<[c := default db (open !! c)]> open) lost faults
   else mkToyPool (if bool_decide (text = "COMMIT") then default db (open !! c) else db) out (delete c open) lost faults).

Definition toy_statement {X} (c : client) (op : D → outcome string (X * D)) (s : ToyPool) : outcome string X * ToyPool :=
  let '(mkToyPool db out open lost faults) := s in
  match op (default db (open !! c)) with
  | Rejected e => (Rejected e, s)
  | Resolved (x, d') =>
      (Resolved x, match open !! c with
                   | Some _ => mkToyPool db out (<[c := d']> open) lost faults
                   | None => mkToyPool d' out open lost faults
                   end)
  end.

#[export] Instance toy_pg : Pg ToyPool D string := {|
  pool_connect s :=
    let '(mkToyPool db out open lost faults) := s in
    if default false (head faults) then (Rejected "fault", mkToyPool db out open lost (tail faults))
    else (Resolved (fresh out), mkToyPool db ({[fresh out]} ∪ out) open lost (tail faults));
  client_control c text := toy_query c (toy_control c text);
  client_statement X c op := toy_query c (toy_statement c op);
  client_release c s :=
    let '(mkToyPool db out open lost faults) := s in
    if bool_decide (c ∈ lost) then mkToyPool db (out ∖ {[c]}) (delete c open) (lost ∖ {[c]}) faults
    else mkToyPool db (out ∖ {[c]}) open lost faults;
|}.

#[export] Instance toy_observed : Observed ToyPool D string := {|
  committed := tp_db;
  workspace s c := tp_open s !! c;
  checked_out := tp_out;
  broken s c := c ∈ tp_lost s;
  fault e := e = "fault";
|}.

Lemma toy_query_inv {X} c (op : ToyPool → outcome string X * ToyPool) s r s' :
  toy_query c op s = (r, s') →
  (r = Rejected "fault" ∧ only c s s' ∧ workspace s' c = workspace s c ∧ broken s' c) ∨
  op (mkToyPool (tp_db s) (tp_out s) (tp_open s) (tp_lost s) (tail (tp_faults s))) = (r, s').
Proof.
  destruct s as [db out open lost faults]. unfold toy_query.
  destruct (default false (head faults) || bool_decide (c ∈ lost)); [|by right].
  intros [= <- <-]. left. split_and!; try done. cbn. set_solver.
Qed.

#[export] Instance toy_laws : PgLaws toy_pg toy_observed.
Proof.
  split.
  - intros [db out open lost faults] c s'. cbn. destruct (default _ _); [done|]. intros [= <- <-].
    split_and!; [done|apply is_fresh|done..].
  - intros [db out open lost faults] e s'. cbn. destruct (default _ _); [|done]. by intros [= <- <-].
  - intros c s s' Hn [(? & _)|[= <-]]%toy_query_inv; [done|]. cbn in *. rewrite Hn. split.
    + split; [done|]. intros c' Hc. cbn. by rewrite lookup_insert_ne.
    + by rewrite lookup_insert_eq.
  - intros c s e s' [(? & ? & _)|?]%toy_query_inv; [|done]. by simplify_eq.
  - intros X c op s x s' d Hd [(? & _)|H]%toy_query_inv; [done|]. cbn in *. rewrite Hd in H. cbn in H.
    destruct (op d) as [e|[y d']] eqn:Hop; [done|]. injection H as <- <-. split.
    + split; [done|]. intros c' Hc. cbn. by rewrite lookup_insert_ne.
    + exists d'. split; [done|]. cbn. by rewrite lookup_insert_eq.
  - intros X c op s e s' d Hd [(? & ? & _)|H]%toy_query_inv.
    + simplify_eq. split; [done|by left].
    + cbn in *. rewrite Hd in H. cbn in H. destruct (op d) as [e'|[y d']]; [|done]. injection H as <- <-.
      split; [done|by right].
  - intros c s s' d Hd [(? & _)|[= <-]]%toy_query_inv; [done|]. cbn in *. rewrite Hd.
    split_and!; [done..| |by rewrite lookup_delete_eq]. intros c' Hc. cbn. by rewrite lookup_delete_ne.
  - intros c s e s' d Hd [(? & [[? ?] ?] & _)|?]%toy_query_inv; [|done]. simplify_eq. split_and!; [done|by left|done..].
  - intros c s s' [(? & _)|[= <-]]%toy_query_inv; [done|]. split; [|cbn; by rewrite lookup_delete_eq].
    split; [done|]. intros c' Hc. cbn. by rewrite lookup_delete_ne.
  - intros c s e s' [(_ & ? & _ & ?)|?]%toy_query_inv; done.
  - intros c [db out open lost faults]. cbn. case_bool_decide; split_and!; try done.
    intros c' Hc. cbn. by rewrite lookup_delete_ne.
  - intros c [db out open lost faults] Hb. cbn in *. rewrite bool_decide_eq_true_2 by done. cbn.
    by rewrite lookup_delete_eq.
  - intros c [db out open lost faults] Hn. cbn in *. case_bool_decide; [|done]. cbn. by rewrite lookup_delete_eq.
Qed.
End toy.
Arguments ToyPool D : clear implicits.

(** A row is inserted and its name recorded, in one transaction. *)
Definition toy_insert (x : string) (d : list string) : outcome string (() * list string) :=
  if decide (x ∈ d) then Rejected "duplicate" else Resolved ((), d ++ [x]).

(** The second statement of the transaction is refused: nothing is written, no
    client is lost, and none waits in the pool with the transaction open. *)
Lemma transaction_refined_witness :
  let s := mkToyPool (D := list string) [] ∅ ∅ ∅ [] in
  let p c : Async _ _ () := _ ← query (toy_insert "a") c; query (toy_insert "a") c in
  (run (transaction p) s).1 = Rejected "duplicate" ∧ clean (run (transaction p) s).2 ∧
  checked_out (run (transaction p) s).2 = ∅ ∧ committed (run (transaction p) s).2 = [].
Proof.
  set (s := mkToyPool _ _ _ _ _). set (p := λ c, _). cbn zeta.
  pose proof (transaction_refined (O := toy_observed)
    (_ ← statement (toy_insert "a"); statement (toy_insert "a")) p s) as H.
  destruct (run (transaction p) s) as [r s'] eqn:Hr. destruct H as (Hc & Ho & _).
  { apply within_bind; [apply within_statement|intros _; apply within_statement]. }
  { intros c _. apply lookup_empty. }
  revert Hr. vm_compute. intros Hr. split; [by injection Hr as <- _|]. split; [exact Hc|].
  split; [exact Ho|by injection Hr as _ <-].
Defined.

(** The COMMIT of the transaction loses the connection: the client is dropped. *)
Example lost_commit :
  let s := mkToyPool (D := list string) [] ∅ ∅ ∅ [false; false; false; true] in
  run (transaction (query (toy_insert "a"))) s = (Rejected "fault", mkToyPool [] ∅ ∅ ∅ []).
Proof. vm_compute. reflexivity. Qed.
