(* ===== verification/Evolution.v ===== *)
(** How the store evolves: the order along which the rows of each table move,
    whatever operation of the program runs, and the counting argument behind
    every single-use credential. *)
From S2P Require Import Prelude Async JsString Errors Store.
From stdpp Require Import base gmap strings list relations.
From Stdlib Require Import ZArith.
Local Open Scope Z_scope.

(** * Row orders *)

(** A refresh token keeps its identity; its status moves forward along
    active < rotated < revoked. *)
Definition rt_rank (s : rt_status) : nat :=
  match s with RActive => 0 | RRotated => 1 | RRevoked => 2 end.

Definition rt_core (r : RefreshTokenRow) :=
  (rt_id r, rt_session_id r, rt_user_id r, rt_client_id r, rt_token_hash r,
   rt_family_id r, rt_previous_token_id r, rt_scope r, rt_expires_at r).

Definition rt_le (r r' : RefreshTokenRow) : Prop :=
  rt_core r' = rt_core r ∧ (rt_rank (rt_status_ r) ≤ rt_rank (rt_status_ r'))%nat.

#[export] Instance rt_le_preorder : PreOrder rt_le.
Proof.
  split.
  - by intros r.
  - intros r1 r2 r3 [H1 H2] [H3 H4]. split; [congruence | lia].
Qed.

Lemma rt_le_core r r' : rt_le r r' → rt_core r' = rt_core r.
Proof. by intros []. Qed.

Lemma rt_le_hash r r' : rt_le r r' → rt_token_hash r' = rt_token_hash r.
Proof. intros [H _]. unfold rt_core in H. congruence. Qed.

(** A session keeps its identity; a revoked one stays revoked, and a passed
    second factor stays passed. *)
Definition sess_core (s : SessionRow) :=
  (s_id s, s_user_id s, s_client_id s, s_ip s, s_user_agent s, s_device_id s,
   s_expires_at s).

Definition sess_le (s s' : SessionRow) : Prop :=
  sess_core s' = sess_core s ∧ (s_status s = SRevoked → s_status s' = SRevoked) ∧
  (s_mfa_passed s = true → s_mfa_passed s' = true).

#[export] Instance sess_le_preorder : PreOrder sess_le.
Proof.
  split.
  - by intros s.
  - intros s1 s2 s3 (H1 & H2 & H3) (H4 & H5 & H6). split; [congruence | auto].
Qed.

Lemma sess_le_id s s' : sess_le s s' → s_id s' = s_id s.
Proof. intros [H _]. unfold sess_core in H. congruence. Qed.

(** An authorization code and an e-mail token keep their contents and stay
    used once used. *)
Definition ac_le (c c' : AuthorizationCodeRow) : Prop :=
  c' <| ac_consumed_at := None |> = c <| ac_consumed_at := None |> ∧
  (is_Some (ac_consumed_at c) → is_Some (ac_consumed_at c')).

#[export] Instance ac_le_preorder : PreOrder ac_le.
Proof.
  split.
  - by intros c.
  - intros c1 c2 c3 [H1 H2] [H3 H4]. split; [congruence | auto].
Qed.

Lemma ac_le_hash c c' : ac_le c c' → ac_code_hash c' = ac_code_hash c.
Proof. intros [H _]. by injection H. Qed.

Lemma ac_le_id c c' : ac_le c c' → ac_id c' = ac_id c.
Proof. intros [H _]. by injection H. Qed.

Definition et_le (e e' : EmailTokenRow) : Prop :=
  e' <| et_used_at := None |> = e <| et_used_at := None |> ∧
  (is_Some (et_used_at e) → is_Some (et_used_at e')).

#[export] Instance et_le_preorder : PreOrder et_le.
Proof.
  split.
  - by intros e.
  - intros e1 e2 e3 [H1 H2] [H3 H4]. split; [congruence | auto].
Qed.

Lemma et_le_hash e e' : et_le e e' → et_token_hash e' = et_token_hash e.
Proof. intros [H _]. by injection H. Qed.

(** A user keeps its id, its address and its creation time. Addresses are
    [CITEXT]: compared without regard to case. *)
Definition u_email_key (u : UserRow) : string := to_lower (u_email u).

Definition user_le (u u' : UserRow) : Prop :=
  u_id u' = u_id u ∧ u_email u' = u_email u ∧ u_created_at u' = u_created_at u.

#[export] Instance user_le_preorder : PreOrder user_le.
Proof. split; [by intros u | intros u1 u2 u3 (?&?&?) (?&?&?); split_and!; congruence]. Qed.

Lemma user_le_email u u' : user_le u u' → u_email_key u' = u_email_key u.
Proof. intros (_ & H & _). unfold u_email_key. by rewrite H. Qed.

(** * The step relation of the store *)

Definition rt_step : relation World :=
  pull (λ w, refresh_tokens (w_db w)) (evolves rt_le rt_token_hash).
Definition sess_step : relation World :=
  pull (λ w, sessions (w_db w)) (evolves sess_le s_id).
(** Both the id and the hash of a code are unique. *)
Record code_evolves (t t' : list AuthorizationCodeRow) : Prop := mk_code_evolves {
  evolves_code_hash : evolves ac_le ac_code_hash t t';
  evolves_code_id : evolves ac_le ac_id t t';
}.

#[export] Instance code_evolves_preorder : PreOrder code_evolves.
Proof.
  split; [by intros t|]. intros t1 t2 t3 [] []. by split; etrans.
Qed.

Definition code_step : relation World := pull (λ w, authorization_codes (w_db w)) code_evolves.
Definition verification_step : relation World :=
  pull (λ w, email_verifications (w_db w)) (evolves et_le et_token_hash).
Definition reset_step : relation World :=
  pull (λ w, password_reset_tokens (w_db w)) (evolves et_le et_token_hash).
(** Both the id and the address of a user are unique. *)
Record user_evolves (t t' : list UserRow) : Prop := mk_user_evolves {
  evolves_email : evolves user_le u_email_key t t';
  evolves_id : evolves user_le u_id t t';
}.

#[export] Instance user_evolves_preorder : PreOrder user_evolves.
Proof.
  split; [by intros t|]. intros t1 t2 t3 [] []. by split; etrans.
Qed.

Definition user_step : relation World := pull (λ w, users (w_db w)) user_evolves.
Definition audit_step : relation World := pull (λ w, audit_logs (w_db w)) prefix.
Definition time_step (w w' : World) : Prop :=
  w_now w ≤ w_now w' ∧ (w_draws w ≤ w_draws w')%N.

#[export] Instance rt_step_preorder : PreOrder rt_step := pull_preorder _ _.
#[export] Instance sess_step_preorder : PreOrder sess_step := pull_preorder _ _.
#[export] Instance code_step_preorder : PreOrder code_step := pull_preorder _ _.
#[export] Instance verification_step_preorder : PreOrder verification_step := pull_preorder _ _.
#[export] Instance reset_step_preorder : PreOrder reset_step := pull_preorder _ _.
#[export] Instance user_step_preorder : PreOrder user_step := pull_preorder _ _.
#[export] Instance audit_step_preorder : PreOrder audit_step := pull_preorder _ _.
#[export] Instance time_step_preorder : PreOrder time_step.
Proof. split; [by intros w | intros w1 w2 w3 [] []; split; lia]. Qed.

(** Every operation of the program moves the store along [step]. *)
Record step (w w' : World) : Prop := mk_step {
  step_rt : rt_step w w';
  step_sess : sess_step w w';
  step_code : code_step w w';
  step_verification : verification_step w w';
  step_reset : reset_step w w';
  step_user : user_step w w';
  step_audit : audit_step w w';
  step_time : time_step w w';
}.

#[export] Instance step_preorder : PreOrder step.
Proof.
  split.
  - by intros w.
  - intros w1 w2 w3 [] []. by split; etrans.
Qed.

(** The part of the store [step] constrains. *)
Definition stepped (w : World) :=
  (refresh_tokens (w_db w), sessions (w_db w), authorization_codes (w_db w),
   email_verifications (w_db w), password_reset_tokens (w_db w), users (w_db w),
   audit_logs (w_db w), (w_now w, w_draws w)).

Lemma step_same w w' : same stepped w w' → step w w'.
Proof.
  unfold same, stepped. intros [= E1 E2 E3 E4 E5 E6 E7 E8 E9].
  split; unfold time_step, rt_step, sess_step, code_step, verification_step, reset_step,
    user_step, audit_step, pull; rewrite ?E1, ?E2, ?E3, ?E4, ?E5, ?E6, ?E7, ?E8, ?E9;
    first [done | lia].
Qed.

(** A statement that changes one table, the others being as before: what is
    left to prove is the evolution of that table. *)
Ltac step_tables :=
  split; unfold time_step, rt_step, sess_step, code_step, verification_step, reset_step,
    user_step, audit_step, pull; simpl; try done; try lia.

Lemma user_evolves_update (Q : UserRow → Prop) `{!∀ u, Decision (Q u)} f t :
  (∀ u, Q u → user_le u (f u)) → user_evolves t (sql_update Q f t).
Proof.
  intros Hf. split; apply evolves_update; try done; try apply _.
  - apply user_le_email.
  - by intros u u' [].
Qed.

(** Prove [respects step p] along the structure of [p]; the operations of
    the components are found in the database [steps]. *)
Ltac respects_step :=
  lazymatch goal with
  | |- respects _ (mbind _ _) => apply respects_bind; [respects_step | intros ?; respects_step]
  | |- respects _ (catch _ _) => apply respects_catch; [respects_step | intros ?; respects_step]
  | |- respects _ (mret _) => exact I
  | |- respects _ (Throw _) => exact I
  | |- respects _ (Ret _) => exact I
  | |- respects _ (for_each _ _) => apply respects_for_each; intros ?; respects_step
  | |- respects _ (let '(_, _) := ?x in _) => destruct x; respects_step
  | |- respects _ (match ?x with _ => _ end) => destruct x; respects_step
  | |- _ => try solve [eauto 3 with steps typeclass_instances]
  end.

Lemma respects_step_same {A} (p : M A) : keeps stepped p → respects step p.
Proof. apply respects_mono. exact step_same. Qed.

Lemma now_step : respects step now_ms.
Proof. apply respects_reads, _. Qed.
Lemma select_step {X} (q : Db → X) : respects step (db_select q).
Proof. apply respects_reads, _. Qed.
Lemma draw_step {X} (f : N → X) : respects step (draw f).
Proof. apply respects_atomically. intros w. step_tables. Qed.
#[export] Hint Resolve now_step select_step draw_step : steps.

(** * Single-use rows

    A row of a table with a unique column is live until it is taken: the
    number of rows carrying a value that are no longer live counts the takes
    of that value. *)

Section single_use.
Context {R : Type} (tbl : World → list R) (le : R → R → Prop) `{!PreOrder le}.
Context (key : R → string) (live : R → Prop) `{!∀ r, Decision (live r)}.
Context (le_key : ∀ r r', le r r' → key r' = key r).
Context (le_live : ∀ r r', le r r' → live r' → live r).

Definition spent (h : string) (r : R) : Prop := key r = h ∧ ¬ live r.
#[global] Instance spent_dec h r : Decision (spent h r).
Proof. unfold spent. apply _. Defined.

Definition spent_count (h : string) (w : World) : nat := sql_count (spent h) (tbl w).
Definition key_unique (w : World) : Prop := NoDup (key <$> tbl w).

Lemma spent_le h r r' : le r r' → spent h r → spent h r'.
Proof.
  intros Hle [Hh Hl]. split; [by rewrite (le_key r)|].
  intros Hl'. by apply Hl, (le_live r r').
Qed.

Lemma spent_count_mono h w w' :
  pull tbl (evolves le key) w w' → (spent_count h w ≤ spent_count h w')%nat.
Proof. intros [Hg _]. apply (grows_count le); [|done]. intros r r'. apply spent_le. Qed.

Lemma spent_count_max h w : key_unique w → (spent_count h w ≤ 1)%nat.
Proof. intros Hu. apply (sql_count_unique _ key h); [exact Hu|]. by intros r []. Qed.

Lemma evolves_earns {A} h (Q : nat → A → Prop) n (p : M A) :
  respects (pull tbl (evolves le key)) p → (∀ m a, (n ≤ m)%nat → Q m a) →
  earns key_unique (spent_count h) Q n p.
Proof.
  intros Hp. apply earns_respects. eapply respects_mono; [|exact Hp].
  intros w w' Hs Hu. split; [by apply Hs | by apply spent_count_mono].
Qed.

(** [UPDATE .. SET f WHERE Q RETURNING] with [Q] implying that the row is
    live: the call that gets the row has spent it. *)
Lemma take_earns h (Q : World → R → Prop) `{!∀ w r, Decision (Q w r)}
    (f : World → R → R) (take : World → option R * World) n :
  (∀ w r, Q w r → live r ∧ ¬ live (f w r) ∧ le r (f w r)) →
  (∀ w, (take w).1 = f w <$> sql_first (Q w) (tbl w)) →
  (∀ w, tbl (take w).2 = sql_update (Q w) (f w) (tbl w)) →
  earns key_unique (spent_count h)
    (λ m res, ∀ r, res = Some r →
       (key r = h → (1 ≤ m)%nat) ∧ ∃ w r0, Q w r0 ∧ r = f w r0)
    n (atomically take : M (option R)).
Proof.
  intros HQ Hres Htbl. apply earns_atomically. intros w Hu.
  assert (Hstep : pull tbl (evolves le key) w (take w).2).
  { unfold pull. rewrite Htbl. apply evolves_update; [done | intros r Hr; by apply (HQ w) | done]. }
  split; [by apply Hstep|]. split; [by apply spent_count_mono|].
  rewrite Hres. destruct (sql_first (Q w) (tbl w)) as [r|] eqn:Hf; simpl; [|done].
  apply sql_first_Some in Hf as [Hr Hin]. destruct (HQ w r Hr) as (Hl & Hnl & Hle).
  intros ? [= <-]. split; [|by exists w, r]. rewrite (le_key r) by done. intros Hh.
  enough (spent_count h w < spent_count h (take w).2)%nat by lia.
  unfold spent_count. rewrite Htbl. apply (sql_count_update_lt _ _ _ _ r); try done.
  - intros r' Hs Hr'. eapply spent_le; [|done]. by apply (HQ w).
  - by intros [_ ?].
  - split; [by rewrite (le_key r) | done].
Qed.

(** Any interleaving of calls that earn what they win, among statements that
    move the table forward: one winner at most. *)
Lemma single_use_pool {A} (h : string) (win : A → bool) (env : World → World → Prop)
    (adm : M A → Prop) (ps ps' : list (M A)) (w w' : World) :
  (∀ v v', env v v' → pull tbl (evolves le key) v v') →
  (∀ p, adm p → earns key_unique (spent_count h) (earned win) 0 p) →
  key_unique w → Forall adm ps →
  rtc (pstep env adm) (ps, w) (ps', w') → (winners win ps' ≤ 1)%nat.
Proof.
  intros Henv Hadm Hu Hps Hsteps.
  assert (∀ v v', env v v' → key_unique v →
    key_unique v' ∧ (spent_count h v ≤ spent_count h v')%nat) as Henv'.
  { intros v v' Hv Hu'. apply Henv in Hv. split; [by apply Hv | by apply spent_count_mono]. }
  pose proof (pool_winners _ _ _ _ _ _ _ Henv' Hadm Hsteps Hu
    (Forall_impl _ _ _ Hps Hadm)) as [Hle Hu']. simpl in Hle, Hu'.
  pose proof (spent_count_max h w' Hu'). lia.
Qed.
End single_use.
