(* ===== verification/Toy.v ===== *)
(** A concrete instance of the external libraries, used by the witnesses: the
    hashes are encodings of their argument and the random source counts. *)
From S2P Require Import Prelude JsString Errors Store.
From stdpp Require Import base gmap strings pretty countable list.
From Stdlib Require Import ZArith Ascii.
Local Open Scope string_scope.

(** Two hexadecimal digits per character. *)
Definition hex_digit (n : N) : ascii :=
  if (n <? 10)%N then ascii_of_N (48 + n) else ascii_of_N (87 + n).

Fixpoint hex_encode (s : string) : string :=
  match s with
  | EmptyString => EmptyString
  | String c s =>
      String (hex_digit (N_of_ascii c / 16))
        (String (hex_digit (N_of_ascii c mod 16)) (hex_encode s))
  end.

Lemma hex_digits_inj c c' :
  hex_digit (N_of_ascii c / 16) = hex_digit (N_of_ascii c' / 16) →
  hex_digit (N_of_ascii c mod 16) = hex_digit (N_of_ascii c' mod 16) → c = c'.
Proof.
  assert (Hd : ∀ c, (N_of_ascii c < 256)%N) by (intros; apply N_ascii_bounded).
  assert (Hinj : ∀ n m, (n < 16)%N → (m < 16)%N → hex_digit n = hex_digit m → n = m).
  { intros n m Hn Hm. unfold hex_digit.
    assert (Ha : ∀ a b, (a < 256)%N → (b < 256)%N → ascii_of_N a = ascii_of_N b → a = b).
    { intros a b Hab Hb E. rewrite <- (N_ascii_embedding a), <- (N_ascii_embedding b) by done.
      by rewrite E. }
    destruct (N.ltb_spec n 10), (N.ltb_spec m 10); intros E; apply Ha in E; lia. }
  intros E1 E2. pose proof (Hd c). pose proof (Hd c').
  apply Hinj in E1; [|apply N.Div0.div_lt_upper_bound; lia..].
  apply Hinj in E2; [|apply N.mod_lt; lia..].
  rewrite <- (ascii_N_embedding c), <- (ascii_N_embedding c'). f_equal.
  rewrite (N.div_mod (N_of_ascii c) 16), (N.div_mod (N_of_ascii c') 16) by done. congruence.
Qed.

Lemma hex_encode_inj s s' : hex_encode s = hex_encode s' → s = s'.
Proof.
  revert s'. induction s as [|c s IH]; intros [|c' s']; simpl; try done.
  intros E. injection E as E1 E2 E3. by rewrite (hex_digits_inj c c' E1 E2), (IH s' E3).
Qed.

Definition toy : Platform := {|
  cfg := default_config;
  sha256_hex s := hex_encode s;
  sha256_b64url s := "s256:" +:+ s;
  random_uuid n := "uuid-" +:+ pretty n;
  random_hex k n := hex_encode (pretty n);
  random_b64url k n := "random-value-of-24-or-32-bytes-" +:+ pretty n;
  argon2_hash pw salt := "argon2:" +:+ pw;
  argon2_verify h pw := Some (bool_decide (h = "argon2:" +:+ pw));
  totp_generateSecret n := "totp-" +:+ pretty n;
  totp_check c s now := bool_decide (c = s);
  totp_keyuri email issuer secret := "otpauth://" +:+ secret;
  qr_toDataURL u := "data:" +:+ u;
  redis_scan c prefix m := ("0", filter (λ k, String.prefix prefix k = true) (map_to_list m).*1);
  redis_scan_pages c := 0%nat;
|}.

Lemma append_inj_r (p s s' : string) : p +:+ s = p +:+ s' → s = s'.
Proof.
  intros H. rewrite <- (slice_from_app p s), H. apply slice_from_app.
Qed.

#[export] Instance toy_laws : PlatformLaws toy.
Proof.
  split.
  - intros s s'. apply hex_encode_inj.
  - intros n n' H. apply (append_inj_r "uuid-") in H. by apply (inj pretty).
  - intros k n n' H. apply (append_inj_r "random-value-of-24-or-32-bytes-") in H. by apply (inj pretty).
  - intros pw pw' salt. simpl. f_equal. apply bool_decide_ext. split.
    + apply (append_inj_r "argon2:").
    + by intros ->.
  - intros c p m c' ks [= <- _]. done.
  - intros c p m c' ks k [= _ <-] Hk. by apply list_elem_of_filter in Hk as [? _].
  - intros p tr k Htr Hp Hall. destruct Htr as [c m ks Hs|c m c' ks tr Hs Hne _].
    + injection Hs as <-. apply Forall_singleton in Hall as [e He]. constructor. cbn.
      apply list_elem_of_filter. split; [done|]. apply list_elem_of_fmap. exists (k, e).
      split; [done|]. by apply elem_of_map_to_list.
    + by injection Hs as <- _.
Qed.

(** Every digit satisfies what the sixteen digits satisfy. *)
Lemma hex_encode_chars (p : ascii → bool) s :
  (∀ n, (n < 16)%N → p (hex_digit n) = true) → all_chars p (hex_encode s) = true.
Proof.
  intros Hp. induction s as [|c s IH]; [done|]. cbn [hex_encode all_chars].
  pose proof (N_ascii_bounded c). rewrite !Hp, IH; [done|apply N.mod_lt; lia|].
  apply N.Div0.div_lt_upper_bound; lia.
Qed.

Definition hex_value (c : ascii) : N :=
  let n := N_of_ascii c in if (n <? 58)%N then n - 48 else n - 87.

Fixpoint hex_decode (s : string) : option string :=
  match s with
  | EmptyString => Some EmptyString
  | String a (String b s) =>
      match hex_decode s with
      | Some r => Some (String (ascii_of_N (16 * hex_value a + hex_value b)) r)
      | None => None
      end
  | _ => None
  end.

Lemma hex_decode_encode s : hex_decode (hex_encode s) = Some s.
Proof.
  induction s as [|c s IH]; [done|]. cbn [hex_encode hex_decode]. rewrite IH.
  do 2 f_equal. by destruct c as [[] [] [] [] [] [] [] []].
Qed.

(** Numbers written in binary, most significant digit last. *)
Fixpoint bits (p : positive) : string :=
  match p with
  | xH => EmptyString
  | xO p => String "0" (bits p)
  | xI p => String "1" (bits p)
  end.

Fixpoint of_bits (s : string) : positive :=
  match s with
  | EmptyString => xH
  | String c s => if Ascii.eqb c "0" then xO (of_bits s) else xI (of_bits s)
  end.

Lemma of_bits_bits p : of_bits (bits p) = p.
Proof. induction p as [p IH|p IH|]; simpl; [by rewrite IH|by rewrite IH|done]. Qed.
