(* ===== verification/Redis.v ===== *)
(** src/infrastructure/redis/redis.service.ts: the wrapper of the Redis
    client. Each method awaits one command; an entry is live until its expiry
    time has passed. *)
From S2P Require Import Prelude Async JsString Errors Store Evolution.
From stdpp Require Import base gmap strings pretty.
From Stdlib Require Import ZArith.
Local Open Scope string_scope.
Local Open Scope list_scope.
Local Open Scope Z_scope.

Definition wrongtype : Err :=
  ELib None None "WRONGTYPE Operation against a key holding the wrong kind of value".

(** An entry is live up to and including its expiry instant. *)
Definition entry_live (now : Z) (e : redis_entry) : bool :=
  match re_expires e with Some t => now <=? t | None => true end.

Definition redis_live (w : World) (key : string) : option redis_entry :=
  e ← w_redis w !! key; if entry_live (w_now w) e then Some e else None.

Definition redis_value_at (w : World) (key : string) : option redis_value :=
  re_value <$> redis_live w key.

Definition redis_put (key : string) (e : redis_entry) (w : World) : World :=
  w <| w_redis ::= insert key e |>.

Module RedisService.

Definition key (parts : list string) : string :=
  "identity:" +:+ js_join ":" parts.

(** Keys read with [get] hold plain strings; the JSON documents live under
    keys of their own and are read with [getSession] / [getChallenge]. *)
Definition get (k : string) : M (option string) :=
  attempt (λ w,
    (match redis_value_at w k with
     | None => Resolved None
     | Some (VStr s) => Resolved (Some s)
     | Some (VNum n) => Resolved (Some (pretty n))
     | Some _ => Rejected wrongtype
     end, w)).

(** [ttlSeconds] of 0 is falsy: the key is stored without expiry. *)
Definition set_value (k : string) (v : redis_value) (ttlSeconds : option Z) : M () :=
  attempt (λ w,
    match ttlSeconds with
    | None | Some 0 => (Resolved (), redis_put k (mkEntry v None) w)
    | Some ttl =>
        if 0 <? ttl
        then (Resolved (), redis_put k (mkEntry v (Some (w_now w + ttl * 1000))) w)
        else (Rejected (ELib None None "ERR invalid expire time in 'set' command"), w)
    end).

Definition set (k : string) (v : string) (ttlSeconds : option Z) : M () :=
  set_value k (VStr v) ttlSeconds.

(** [getJson<T>] at the two document types of the program. *)
Definition getSession (k : string) : M (option SessionRow) :=
  reads (λ w, match redis_value_at w k with Some (VSession r) => Some r | _ => None end).
Definition getChallenge (k : string) : M (option MfaChallengePayload) :=
  reads (λ w, match redis_value_at w k with Some (VChallenge c) => Some c | _ => None end).

Definition setJson (k : string) (v : redis_value) (ttlSeconds : option Z) : M () :=
  set_value k v ttlSeconds.

Definition del (k : string) : M () := writes (λ w, w <| w_redis ::= delete k |>).

Section scan.
Context `{P : Platform}.

(** [client.scan(cursor, 'MATCH', prefix + '*', 'COUNT', 200)] *)
Definition scan (cursor prefix : string) : M (string * list string) :=
  reads (λ w, redis_scan cursor prefix (w_redis w)).

(** [client.del(...keys)]: how many of the keys there were. *)
Definition del_all (keys : list string) : M Z :=
  atomically (λ w,
    (Z.of_nat (length (filter (λ k, is_Some (redis_live w k)) (remove_dups keys))),
     w <| w_redis ::= λ m, foldr delete m keys |>)).

(** The loop: [fuel] bounds the pages. *)
Fixpoint delByPrefix_rec (fuel : nat) (cursor : string) (deleted : Z) (prefix : string) : M Z :=
  match fuel with
  | O => Throw (ELib None None "the iteration does not end")
  | S fuel =>
      page ← scan cursor prefix;
      let '(next, keys) := page in
      deleted ← (match keys with
                 | [] => mret deleted
                 | _ => n ← del_all keys; mret (deleted + n)
                 end);
      if bool_decide (next = "0") then mret deleted else delByPrefix_rec fuel next deleted prefix
  end.

Definition delByPrefix (prefix : string) : M Z :=
  delByPrefix_rec (S (redis_scan_pages "0")) "0" 0 prefix.
End scan.

(** [pong !== 'PONG'] *)
Definition ping (client_ping : M string) : M () :=
  pong ← client_ping;
  if bool_decide (pong = "PONG") then mret () else Throw (ELib None None "Redis ping failed").

(** INCR keeps the expiry of a live key. *)
Definition incr (k : string) : M Z :=
  attempt (λ w,
    match redis_live w k with
    | None => (Resolved 1, redis_put k (mkEntry (VNum 1) None) w)
    | Some (mkEntry (VNum n) e) => (Resolved (n + 1), redis_put k (mkEntry (VNum (n + 1)) e) w)
    | Some _ => (Rejected wrongtype, w)
    end).

(** EXPIRE: no effect on a missing key; a non-positive delay deletes it. *)
Definition expire (k : string) (ttlSeconds : Z) : M () :=
  writes (λ w,
    match redis_live w k with
    | None => w
    | Some e =>
        if 0 <? ttlSeconds
        then redis_put k (mkEntry (re_value e) (Some (w_now w + ttlSeconds * 1000))) w
        else w <| w_redis ::= delete k |>
    end).

Definition incrementWindow (k : string) (windowSeconds : Z) : M Z :=
  count ← incr k;
  _ ← (if count =? 1 then expire k windowSeconds else mret ());
  mret count.

Definition setAdd (k : string) (member : string) : M () :=
  attempt (λ w,
    match redis_live w k with
    | None => (Resolved (), redis_put k (mkEntry (VSet {[member]}) None) w)
    | Some (mkEntry (VSet s) e) => (Resolved (), redis_put k (mkEntry (VSet ({[member]} ∪ s)) e) w)
    | Some _ => (Rejected wrongtype, w)
    end).

Definition setSize (k : string) : M Z :=
  attempt (λ w,
    (match redis_value_at w k with
     | None => Resolved 0
     | Some (VSet s) => Resolved (Z.of_nat (size s))
     | Some _ => Rejected wrongtype
     end, w)).

Definition setExpire (k : string) (ttlSeconds : Z) : M () := expire k ttlSeconds.

(** TTL: -2 for a missing key, -1 for a key without expiry, else the
    remaining seconds, rounded. *)
Definition ttl (k : string) : M Z :=
  reads (λ w,
    match redis_live w k with
    | None => -2
    | Some e =>
        match re_expires e with
        | None => -1
        | Some t => (t - w_now w + 500) / 1000
        end
    end).
End RedisService.

(** * Lemmas *)

Lemma redis_live_Some w k e :
  redis_live w k = Some e ↔ w_redis w !! k = Some e ∧ entry_live (w_now w) e = true.
Proof.
  unfold redis_live. destruct (w_redis w !! k) as [e'|]; simpl.
  - destruct (entry_live (w_now w) e') eqn:E; split.
    + by intros [= ->].
    + by intros [[= ->] _].
    + done.
    + intros [[= ->] ?]. congruence.
  - split; [done|]. by intros [??].
Qed.

Lemma redis_live_put_eq k e w :
  redis_live (redis_put k e w) k = if entry_live (w_now w) e then Some e else None.
Proof. unfold redis_live, redis_put. simpl. by rewrite lookup_insert_eq. Qed.

Lemma redis_live_put_ne k k' e w :
  k ≠ k' → redis_live (redis_put k e w) k' = redis_live w k'.
Proof. intros. unfold redis_live, redis_put. simpl. by rewrite lookup_insert_ne. Qed.

Lemma redis_live_delete_eq k w : redis_live (w <| w_redis ::= delete k |>) k = None.
Proof. unfold redis_live. simpl. by rewrite lookup_delete_eq. Qed.

Lemma run_set_value k v ttl w :
  0 < ttl →
  run (RedisService.set_value k v (Some ttl)) w
  = (Resolved (), redis_put k (mkEntry v (Some (w_now w + ttl * 1000))) w).
Proof. intros Ht. unfold RedisService.set_value. rewrite run_attempt. by destruct ttl. Qed.

(** What a Redis command leaves alone: everything but the keyspace. *)
Definition non_redis (w : World) :=
  (w_now w, w_draws w, w_db w, w_mail w, w_keys w, w_rotateSeq w, w_masterFile w).

Ltac redis_op :=
  intros; first [apply respects_attempt | apply respects_atomically | apply respects_writes];
  let w := fresh "w" in intros w; repeat break_match; done.

Lemma redis_keeps_get k : keeps non_redis (RedisService.get k).
Proof. redis_op. Qed.
Lemma redis_keeps_set_value k v t : keeps non_redis (RedisService.set_value k v t).
Proof. redis_op. Qed.
Lemma redis_keeps_getSession k : keeps non_redis (RedisService.getSession k).
Proof. redis_op. Qed.
Lemma redis_keeps_getChallenge k : keeps non_redis (RedisService.getChallenge k).
Proof. redis_op. Qed.
Lemma redis_keeps_del k : keeps non_redis (RedisService.del k).
Proof. redis_op. Qed.
Lemma redis_keeps_del_all ks : keeps non_redis (RedisService.del_all ks).
Proof. redis_op. Qed.
Lemma redis_keeps_delByPrefix `{P : Platform} p : keeps non_redis (RedisService.delByPrefix p).
Proof.
  unfold RedisService.delByPrefix. generalize 0 (S (redis_scan_pages "0")). generalize "0".
  intros c d fuel. revert c d. induction fuel as [|fuel IH]; intros c d; [done|]. cbn [RedisService.delByPrefix_rec].
  apply respects_bind; [redis_op|]. intros [next keys].
  apply respects_bind.
  - destruct keys as [|k keys]; [done|]. apply respects_bind; [apply redis_keeps_del_all|done].
  - intros n. case_bool_decide; [done|apply IH].
Qed.
Lemma redis_keeps_incr k : keeps non_redis (RedisService.incr k).
Proof. redis_op. Qed.
Lemma redis_keeps_expire k t : keeps non_redis (RedisService.expire k t).
Proof. redis_op. Qed.
Lemma redis_keeps_setAdd k m : keeps non_redis (RedisService.setAdd k m).
Proof. redis_op. Qed.
Lemma redis_keeps_setSize k : keeps non_redis (RedisService.setSize k).
Proof. redis_op. Qed.
Lemma redis_keeps_ttl k : keeps non_redis (RedisService.ttl k).
Proof. redis_op. Qed.
Lemma redis_keeps_incrementWindow k t : keeps non_redis (RedisService.incrementWindow k t).
Proof.
  apply respects_bind; [apply redis_keeps_incr|]. intros n.
  apply respects_bind; [|done]. destruct (n =? 1); [apply redis_keeps_expire | done].
Qed.

(** * Deleting by prefix *)

Lemma lookup_foldr_delete (keys : list string) (m : gmap string redis_entry) k :
  foldr delete m keys !! k = if decide (k ∈ keys) then None else m !! k.
Proof.
  induction keys as [|k' keys IH]; [done|]. cbn [foldr]. destruct (decide (k' = k)) as [->|Hne].
  - rewrite lookup_delete_eq, decide_True; [done|by left].
  - rewrite lookup_delete_ne, IH by done. apply decide_ext. rewrite elem_of_cons. naive_solver.
Qed.

Section delByPrefix.
Context `{P : Platform, PL : !PlatformLaws P}.

(** What the rest of an iteration does, from any cursor: it ends, and what it
    leaves of the matching keys was there at every page and on none. *)
Lemma run_delByPrefix_rec fuel c d prefix w :
  (redis_scan_pages c < fuel)%nat →
  ∃ n m tr, run (RedisService.delByPrefix_rec fuel c d prefix) w = (Resolved n, w <| w_redis := m |>) ∧
    scanned prefix c tr ∧ (∀ k, String.prefix prefix k = false → m !! k = w_redis w !! k) ∧
    ∀ k e, m !! k = Some e → w_redis w !! k = Some e ∧
      Forall (λ page, is_Some (page.1 !! k)) tr ∧ Forall (λ page, k ∉ page.2) tr.
Proof.
  revert c d w. induction fuel as [|fuel IH]; intros c d w Hf; [lia|]. cbn [RedisService.delByPrefix_rec].
  destruct (redis_scan c prefix (w_redis w)) as [c' keys] eqn:Hscan.
  rewrite (run_bind_eq _ _ _ (c', keys) w) by exact (f_equal (λ x, (Resolved x, w)) Hscan).
  set (m1 := foldr delete (w_redis w) keys).
  assert (∃ d1, run (match keys with [] => mret d | _ => n ← RedisService.del_all keys; mret (d + n) end) w
      = (Resolved d1, w <| w_redis := m1 |>)) as [d1 Hdel].
  { subst m1. destruct keys as [|k keys]; [exists d; by destruct w|]. by eexists. }
  rewrite (run_bind_eq _ _ _ _ _ Hdel).
  assert (Hm1 : ∀ k, String.prefix prefix k = false → m1 !! k = w_redis w !! k).
  { intros k Hk. subst m1. rewrite lookup_foldr_delete, decide_False; [done|]. intros Hin.
    pose proof (redis_scan_matches _ _ _ _ _ _ Hscan Hin). congruence. }
  assert (Hleft : ∀ k e, m1 !! k = Some e → w_redis w !! k = Some e ∧ k ∉ keys).
  { intros k e. subst m1. rewrite lookup_foldr_delete. by destruct (decide _). }
  case_bool_decide as Hend.
  - subst c'. exists d1, m1, [(w_redis w, keys)]. split; [done|]. split; [by constructor|]. split; [done|].
    intros k e [Hw Hk]%Hleft. split_and!; [done|by apply Forall_singleton; eexists|by apply Forall_singleton].
  - destruct (IH c' d1 (w <| w_redis := m1 |>)) as (n & m & tr & -> & Htr & Hother & Hrest).
    { pose proof (redis_scan_ends _ _ _ _ _ Hscan Hend). lia. }
    exists n, m, ((w_redis w, keys) :: tr). split; [done|]. split; [by econstructor|].
    split; [intros k Hk; rewrite Hother by done; by apply Hm1|].
    intros k e Hk. destruct (Hrest k e Hk) as (H1 & Hall & Hnone). destruct (Hleft k e H1) as [Hw Hn].
    split; [done|]. rewrite !Forall_cons. split_and!; [by eexists|done|done|done].
Qed.

(** The loop ends; alone, it removes the keys with the prefix, and no others. *)
Lemma run_delByPrefix prefix w :
  ∃ n m, run (RedisService.delByPrefix prefix) w = (Resolved n, w <| w_redis := m |>) ∧
    ∀ k, m !! k = if String.prefix prefix k then None else w_redis w !! k.
Proof.
  destruct (run_delByPrefix_rec (S (redis_scan_pages "0")) "0" 0 prefix w) as (n & m & tr & Hr & Htr & Ho & Hl);
    [lia|]. exists n, m. split; [exact Hr|]. intros k. destruct (String.prefix prefix k) eqn:Hk; [|by apply Ho].
  destruct (m !! k) as [e|] eqn:He; [|done]. destruct (Hl k e He) as (_ & Hall & Hnone).
  pose proof (redis_scan_complete _ _ _ Htr Hk Hall) as Hsome.
  apply Exists_exists in Hsome as (page & Hin & Hpage). rewrite Forall_forall in Hnone. by destruct (Hnone page Hin).
Qed.
End delByPrefix.

(** The commands on one key touch that key only. *)
Definition redis_at (k : string) (w w' : World) : Prop :=
  non_redis w' = non_redis w ∧ ∀ k', k' ≠ k → w_redis w' !! k' = w_redis w !! k'.

#[export] Instance redis_at_preorder k : PreOrder (redis_at k).
Proof.
  split; [by intros w|]. intros w1 w2 w3 [H1 H2] [H3 H4]. split; [congruence|].
  intros k' Hk. by rewrite H4, H2.
Qed.

Lemma redis_at_put k e w : redis_at k w (redis_put k e w).
Proof. split; [done|]. intros k' Hk. simpl. by rewrite lookup_insert_ne. Qed.
Lemma redis_at_delete k w : redis_at k w (w <| w_redis ::= delete k |>).
Proof. split; [done|]. intros k' Hk. simpl. by rewrite lookup_delete_ne. Qed.

Ltac redis_at_op :=
  intros; first [apply respects_attempt | apply respects_atomically | apply respects_writes];
  let w := fresh "w" in intros w; repeat break_match;
  first [apply redis_at_put | apply redis_at_delete | done].

Lemma redis_at_getSession k : respects (redis_at k) (RedisService.getSession k).
Proof. redis_at_op. Qed.
Lemma redis_at_set_value k v t : respects (redis_at k) (RedisService.set_value k v t).
Proof. redis_at_op. Qed.
Lemma redis_at_del k : respects (redis_at k) (RedisService.del k).
Proof. redis_at_op. Qed.
Lemma redis_at_incr k : respects (redis_at k) (RedisService.incr k).
Proof. redis_at_op. Qed.
Lemma redis_at_expire k t : respects (redis_at k) (RedisService.expire k t).
Proof. redis_at_op. Qed.
Lemma redis_at_ttl k : respects (redis_at k) (RedisService.ttl k).
Proof. redis_at_op. Qed.
Lemma redis_at_incrementWindow k t : respects (redis_at k) (RedisService.incrementWindow k t).
Proof.
  apply respects_bind; [apply redis_at_incr|]. intros n.
  apply respects_bind; [|done]. destruct (n =? 1); [apply redis_at_expire | done].
Qed.

(** A Redis command is a step of the store. *)
Lemma redis_step {A} (p : M A) : keeps non_redis p → respects step p.
Proof.
  intros Hp. apply respects_step_same. eapply respects_mono; [|exact Hp].
  intros w w'. unfold same, non_redis, stepped. intros [= E1 E2 E3 _ _ _ _]. by rewrite E1, E2, E3.
Qed.
#[export] Hint Resolve redis_step redis_keeps_get redis_keeps_set_value redis_keeps_getSession
  redis_keeps_getChallenge redis_keeps_del redis_keeps_delByPrefix redis_keeps_incr
  redis_keeps_expire redis_keeps_setAdd redis_keeps_setSize redis_keeps_ttl
  redis_keeps_incrementWindow : steps.
#[export] Hint Transparent RedisService.set RedisService.setJson RedisService.setExpire : steps.
