(* ===== verification/RateLimit.v ===== *)
(** src/modules/rate-limit/rate-limit.middleware.ts: the Redis fixed-window
    rate limiter. *)
From S2P Require Import Prelude Async JsString Errors Store Redis Toy.
From stdpp Require Import base gmap strings relations.
From Stdlib Require Import ZArith.
Local Open Scope string_scope.
Local Open Scope list_scope.
Local Open Scope Z_scope.

Record RateLimitOptions : Type := mkRateLimit {
  rl_bucket : string;
  rl_limit : Z;
  rl_windowSeconds : Z;
}.

(** What the middleware does with the request: the value of the
    X-RateLimit-Remaining header, and the error passed to [next], if any
    (its argument is also the Retry-After header). *)
Record rl_result : Type := mkRl { rl_remaining : Z; rl_error : option Err }.

Definition rl_key (o : RateLimitOptions) (identity : string) : string :=
  RedisService.key ["rl"; rl_bucket o; identity].

(** [identity] is [keyResolver(req)], or the client address, or 'unknown'. *)
Definition rateLimitMiddleware (o : RateLimitOptions) (identity : string) : M rl_result :=
  let key := rl_key o identity in
  count ← RedisService.incrementWindow key (rl_windowSeconds o);
  let remaining := Z.max 0 (rl_limit o - count) in
  if rl_limit o <? count then
    ttl ← RedisService.ttl key;
    let retry := if 0 <? ttl then ttl else rl_windowSeconds o in
    mret (mkRl remaining (Some (TooManyRequestsError retry)))
  else mret (mkRl remaining None).

Definition rl_passed (r : outcome Err rl_result) : bool :=
  match r with Resolved (mkRl _ None) => true | _ => false end.

(** * One window *)

Definition at_time (t : Z) (w : World) : World := w <| w_now := t |>.

(** Requests arriving one after the other at the given times; the decision
    taken on each. *)
Fixpoint rl_requests (o : RateLimitOptions) (id : string) (times : list Z) (w : World)
    : list bool * World :=
  match times with
  | [] => ([], w)
  | t :: times =>
      let '(r, w1) := run (rateLimitMiddleware o id) (at_time t w) in
      let '(bs, w2) := rl_requests o id times w1 in
      (rl_passed r :: bs, w2)
  end.

(** The counter of the window that ends at [tend] stands at [n]. *)
Definition rl_window (o : RateLimitOptions) (id : string) (n tend : Z) (w : World) : Prop :=
  w_redis w !! rl_key o id = Some (mkEntry (VNum n) (Some tend)).

Lemma rl_step_open o id n tend t w :
  rl_window o id n tend w → t ≤ tend → 1 ≤ n →
  ∃ r w', run (rateLimitMiddleware o id) (at_time t w) = (Resolved r, w') ∧
          rl_passed (Resolved r) = (n + 1 <=? rl_limit o) ∧
          rl_window o id (n + 1) tend w'.
Proof.
  intros Hw Ht Hn.
  assert (redis_live (at_time t w) (rl_key o id)
          = Some (mkEntry (VNum n) (Some tend))) as Hlive.
  { unfold redis_live, rl_window in *. simpl. rewrite Hw. simpl.
    unfold entry_live. simpl. by rewrite (proj2 (Z.leb_le _ _) Ht). }
  unfold rateLimitMiddleware, RedisService.incrementWindow, RedisService.incr.
  rewrite !run_bind, run_attempt, Hlive. simpl.
  rewrite (proj2 (Z.eqb_neq (n + 1) 1)) by lia. simpl.
  destruct (rl_limit o <? n + 1) eqn:E; simpl.
  - eexists _, _. split; [done|]. split.
    + simpl. apply Z.ltb_lt in E. by rewrite (proj2 (Z.leb_gt _ _)).
    + unfold rl_window. simpl. by rewrite lookup_insert_eq.
  - eexists _, _. split; [done|]. split.
    + simpl. apply Z.ltb_ge in E. by rewrite (proj2 (Z.leb_le _ _)).
    + unfold rl_window. simpl. by rewrite lookup_insert_eq.
Qed.

Lemma rl_step_first o id t w :
  redis_live (at_time t w) (rl_key o id) = None → 0 < rl_windowSeconds o →
  ∃ r w', run (rateLimitMiddleware o id) (at_time t w) = (Resolved r, w') ∧
          rl_passed (Resolved r) = (1 <=? rl_limit o) ∧
          rl_window o id 1 (t + rl_windowSeconds o * 1000) w'.
Proof.
  intros Hdead Hwin.
  assert (Hlive : redis_live (redis_put (rl_key o id) (mkEntry (VNum 1) None) (at_time t w))
                    (rl_key o id) = Some (mkEntry (VNum 1) None))
    by (rewrite redis_live_put_eq; done).
  unfold rateLimitMiddleware, RedisService.incrementWindow, RedisService.incr.
  rewrite !run_bind, run_attempt, Hdead. simpl. rewrite Hlive.
  rewrite (proj2 (Z.ltb_lt _ _) Hwin). simpl.
  destruct (rl_limit o <? 1) eqn:E; simpl.
  - eexists _, _. split; [done|]. split.
    + simpl. apply Z.ltb_lt in E. by rewrite (proj2 (Z.leb_gt _ _)).
    + unfold rl_window. simpl. by rewrite lookup_insert_eq.
  - eexists _, _. split; [done|]. split.
    + simpl. apply Z.ltb_ge in E. by rewrite (proj2 (Z.leb_le _ _)).
    + unfold rl_window. simpl. by rewrite lookup_insert_eq.
Qed.

(** The counter of the current window: nothing yet, or [n] requests. *)
Definition rl_used (o : RateLimitOptions) (id : string) (n : Z) (w : World) : Prop :=
  (n = 0 ∧ redis_live w (rl_key o id) = None) ∨
  (1 ≤ n ∧ ∃ tend, rl_window o id n tend w ∧ w_now w ≤ tend).

Lemma at_time_now w : at_time (w_now w) w = w.
Proof. by destruct w. Qed.

Lemma rl_used_stable o id n w w' :
  w_now w' = w_now w → w_redis w' !! rl_key o id = w_redis w !! rl_key o id →
  rl_used o id n w → rl_used o id n w'.
Proof.
  intros Hnow Hkey [[-> H]|[Hn (tend & H & Ht)]].
  - left. split; [done|]. unfold redis_live in *. by rewrite Hkey, Hnow.
  - right. split; [done|]. exists tend. unfold rl_window. by rewrite Hkey, Hnow.
Qed.

(** A request touches its counter only. *)
Lemma rl_redis_at o id : respects (redis_at (rl_key o id)) (rateLimitMiddleware o id).
Proof.
  apply respects_bind; [apply redis_at_incrementWindow|]. intros c. destruct (rl_limit o <? c); [|done].
  apply respects_bind; [apply redis_at_ttl|done].
Qed.

(** A request below the limit passes. *)
Lemma rl_pass_below o id n w :
  rl_used o id n w → 0 < rl_windowSeconds o → n + 1 ≤ rl_limit o →
  ∃ m w', run (rateLimitMiddleware o id) w = (Resolved (mkRl m None), w') ∧
    rl_used o id (n + 1) w' ∧ redis_at (rl_key o id) w w'.
Proof.
  intros Hused Hwin Hlim.
  assert (Hat : redis_at (rl_key o id) w (run (rateLimitMiddleware o id) w).2).
  { apply respects_run; [apply _|apply rl_redis_at]. }
  assert (∃ r w' tend, run (rateLimitMiddleware o id) w = (Resolved r, w') ∧
    rl_passed (Resolved r) = true ∧ rl_window o id (n + 1) tend w' ∧ w_now w ≤ tend ∧ 0 ≤ n)
    as (r & w' & tend & Hrun & Hp & Hw & Ht & Hn).
  { destruct Hused as [[-> Hnone]|[Hn (tend & Hw & Ht)]].
    - destruct (rl_step_first o id (w_now w) w) as (r & w' & Hrun & Hp & Hw');
        [by rewrite at_time_now|done|]. rewrite at_time_now in Hrun.
      exists r, w', (w_now w + rl_windowSeconds o * 1000). rewrite Hp.
      split_and!; [done|by apply Z.leb_le|done|lia|lia].
    - destruct (rl_step_open o id n tend (w_now w) w Hw Ht Hn) as (r & w' & Hrun & Hp & Hw').
      rewrite at_time_now in Hrun. exists r, w', tend. rewrite Hp.
      split_and!; [done|by apply Z.leb_le|done|lia|lia]. }
  rewrite Hrun in Hat. destruct r as [m [e|]]; [done|]. exists m, w'. split; [done|]. split; [|done].
  right. split; [lia|]. exists tend. split; [done|]. destruct Hat as [Hnr _].
  by rewrite (f_equal (λ v, v.1.1.1.1.1.1) Hnr : w_now w' = w_now w).
Qed.

(** The decisions of a window: the first [limit] requests pass, the others
    are refused. *)
Fixpoint rl_verdicts (limit from : Z) (k : nat) : list bool :=
  match k with
  | O => []
  | S k => (from <=? limit) :: rl_verdicts limit (from + 1) k
  end.

Lemma rl_requests_open o id n tend times w :
  rl_window o id n tend w → 1 ≤ n → Forall (λ t, t ≤ tend) times →
  (rl_requests o id times w).1 = rl_verdicts (rl_limit o) (n + 1) (length times).
Proof.
  revert n w. induction times as [|t times IH]; intros n w Hw Hn Hall; [done|].
  apply Forall_cons in Hall as [Ht Hall].
  destruct (rl_step_open o id n tend t w Hw Ht Hn) as (r & w' & Hr & Hp & Hw').
  cbn [rl_requests length rl_verdicts]. rewrite Hr, <- Hp. specialize (IH (n + 1) w' Hw' ltac:(lia) Hall).
  destruct (rl_requests o id times w') as [bs w2]. simpl in *. by rewrite IH.
Qed.

Lemma rl_verdicts_passed limit from k :
  Z.of_nat (length (filter (λ b, b = true) (rl_verdicts limit from k)))
  = Z.max 0 (Z.min (Z.of_nat k) (limit - from + 1)).
Proof.
  revert from. induction k as [|k IH]; intros from; [simpl; lia|].
  cbn [rl_verdicts]. rewrite filter_cons. specialize (IH (from + 1)).
  case_decide as E.
  - apply Z.leb_le in E. cbn [length]. lia.
  - apply not_true_is_false, Z.leb_gt in E. lia.
Qed.

(** a fixed window admits exactly the first [limit] requests. *)
Theorem rate_limit_window_exact (o : RateLimitOptions) (id : string) (t0 : Z)
    (times : list Z) (w : World) :
  redis_live (at_time t0 w) (rl_key o id) = None →
  0 < rl_windowSeconds o →
  Forall (λ t, t ≤ t0 + rl_windowSeconds o * 1000) times →
  let verdicts := (rl_requests o id (t0 :: times) w).1 in
  verdicts = rl_verdicts (rl_limit o) 1 (S (length times)) ∧
  Z.of_nat (length (filter (λ b, b = true) verdicts))
  = Z.max 0 (Z.min (Z.of_nat (S (length times))) (rl_limit o)).
Proof.
  intros Hdead Hwin Hall verdicts.
  assert (verdicts = rl_verdicts (rl_limit o) 1 (S (length times))) as Hv.
  { unfold verdicts. cbn [rl_requests].
    destruct (rl_step_first o id t0 w Hdead Hwin) as (r & w' & Hr & Hp & Hw').
    rewrite Hr, Hp.
    pose proof (rl_requests_open o id 1 _ times w' Hw' ltac:(lia) Hall) as Hrest.
    destruct (rl_requests o id times w') as [bs w2]. simpl in *. by rewrite Hrest. }
  split; [done|]. rewrite Hv, rl_verdicts_passed. lia.
Qed.

(** * Concurrent requests

    The counter of the key, capped at the limit. *)

Definition rl_pass (r : rl_result) : bool :=
  match rl_error r with None => true | Some _ => false end.

Definition rl_counter (o : RateLimitOptions) (id : string) (w : World) : nat :=
  match redis_value_at w (rl_key o id) with
  | Some (VNum n) => Z.to_nat (Z.min (rl_limit o) n)
  | _ => 0
  end.

(** The key holds a counter, or nothing. *)
Definition rl_wf (o : RateLimitOptions) (id : string) (w : World) : Prop :=
  ∀ e, w_redis w !! rl_key o id = Some e → ∃ n, re_value e = VNum n ∧ 0 ≤ n.

Lemma rl_counter_put o id n e w :
  entry_live (w_now w) (mkEntry (VNum n) e) = true →
  rl_counter o id (redis_put (rl_key o id) (mkEntry (VNum n) e) w)
  = Z.to_nat (Z.min (rl_limit o) n).
Proof.
  intros Hl. unfold rl_counter, redis_value_at. by rewrite redis_live_put_eq, Hl.
Qed.

Lemma rl_wf_put o id n e w :
  0 ≤ n → rl_wf o id (redis_put (rl_key o id) (mkEntry (VNum n) e) w).
Proof.
  intros Hn e'. simpl. rewrite lookup_insert_eq. intros [= <-]. by exists n.
Qed.

Lemma rl_live_inv o id w e :
  rl_wf o id w → redis_live w (rl_key o id) = Some e →
  ∃ n t, e = mkEntry (VNum n) t ∧ 0 ≤ n ∧
         rl_counter o id w = Z.to_nat (Z.min (rl_limit o) n).
Proof.
  intros Hwf Hlive. unfold rl_counter, redis_value_at. rewrite Hlive. simpl.
  apply redis_live_Some in Hlive as [Hk _].
  destruct (Hwf _ Hk) as (n & Hv & Hn). destruct e as [v t]. simpl in Hv. subst v.
  by exists n, t.
Qed.

Lemma rl_earns_incr o id n :
  earns (rl_wf o id) (rl_counter o id)
    (λ m count, count ≤ rl_limit o → (1 ≤ m)%nat) n (RedisService.incr (rl_key o id)).
Proof.
  apply earns_attempt. intros w Hwf.
  destruct (redis_live w (rl_key o id)) as [e|] eqn:Hlive.
  - destruct (rl_live_inv _ _ _ _ Hwf Hlive) as (k & t & -> & Hk & Hc).
    assert (Hl : entry_live (w_now w) (mkEntry (VNum (k + 1)) t) = true).
    { by apply redis_live_Some in Hlive as [_ ?]. }
    simpl. rewrite rl_counter_put by done. split; [apply rl_wf_put; lia|].
    split; [lia|]. intros x [= <-]. lia.
  - simpl. rewrite rl_counter_put by done. split; [apply rl_wf_put; lia|].
    assert (rl_counter o id w = 0%nat) as ->.
    { unfold rl_counter, redis_value_at. by rewrite Hlive. }
    split; [lia|]. intros x [= <-]. lia.
Qed.

Lemma rl_earns_expire o id (Q : nat → () → Prop) n :
  0 < rl_windowSeconds o → (∀ u, Q n u) →
  earns (rl_wf o id) (rl_counter o id) Q n
    (RedisService.expire (rl_key o id) (rl_windowSeconds o)).
Proof.
  intros Hwin HQ. apply earns_atomically. intros w Hwf. simpl.
  destruct (redis_live w (rl_key o id)) as [e|] eqn:Hlive.
  - destruct (rl_live_inv _ _ _ _ Hwf Hlive) as (k & t & -> & Hk & Hc). simpl.
    rewrite (proj2 (Z.ltb_lt _ _) Hwin), rl_counter_put, Hc.
    + split; [by apply rl_wf_put|]. split; [done|].
      by rewrite Nat.sub_diag, Nat.add_0_r.
    + unfold entry_live. simpl. apply Z.leb_le. lia.
  - split; [done|]. split; [done|]. by rewrite Nat.sub_diag, Nat.add_0_r.
Qed.

Lemma rl_earns o id :
  0 < rl_windowSeconds o →
  earns (rl_wf o id) (rl_counter o id) (earned rl_pass) 0 (rateLimitMiddleware o id).
Proof.
  intros Hwin. unfold rateLimitMiddleware, RedisService.incrementWindow.
  do 2 apply earns_bind. eapply earns_mono; [|apply rl_earns_incr].
  intros m count _ Hm. simpl in Hm. apply earns_bind.
  assert (Htail : earns (rl_wf o id) (rl_counter o id) (earned rl_pass) m
    (if rl_limit o <? count then
       ttl ← RedisService.ttl (rl_key o id);
       mret (mkRl (Z.max 0 (rl_limit o - count))
               (Some (TooManyRequestsError (if 0 <? ttl then ttl else rl_windowSeconds o))))
     else mret (mkRl (Z.max 0 (rl_limit o - count)) None))).
  { destruct (rl_limit o <? count) eqn:E.
    - intros w Hwf. simpl. split; [done|]. split; [done|]. done.
    - intros _. apply Hm. by apply Z.ltb_ge. }
  destruct (count =? 1); [|exact Htail].
  apply rl_earns_expire; [done|]. intros _. exact Htail.
Qed.

(** C29: however the awaits of the requests of one client interleave
    with each other and with the rest of the system, at most [limit] of them
    pass while the window lasts, that is as long as the environment neither
    ends the window nor resets the counter. *)
Theorem rate_limit_concurrent (o : RateLimitOptions) (id : string)
    (env : World → World → Prop) (adm : M rl_result → Prop) (w w' : World) ps ps' :
  0 < rl_windowSeconds o →
  (∀ v v', env v v' → rl_wf o id v →
    rl_wf o id v' ∧ (rl_counter o id v ≤ rl_counter o id v')%nat) →
  (∀ p, adm p → p = rateLimitMiddleware o id) →
  rl_wf o id w → Forall (λ p, p = rateLimitMiddleware o id) ps →
  rtc (pstep env adm) (ps, w) (ps', w') →
  (winners rl_pass ps' ≤ Z.to_nat (rl_limit o))%nat.
Proof.
  intros Hwin Henv Hadm Hwf Hps Hsteps.
  assert (Forall (earns (rl_wf o id) (rl_counter o id) (earned rl_pass) 0) ps) as Hall.
  { eapply Forall_impl; [exact Hps|]. intros p ->. by apply rl_earns. }
  assert (∀ p, adm p → earns (rl_wf o id) (rl_counter o id) (earned rl_pass) 0 p) as Hadm'.
  { intros p Hp. rewrite (Hadm p Hp). by apply rl_earns. }
  pose proof (pool_winners _ _ _ _ _ _ _ Henv Hadm' Hsteps Hwf Hall) as [Hle _].
  simpl in Hle. enough (rl_counter o id w' ≤ Z.to_nat (rl_limit o))%nat by lia.
  unfold rl_counter. destruct (redis_value_at w' (rl_key o id)) as [[]|]; lia.
Qed.

(** * Concrete runs *)

Definition login_bucket : RateLimitOptions := mkRateLimit "auth:login" 5 60.

(** Seven requests within a minute, five of them pass. *)
Lemma rate_limit_window_exact_witness :
  (rl_requests login_bucket "10.0.0.1" [0; 10; 20; 30; 40; 50; 60000] (empty_world 0)).1
  = [true; true; true; true; true; false; false].
Proof.
  destruct (rate_limit_window_exact login_bucket "10.0.0.1" 0
              [10; 20; 30; 40; 50; 60000] (empty_world 0)) as [Hv _].
  - done.
  - done.
  - repeat constructor; done.
  - exact Hv.
Defined.

Lemma rate_limit_concurrent_witness :
  let ps := replicate 7 (rateLimitMiddleware login_bucket "10.0.0.1") in
  winners rl_pass (serve ps (empty_world 0)).1 = 5%nat ∧
  (winners rl_pass (serve ps (empty_world 0)).1 ≤ 5)%nat.
Proof.
  intros ps. split; [by vm_compute|].
  apply (rate_limit_concurrent login_bucket "10.0.0.1" eq
           (λ p, p = rateLimitMiddleware login_bucket "10.0.0.1")
           (empty_world 0) (serve ps (empty_world 0)).2 ps).
  - done.
  - by intros v v' -> Hv.
  - done.
  - intros e He. simpl in He. by rewrite lookup_empty in He.
  - by repeat constructor.
  - rewrite <- surjective_pairing. apply pool_serve.
Defined.
