(* ===== verification/Http.v ===== *)
(** The HTTP layer the routes share: requests and responses as Express hands
    them to the handlers, the chaining of handlers, the request identifier
    (src/common/middleware/request-id.ts), the request context
    (src/common/decorators), body validation
    (src/common/validation/validate.ts) and the rate limiter as a handler. *)
From S2P Require Import Prelude Async JsString Errors Store Evolution Redis RateLimit.
From stdpp Require Import base gmap strings list.
From Stdlib Require Import ZArith Ascii.
Local Open Scope string_scope.
Local Open Scope list_scope.
Local Open Scope Z_scope.

(** * JSON objects *)

(** [v.k]: [None] is [undefined]. The last of two equal keys wins, as in
    [JSON.parse]; the objects the program builds have distinct keys. *)
Fixpoint field_of (fs : list (string * json)) (k : string) : option json :=
  match fs with
  | [] => None
  | (k', v) :: fs =>
      match field_of fs k with
      | Some v' => Some v'
      | None => if bool_decide (k' = k) then Some v else None
      end
  end.

Definition jget (v : json) (k : string) : option json :=
  match v with JObj fs => field_of fs k | _ => None end.

(** A field the schema makes a string; "" where validation excludes. *)
Definition jstr (v : json) (k : string) : string :=
  match jget v k with Some (JStr s) => s | _ => "" end.
Definition jstr_opt (v : json) (k : string) : option string :=
  match jget v k with Some (JStr s) => Some s | _ => None end.
Definition jstr_list (v : json) (k : string) : list string :=
  match jget v k with
  | Some (JArr vs) => omap (λ x, match x with JStr s => Some s | _ => None end) vs
  | _ => []
  end.
(** A numeric field with a default in the schema. *)
Definition jnum (v : json) (k : string) : Z :=
  match jget v k with Some (JNum n) => n | _ => 0 end.

(** A property whose value is [undefined] disappears in the response. *)
Definition jopt (k : string) (v : option json) : list (string * json) :=
  match v with Some v => [(k, v)] | None => [] end.

(** * Requests and responses *)

(** src/common/guards/authenticate.ts *)
Record AuthenticatedUser : Type := mkAuthUser {
  au_sub : string;
  au_scope : string;
  au_roles : option (list string);
  au_permissions : option (list string);
  au_sid : option string;
  au_client_id : option string;
  au_jti : string;
}.

(** src/modules/resources/resource.middlewares.ts: who the gateway says is
    calling the resource API. *)
Record ResourceIdentity : Type := mkIdentity {
  id_userId : option string;
  id_clientId : option string;
  id_scopes : list string;
  id_roles : list string;
  id_requestId : option string;
}.

(** Header names are in lower case, as Node presents them. [rq_sent] are the
    headers set on the response so far. *)
Record HttpRequest : Type := mkRequest {
  rq_headers : gmap string string;
  rq_ip : option string;
  rq_query : json;
  rq_params : json;
  rq_body : json;
  rq_requestId : string;
  rq_user : option AuthenticatedUser;
  rq_identity : option ResourceIdentity;
  rq_sent : list (string * string);
}.
#[export] Instance eta_HttpRequest : Settable HttpRequest := λ r,
  mkRequest (rq_headers r) (rq_ip r) (rq_query r) (rq_params r) (rq_body r)
    (rq_requestId r) (rq_user r) (rq_identity r) (rq_sent r).

Definition header (rq : HttpRequest) (name : string) : option string := rq_headers rq !! name.

Definition set_header (name value : string) (rq : HttpRequest) : HttpRequest :=
  rq <| rq_sent ::= λ hs, hs ++ [(name, value)] |>.

(** How a handler leaves a request: [next()], [next(err)] or a response. *)
Inductive handled : Type :=
  | Next (rq : HttpRequest)
  | NextErr (rq : HttpRequest) (e : Err)
  | Done (rq : HttpRequest) (res : Response).

Definition RequestHandler : Type := HttpRequest → M handled.

Definition next : RequestHandler := λ rq, mret (Next rq).
Definition next_err (e : Err) : RequestHandler := λ rq, mret (NextErr rq e).
Definition respond (status : Z) (body : json) : RequestHandler := λ rq,
  mret (Done rq (mkResponse status body)).

(** [app.use(h1, h2, ..)]: the first handler that does not call [next()]
    ends the chain. *)
Fixpoint chain (hs : list RequestHandler) (rq : HttpRequest) : M handled :=
  match hs with
  | [] => mret (Next rq)
  | h :: hs =>
      r ← h rq;
      match r with
      | Next rq' => chain hs rq'
      | NextErr rq' e => mret (NextErr rq' e)
      | Done rq' res => mret (Done rq' res)
      end
  end.

(** src/common/decorators/async-handler.ts: a rejection becomes [next(err)]. *)
Definition asyncHandler (fn : RequestHandler) : RequestHandler := λ rq,
  catch (λ e, mret (NextErr rq e)) (fn rq).

(** A chain finished by the 404 handler and the error handler: what the client
    receives. *)
Definition finalize (r : handled) : list (string * string) * Response :=
  match r with
  | Next rq => (rq_sent rq, notFoundHandler)
  | NextErr rq e => (rq_sent rq, errorHandler e (rq_requestId rq))
  | Done rq res => (rq_sent rq, res)
  end.

Definition answer (hs : list RequestHandler) (rq : HttpRequest) : M (list (string * string) * Response) :=
  r ← chain hs rq; mret (finalize r).

(** src/common/decorators/request-context.ts *)
Definition requestContext (rq : HttpRequest) : RequestContext :=
  mkContext (rq_requestId rq) (rq_ip rq) (header rq "user-agent").

(** * The request identifier *)

(** [/^[A-Za-z0-9\-_.]{8,64}$/] *)
Definition request_id_ok (s : string) : bool :=
  all_chars (λ c, is_word c || Ascii.eqb c "-" || Ascii.eqb c ".") s &&
  (8 <=? String.length s)%nat && (String.length s <=? 64)%nat.

Definition requestIdMiddleware `{P : Platform} (headerName : string) : RequestHandler := λ rq,
  id ← match truthy (header rq headerName) with
       | Some incoming => if request_id_ok incoming then mret incoming else draw random_uuid
       | None => draw random_uuid
       end;
  mret (Next (set_header "X-Request-ID" id (rq <| rq_requestId := id |>))).

(** * Security headers

    [helmet()] and [cors(options)]. The laws are what their documentation says:
    both set headers and go on, except that [cors] answers OPTIONS itself, with
    204 and no content; neither sets the identifier of the request. *)

Record CorsOptions : Type := mkCors { co_origin : list string; co_methods : option (list string) }.

Class Middlewares : Type := {
  helmet : HttpRequest → handled;
  cors : CorsOptions → string → HttpRequest → handled;
}.

Definition with_headers (rq : HttpRequest) (hs : list (string * string)) : HttpRequest :=
  rq <| rq_sent ::= λ sent, sent ++ hs |>.

Class MiddlewaresLaws (MW : Middlewares) : Prop := {
  helmet_next : ∀ rq, ∃ hs, helmet rq = Next (with_headers rq hs) ∧ "X-Request-ID" ∉ hs.*1;
  cors_preflight : ∀ o rq, ∃ hs,
    cors o "OPTIONS" rq = Done (with_headers rq hs) (mkResponse 204 JNull) ∧ "X-Request-ID" ∉ hs.*1;
  cors_next : ∀ o method rq, method ≠ "OPTIONS" → ∃ hs,
    cors o method rq = Next (with_headers rq hs) ∧ "X-Request-ID" ∉ hs.*1;
}.

(** The middlewares every server begins with. *)
Definition security `{MW : Middlewares} (o : CorsOptions) (method : string) : RequestHandler :=
  chain [λ rq, mret (helmet rq); λ rq, mret (cors o method rq)].

(** * The rate limiter *)

Definition decimal_of (n : Z) : string := pretty.pretty n.

Definition rate_limit (o : RateLimitOptions) (identity : string) : RequestHandler := λ rq,
  catch (λ e, mret (NextErr rq e))
    (r ← rateLimitMiddleware o identity;
     let rq1 := set_header "X-RateLimit-Remaining" (decimal_of (rl_remaining r))
                  (set_header "X-RateLimit-Limit" (decimal_of (rl_limit o)) rq) in
     match rl_error r with
     | None => mret (Next rq1)
     | Some (EApp a) =>
         let retry := match details a with Some (JObj [(_, JNum n)]) => n | _ => 0 end in
         mret (NextErr (set_header "Retry-After" (decimal_of retry) rq1) (EApp a))
     | Some e => mret (NextErr rq1 e)
     end).

(** [req.ip ?? 'unknown'] *)
Definition client_ip (rq : HttpRequest) : string := default "unknown" (rq_ip rq).
Definition ip_limit (o : RateLimitOptions) : RequestHandler := λ rq, rate_limit o (client_ip rq) rq.

(** * Schemas

    A schema is the value the program builds with the combinators of zod. *)

Inductive string_check : Type :=
  | CMin (n : nat)
  | CMax (n : nat)
  | CTrim
  | CToLowerCase
  | CEmail
  | CUrl
  | CUuid
  | CRegex (accepts : string → bool).

Inductive Schema : Type :=
  | ZString (checks : list string_check)
  | ZBoolean
  | ZEnum (values : list string)
  | ZInteger (lo : Z) (hi : option Z)
  | ZArray (elem : Schema) (lo : nat) (hi : option nat)
  | ZOptional (s : Schema)
  | ZDefault (s : Schema) (v : json)
  | ZObject (strict : bool) (fields : list (string * Schema))
  | ZOr (a b : Schema).

(** The validators of zod for addresses, URLs and identifiers. *)
Class ZodFormats : Type := {
  zod_email : string → bool;
  zod_url : string → bool;
  zod_uuid : string → bool;
}.

(** [schema.safeParse]: the issues (path and message), or the data. *)
Class Zod : Type := { safeParse : Schema → json → list (list string * string) + json }.

Section conforms.
Context `{F : ZodFormats}.

(** [s.trim() === s] for the white space of [\s]. *)
Definition trimmed (s : string) : bool :=
  match String.get 0 s, String.get (pred (String.length s)) s with
  | Some a, Some b => negb (is_space a) && negb (is_space b)
  | _, _ => true
  end.

Definition check_ok (s : string) (c : string_check) : bool :=
  match c with
  | CMin n => (n <=? String.length s)%nat
  | CMax n => (String.length s <=? n)%nat
  | CTrim => trimmed s
  | CToLowerCase => bool_decide (to_lower s = s)
  | CEmail => zod_email s
  | CUrl => zod_url s
  | CUuid => zod_uuid s
  | CRegex accepts => accepts s
  end.

Definition below {A} (le : A → A → bool) (n : A) (hi : option A) : bool :=
  match hi with Some h => le n h | None => true end.

(** The values a schema can produce: what zod documents of parsed data. *)
Fixpoint conforms (s : Schema) (v : option json) : bool :=
  match s, v with
  | ZString checks, Some (JStr x) => forallb (check_ok x) checks
  | ZBoolean, Some (JBool _) => true
  | ZEnum values, Some (JStr x) => includes values x
  | ZInteger lo hi, Some (JNum n) => (lo <=? n) && below Z.leb n hi
  | ZArray e lo hi, Some (JArr vs) =>
      (lo <=? length vs)%nat && below Nat.leb (length vs) hi && forallb (λ x, conforms e (Some x)) vs
  | ZOptional _, None => true
  | ZOptional s, Some v => conforms s (Some v)
  | ZDefault s _, Some v => conforms s (Some v)
  | ZObject _ fields, Some (JObj fs) =>
      bool_decide (NoDup fs.*1) &&
      forallb (λ f, includes (fields.*1) f.1) fs &&
      forallb (λ f, conforms f.2 (field_of fs f.1)) fields
  | ZOr a b, v => conforms a v || conforms b v
  | _, _ => false
  end.
End conforms.

(** * validate *)

Definition join_path (path : list string) : string :=
  match js_join "." path with EmptyString => "_root" | key => key end.

(** [if (!details[key]) details[key] = issue.message] *)
Definition add_issue (details : list (string * json)) (issue : list string * string)
    : list (string * json) :=
  let key := join_path issue.1 in
  match field_of details key with
  | None => details ++ [(key, JStr issue.2)]
  | Some (JStr EmptyString) =>
      (λ f, if bool_decide (f.1 = key) then (key, JStr issue.2) else f) <$> details
  | Some _ => details
  end.

Definition validationError (issues : list (list string * string)) : Err :=
  ValidationError "Validation failed" (JObj (foldl add_issue [] issues)).

(** [Object.assign(target, data)] *)
Definition assign_field (target : list (string * json)) (f : string * json) : list (string * json) :=
  match field_of target f.1 with
  | Some _ => (λ g, if bool_decide (g.1 = f.1) then f else g) <$> target
  | None => target ++ [f]
  end.
Definition assign (target data : json) : json :=
  match target, data with
  | JObj ts, JObj ds => JObj (foldl assign_field ts ds)
  | t, _ => t
  end.

Section validate.
Context `{Zod}.

Definition validate_part (schema : option Schema) (part : HttpRequest → json)
    (put : json → HttpRequest → HttpRequest) : RequestHandler := λ rq,
  match schema with
  | None => mret (Next rq)
  | Some s =>
      match safeParse s (part rq) with
      | inl issues => mret (NextErr rq (validationError issues))
      | inr data => mret (Next (put data rq))
      end
  end.

Definition validate (body query params : option Schema) : RequestHandler :=
  chain
    [validate_part body rq_body (λ d rq, rq <| rq_body := d |>);
     validate_part query rq_query (λ d rq, rq <| rq_query := assign (rq_query rq) d |>);
     validate_part params rq_params (λ d rq, rq <| rq_params := assign (rq_params rq) d |>)].

Definition validate_body (s : Schema) : RequestHandler := validate (Some s) None None.
Definition validate_query (s : Schema) : RequestHandler := validate None (Some s) None.
End validate.

(** * Properties *)

Lemma run_chain_cons h hs rq w r w1 :
  run (h rq) w = (Resolved r, w1) →
  run (chain (h :: hs) rq) w =
    match r with Next rq' => run (chain hs rq') w1 | r => (Resolved r, w1) end.
Proof. intros Hh. cbn [chain]. rewrite (run_bind_eq _ _ _ _ _ Hh). by destruct r. Qed.

Lemma run_chain_next hs rq w rq' w' h :
  run (chain (h :: hs) rq) w = (Resolved (Next rq'), w') →
  ∃ rq1 w1, run (h rq) w = (Resolved (Next rq1), w1) ∧ run (chain hs rq1) w1 = (Resolved (Next rq'), w').
Proof.
  intros ([rq1|rq1 e|rq1 res] & w1 & Hh & H)%run_bind_resolved; [eauto|done..].
Qed.

(** A chain that begins with guards goes on with the other handlers, or ends
    where a guard ended it. *)
Lemma run_chain_app hs hs' rq w :
  run (chain (hs ++ hs') rq) w =
    match run (chain hs rq) w with
    | (Resolved (Next rq'), w') => run (chain hs' rq') w'
    | r => r
    end.
Proof.
  revert rq w. induction hs as [|h hs IH]; intros rq w; [done|].
  cbn [chain app]. rewrite !run_bind. destruct (run (h rq) w) as [[e|[rq1|rq1 e|rq1 res]] w1]; [done| |done..].
  apply IH.
Qed.

Lemma run_asyncHandler fn rq w :
  run (asyncHandler fn rq) w =
    match run (fn rq) w with
    | (Rejected e, w') => (Resolved (NextErr rq e), w')
    | r => r
    end.
Proof. unfold asyncHandler. rewrite run_catch. by destruct (run (fn rq) w) as [[e|r] w']. Qed.

Section steps.
Context (R : World → World → Prop) `{!PreOrder R}.

Lemma respects_chain hs rq :
  Forall (λ h : RequestHandler, ∀ rq, respects R (h rq)) hs → respects R (chain hs rq).
Proof.
  intros Hall. revert rq. induction Hall as [|h hs Hh _ IH]; intros rq; [done|].
  cbn [chain]. apply respects_bind; [apply Hh|]. by intros [].
Qed.

Lemma respects_asyncHandler fn rq : respects R (fn rq) → respects R (asyncHandler fn rq).
Proof. intros Hf. by apply respects_catch. Qed.
End steps.

(** A handler that never rejects: whatever it awaits, the client gets an
    answer. *)
Definition answers (h : RequestHandler) : Prop :=
  ∀ rq w, is_resolved (run (h rq) w).1 = true.

Lemma answers_asyncHandler fn : answers (asyncHandler fn).
Proof. intros rq w. rewrite run_asyncHandler. by destruct (run (fn rq) w) as [[]]. Qed.

Lemma answers_chain hs : Forall answers hs → answers (chain hs).
Proof.
  intros Hall. induction Hall as [|h hs Hh _ IH]; intros rq w; [done|].
  specialize (Hh rq w). cbn [chain]. rewrite run_bind.
  destruct (run (h rq) w) as [[e|[rq1|rq1 e|rq1 res]] w1]; [done| |done..]. apply IH.
Qed.

Lemma answers_rate_limit o (identity : HttpRequest → string) :
  answers (λ rq, rate_limit o (identity rq) rq).
Proof.
  intros rq w. unfold rate_limit. rewrite run_catch.
  match goal with |- context [run ?p w] => destruct (run p w) as [[e|r] w'] end; done.
Qed.

(** A handler that decides on the request alone. *)
Definition pure_handler (h : RequestHandler) : Prop :=
  ∀ rq w, ∃ r, run (h rq) w = (Resolved r, w).

Lemma answers_pure h : pure_handler h → answers h.
Proof. intros Hp rq w. by destruct (Hp rq w) as [r ->]. Qed.

Lemma pure_chain hs : Forall pure_handler hs → pure_handler (chain hs).
Proof.
  intros Hall. induction Hall as [|h hs Hh _ IH]; intros rq w; [by eexists|].
  destruct (Hh rq w) as [r Hr]. rewrite (run_chain_cons _ _ _ _ _ _ Hr).
  destruct r as [rq'|rq' e|rq' res]; [apply IH|by eexists..].
Qed.

Lemma rateLimit_keeps o id : keeps non_redis (rateLimitMiddleware o id).
Proof.
  unfold rateLimitMiddleware, RedisService.incrementWindow. repeat (apply respects_bind; intros);
    try apply _; eauto with steps; repeat break_match_goal; eauto with steps.
Qed.

(** A request below the limit goes on, with the headers of the limiter set. *)
Lemma run_ip_limit_below o rq n w :
  rl_used o (client_ip rq) n w → 0 < rl_windowSeconds o → n + 1 ≤ rl_limit o →
  ∃ sent w', run (ip_limit o rq) w = (Resolved (Next (rq <| rq_sent := sent |>)), w') ∧
    rl_used o (client_ip rq) (n + 1) w' ∧ redis_at (rl_key o (client_ip rq)) w w'.
Proof.
  intros Hu Hw Hl. destruct (rl_pass_below o _ n w Hu Hw Hl) as (m & w' & Hrun & Hu' & Hat).
  eexists _, w'. split; [|by split]. unfold ip_limit, rate_limit. rewrite run_catch.
  rewrite (run_bind_eq _ _ _ _ _ Hrun). reflexivity.
Qed.

Section validate_props.
Context `{Z : Zod}.

Lemma run_validate_body s rq w :
  run (validate_body s rq) w =
    (Resolved (match safeParse s (rq_body rq) with
               | inl issues => NextErr rq (validationError issues)
               | inr data => Next (rq <| rq_body := data |>)
               end), w).
Proof.
  unfold validate_body, validate, validate_part. cbn -[assign]. by destruct (safeParse s (rq_body rq)).
Qed.

Lemma run_validate_query s rq w :
  run (validate_query s rq) w =
    (Resolved (match safeParse s (rq_query rq) with
               | inl issues => NextErr rq (validationError issues)
               | inr data => Next (rq <| rq_query := assign (rq_query rq) data |>)
               end), w).
Proof.
  unfold validate_query, validate, validate_part. cbn -[assign]. by destruct (safeParse s (rq_query rq)).
Qed.

Lemma pure_validate_part schema part put : pure_handler (validate_part schema part put).
Proof.
  intros rq w. unfold validate_part. destruct schema as [s|]; [|by eexists].
  destruct (safeParse s (part rq)); by eexists.
Qed.

Lemma pure_validate b q p : pure_handler (validate b q p).
Proof. apply pure_chain. repeat constructor; apply pure_validate_part. Qed.

Lemma answers_validate b q p : answers (validate b q p).
Proof. apply answers_pure, pure_validate. Qed.

Lemma validate_step R `{!PreOrder R} b q p rq : respects R (validate b q p rq).
Proof.
  apply respects_chain.
  repeat constructor; intros rq'; unfold validate_part; by repeat break_match_goal.
Qed.
End validate_props.

(** * Fields *)

Lemma field_of_none fs k : field_of fs k = None ↔ k ∉ fs.*1.
Proof.
  induction fs as [|[k' v] fs IH]; [split; [intros _; apply not_elem_of_nil|done]|]. cbn [field_of fmap list_fmap].
  rewrite not_elem_of_cons, <- IH. destruct (field_of fs k) eqn:E; [split; [done|intros [_ ?]; done]|].
  case_bool_decide; naive_solver.
Qed.

Lemma field_of_elem fs k v : NoDup fs.*1 → field_of fs k = Some v ↔ (k, v) ∈ fs.
Proof.
  induction fs as [|[k' v'] fs IH]; [set_solver|]. cbn [field_of fmap list_fmap]. intros [Hn Hd]%NoDup_cons.
  rewrite elem_of_cons, <- (IH Hd). destruct (field_of fs k) as [v1|] eqn:E.
  - split; [auto|]. intros [[= -> ->]|?]; [|done]. apply field_of_none in Hn; cbn in Hn; congruence.
  - case_bool_decide; naive_solver.
Qed.

(** Writing a field that is there. *)
Lemma field_of_replace fs key v k :
  field_of ((λ f, if bool_decide (f.1 = key) then (key, v) else f) <$> fs) k =
    if bool_decide (key = k) then (λ _, v) <$> field_of fs k else field_of fs k.
Proof.
  induction fs as [|[k' v'] fs IH]; [cbn; by case_bool_decide|]. cbn [fmap list_fmap fst].
  destruct (decide (k' = key)) as [->|Hne].
  - rewrite bool_decide_eq_true_2 by done. cbn [field_of]. rewrite IH. destruct (decide (key = k)) as [->|].
    + rewrite !bool_decide_eq_true_2 by done. by destruct (field_of fs k).
    + by rewrite !bool_decide_eq_false_2 by done.
  - rewrite bool_decide_eq_false_2 by done. cbn [field_of]. rewrite IH. destruct (decide (key = k)) as [->|].
    + rewrite bool_decide_eq_true_2, (bool_decide_eq_false_2 (k' = k)) by done. by destruct (field_of fs k).
    + by rewrite (bool_decide_eq_false_2 (key = k)) by done.
Qed.

Lemma replace_keys (fs : list (string * json)) key v :
  ((λ f, if bool_decide (f.1 = key) then (key, v) else f) <$> fs).*1 = fs.*1.
Proof. induction fs as [|[k' v'] fs IH]; [done|]. cbn in *. rewrite IH. by case_bool_decide; subst. Qed.

Lemma field_of_snoc fs k v k' :
  field_of (fs ++ [(k, v)]) k' = if bool_decide (k = k') then Some v else field_of fs k'.
Proof.
  induction fs as [|[k1 v1] fs IH]; [done|]. cbn [field_of app]. rewrite IH. by case_bool_decide.
Qed.

Lemma field_of_assign ts ds k :
  field_of (foldl assign_field ts ds) k = match field_of ds k with Some v => Some v | None => field_of ts k end.
Proof.
  revert ts. induction ds as [|[k1 v1] ds IH]; intros ts; [done|]. cbn [foldl field_of]. rewrite IH.
  destruct (field_of ds k) eqn:E; [done|]. unfold assign_field. cbn [fst].
  destruct (field_of ts k1) eqn:E1.
  - rewrite field_of_replace. case_bool_decide; [|done]. subst. by rewrite E1.
  - rewrite field_of_snoc. by case_bool_decide.
Qed.

(** * What validation does to a request *)

Section outcome.
Context `{Z : Zod}.

(** The message a part of a request is refused with under a key: the first of
    its issues with that path that says something. *)
Definition fault_message (issues : list (list string * string)) (key : string) : string :=
  default "" (head (filter (λ m, m ≠ "") (snd <$> filter (λ i, join_path i.1 = key) issues))).

(** The faults of a refused part: each path once, with its message. *)
Definition faults_of (issues : list (list string * string)) (ds : list (string * json)) : Prop :=
  NoDup ds.*1 ∧
  (∀ key, key ∈ ds.*1 ↔ ∃ i, i ∈ issues ∧ join_path i.1 = key) ∧
  ∀ key v, (key, v) ∈ ds → v = JStr (fault_message issues key).

(** A query or the parameters after the parsed values have been put into them. *)
Definition overwritten (old data new : json) : Prop :=
  match old, data with
  | JObj _, JObj ds => ∀ k, jget new k = match jget data k with Some v => Some v | None => jget old k end
  | _, _ => new = old
  end.
Lemma jget_assign old data : overwritten old data (assign old data).
Proof. destruct old, data; try done. intros k. apply field_of_assign. Qed.

Lemma fault_message_snoc issues i key :
  fault_message (issues ++ [i]) key =
    if bool_decide (join_path i.1 = key ∧ fault_message issues key = "") then i.2 else fault_message issues key.
Proof.
  unfold fault_message. rewrite filter_app, fmap_app, filter_app.
  assert (Hne : Forall (λ m, m ≠ "") (filter (λ m, m ≠ "") (snd <$> filter (λ j, join_path j.1 = key) issues))).
  { apply Forall_forall. by intros m [? _]%list_elem_of_filter. }
  destruct (filter (λ m, m ≠ "") (snd <$> filter (λ j, join_path j.1 = key) issues)) as [|m ms].
  - cbn [app head default]. rewrite filter_cons, filter_nil. case_decide as Hk.
    + rewrite bool_decide_eq_true_2 by done. cbn [fmap list_fmap]. rewrite filter_cons, filter_nil.
      case_decide as Hm; [done|]. cbn. by rewrite Hm.
    + by rewrite bool_decide_eq_false_2 by tauto.
  - apply Forall_cons in Hne as [Hm _]. cbn. rewrite bool_decide_eq_false_2; [done|]. by intros [_ ?].
Qed.

Lemma add_issue_faults issues ds i : faults_of issues ds → faults_of (issues ++ [i]) (add_issue ds i).
Proof.
  intros (Hd & Hk & Hv). unfold add_issue. set (key := join_path i.1).
  assert (Hkeys : ∀ k, (k ∈ ds.*1 ∨ k = key) ↔ ∃ j, j ∈ issues ++ [i] ∧ join_path j.1 = k).
  { intros k. rewrite Hk. setoid_rewrite elem_of_app. setoid_rewrite list_elem_of_singleton. split.
    - intros [(j & ? & ?)| ->]; [exists j; auto|exists i; auto].
    - intros (j & [?| ->] & ?); [left; by exists j|by right]. }
  destruct (field_of ds key) as [v|] eqn:Hf.
  - assert (Hin : (key, v) ∈ ds) by by apply field_of_elem.
    assert (Hkin : key ∈ ds.*1) by (by apply (list_elem_of_fmap_2 fst) in Hin).
    pose proof (Hv _ _ Hin) as ->.
    assert (Hsame : fault_message issues key ≠ "" → faults_of (issues ++ [i]) ds).
    { intros Hne. split; [done|]. split.
      - intros k. rewrite <- Hkeys. split; [auto|]. by intros [?| ->].
      - intros k v Hkv. rewrite (Hv _ _ Hkv), fault_message_snoc. rewrite bool_decide_eq_false_2; [done|].
        by intros [<- ?]. }
    destruct (fault_message issues key) as [|c m] eqn:Hm; [|by apply Hsame].
    split; [by rewrite replace_keys|]. split.
    + intros k. rewrite replace_keys, <- Hkeys. split; [auto|]. by intros [?| ->].
    + intros k v (f & Ef & Hinf)%list_elem_of_fmap. rewrite fault_message_snoc. fold key. revert Ef. case_bool_decide as Hb; intros Ef.
      * injection Ef as -> ->. by rewrite bool_decide_eq_true_2.
      * subst f. rewrite bool_decide_eq_false_2 by (intros [E _]; by symmetry in E). by apply Hv.
  - assert (Hno : key ∉ ds.*1) by by apply field_of_none.
    split; [|split].
    + rewrite fmap_app. apply NoDup_app. split; [done|]. split; [|apply NoDup_singleton].
      intros k Hin ->%list_elem_of_singleton. done.
    + intros k. rewrite fmap_app, elem_of_app. cbn. rewrite list_elem_of_singleton. apply Hkeys.
    + intros k v. rewrite elem_of_app, list_elem_of_singleton, fault_message_snoc. fold key. intros [Hin|[= -> ->]].
      * rewrite bool_decide_eq_false_2; [by apply Hv|]. intros [<- _]. apply Hno.
        by apply (list_elem_of_fmap_2 fst) in Hin.
      * rewrite bool_decide_eq_true_2; [done|]. split; [done|]. unfold fault_message.
        destruct (filter (λ j, join_path j.1 = key) issues) as [|j js] eqn:E; [done|].
        assert (Hj : j ∈ filter (λ j, join_path j.1 = key) issues) by (rewrite E; left).
        apply list_elem_of_filter in Hj as [Hj ?]. destruct Hno. apply Hk. by exists j.
Qed.

Lemma validationError_faults issues :
  ∃ ds, validationError issues = ValidationError "Validation failed" (JObj ds) ∧ faults_of issues ds.
Proof.
  eexists. split; [done|]. induction issues as [|i issues IH] using rev_ind.
  - split; [constructor|]. split; [|by intros ? ? ?%not_elem_of_nil]. intros key. split; [by intros ?%not_elem_of_nil|].
    by intros (i & ?%not_elem_of_nil & _).
  - rewrite foldl_app. by apply add_issue_faults.
Qed.

(** Why a part is refused. *)
Definition issues_in (s : option Schema) (v : json) : option (list (list string * string)) :=
  match s with
  | Some s => match safeParse s v with inl issues => Some issues | inr _ => None end
  | None => None
  end.

(** The first part that is refused decides: the body, the query, the parameters. *)
Definition refusal (b q p : option Schema) (rq : HttpRequest) : option (list (list string * string)) :=
  match issues_in b (rq_body rq) with
  | Some issues => Some issues
  | None => match issues_in q (rq_query rq) with
            | Some issues => Some issues
            | None => issues_in p (rq_params rq)
            end
  end.

(** The parsed values overwrite those of the request and leave its others. *)
Definition merged (s : option Schema) (old new : json) : Prop :=
  match s with
  | Some s => ∃ data, safeParse s old = inr data ∧ overwritten old data new
  | None => new = old
  end.

Definition parsed_body (b : option Schema) (rq : HttpRequest) (body : json) : Prop :=
  match b with Some s => safeParse s (rq_body rq) = inr body | None => body = rq_body rq end.

Lemma run_validate b q p rq w :
  match refusal b q p rq with
  | Some issues => ∃ rq', run (validate b q p rq) w = (Resolved (NextErr rq' (validationError issues)), w) ∧
      rq_sent rq' = rq_sent rq ∧ rq_requestId rq' = rq_requestId rq
  | None => ∃ body query params,
      run (validate b q p rq) w =
        (Resolved (Next (rq <| rq_body := body |> <| rq_query := query |> <| rq_params := params |>)), w) ∧
      parsed_body b rq body ∧ merged q (rq_query rq) query ∧ merged p (rq_params rq) params
  end.
Proof.
  unfold refusal, issues_in, validate, validate_part, parsed_body, merged. destruct rq as [hs ip qu pa bo id us idn se].
  cbn -[assign overwritten].
  destruct b as [b|]; [destruct (safeParse b bo) as [i1|d1]|]; cbn -[assign overwritten]; [by eexists|..];
    (destruct q as [q|]; [destruct (safeParse q qu) as [i2|d2]|]); cbn -[assign overwritten];
    (destruct p as [p|]; [destruct (safeParse p pa) as [i3|d3]|]); cbn -[assign overwritten];
    lazymatch goal with
    | |- context [Resolved (Next ?r)] =>
        exists (rq_body r), (rq_query r), (rq_params r); (split; [reflexivity|]); split_and!; eauto using jget_assign
    | |- _ => eexists; split; [reflexivity|split; reflexivity]
    end.
Qed.

(** C24: Validation. A request in front of whose handlers some of its parts are
    validated is refused when a part is refused: with 400, and with the list of
    the faults of the first such part (the body, then the query, then the
    parameters), each path once, under its first message; nothing is changed
    and no handler runs. Otherwise the handlers run, on the body the schema
    made of the one that was sent and on the query and the parameters with the
    parsed values written over them; nothing else of the request changes. *)
Theorem validation_outcome (b q p : option Schema) (hs : list RequestHandler) (rq : HttpRequest) (w : World) :
  let out := run (answer (validate b q p :: hs) rq) w in
  match refusal b q p rq with
  | Some issues => ∃ ds, faults_of issues ds ∧
      out = (Resolved (rq_sent rq, mkResponse 400 (JObj
        [("error", JStr "VALIDATION_ERROR"); ("message", JStr "Validation failed"); ("details", JObj ds);
         ("request_id", JStr (rq_requestId rq))])), w)
  | None => ∃ body query params,
      out = run (answer hs (rq <| rq_body := body |> <| rq_query := query |> <| rq_params := params |>)) w ∧
      parsed_body b rq body ∧ merged q (rq_query rq) query ∧ merged p (rq_params rq) params
  end.
Proof.
  intros out. unfold out, answer. pose proof (run_validate b q p rq w) as Hv.
  destruct (refusal b q p rq) as [issues|].
  - destruct Hv as (rq' & Hr & Hs & Hi). destruct (validationError_faults issues) as (ds & He & Hf). exists ds.
    split; [done|]. rewrite run_bind, (run_chain_cons _ _ _ _ _ _ Hr), He. cbn. by rewrite Hs, Hi.
  - destruct Hv as (body & query & params & Hr & Hv). exists body, query, params. split; [|exact Hv].
    by rewrite !run_bind, (run_chain_cons _ _ _ _ _ _ Hr).
Qed.
End outcome.

(** * A concrete validator, used by the witnesses

    It accepts exactly the values that conform. *)

Definition toy_formats : ZodFormats := {|
  zod_email s := str_includes s "@";
  zod_url s := str_includes s "://";
  zod_uuid s := (20 <=? String.length s)%nat || starts_with s "uuid-";
|}.

Definition toy_zod : Zod := {|
  safeParse s v :=
    if conforms (F := toy_formats) s (Some v) then inr v else inl [([], "Invalid input")];
|}.

(** A body whose only field is too short never reaches the handler. *)
Example short_token_refused :
  let rq := mkRequest ∅ None (JObj []) (JObj []) (JObj [("token", JStr "short")]) "id" None None [] in
  run (answer [validate_body (H := toy_zod) (ZObject false [("token", ZString [CMin 20])]); respond 200 JNull] rq)
    (empty_world 0)
  = (Resolved ([], mkResponse 400 (JObj [("error", JStr "VALIDATION_ERROR"); ("message", JStr "Validation failed");
      ("details", JObj [("_root", JStr "Invalid input")]); ("request_id", JStr "id")])), empty_world 0).
Proof. vm_compute. reflexivity. Qed.
