(* ===== verification/Config.v ===== *)
(** src/config/index.ts: reading the settings from the environment. The schema
    is the value the program builds; the texts zod gives its own issues and
    its validators of addresses and URLs are parameters. *)
From S2P Require Import Prelude JsString Numbers Errors Store Http.
From stdpp Require Import base gmap strings list pretty.
From Stdlib Require Import ZArith Ascii.
Local Open Scope string_scope.
Local Open Scope list_scope.
Local Open Scope Z_scope.

(** * The schema *)

(** The combinators the schema uses: [int(d)], [bool(d)],
    [z.string().default(d)], [z.string().optional()],
    [z.string().min(1, message)], [z.enum(values).default(d)],
    [z.string().url().default(d)], [z.string().email().default(d)]. *)
Inductive Setting : Type :=
  | SInt (d : Z)
  | SBool (d : bool)
  | SText (d : string)
  | SOptional
  | SRequired (message : string)
  | SEnum (values : list string) (d : string)
  | SUrl (d : string)
  | SEmail (d : string).

#[export] Instance setting_eq_dec : EqDecision Setting.
Proof. solve_decision. Defined.

Definition envSchema : list (string * Setting) := [
  ("NODE_ENV", SEnum ["development"; "test"; "production"] "development");
  ("PORT", SInt 3001);
  ("GATEWAY_PORT", SInt 3000);
  ("FRONTEND_PORT", SInt 8080);
  ("LOG_LEVEL", SEnum ["fatal"; "error"; "warn"; "info"; "debug"; "trace"] "info");
  ("DATABASE_URL", SRequired "DATABASE_URL is required");
  ("DATABASE_POOL_MAX", SInt 10);
  ("REDIS_URL", SRequired "REDIS_URL is required");
  ("JWT_ISSUER", SUrl "https://auth.local");
  ("JWT_AUDIENCE", SText "api");
  ("ACCESS_TOKEN_TTL", SInt 900);
  ("REFRESH_TOKEN_TTL", SInt (60 * 60 * 24 * 14));
  ("AUTHORIZATION_CODE_TTL", SInt 120);
  ("ID_TOKEN_TTL", SInt 3600);
  ("SESSION_TTL", SInt (60 * 60 * 24 * 30));
  ("KMS_PROVIDER", SEnum ["local"; "aws-kms"; "azure-kv"; "gcp-kms"; "vault"] "local");
  ("KMS_KEY_DIR", SText "./keys");
  ("KMS_MASTER_KEY", SOptional);
  ("PASSWORD_MIN_LENGTH", SInt 12);
  ("BCRYPT_ROUNDS", SInt 12);
  ("EMAIL_PROVIDER", SEnum ["mock"; "smtp"] "mock");
  ("SMTP_HOST", SOptional);
  ("SMTP_PORT", SInt 1025);
  ("SMTP_USER", SOptional);
  ("SMTP_PASSWORD", SOptional);
  ("SMTP_FROM", SText "no-reply@auth.local");
  ("EMAIL_SECURE", SBool false);
  ("EMAIL_VERIFICATION_TTL", SInt (60 * 60 * 24));
  ("PASSWORD_RESET_TTL", SInt (60 * 30));
  ("CORS_ORIGINS", SText "http://localhost:3000,http://localhost:8080");
  ("TRUST_PROXY", SBool true);
  ("COOKIE_DOMAIN", SOptional);
  ("RATE_LIMIT_WINDOW", SInt 60);
  ("RATE_LIMIT_LOGIN", SInt 5);
  ("RATE_LIMIT_REGISTER", SInt 3);
  ("RATE_LIMIT_FORGOT_PASSWORD", SInt 3);
  ("RATE_LIMIT_TOKEN", SInt 10);
  ("RATE_LIMIT_AUTHORIZE", SInt 10);
  ("RATE_LIMIT_API", SInt 120);
  ("RISK_FAILED_LOGINS_THRESHOLD", SInt 5);
  ("RISK_LOCKOUT_MINUTES", SInt 15);
  ("RISK_HIGH_SCORE_ACTION", SEnum ["deny"; "mfa"; "allow"] "mfa");
  ("MAX_FAILED_LOGINS", SInt 5);
  ("LOCKOUT_MINUTES", SInt 15);
  ("MFA_ISSUER", SText "Identity Platform");
  ("MFA_CHALLENGE_TTL", SInt 300);
  ("AUTH_SERVER_URL", SUrl "http://localhost:3001");
  ("RESOURCE_API_URL", SUrl "http://localhost:3002");
  ("RESOURCE_PORT", SInt 3002);
  ("GATEWAY_SHARED_SECRET", SOptional);
  ("PUBLIC_AUTH_BASE", SText "");
  ("PUBLIC_API_BASE", SText "");
  ("ADMIN_EMAIL", SEmail "admin@auth.local");
  ("ADMIN_PASSWORD", SOptional)].

(** * Parsing *)

Inductive Value : Type :=
  | VNum (n : Z)
  | VBool (b : bool)
  | VText (s : string)
  | VUndefined.

(** Why zod refuses a value, apart from the program's own messages. *)
Inductive env_error : Type :=
  | Missing | NotNumber | NotInteger | NotFinite | NotOneOf (values : list string) | NotUrl | NotEmail.

(** The issues zod reports for a refused value; there is at least one. *)
Class EnvIssues : Type := {
  issue_of : env_error → string;
  issue_more : env_error → list string;
}.

Definition issues_of `{EnvIssues} (e : env_error) : list string := issue_of e :: issue_more e.

Section parsing.
Context `{F : ZodFormats, I : EnvIssues}.

(** [transform((v) => v === undefined || v === '' ? d : Number(v))] piped to
    [z.number().int().finite()]. *)
Definition int (d : Z) (v : option string) : list string + Value :=
  match truthy v with
  | None => inr (VNum d)
  | Some s =>
      match js_Number s with
      | NotANumber => inl (issues_of NotNumber)
      | Infinity _ => inl (issues_of NotFinite)
      | x => match integer_value x with
             | Some n => inr (VNum n)
             | None => inl (issues_of NotInteger)
             end
      end
  end.

Definition bool_ (d : bool) (v : option string) : Value :=
  match truthy v with
  | None => VBool d
  | Some s => VBool (String.eqb s "true" || String.eqb s "1")
  end.

Definition parse_setting (k : Setting) (v : option string) : list string + Value :=
  match k with
  | SInt d => int d v
  | SBool d => inr (bool_ d v)
  | SText d => inr (VText (default d v))
  | SOptional => inr (match v with Some s => VText s | None => VUndefined end)
  | SRequired message =>
      match v with
      | None => inl (issues_of Missing)
      | Some EmptyString => inl [message]
      | Some s => inr (VText s)
      end
  | SEnum values d =>
      let s := default d v in if includes values s then inr (VText s) else inl (issues_of (NotOneOf values))
  | SUrl d => let s := default d v in if zod_url s then inr (VText s) else inl (issues_of NotUrl)
  | SEmail d => let s := default d v in if zod_email s then inr (VText s) else inl (issues_of NotEmail)
  end.

(** [envSchema.safeParse(env)]: every issue with its path, or the data. *)
Fixpoint safe_parse (schema : list (string * Setting)) (env : gmap string string)
    : list (string * string) + list (string * Value) :=
  match schema with
  | [] => inr []
  | (name, k) :: schema =>
      match parse_setting k (env !! name), safe_parse schema env with
      | inr v, inr vs => inr ((name, v) :: vs)
      | inr _, inl issues => inl issues
      | inl ms, inr _ => inl (pair name <$> ms)
      | inl ms, inl issues => inl ((pair name <$> ms) ++ issues)
      end
  end.

(** * The configuration *)

Record LoadedConfig : Type := mkLoaded {
  lc_settings : list (string * Value);
  corsOriginsList : list string;
  isProd : bool;
  isTest : bool;
}.

Definition setting (vs : list (string * Value)) (name : string) : Value :=
  default VUndefined (snd <$> sql_first (λ p, p.1 = name) vs).
Definition number (vs : list (string * Value)) (name : string) : Z :=
  match setting vs name with VNum n => n | _ => 0 end.
Definition text (vs : list (string * Value)) (name : string) : string :=
  match setting vs name with VText s => s | _ => "" end.

(** [s.split(',').map((s) => s.trim()).filter(Boolean)] *)
Definition cors_origins (s : string) : list string := filter (λ w, w ≠ "") (js_trim <$> split_on "," s).

Definition configured (vs : list (string * Value)) : LoadedConfig :=
  mkLoaded vs (cors_origins (text vs "CORS_ORIGINS"))
    (String.eqb (text vs "NODE_ENV") "production") (String.eqb (text vs "NODE_ENV") "test").

Definition nl : string := String "010" EmptyString.

Definition report (issues : list (string * string)) : string :=
  "Invalid environment configuration:" +:+ nl +:+
  js_join nl ((λ i, "  - " +:+ i.1 +:+ ": " +:+ i.2) <$> issues).

(** [loadConfig], with the module's variable [cached]: the message of the
    error it throws, or the configuration. *)
Definition loadConfig (env : gmap string string) (cached : option LoadedConfig)
    : (string + LoadedConfig) * option LoadedConfig :=
  match cached with
  | Some c => (inr c, cached)
  | None =>
      match safe_parse envSchema env with
      | inl issues => (inl (report issues), None)
      | inr vs => let c := configured vs in (inr c, Some c)
      end
  end.

Definition resetConfigCache (cached : option LoadedConfig) : option LoadedConfig := None.
End parsing.

(** The settings of the model, from the loaded ones. A negative minimal length
    of a password asks for nothing, as zero does. *)
Definition app_config (c : LoadedConfig) : AppConfig :=
  let n := number (lc_settings c) in
  let t := text (lc_settings c) in
  mkAppConfig (t "JWT_ISSUER") (t "JWT_AUDIENCE") (n "ACCESS_TOKEN_TTL") (n "REFRESH_TOKEN_TTL")
    (n "AUTHORIZATION_CODE_TTL") (n "ID_TOKEN_TTL") (n "SESSION_TTL") (Z.to_nat (n "PASSWORD_MIN_LENGTH"))
    (n "EMAIL_VERIFICATION_TTL") (n "PASSWORD_RESET_TTL") (n "RATE_LIMIT_WINDOW") (n "RATE_LIMIT_LOGIN")
    (n "RATE_LIMIT_REGISTER") (n "RATE_LIMIT_FORGOT_PASSWORD") (n "RATE_LIMIT_TOKEN")
    (n "RATE_LIMIT_AUTHORIZE") (n "RATE_LIMIT_API") (n "RISK_FAILED_LOGINS_THRESHOLD")
    (if String.eqb (t "RISK_HIGH_SCORE_ACTION") "deny" then Deny
     else if String.eqb (t "RISK_HIGH_SCORE_ACTION") "mfa" then MfaStepUp else Allow)
    (n "MAX_FAILED_LOGINS") (n "LOCKOUT_MINUTES") (t "MFA_ISSUER") (n "MFA_CHALLENGE_TTL")
    (match setting (lc_settings c) "GATEWAY_SHARED_SECRET" with VText s => Some s | _ => None end)
    (corsOriginsList c).

(** * Reading a schema *)

Section reading.
Context `{F : ZodFormats, I : EnvIssues}.

(** The values a setting takes from the text of its variable. *)
Inductive accepts : Setting → option string → Value → Prop :=
  | acc_int_default d v : truthy v = None → accepts (SInt d) v (VNum d)
  | acc_int d s n : s ≠ "" → integer_value (js_Number s) = Some n → accepts (SInt d) (Some s) (VNum n)
  | acc_bool_default d v : truthy v = None → accepts (SBool d) v (VBool d)
  | acc_bool d s : s ≠ "" → accepts (SBool d) (Some s) (VBool (bool_decide (s = "true" ∨ s = "1")))
  | acc_text_default d : accepts (SText d) None (VText d)
  | acc_text d s : accepts (SText d) (Some s) (VText s)
  | acc_absent : accepts SOptional None VUndefined
  | acc_optional s : accepts SOptional (Some s) (VText s)
  | acc_required m s : s ≠ "" → accepts (SRequired m) (Some s) (VText s)
  | acc_enum values d v : default d v ∈ values → accepts (SEnum values d) v (VText (default d v))
  | acc_url d v : zod_url (default d v) = true → accepts (SUrl d) v (VText (default d v))
  | acc_email d v : zod_email (default d v) = true → accepts (SEmail d) v (VText (default d v)).

(** What is wrong with a variable. *)
Inductive complains : Setting → option string → list string → Prop :=
  | com_nan d s : s ≠ "" → js_Number s = NotANumber → complains (SInt d) (Some s) (issues_of NotNumber)
  | com_infinite d s b : s ≠ "" → js_Number s = Infinity b → complains (SInt d) (Some s) (issues_of NotFinite)
  | com_fraction d s : s ≠ "" → js_Number s ≠ NotANumber → (∀ b, js_Number s ≠ Infinity b) →
      integer_value (js_Number s) = None → complains (SInt d) (Some s) (issues_of NotInteger)
  | com_missing m : complains (SRequired m) None (issues_of Missing)
  | com_empty m : complains (SRequired m) (Some "") [m]
  | com_enum values d v : default d v ∉ values → complains (SEnum values d) v (issues_of (NotOneOf values))
  | com_url d v : zod_url (default d v) = false → complains (SUrl d) v (issues_of NotUrl)
  | com_email d v : zod_email (default d v) = false → complains (SEmail d) v (issues_of NotEmail).

Lemma bool_text s : String.eqb s "true" || String.eqb s "1" = bool_decide (s = "true" ∨ s = "1").
Proof. apply eq_true_iff_eq. rewrite orb_true_iff, !String.eqb_eq, bool_decide_eq_true. done. Qed.

Lemma parse_accepts k v x : parse_setting k v = inr x ↔ accepts k v x.
Proof.
  split.
  - destruct k as [d|d|d| |m|values d|d|d]; cbn [parse_setting].
    + unfold int. destruct (truthy v) as [s|] eqn:Hv; [|intros [= <-]; by constructor].
      apply truthy_some in Hv as [-> Hs]. destruct (js_Number s) as [|b|m e] eqn:Hn; [done..|].
      destruct (integer_value (Finite m e)) eqn:Hi; [|done]. intros [= <-]. constructor; [done|]. by rewrite Hn.
    + unfold bool_. destruct (truthy v) as [s|] eqn:Hv; intros [= <-]; [|by constructor].
      apply truthy_some in Hv as [-> Hs]. rewrite bool_text. by constructor.
    + destruct v; intros [= <-]; constructor.
    + destruct v; intros [= <-]; constructor.
    + destruct v as [[|c s]|]; try done. intros [= <-]. by constructor.
    + case_match eqn:Hi; [|done]. intros [= <-]. constructor. by apply includes_spec.
    + case_match eqn:Hi; [|done]. intros [= <-]. by constructor.
    + case_match eqn:Hi; [|done]. intros [= <-]. by constructor.
  - destruct 1 as [d v Hv|d s n Hs Hn|d v Hv|d s Hs|d|d s| |s|m s Hs|values d v Hi|d v Hi|d v Hi]; cbn [parse_setting];
      unfold int, bool_; rewrite ?Hv, ?Hi, ?truthy_nonempty by done; try done.
    + destruct (js_Number s); [done..|]. by rewrite Hn.
    + by rewrite bool_text.
    + by destruct s.
    + apply includes_spec in Hi. by rewrite Hi.
Qed.

Lemma parse_complains k v ms : parse_setting k v = inl ms ↔ complains k v ms.
Proof.
  split.
  - destruct k as [d|d|d| |m|values d|d|d]; cbn [parse_setting]; try done.
    + unfold int. destruct (truthy v) as [s|] eqn:Hv; [|done]. apply truthy_some in Hv as [-> Hs].
      destruct (js_Number s) as [|b|m e] eqn:Hn; [intros [= <-]; by econstructor..|].
      destruct (integer_value (Finite m e)) eqn:Hi; [done|]. intros [= <-]. constructor; rewrite ?Hn; done.
    + destruct v as [[|c s]|]; intros [= <-]; constructor.
    + case_match eqn:Hi; [done|]. intros [= <-]. constructor. rewrite <- includes_spec, Hi. done.
    + case_match eqn:Hi; [done|]. intros [= <-]. by constructor.
    + case_match eqn:Hi; [done|]. intros [= <-]. by constructor.
  - destruct 1 as [d s Hs Hn|d s b Hs Hn|d s Hs Hn Hf Hi|m|m|values d v Hi|d v Hi|d v Hi]; cbn [parse_setting];
      unfold int; rewrite ?Hi, ?truthy_nonempty by done; try done.
    + by rewrite Hn.
    + by rewrite Hn.
    + destruct (js_Number s) as [|b|m e]; [done|by destruct (Hf b)|]. by rewrite Hi.
    + destruct (includes values (default d v)) eqn:E; [|done]. by apply includes_spec in E.
Qed.

Lemma complains_nonempty k v ms : complains k v ms → ms ≠ [].
Proof. by destruct 1. Qed.

Lemma safe_parse_data_all schema env vs name k :
  safe_parse schema env = inr vs → (name, k) ∈ schema → ∃ x, parse_setting k (env !! name) = inr x.
Proof.
  revert vs. induction schema as [|[n k'] schema IH]; [set_solver|]. intros vs. simpl.
  destruct (parse_setting k' _) as [|x] eqn:Hk, (safe_parse schema env) as [|vs']; try done.
  intros _ [[= -> ->]|]%elem_of_cons; [by exists x|]. by eapply IH.
Qed.

(** The issues are those of the refused variables. *)
Lemma safe_parse_issues schema env issues name m :
  safe_parse schema env = inl issues →
  (name, m) ∈ issues ↔ ∃ k ms, (name, k) ∈ schema ∧ parse_setting k (env !! name) = inl ms ∧ m ∈ ms.
Proof.
  revert issues. induction schema as [|[n k] schema IH]; [done|]. intros issues. simpl.
  assert (Hsplit : (∃ k' ms, (name, k') ∈ (n, k) :: schema ∧ parse_setting k' (env !! name) = inl ms ∧ m ∈ ms) ↔
    (name = n ∧ ∃ ms, parse_setting k (env !! n) = inl ms ∧ m ∈ ms) ∨
    ∃ k' ms, (name, k') ∈ schema ∧ parse_setting k' (env !! name) = inl ms ∧ m ∈ ms).
  { setoid_rewrite elem_of_cons. naive_solver. }
  assert (Hhead : ∀ ms : list string, (name, m) ∈ pair n <$> ms ↔ name = n ∧ m ∈ ms).
  { intros ms. rewrite list_elem_of_fmap. naive_solver. }
  rewrite Hsplit. destruct (parse_setting k (env !! n)) as [ms|v] eqn:Hp.
  - destruct (safe_parse schema env) as [iss|vs] eqn:Hs; intros [= <-].
    + rewrite elem_of_app, Hhead, (IH iss eq_refl). naive_solver.
    + rewrite Hhead. split; [naive_solver|]. intros [?|(k' & ms' & Hin & Hr & _)]; [naive_solver|].
      destruct (safe_parse_data_all _ _ _ _ _ Hs Hin). congruence.
  - destruct (safe_parse schema env) as [iss|vs] eqn:Hs; [|done]. intros [= <-]. rewrite (IH iss eq_refl).
    naive_solver.
Qed.

Lemma safe_parse_nonempty schema env issues : safe_parse schema env = inl issues → issues ≠ [].
Proof.
  revert issues. induction schema as [|[n k] schema IH]; [done|]. intros issues. simpl.
  destruct (parse_setting k _) as [ms|] eqn:Hp; [apply parse_complains, complains_nonempty in Hp|];
    destruct (safe_parse schema env) as [iss|]; intros [= <-]; [by destruct ms..|by apply IH].
Qed.

(** The message of the error: a line for each fault. *)
Definition listing (faults : list (string * string)) : string :=
  "Invalid environment configuration:" +:+
  foldr (λ f rest, nl +:+ "  - " +:+ f.1 +:+ ": " +:+ f.2 +:+ rest) "" faults.

Lemma report_listing faults : faults ≠ [] → report faults = listing faults.
Proof.
  destruct faults as [|f faults]; [done|]. intros _. unfold report, listing. f_equal. cbn [foldr fmap list_fmap].
  revert f. induction faults as [|g faults IH]; intros f.
  - cbn. by rewrite !app_empty_r.
  - cbn [foldr fmap list_fmap]. rewrite join_cons2, <- IH. by rewrite !string_assoc.
Qed.

(** The settings that are numbers, with their defaults. *)
Definition numeric_settings : list (string * Z) := [
  ("PORT", 3001); ("GATEWAY_PORT", 3000); ("FRONTEND_PORT", 8080); ("RESOURCE_PORT", 3002);
  ("DATABASE_POOL_MAX", 10); ("SMTP_PORT", 1025); ("PASSWORD_MIN_LENGTH", 12); ("BCRYPT_ROUNDS", 12);
  ("ACCESS_TOKEN_TTL", 900); ("REFRESH_TOKEN_TTL", 1209600); ("AUTHORIZATION_CODE_TTL", 120);
  ("ID_TOKEN_TTL", 3600); ("SESSION_TTL", 2592000); ("EMAIL_VERIFICATION_TTL", 86400);
  ("PASSWORD_RESET_TTL", 1800); ("MFA_CHALLENGE_TTL", 300);
  ("RATE_LIMIT_WINDOW", 60); ("RATE_LIMIT_LOGIN", 5); ("RATE_LIMIT_REGISTER", 3);
  ("RATE_LIMIT_FORGOT_PASSWORD", 3); ("RATE_LIMIT_TOKEN", 10); ("RATE_LIMIT_AUTHORIZE", 10);
  ("RATE_LIMIT_API", 120); ("RISK_FAILED_LOGINS_THRESHOLD", 5); ("RISK_LOCKOUT_MINUTES", 15);
  ("MAX_FAILED_LOGINS", 5); ("LOCKOUT_MINUTES", 15)].

Lemma numeric_in_schema name d : (name, d) ∈ numeric_settings → (name, SInt d) ∈ envSchema.
Proof.
  assert (H : Forall (λ p, (p.1, SInt p.2) ∈ envSchema) numeric_settings).
  { apply (bool_decide_unpack _). vm_compute. exact Logic.I. }
  rewrite Forall_forall in H. apply (H (name, d)).
Qed.

Lemma connection_in_schema name :
  name ∈ ["DATABASE_URL"; "REDIS_URL"] → ∃ message, (name, SRequired message) ∈ envSchema.
Proof.
  intros Hin. exists (name +:+ " is required"). revert name Hin. apply Forall_forall, (bool_decide_unpack _).
  vm_compute. exact Logic.I.
Qed.

Lemma int_setting d v x :
  parse_setting (SInt d) v = inr x →
  (truthy v = None → x = VNum d) ∧ (∀ n, 0 <= n < 2 ^ 53 → v = Some (pretty n) → x = VNum n).
Proof.
  intros Hp%parse_accepts. split.
  - intros Hv. inversion Hp as [|? s ? Hs| | | | | | | | | |]; subst; [done|]. by rewrite truthy_nonempty in Hv.
  - intros n Hn ->. pose proof (number_of_string n Hn) as Hx.
    inversion Hp as [? ? Hv|? ? ? ? Hi| | | | | | | | | |]; subst; [|congruence].
    destruct (pretty n) eqn:E; [|done]. by injection Hx as <-.
Qed.

Lemma required_setting message v x :
  parse_setting (SRequired message) v = inr x → ∃ s, truthy v = Some s ∧ x = VText s.
Proof.
  intros Hp%parse_accepts. inversion Hp; subst. eexists. by rewrite truthy_nonempty.
Qed.

Lemma safe_parse_data schema env vs :
  NoDup schema.*1 → safe_parse schema env = inr vs →
  ∀ name k, (name, k) ∈ schema → parse_setting k (env !! name) = inr (setting vs name).
Proof.
  revert vs. induction schema as [|[n k] schema IH]; [set_solver|]. intros vs [Hn Hd]%NoDup_cons. simpl.
  destruct (parse_setting k _) as [|v] eqn:Hp; [by destruct (safe_parse schema env)|].
  destruct (safe_parse schema env) as [|vs'] eqn:Hs; [done|]. intros [= <-] name k'.
  unfold setting, sql_first, sql_select. rewrite filter_cons.
  intros [[= -> ->]|Hin]%elem_of_cons.
  - by rewrite decide_True by done.
  - rewrite decide_False; [by apply (IH vs')|]. simpl. intros ->.
    apply Hn, list_elem_of_fmap. by exists (name, k').
Qed.

Lemma envSchema_nodup : NoDup envSchema.*1.
Proof. apply (bool_decide_unpack _). vm_compute. exact Logic.I. Qed.

Lemma loaded_settings env c cached name k :
  loadConfig env None = (inr c, cached) → (name, k) ∈ envSchema →
  parse_setting k (env !! name) = inr (setting (lc_settings c) name).
Proof.
  unfold loadConfig. destruct (safe_parse envSchema env) as [issues|vs] eqn:Hs; [done|].
  intros [= <- _]. apply (safe_parse_data _ _ vs envSchema_nodup Hs).
Qed.

(** * Properties *)

(** C39: A configuration is loaded exactly when the schema refuses no variable
    of the environment. Then every setting is the value of its variable: an
    integer is read from its text, and the default stands for it when the
    variable is unset or empty; the two connection strings are there and not
    empty; and the configuration is kept and returned unchanged by every later
    call, whatever the environment. Otherwise the error lists the refused
    variables, all of them and no others, each on a line with what is wrong with
    it, and nothing is kept. *)
Theorem config_validated (env : gmap string string) :
  (∀ c, loadConfig env (Some c) = (inr c, Some c)) ∧
  match loadConfig env None with
  | (inr c, cached) =>
      cached = Some c ∧
      (∀ name k, (name, k) ∈ envSchema → accepts k (env !! name) (setting (lc_settings c) name)) ∧
      (∀ name d, (name, d) ∈ numeric_settings →
        (truthy (env !! name) = None → setting (lc_settings c) name = VNum d) ∧
        (∀ n, 0 <= n < 2 ^ 53 → env !! name = Some (pretty n) → setting (lc_settings c) name = VNum n)) ∧
      (∀ name, name ∈ ["DATABASE_URL"; "REDIS_URL"] →
        ∃ s, truthy (env !! name) = Some s ∧ setting (lc_settings c) name = VText s)
  | (inl message, cached) =>
      cached = None ∧ ∃ faults, faults ≠ [] ∧ message = listing faults ∧
      ∀ name m, (name, m) ∈ faults ↔ ∃ k ms, (name, k) ∈ envSchema ∧ complains k (env !! name) ms ∧ m ∈ ms
  end.
Proof.
  split; [done|]. pose proof (loaded_settings env) as Hl. revert Hl. unfold loadConfig.
  destruct (safe_parse envSchema env) as [issues|vs] eqn:Hs; intros Hl.
  - split; [done|]. exists issues. split; [by eapply safe_parse_nonempty|]. split; [by eapply report_listing, safe_parse_nonempty|].
    intros name m. rewrite (safe_parse_issues _ _ _ _ _ Hs). by setoid_rewrite <- parse_complains.
  - assert (Hv : ∀ name k, (name, k) ∈ envSchema → parse_setting k (env !! name) = inr (setting vs name)).
    { intros name k. by apply (Hl _ _ _ _ eq_refl). }
    split; [done|]. split_and!.
    + intros name k Hin. by apply parse_accepts, Hv.
    + intros name d Hin. apply numeric_in_schema in Hin. by apply int_setting, (Hv _ _ Hin).
    + intros name Hin. destruct (connection_in_schema _ Hin) as [message Hk].
      by apply (required_setting message), Hv.
Qed.

(** Every numeric setting of a loaded configuration is its default when the
    variable is unset or empty, and n when the variable is the text of an
    integer n up to 2^53. *)
Theorem config_numbers (env : gmap string string) (c : LoadedConfig) cached (name : string) (d : Z) :
  loadConfig env None = (inr c, cached) → (name, SInt d) ∈ envSchema →
  (env !! name = None ∨ env !! name = Some "" → number (lc_settings c) name = d) ∧
  (∀ n, 0 <= n < 2 ^ 53 → env !! name = Some (pretty n) → number (lc_settings c) name = n).
Proof.
  intros Hl Hin. pose proof (loaded_settings _ _ _ _ _ Hl Hin) as Hv. simpl in Hv.
  unfold int in Hv. unfold number.
  split.
  - intros [Hn|Hn]; rewrite Hn in Hv; simpl in Hv; by injection Hv as <-.
  - intros n Hr Hn. rewrite Hn in Hv.
    assert (truthy (Some (pretty n)) = Some (pretty n)) as Ht.
    { simpl. destruct (pretty n) eqn:Hp; [|done].
      pose proof (number_of_string n Hr) as Hx. rewrite Hp in Hx. injection Hx as <-. done. }
    rewrite Ht in Hv. pose proof (number_of_string n Hr) as Hx.
    destruct (js_Number (pretty n)); try done. rewrite Hx in Hv. by injection Hv as <-.
Qed.
Local Ltac parse_default :=
  match goal with
  | H : ?env !! ?n = Some _ |- parse_setting _ (?env !! ?n) = _ => rewrite H; reflexivity
  | Hn : ∀ name, name ∈ envSchema.*1 → _ |- parse_setting _ (?env !! ?n) = _ =>
      rewrite (Hn n) by (done || (apply (bool_decide_unpack _); vm_compute; exact Logic.I));
      simpl; unfold default, id;
      repeat match goal with Hu : _ = true |- _ => rewrite Hu end; reflexivity
  end.

Lemma safe_parse_cons n k schema env v vs :
  parse_setting k (env !! n) = inr v → safe_parse schema env = inr vs →
  safe_parse ((n, k) :: schema) env = inr ((n, v) :: vs).
Proof. intros Hk Hs. simpl. by rewrite Hk, Hs. Qed.

(** Where only the two connection strings are set, the model runs with
    [default_config]. *)
Lemma config_defaults (env : gmap string string) (db redis : string) :
  env !! "DATABASE_URL" = Some db → db ≠ "" → env !! "REDIS_URL" = Some redis → redis ≠ "" →
  (∀ name, name ∈ envSchema.*1 → name ≠ "DATABASE_URL" → name ≠ "REDIS_URL" → env !! name = None) →
  Forall (λ u, zod_url u = true) ["https://auth.local"; "http://localhost:3001"; "http://localhost:3002"] →
  zod_email "admin@auth.local" = true →
  ∃ c, loadConfig env None = (inr c, Some c) ∧ app_config c = default_config ∧
    corsOriginsList c = ["http://localhost:3000"; "http://localhost:8080"] ∧ isProd c = false.
Proof.
  intros Hdb Hdb' Hre Hre' Hn Hurl Hmail.
  apply Forall_cons in Hurl as [Hu1 [Hu2 [Hu3 _]%Forall_cons]%Forall_cons].
  destruct db as [|a db]; [done|]. destruct redis as [|b redis]; [done|]. clear Hdb' Hre'.
  assert (∃ vs, safe_parse envSchema env = inr vs ∧ app_config (configured vs) = default_config ∧
    corsOriginsList (configured vs) = ["http://localhost:3000"; "http://localhost:8080"] ∧
    isProd (configured vs) = false) as (vs & Hs & ? & ? & ?).
  { eexists. split.
    - unfold envSchema. repeat (apply safe_parse_cons; [parse_default|]). reflexivity.
    - done. }
  exists (configured vs). unfold loadConfig. by rewrite Hs.
Qed.
End reading.

(** * A concrete instance, used by the witnesses *)

Definition toy_issues : EnvIssues := {|
  issue_of e :=
    match e with
    | Missing => "Required" | NotNumber => "Expected number, received nan"
    | NotInteger => "Expected integer, received float" | NotFinite => "Number must be finite"
    | NotOneOf _ => "Invalid enum value" | NotUrl => "Invalid url" | NotEmail => "Invalid email"
    end;
  issue_more e := [];
|}.

Definition toy_env : gmap string string :=
  <["DATABASE_URL" := "postgres://db"]> (<["REDIS_URL" := "redis://cache"]> (<["PORT" := "8443"]> ∅)).

Definition toy_loaded : LoadedConfig :=
  match (loadConfig (F := toy_formats) (I := toy_issues) toy_env None).1 with
  | inr c => c
  | inl _ => mkLoaded [] [] false false
  end.

Lemma config_numbers_witness :
  number (lc_settings toy_loaded) "PORT" = 8443 ∧ number (lc_settings toy_loaded) "SESSION_TTL" = 2592000.
Proof.
  assert (loadConfig (F := toy_formats) (I := toy_issues) toy_env None = (inr toy_loaded, Some toy_loaded)) as Hl
    by (vm_compute; reflexivity).
  pose proof (λ name d, config_numbers (F := toy_formats) (I := toy_issues) toy_env _ _ name d Hl) as H.
  split.
  - apply (H "PORT" 3001); [|lia|reflexivity]. unfold envSchema. do 1 right. left.
  - refine (proj1 (H "SESSION_TTL" 2592000 _) _); [|left; reflexivity]. unfold envSchema. do 14 right. left.
Defined.

(** A malformed port is named by the error. *)
Example config_bad_port :
  (loadConfig (F := toy_formats) (I := toy_issues) (<["PORT" := "80a"]> toy_env) None).1
    = inl (report [("PORT", "Expected number, received nan")]).
Proof. vm_compute. reflexivity. Qed.
