(* ===== verification/AuditLog.v ===== *)
(** src/modules/audit: events, redaction of sensitive metadata, the Postgres
    sink and the fan-out service; src/modules/email: the outgoing mail. *)
From S2P Require Import Prelude Async JsString Errors Store Evolution Toy.
From stdpp Require Import base gmap strings.
From Stdlib Require Import ZArith.
Local Open Scope string_scope.
Local Open Scope list_scope.

(** src/modules/audit/audit.types.ts *)
Module AuditEventType.
Definition USER_REGISTERED := "USER_REGISTERED".
Definition USER_LOGIN_SUCCESS := "USER_LOGIN_SUCCESS".
Definition USER_LOGIN_FAILED := "USER_LOGIN_FAILED".
Definition USER_LOGOUT := "USER_LOGOUT".
Definition USER_LOCKED := "USER_LOCKED".
Definition USER_EMAIL_VERIFIED := "USER_EMAIL_VERIFIED".
Definition PASSWORD_RESET_REQUESTED := "PASSWORD_RESET_REQUESTED".
Definition PASSWORD_RESET_COMPLETED := "PASSWORD_RESET_COMPLETED".
Definition PASSWORD_CHANGED := "PASSWORD_CHANGED".
Definition MFA_ENROLL_STARTED := "MFA_ENROLL_STARTED".
Definition MFA_ENABLED := "MFA_ENABLED".
Definition MFA_DISABLED := "MFA_DISABLED".
Definition MFA_CHALLENGE_FAILED := "MFA_CHALLENGE_FAILED".
Definition MFA_CHALLENGE_SUCCEEDED := "MFA_CHALLENGE_SUCCEEDED".
Definition TOKEN_ISSUED := "TOKEN_ISSUED".
Definition TOKEN_REFRESHED := "TOKEN_REFRESHED".
Definition TOKEN_REVOKED := "TOKEN_REVOKED".
Definition REFRESH_TOKEN_REUSE_DETECTED := "REFRESH_TOKEN_REUSE_DETECTED".
Definition AUTHORIZATION_GRANTED := "AUTHORIZATION_GRANTED".
Definition AUTHORIZATION_DENIED := "AUTHORIZATION_DENIED".
Definition CLIENT_CREATED := "CLIENT_CREATED".
Definition CLIENT_UPDATED := "CLIENT_UPDATED".
Definition CLIENT_DISABLED := "CLIENT_DISABLED".
Definition CLIENT_SECRET_ROTATED := "CLIENT_SECRET_ROTATED".
Definition SUSPICIOUS_LOGIN := "SUSPICIOUS_LOGIN".
End AuditEventType.

Record AuditEvent : Type := mkAuditEvent {
  ae_event_type : string;
  ae_user_id : option string;
  ae_client_id : option string;
  ae_ip : option string;
  ae_user_agent : option string;
  ae_request_id : option string;
  ae_metadata : option (list (string * json));
}.

(** * Redaction *)

(** [/password|secret|token|authorization|cookie|code_verifier/i] *)
Definition REDACTED_KEYS (key : string) : bool :=
  existsb (str_includes (to_lower key))
    ["password"; "secret"; "token"; "authorization"; "cookie"; "code_verifier"].

Definition redact (kv : string * json) : string * json :=
  (kv.1, if REDACTED_KEYS kv.1 then JStr "[REDACTED]" else kv.2).

Definition sanitizeMetadata (metadata : option (list (string * json)))
    : list (string * json) :=
  match metadata with None => [] | Some fields => redact <$> fields end.

(** * Sinks *)

Definition AuditSink : Type := AuditEvent → M ().

(** src/modules/audit/postgres-audit-sink.ts: the row the event becomes. *)
Definition audit_row (event : AuditEvent) (now : Z) : AuditLogRow :=
  mkAuditLogRow (ae_event_type event) (ae_user_id event) (ae_client_id event)
    (ae_ip event) (ae_user_agent event) (ae_request_id event)
    (sanitizeMetadata (ae_metadata event)) now.

Definition PostgresAuditSink : AuditSink := λ event,
  db_exec (λ now d, d <| audit_logs ::= λ t, t ++ [audit_row event now] |>).

(** [record]: every sink gets the sanitised event; a sink failure is logged
    and swallowed. *)
Definition audit_record_to (sinks : list AuditSink) (event : AuditEvent) : M () :=
  let enriched :=
    mkAuditEvent (ae_event_type event) (ae_user_id event) (ae_client_id event)
      (ae_ip event) (ae_user_agent event) (ae_request_id event)
      (Some (sanitizeMetadata (ae_metadata event))) in
  for_each (λ sink : AuditSink, catch (λ _, mret ()) (sink enriched)) sinks.

(** [AuditLogService.withDefaults] *)
Definition audit_record : AuditEvent → M () := audit_record_to [PostgresAuditSink].

(** The event shape used by the services. *)
Definition event (type : string) (user client : option string) (ctx : RequestContext)
    (with_agent : bool) (metadata : option (list (string * json))) : AuditEvent :=
  mkAuditEvent type user client (ctx_ip ctx)
    (if with_agent then ctx_userAgent ctx else None) (Some (requestId ctx)) metadata.

(** src/modules/email/mock-email.provider.ts *)
Definition email_send (msg : EmailMessage) : M () :=
  writes (λ w, w <| w_mail ::= λ ms, ms ++ [msg] |>).

(** * Properties *)

Lemma redact_idem kv : redact (redact kv) = redact kv.
Proof. unfold redact. simpl. by destruct (REDACTED_KEYS kv.1). Qed.

Lemma sanitize_idem m : sanitizeMetadata (Some (sanitizeMetadata m)) = sanitizeMetadata m.
Proof.
  destruct m as [fields|]; [|done]. simpl. rewrite <- list_fmap_compose.
  apply list_fmap_ext. intros. apply redact_idem.
Qed.

(** The view of the store an audit record leaves alone. *)
Definition non_audit (w : World) :=
  (w_now w, w_draws w, w_db w <| audit_logs := [] |>, w_redis w, w_mail w, w_keys w,
   w_rotateSeq w, w_masterFile w).

(** The row the default service appends. *)
Definition recorded (e : AuditEvent) (w : World) : AuditLogRow :=
  audit_row e (w_now w).

Definition with_audit (rows : list AuditLogRow) (w : World) : World :=
  on_db (λ d, d <| audit_logs ::= λ t, t ++ rows |>) w.

Lemma run_audit_record e w :
  run (audit_record e) w = (Resolved (), with_audit [recorded e w] w).
Proof.
  unfold audit_record, audit_record_to, with_audit, recorded, PostgresAuditSink, audit_row.
  cbn -[sanitizeMetadata]. by rewrite sanitize_idem.
Qed.

Lemma with_audit_app rows rows' w : with_audit rows' (with_audit rows w) = with_audit (rows ++ rows') w.
Proof. destruct w as [? ? [] ? ? ? ? ?]. unfold with_audit, on_db, set_field. simpl. by rewrite <- app_assoc. Qed.

Lemma audit_record_respects (R : World → World → Prop) e :
  (∀ rows w, R w (with_audit rows w)) → respects R (audit_record e).
Proof.
  intros HR. unfold audit_record, audit_record_to, for_each.
  apply respects_bind; [|done]. apply respects_catch; [|done].
  apply respects_writes. intros w. apply (HR [_]).
Qed.

Lemma audit_record_keeps e : keeps non_audit (audit_record e).
Proof. by apply audit_record_respects. Qed.
Lemma audit_record_step e : respects step (audit_record e).
Proof.
  apply audit_record_respects. intros rows w. step_tables. by exists rows.
Qed.
#[export] Hint Resolve audit_record_keeps audit_record_step : steps.
#[export] Hint Rewrite @run_audit_record : run.

(** recording never fails and never stops at a failing sink,
    whatever the sinks do; the default service appends exactly one row, with
    every sensitive top-level key redacted and the others untouched. *)
Theorem audit_record_total (sinks : list AuditSink) (e : AuditEvent) (w : World) :
  (∃ w', run (audit_record_to sinks e) w = (Resolved (), w')) ∧
  (∃ row, run (audit_record e) w = (Resolved (), with_audit [row] w) ∧
     al_metadata row = sanitizeMetadata (ae_metadata e) ∧
     (al_metadata row).*1 = (default [] (ae_metadata e)).*1 ∧
     ∀ k v, (k, v) ∈ al_metadata row →
       if REDACTED_KEYS k then v = JStr "[REDACTED]"
       else (k, v) ∈ default [] (ae_metadata e)).
Proof.
  split.
  - unfold audit_record_to. revert w. induction sinks as [|sink sinks IH]; intros w.
    + by exists w.
    + cbn [for_each]. rewrite run_bind, run_catch.
      destruct (run (sink _) w) as [[err|[]] w1]; apply IH.
  - exists (recorded e w). split; [apply run_audit_record|]. split; [done|]. simpl.
    destruct (ae_metadata e) as [fields|]; simpl.
    + split.
      * rewrite <- list_fmap_compose. by apply list_fmap_ext.
      * intros k v Hin. apply list_elem_of_fmap in Hin as ([k0 v0] & Heq & Hin).
        unfold redact in Heq. simpl in Heq. simplify_eq.
        by destruct (REDACTED_KEYS k0).
    + split; [done|]. intros k v Hin. by apply not_elem_of_nil in Hin.
Qed.
