(* ===== verification/Mail.v ===== *)
(** src/modules/email: the provider the configuration asks for, created once
    (email.factory.ts), and its two implementations. The transport of
    nodemailer is a parameter. The object a mock provider is, is its number in
    the order of creation; its array [sent] is kept under that number. *)
From S2P Require Import Prelude Async JsString Errors Store Http Config.
From stdpp Require Import base gmap strings list.
From Stdlib Require Import ZArith.
Local Open Scope string_scope.
Local Open Scope list_scope.
Local Open Scope Z_scope.

(** src/modules/email/smtp-email.provider.ts: what [createTransport] is given;
    [auth] only with a user and a password. *)
Record TransportOptions : Type := mkTransport {
  tr_host : string;
  tr_port : Z;
  tr_secure : bool;
  tr_auth : option (string * string);
}.

Record SmtpOptions : Type := mkSmtp {
  smtp_host : string;
  smtp_port : Z;
  smtp_secure : bool;
  smtp_user : option string;
  smtp_password : option string;
  smtp_from : string;
}.

Inductive Provider : Type :=
  | MockProvider (instance : nat)
  | SmtpProvider (transport : TransportOptions) (from : string).

Definition SMTPEmailProvider (o : SmtpOptions) : Provider :=
  SmtpProvider
    (mkTransport (smtp_host o) (smtp_port o) (smtp_secure o)
       match truthy (smtp_user o), truthy (smtp_password o) with
       | Some user, Some pass => Some (user, pass)
       | _, _ => None
       end)
    (smtp_from o).

(** The module's variable [singleton], the mock providers, and the state of
    the transport. *)
Record MailState (T : Type) : Type := mkMailState {
  singleton : option Provider;
  mocks : list (list EmailMessage);
  transport : T;
}.
Arguments mkMailState {T} _ _ _.
Arguments singleton {T} _.
Arguments mocks {T} _.
Arguments transport {T} _.
#[export] Instance eta_MailState T : Settable (MailState T) := λ s,
  mkMailState (singleton s) (mocks s) (transport s).

Section mail.
Context {T E : Type}.
(** [transporter.sendMail({ from, ...message })] *)
Context (sendMail : TransportOptions → string → EmailMessage → T → outcome E () * T).

Definition optional_text (vs : list (string * Value)) (name : string) : option string :=
  match setting vs name with VText s => Some s | _ => None end.
Definition flag (vs : list (string * Value)) (name : string) : bool :=
  match setting vs name with VBool b => b | _ => false end.

Definition smtp_options (c : LoadedConfig) : SmtpOptions :=
  let vs := lc_settings c in
  mkSmtp (default "localhost" (optional_text vs "SMTP_HOST")) (number vs "SMTP_PORT") (flag vs "EMAIL_SECURE")
    (optional_text vs "SMTP_USER") (optional_text vs "SMTP_PASSWORD") (text vs "SMTP_FROM").

(** [new MockEmailProvider()] *)
Definition new_mock (s : MailState T) : Provider * MailState T :=
  (MockProvider (length (mocks s)), s <| mocks ::= λ ms, ms ++ [[]] |>).

Definition getEmailProvider (c : LoadedConfig) (s : MailState T) : Provider * MailState T :=
  match singleton s with
  | Some p => (p, s)
  | None =>
      let '(p, s) :=
        if String.eqb (text (lc_settings c) "EMAIL_PROVIDER") "smtp"
        then (SMTPEmailProvider (smtp_options c), s)
        else new_mock s in
      (p, s <| singleton := Some p |>)
  end.

Definition setEmailProvider (p : option Provider) (s : MailState T) : MailState T :=
  s <| singleton := p |>.

(** [provider.send(message)]: the mock keeps a copy. *)
Definition provider_send (p : Provider) (m : EmailMessage) (s : MailState T) : outcome E () * MailState T :=
  match p with
  | MockProvider i => (Resolved (), s <| mocks ::= alter (λ sent, sent ++ [m]) i |>)
  | SmtpProvider o from =>
      let '(r, t) := sendMail o from m (transport s) in (r, s <| transport := t |>)
  end.

(** [getEmailProvider().send(m)] for every message in turn, whatever the
    configuration is by then. *)
Fixpoint deliver (ms : list (LoadedConfig * EmailMessage)) (s : MailState T) : MailState T :=
  match ms with
  | [] => s
  | (c, m) :: ms => let '(p, s) := getEmailProvider c s in deliver ms (provider_send p m s).2
  end.

(** * Lemmas *)

Lemma getEmailProvider_some c p s : singleton s = Some p → getEmailProvider c s = (p, s).
Proof. unfold getEmailProvider. by intros ->. Qed.

Lemma deliver_mock sent ms s :
  singleton s = Some (MockProvider 0) → mocks s = [sent] →
  mocks (deliver ms s) = [sent ++ ms.*2] ∧ transport (deliver ms s) = transport s.
Proof.
  revert sent s. induction ms as [|[c m] ms IH]; intros sent s Hs Hi; simpl.
  { by rewrite app_nil_r. }
  rewrite (getEmailProvider_some _ _ _ Hs). simpl.
  destruct (IH (sent ++ [m]) (s <| mocks ::= alter (λ sent, sent ++ [m]) 0%nat |>)) as [-> ->]; [done| |].
  - change (alter (λ sent, sent ++ [m]) 0%nat (mocks s) = [sent ++ [m]]). by rewrite Hi.
  - by rewrite <- app_assoc.
Qed.

(** The transport, given the messages one after the other. *)
Fixpoint transported (o : TransportOptions) (from : string) (ms : list EmailMessage) (t : T) : T :=
  match ms with [] => t | m :: ms => transported o from ms (sendMail o from m t).2 end.

Lemma deliver_smtp o from ms s :
  singleton s = Some (SmtpProvider o from) →
  transport (deliver ms s) = transported o from ms.*2 (transport s) ∧ mocks (deliver ms s) = mocks s.
Proof.
  revert s. induction ms as [|[c m] ms IH]; intros s Hs; [done|]. simpl.
  rewrite (getEmailProvider_some _ _ _ Hs). simpl.
  destruct (sendMail o from m (transport s)) as [r t] eqn:Hm. simpl.
  by destruct (IH (s <| transport := t |>)) as [-> ->].
Qed.

(** Whatever is mailed from the start on goes through the one provider the
    first configuration asked for: the mock has every message in order and the
    transport is not used, or the transport has been given every message in
    order, with the sender and the credentials of that configuration. *)
Theorem mail_single_provider (c : LoadedConfig) (m : EmailMessage)
    (ms : list (LoadedConfig * EmailMessage)) (t : T) :
  let s := deliver ((c, m) :: ms) (mkMailState None [] t) in
  if String.eqb (text (lc_settings c) "EMAIL_PROVIDER") "smtp" then
    ∃ o, SMTPEmailProvider (smtp_options c) = SmtpProvider o (text (lc_settings c) "SMTP_FROM") ∧
      transport s = transported o (text (lc_settings c) "SMTP_FROM") (m :: ms.*2) t ∧ mocks s = []
  else mocks s = [m :: ms.*2] ∧ transport s = t.
Proof.
  cbv zeta. set (s0 := mkMailState None [] t).
  destruct (String.eqb (text (lc_settings c) "EMAIL_PROVIDER") "smtp") eqn:Hk.
  - eexists. split; [reflexivity|].
    assert (deliver ((c, m) :: ms) s0 = deliver ((c, m) :: ms)
      (s0 <| singleton := Some (SMTPEmailProvider (smtp_options c)) |>)) as ->.
    { simpl. unfold getEmailProvider at 1. simpl. by rewrite Hk. }
    by apply deliver_smtp.
  - assert (deliver ((c, m) :: ms) s0 = deliver ((c, m) :: ms) (mkMailState (Some (MockProvider 0)) [[]] t)) as ->.
    { simpl. unfold getEmailProvider at 1. simpl. by rewrite Hk. }
    by apply (deliver_mock [] ((c, m) :: ms)).
Qed.
End mail.
