(* ===== verification/RefreshTokens.v ===== *)
(** src/modules/tokens/refresh-token.service.ts: opaque refresh tokens with
    rotation and reuse detection. *)
From S2P Require Import Prelude Async JsString Errors Store Evolution Toy.
From stdpp Require Import base gmap strings list relations.
From Stdlib Require Import ZArith.
Local Open Scope string_scope.
Local Open Scope list_scope.
Local Open Scope Z_scope.

Section service.
Context `{P : Platform}.

Definition rt_hash (token : string) : string := sha256_hex token.

(** * Statements *)

(** [WHERE token_hash = $1 AND status = 'active' AND expires_at > now()] *)
Definition rt_consumable (h : string) (now : Z) (r : RefreshTokenRow) : Prop :=
  rt_token_hash r = h ∧ rt_status_ r = RActive ∧ now < rt_expires_at r.
#[global] Instance rt_consumable_dec h now r : Decision (rt_consumable h now r).
Proof. unfold rt_consumable. apply _. Defined.

(** [status IN ('active', 'rotated')] *)
Definition rt_not_revoked (r : RefreshTokenRow) : Prop :=
  rt_status_ r = RActive ∨ rt_status_ r = RRotated.
#[global] Instance rt_not_revoked_dec r : Decision (rt_not_revoked r).
Proof. unfold rt_not_revoked. apply _. Defined.

(** [SET status = 'rotated', rotated_at = now()] *)
Definition rt_rotate (now : Z) (r : RefreshTokenRow) : RefreshTokenRow :=
  r <| rt_status_ := RRotated |> <| rt_rotated_at := Some now |>.

(** [SET status = 'revoked', revoked_at = now()] *)
Definition rt_revoke (now : Z) (r : RefreshTokenRow) : RefreshTokenRow :=
  r <| rt_status_ := RRevoked |> <| rt_revoked_at := Some now |>.

Definition rt_revoke_family (fam : string) (now : Z) (d : Db) : Db :=
  d <| refresh_tokens ::=
    sql_update (λ r, rt_family_id r = fam ∧ rt_not_revoked r) (rt_revoke now) |>.

Definition session_revoke (why : string) (now : Z) (s : SessionRow) : SessionRow :=
  s <| s_status := SRevoked |> <| s_revoked_at := Some now |>
    <| s_revoke_reason := Some why |>.

(** * Operations *)

Record IssueParams : Type := mkIssue {
  i_sessionId : string;
  i_userId : string;
  i_clientId : option string;
  i_scope : string;
  i_familyId : option string;
  i_previousTokenId : option string;
}.

(** The INSERT: the row id is drawn by the database. *)
Definition rt_insert (p : IssueParams) (hash fam : string) (ttl : Z) (w : World)
    : outcome Err () * World :=
  if decide (hash ∈ rt_token_hash <$> refresh_tokens (w_db w))
  then (Rejected unique_violation, w)
  else
    let row := mkRefreshTokenRow (random_uuid (w_draws w)) (i_sessionId p)
      (i_userId p) (i_clientId p) hash fam (i_previousTokenId p) (i_scope p)
      RActive (w_now w + ttl * 1000) None None in
    (Resolved (),
     on_db (λ d, d <| refresh_tokens ::= λ t, t ++ [row] |>) w
       <| w_draws ::= N.succ |>).

Definition issue (p : IssueParams) : M (string * Z) :=
  let ttl := REFRESH_TOKEN_TTL cfg in
  token ← draw (random_b64url 32);
  fam ← match i_familyId p with Some f => mret f | None => draw random_uuid end;
  _ ← attempt (rt_insert p (rt_hash token) fam ttl);
  now ← now_ms;
  mret (token, now + ttl * 1000).

Definition handleReuseOrInvalid (h : string) : M () :=
  known ← db_select (λ d, sql_first (λ r, rt_token_hash r = h) (refresh_tokens d));
  match known with
  | Some knownRow =>
      _ ← db_exec (rt_revoke_family (rt_family_id knownRow));
      _ ← db_exec (λ now d, d <| sessions ::=
            sql_update (λ s, s_id s = rt_session_id knownRow ∧ s_status s = SActive)
              (session_revoke "refresh_token_reuse" now) |>);
      Throw (AppError 401 "REFRESH_TOKEN_REUSE"
               "Refresh token reuse detected - session revoked")
  | None => mret ()
  end.

(** The atomic UPDATE .. RETURNING of [consume]. *)
Definition rt_rotate_returning (h : string) (w : World)
    : option RefreshTokenRow * World :=
  (head (sql_returning (rt_consumable h (w_now w)) (rt_rotate (w_now w))
           (refresh_tokens (w_db w))),
   on_db (λ d, d <| refresh_tokens ::=
            sql_update (rt_consumable h (w_now w)) (rt_rotate (w_now w)) |>) w).

Record Consumed : Type := mkConsumed {
  co_row : RefreshTokenRow; co_nextToken : string; co_expiresAt : Z;
}.

Definition consume (token : string) : M Consumed :=
  let h := rt_hash token in
  rotated ← atomically (rt_rotate_returning h);
  match rotated with
  | None =>
      _ ← handleReuseOrInvalid h;
      Throw (AuthError "Invalid refresh token" "INVALID_REFRESH_TOKEN")
  | Some row =>
      next ← issue (mkIssue (rt_session_id row) (rt_user_id row) (rt_client_id row)
                      (rt_scope row) (Some (rt_family_id row)) (Some (rt_id row)));
      mret (mkConsumed row next.1 next.2)
  end.

Definition revokeByToken (token : string) : M bool :=
  let hit := λ r, rt_token_hash r = rt_hash token ∧ rt_not_revoked r in
  atomically (λ w,
    (bool_decide (0 < length (sql_select hit (refresh_tokens (w_db w))))%nat,
     on_db (λ d, d <| refresh_tokens ::= sql_update hit (rt_revoke (w_now w)) |>) w)).

Definition revokeFamily (fam : string) : M () := db_exec (rt_revoke_family fam).

(** * Effect of one run *)

(** Token hashes are unique, as the schema demands. *)
Definition rt_unique (w : World) : Prop :=
  NoDup (rt_token_hash <$> refresh_tokens (w_db w)).

(** The row issued for [p] with the draws of the store [w]. *)
Definition issued_row (p : IssueParams) (fam : string) (token_draw id_draw : N) (now : Z)
    : RefreshTokenRow :=
  mkRefreshTokenRow (random_uuid id_draw) (i_sessionId p) (i_userId p) (i_clientId p)
    (rt_hash (random_b64url 32 token_draw)) fam (i_previousTokenId p) (i_scope p)
    RActive (now + REFRESH_TOKEN_TTL cfg * 1000) None None.

Definition on_tokens (f : list RefreshTokenRow → list RefreshTokenRow) (w : World) : World :=
  on_db (λ d, d <| refresh_tokens ::= f |>) w.

Lemma on_tokens_id f w :
  f (refresh_tokens (w_db w)) = refresh_tokens (w_db w) → on_tokens f w = w.
Proof. unfold on_tokens, on_db. destruct w as [? ? []]. simpl. intros Hf.
  unfold set_field. simpl. by rewrite Hf.
Qed.

Lemma run_issue_family p fam w :
  i_familyId p = Some fam →
  rt_hash (random_b64url 32 (w_draws w)) ∉ rt_token_hash <$> refresh_tokens (w_db w) →
  run (issue p) w =
    (Resolved (random_b64url 32 (w_draws w), w_now w + REFRESH_TOKEN_TTL cfg * 1000),
     on_tokens (λ t, t ++ [issued_row p fam (w_draws w) (N.succ (w_draws w)) (w_now w)]) w
       <| w_draws := N.succ (N.succ (w_draws w)) |>).
Proof.
  intros Hfam Hfresh. unfold issue. rewrite Hfam.
  unfold draw, rt_insert. run_simpl. by rewrite decide_False.
Qed.

Lemma run_issue_new_family p w :
  i_familyId p = None →
  rt_hash (random_b64url 32 (w_draws w)) ∉ rt_token_hash <$> refresh_tokens (w_db w) →
  run (issue p) w =
    (Resolved (random_b64url 32 (w_draws w), w_now w + REFRESH_TOKEN_TTL cfg * 1000),
     on_tokens (λ t, t ++ [issued_row p (random_uuid (N.succ (w_draws w))) (w_draws w)
                             (N.succ (N.succ (w_draws w))) (w_now w)]) w
       <| w_draws := N.succ (N.succ (N.succ (w_draws w))) |>).
Proof.
  intros Hfam Hfresh. unfold issue. rewrite Hfam.
  unfold draw, rt_insert. run_simpl. by rewrite decide_False.
Qed.

(** What a successful [issue] did. *)
Lemma issue_inv p w t e w' :
  run (issue p) w = (Resolved (t, e), w') →
  ∃ row, w_db w' = w_db w <| refresh_tokens := refresh_tokens (w_db w) ++ [row] |> ∧
    rt_token_hash row = rt_hash t ∧ rt_status_ row = RActive ∧ rt_expires_at row = e ∧
    rt_session_id row = i_sessionId p ∧ rt_user_id row = i_userId p ∧
    rt_client_id row = i_clientId p ∧ rt_scope row = i_scope p ∧
    w_now w' = w_now w ∧ w_redis w' = w_redis w.
Proof.
  unfold issue, draw. destruct (i_familyId p); run_simpl; unfold rt_insert; case_decide; try done;
    intros [= <- <- <-]; by eexists.
Qed.
End service.

(** * How the table evolves *)

Lemma rt_le_revoke now r : rt_le r (rt_revoke now r).
Proof. split; [done|]. simpl. destruct (rt_status_ r); simpl; lia. Qed.

Lemma rt_le_rotate now r : rt_status_ r = RActive → rt_le r (rt_rotate now r).
Proof. intros H. split; [done|]. rewrite H. simpl. lia. Qed.

(** Every operation of the service is a step of the store. *)
Section evolution.
Context `{P : Platform}.

Lemma rt_insert_step p h fam ttl : respects step (attempt (rt_insert p h fam ttl)).
Proof.
  apply respects_attempt. intros w. unfold rt_insert. case_decide; [done|].
  step_tables. by apply evolves_insert; [apply _|].
Qed.

Lemma issue_step p : respects step (issue p).
Proof. pose proof rt_insert_step. unfold issue. respects_step. Qed.

Lemma revokeFamily_step fam : respects step (revokeFamily fam).
Proof.
  apply respects_writes. intros w. step_tables.
  apply evolves_update; [apply _|intros; apply rt_le_revoke|apply rt_le_hash].
Qed.

Lemma revokeByToken_step t : respects step (revokeByToken t).
Proof.
  apply respects_atomically. intros w. step_tables.
  apply evolves_update; [apply _|intros; apply rt_le_revoke|apply rt_le_hash].
Qed.

Lemma session_revoke_step (Q : SessionRow → Prop) `{!∀ s, Decision (Q s)} why :
  respects step (db_exec (λ now d, d <| sessions ::= sql_update Q (session_revoke why now) |>)).
Proof.
  apply respects_writes. intros w. step_tables.
  apply evolves_update; [apply _|done|apply sess_le_id].
Qed.

Lemma handleReuse_step h : respects step (handleReuseOrInvalid h).
Proof.
  pose proof revokeFamily_step as Hf. unfold revokeFamily in Hf.
  pose proof @session_revoke_step. unfold handleReuseOrInvalid. respects_step.
Qed.

Lemma rt_rotate_step h : respects step (atomically (rt_rotate_returning h) : M _).
Proof.
  apply respects_atomically. intros w. unfold rt_rotate_returning. step_tables.
  apply evolves_update; [apply _| |apply rt_le_hash].
  intros r (_ & Ha & _). by apply rt_le_rotate.
Qed.
#[local] Hint Resolve rt_rotate_step issue_step handleReuse_step : steps.

Lemma consume_step t : respects step (consume t).
Proof. unfold consume. respects_step. Qed.
End evolution.
#[export] Hint Resolve issue_step revokeFamily_step revokeByToken_step session_revoke_step
  handleReuse_step consume_step : steps.

(** * Functional behaviour *)

Section behaviour.
Context `{P : Platform}.

(** Hashes are unique and every stored hash is that of a token drawn
    earlier: a token drawn next is new. *)
Definition rt_drawn (w : World) (r : RefreshTokenRow) : Prop :=
  ∃ n, (n < w_draws w)%N ∧ rt_token_hash r = rt_hash (random_b64url 32 n).
Definition rt_wf (w : World) : Prop :=
  rt_unique w ∧ Forall (rt_drawn w) (refresh_tokens (w_db w)).

Lemma rt_wf_fresh `{!PlatformLaws P} w n :
  rt_wf w → (w_draws w ≤ n)%N →
  rt_hash (random_b64url 32 n) ∉ rt_token_hash <$> refresh_tokens (w_db w).
Proof.
  intros [_ Hd] Hn Hin. apply list_elem_of_fmap in Hin as (r & Hr & Hin).
  rewrite Forall_forall in Hd. destruct (Hd r Hin) as (m & Hm & Hh).
  rewrite Hh in Hr. pose proof sha256_hex_inj as Hi1.
  pose proof (random_b64url_inj 32) as Hi2. unfold rt_hash in Hr.
  apply (inj sha256_hex), (inj (random_b64url 32)) in Hr. lia.
Qed.

(** The row a token hash designates is found by every query on it. *)
Lemma rt_lookup w r (Q : RefreshTokenRow → Prop) `{!∀ r, Decision (Q r)} :
  rt_unique w → r ∈ refresh_tokens (w_db w) →
  (∀ r', Q r' → rt_token_hash r' = rt_token_hash r) → Q r →
  sql_first Q (refresh_tokens (w_db w)) = Some r.
Proof. intros. by eapply (sql_first_unique Q rt_token_hash). Qed.

Lemma rt_unique_eq w r r' :
  rt_unique w → r ∈ refresh_tokens (w_db w) → r' ∈ refresh_tokens (w_db w) →
  rt_token_hash r = rt_token_hash r' → r = r'.
Proof.
  intros Hu Hr Hr' Hh.
  enough (Some r = Some r') as [= ->] by done.
  rewrite <- (rt_lookup w r (λ x, rt_token_hash x = rt_token_hash r) Hu Hr) by done.
  apply (rt_lookup w r' _ Hu Hr'); [|done]. intros x ->. done.
Qed.

Lemma rt_lookup_none w r h (Q : RefreshTokenRow → Prop) `{!∀ r, Decision (Q r)} :
  rt_unique w → r ∈ refresh_tokens (w_db w) → rt_token_hash r = h →
  (∀ r', Q r' → rt_token_hash r' = h) → ¬ Q r →
  ∀ r', r' ∈ refresh_tokens (w_db w) → ¬ Q r'.
Proof.
  intros Hu Hr Hh HQ Hn r' Hr' HQ'.
  assert (r' = r) as ->; [|done].
  apply (rt_unique_eq w); [done..|]. by rewrite Hh, (HQ r').
Qed.

Definition rotated_from (r : RefreshTokenRow) : IssueParams :=
  mkIssue (rt_session_id r) (rt_user_id r) (rt_client_id r) (rt_scope r)
    (Some (rt_family_id r)) (Some (rt_id r)).

(** The store after a successful rotation of [r]. *)
Definition after_rotation (token : string) (r : RefreshTokenRow) (w : World) : World :=
  on_tokens (λ t, sql_update (rt_consumable (rt_hash token) (w_now w)) (rt_rotate (w_now w)) t
                  ++ [issued_row (rotated_from r) (rt_family_id r) (w_draws w)
                        (N.succ (w_draws w)) (w_now w)]) w
    <| w_draws := N.succ (N.succ (w_draws w)) |>.

Lemma run_consume_active `{!PlatformLaws P} token w r :
  rt_wf w → r ∈ refresh_tokens (w_db w) →
  rt_consumable (rt_hash token) (w_now w) r →
  run (consume token) w =
    (Resolved (mkConsumed (rt_rotate (w_now w) r) (random_b64url 32 (w_draws w))
                 (w_now w + REFRESH_TOKEN_TTL cfg * 1000)),
     after_rotation token r w).
Proof.
  intros Hwf Hr Hc. unfold consume. rewrite run_bind, run_atomically.
  unfold rt_rotate_returning. cbn [fst snd].
  rewrite sql_returning_head.
  rewrite (rt_lookup w r _ (proj1 Hwf) Hr); [|by intros r' [-> _]; destruct Hc|done].
  cbn [fmap option_fmap option_map]. rewrite run_bind.
  rewrite (run_issue_family _ (rt_family_id r)); [|done|].
  - by run_simpl.
  - unfold on_db. simpl. rewrite sql_update_key by done.
    apply (rt_wf_fresh w); [done|lia].
Qed.

Lemma run_consume_dead token w r :
  rt_unique w → r ∈ refresh_tokens (w_db w) → rt_token_hash r = rt_hash token →
  ¬ rt_consumable (rt_hash token) (w_now w) r →
  run (consume token) w =
    (Rejected (AppError 401 "REFRESH_TOKEN_REUSE"
                 "Refresh token reuse detected - session revoked"),
     on_db (λ d, rt_revoke_family (rt_family_id r) (w_now w) d
       <| sessions ::= sql_update (λ s, s_id s = rt_session_id r ∧ s_status s = SActive)
            (session_revoke "refresh_token_reuse" (w_now w)) |>) w).
Proof.
  intros Hu Hr Hh Hn.
  assert (Hnone : ∀ r', r' ∈ refresh_tokens (w_db w) →
            ¬ rt_consumable (rt_hash token) (w_now w) r').
  { apply (rt_lookup_none w r (rt_hash token) _ Hu Hr Hh); [|exact Hn].
    by intros r' [? _]. }
  unfold consume. rewrite run_bind, run_atomically.
  unfold rt_rotate_returning. cbn [fst snd]. fold (on_tokens
    (sql_update (rt_consumable (rt_hash token) (w_now w)) (rt_rotate (w_now w))) w).
  rewrite sql_returning_head, (proj2 (sql_first_None _ _)) by exact Hnone.
  cbn [fmap option_fmap option_map].
  rewrite (on_tokens_id _ w) by by apply sql_update_nothing.
  unfold handleReuseOrInvalid, db_select, db_exec. run_simpl.
  rewrite (rt_lookup w r (λ r', rt_token_hash r' = rt_hash token) Hu Hr);
    [|intros; congruence|done].
  run_simpl. by destruct w as [? ? []].
Qed.

(** Reuse leaves no live token in the family and ends the session. *)
Lemma reuse_kills (r : RefreshTokenRow) (now : Z) (d : Db) :
  let d' := rt_revoke_family (rt_family_id r) now d
    <| sessions ::= sql_update (λ s, s_id s = rt_session_id r ∧ s_status s = SActive)
         (session_revoke "refresh_token_reuse" now) |> in
  (∀ s, s ∈ sessions d' → s_id s = rt_session_id r → s_status s = SRevoked) ∧
  (∀ x, x ∈ refresh_tokens d' → rt_family_id x = rt_family_id r → rt_status_ x = RRevoked).
Proof.
  simpl. split.
  - intros s. apply (update_establishes _ _ (λ x, s_id x = rt_session_id r)
      (λ x, s_status x = SRevoked)); [done|]. intros s0. destruct (s_status s0); tauto.
  - intros x. apply (update_establishes _ _ (λ x, rt_family_id x = rt_family_id r)
      (λ x, rt_status_ x = RRevoked)); [done|]. intros r0. unfold rt_not_revoked.
    destruct (rt_status_ r0); tauto.
Qed.

Lemma run_consume_unknown token w :
  rt_hash token ∉ rt_token_hash <$> refresh_tokens (w_db w) →
  run (consume token) w =
    (Rejected (AuthError "Invalid refresh token" "INVALID_REFRESH_TOKEN"), w).
Proof.
  intros Hn.
  assert (Hno : ∀ r, r ∈ refresh_tokens (w_db w) → rt_token_hash r ≠ rt_hash token).
  { intros r Hr Heq. apply Hn. rewrite <- Heq. by apply list_elem_of_fmap_2. }
  unfold consume. rewrite run_bind, run_atomically.
  unfold rt_rotate_returning. cbn [fst snd]. fold (on_tokens
    (sql_update (rt_consumable (rt_hash token) (w_now w)) (rt_rotate (w_now w))) w).
  rewrite sql_returning_head, (proj2 (sql_first_None _ _)).
  2: { intros r Hr [Hh _]. by apply (Hno r). }
  cbn [fmap option_fmap option_map].
  rewrite (on_tokens_id _ w).
  2: { apply sql_update_nothing. intros r Hr [Hh _]. by apply (Hno r). }
  unfold handleReuseOrInvalid, db_select, db_exec. run_simpl.
  rewrite (proj2 (sql_first_None _ _)) by done. by run_simpl.
Qed.
End behaviour.

(** * Properties *)

Section properties.
Context `{P : Platform, !PlatformLaws P}.

Lemma rt_wf_append w r rest :
  rt_wf w → (w_draws w < rest)%N → rt_drawn (w <| w_draws := rest |>) r →
  rt_token_hash r ∉ rt_token_hash <$> refresh_tokens (w_db w) →
  ∀ f, (∀ t, rt_token_hash <$> f t = rt_token_hash <$> t) →
  rt_wf (on_tokens (λ t, f t ++ [r]) w <| w_draws := rest |>).
Proof.
  intros [Hu Hd] Hlt Hr Hnew f Hf. split; simpl.
  - unfold rt_unique. simpl. rewrite fmap_app, Hf. apply NoDup_app.
    split; [done|]. split; [|apply NoDup_singleton].
    intros h Hh Hin. apply list_elem_of_singleton in Hin as ->. done.
  - apply Forall_app. split; [|by constructor].
    apply Forall_forall. intros r' Hr'.
    assert (rt_token_hash r' ∈ rt_token_hash <$> refresh_tokens (w_db w)) as Hin.
    { rewrite <- Hf. by apply list_elem_of_fmap_2. }
    apply list_elem_of_fmap in Hin as (r0 & Hh & Hin0).
    rewrite Forall_forall in Hd. destruct (Hd r0 Hin0) as (n & Hn & Hn').
    exists n. simpl. split; [lia | congruence].
Qed.

Lemma after_rotation_wf token r w :
  rt_wf w → rt_wf (after_rotation token r w).
Proof.
  intros Hwf. apply rt_wf_append; [done|lia| | |].
  - exists (w_draws w). simpl. split; [lia|done].
  - simpl. apply rt_wf_fresh; [done|lia].
  - intros t. by rewrite sql_update_key.
Qed.

(** The row after its rotation. *)
Lemma rotated_row token row w :
  row ∈ refresh_tokens (w_db w) → rt_consumable (rt_hash token) (w_now w) row →
  rt_rotate (w_now w) row ∈ refresh_tokens (w_db (after_rotation token row w)).
Proof.
  intros Hr Hc. simpl. apply elem_of_app. left. apply elem_of_update. exists row.
  split; [done|]. by rewrite sql_set_true.
Qed.

Lemma after_rotation_unique token row w :
  rt_wf w → row ∈ refresh_tokens (w_db w) → rt_consumable (rt_hash token) (w_now w) row →
  rt_unique (after_rotation token row w).
Proof.
  intros Hwf Hr Hc. pose proof (respects_run step _ w (consume_step token)) as Hs.
  rewrite (run_consume_active token w row) in Hs by done.
  destruct (step_rt _ _ Hs) as [_ Hu]. apply Hu, Hwf.
Qed.

(** Presenting a live token rotates it: the presented token stops being
    accepted, exactly one successor is issued in the same family with the
    same session, user, client and scope, and no other row changes. *)
Theorem refresh_rotation (token : string) (w : World) (r : RefreshTokenRow) :
  rt_wf w → r ∈ refresh_tokens (w_db w) →
  rt_consumable (rt_hash token) (w_now w) r →
  ∃ c w' next,
    run (consume token) w = (Resolved c, w') ∧
    co_row c = rt_rotate (w_now w) r ∧
    refresh_tokens (w_db w')
      = sql_update (rt_consumable (rt_hash token) (w_now w)) (rt_rotate (w_now w))
          (refresh_tokens (w_db w)) ++ [next] ∧
    rt_token_hash next = rt_hash (co_nextToken c) ∧
    (rt_session_id next, rt_user_id next, rt_client_id next, rt_family_id next,
     rt_scope next, rt_previous_token_id next)
    = (rt_session_id r, rt_user_id r, rt_client_id r, rt_family_id r, rt_scope r,
       Some (rt_id r)) ∧
    rt_status_ next = RActive ∧
    (∀ r', r' ∈ refresh_tokens (w_db w') → ¬ rt_consumable (rt_hash token) (w_now w') r') ∧
    sessions (w_db w') = sessions (w_db w) ∧ rt_wf w'.
Proof.
  intros Hwf Hr Hc. eexists _, _, _. split; [by apply run_consume_active|].
  split; [done|]. split; [done|]. repeat (split; [done|]).
  split; [|split; [done | by apply after_rotation_wf]].
  intros r' Hr' (Hh & Ha & _). simpl in Hr'. apply elem_of_app in Hr' as [Hr'|Hr'].
  - apply elem_of_update in Hr' as (r0 & Hr0 & ->). unfold sql_set in *.
    case_decide as Hc0; [done|]. apply Hc0.
    assert (r0 = r) as ->; [|done].
    apply (rt_unique_eq w); [apply Hwf|done..|]. destruct Hc as [Hhr _]. congruence.
  - apply list_elem_of_singleton in Hr' as ->. simpl in Hh.
    assert (rt_hash (random_b64url 32 (w_draws w)) ∈ rt_token_hash <$> refresh_tokens (w_db w)) as Hin.
    { rewrite Hh. destruct Hc as [<- _]. by apply list_elem_of_fmap_2. }
    revert Hin. by apply rt_wf_fresh.
Qed.

(** C2: Presenting a known token that is not live (rotated, revoked, or expired)
    is answered as a theft: every row of its family ends revoked, its session
    is not active any more, and rows of other families and other sessions are
    untouched. *)
Theorem refresh_reuse (token : string) (w : World) (r : RefreshTokenRow) :
  rt_unique w → r ∈ refresh_tokens (w_db w) → rt_token_hash r = rt_hash token →
  ¬ rt_consumable (rt_hash token) (w_now w) r →
  ∃ e w', run (consume token) w = (Rejected e, w') ∧
    err_code e = Some "REFRESH_TOKEN_REUSE" ∧ instanceof_AuthError e = false ∧
    (∀ r', r' ∈ refresh_tokens (w_db w') → rt_family_id r' = rt_family_id r →
           rt_status_ r' = RRevoked) ∧
    (∀ r', rt_family_id r' ≠ rt_family_id r →
           (r' ∈ refresh_tokens (w_db w') ↔ r' ∈ refresh_tokens (w_db w))) ∧
    (∀ s, s ∈ sessions (w_db w') → s_id s = rt_session_id r → s_status s = SRevoked) ∧
    (∀ s, s_id s ≠ rt_session_id r →
          (s ∈ sessions (w_db w') ↔ s ∈ sessions (w_db w))).
Proof.
  intros Hu Hr Hh Hn. eexists _, _. split; [by apply (run_consume_dead token w r)|].
  split; [done|]. split; [done|]. cbn -[sql_update].
  destruct (reuse_kills r (w_now w) (w_db w)) as [Hs Hf].
  split; [exact Hf|]. split; [|split; [exact Hs|]].
  - intros r'.
    by apply (elem_of_update_other _ _ (λ x, rt_family_id x = rt_family_id r)); intros r0 [].
  - intros s.
    by apply (elem_of_update_other _ _ (λ x, s_id x = rt_session_id r)); intros s0 [].
Qed.
End properties.

(** * Concurrent presentation of one token *)

Section concurrency.
Context `{P : Platform}.

Definition rt_live (r : RefreshTokenRow) : Prop := rt_status_ r = RActive.
#[global] Instance rt_live_dec r : Decision (rt_live r).
Proof. unfold rt_live. apply _. Defined.

Definition rt_table (w : World) : list RefreshTokenRow := refresh_tokens (w_db w).

Lemma rt_le_live r r' : rt_le r r' → rt_live r' → rt_live r.
Proof.
  unfold rt_live. intros [_ Hs] Ha. rewrite Ha in Hs.
  destruct (rt_status_ r); simpl in Hs; [done|lia..].
Qed.

Definition consumed_hash (h : string) (c : Consumed) : bool :=
  bool_decide (rt_token_hash (co_row c) = h).

Lemma rt_step_earns {A} (h : string) (Q : nat → A → Prop) n (p : M A) :
  respects step p → (∀ m a, (n ≤ m)%nat → Q m a) →
  earns (key_unique rt_table rt_token_hash) (spent_count rt_table rt_token_hash rt_live h) Q n p.
Proof.
  intros Hp. apply (evolves_earns _ rt_le); [apply rt_le_hash|apply rt_le_live|].
  eapply respects_mono; [|exact Hp]. apply step_rt.
Qed.

Lemma consume_earns h token :
  earns (key_unique rt_table rt_token_hash) (spent_count rt_table rt_token_hash rt_live h)
    (earned (consumed_hash h)) 0 (consume token).
Proof.
  unfold consume. apply earns_bind. eapply earns_mono; cycle 1.
  - apply (take_earns rt_table rt_le rt_token_hash rt_live rt_le_hash rt_le_live h
      (λ w, rt_consumable (rt_hash token) (w_now w)) (λ w, rt_rotate (w_now w))).
    + intros w r (_ & Ha & _). split; [done|]. split; [done|]. by apply rt_le_rotate.
    + intros w. apply sql_returning_head.
    + done.
  - intros m [row|] _ Hm; simpl in Hm.
    + destruct (Hm row eq_refl) as [Hrow _]. clear Hm. rename Hrow into Hm.
      apply earns_bind, rt_step_earns; [apply issue_step|].
      intros m' next Hm' Hwin. apply bool_decide_eq_true in Hwin. simpl in Hwin.
      specialize (Hm Hwin). lia.
    + apply earns_bind, rt_step_earns; [apply handleReuse_step | done].
Qed.
End concurrency.

Section races.
Context `{P : Platform}.

(** C3: However any number of [consume] calls (for this and for other tokens)
    interleave with each other and with statements that move the table
    forward, at most one of them rotates a given token. *)
Theorem refresh_single_winner (token : string) (env : World → World → Prop)
    (ps ps' : list (M Consumed)) (w w' : World) :
  (∀ v v', env v v' → rt_step v v') →
  rt_unique w → Forall (λ p, ∃ t, p = consume t) ps →
  rtc (pstep env (λ p, ∃ t, p = consume t)) (ps, w) (ps', w') →
  (winners (consumed_hash (rt_hash token)) ps' ≤ 1)%nat.
Proof.
  intros Henv Hu Hps Hsteps.
  refine (single_use_pool rt_table rt_le rt_token_hash rt_live rt_le_hash rt_le_live
    (rt_hash token) _ env _ ps ps' w w' Henv _ Hu Hps Hsteps).
  intros p [t ->]. apply consume_earns.
Qed.
End races.

(** * The life of the table

    The states reached by any sequence of calls of the service. *)

Section reachability.
Context `{P : Platform, !PlatformLaws P}.

Inductive rt_call : World → World → Prop :=
  | call_issue p w : i_familyId p = None → rt_call w (run (issue p) w).2
  | call_consume t w : rt_call w (run (consume t) w).2
  | call_revokeByToken t w : rt_call w (run (revokeByToken t) w).2
  | call_revokeFamily f w : rt_call w (run (revokeFamily f) w).2
  | call_tick t w : w_now w ≤ t → rt_call w (w <| w_now := t |>)
  | call_draw n w : (w_draws w ≤ n)%N → rt_call w (w <| w_draws := n |>).

Definition rt_initial (w : World) : Prop := refresh_tokens (w_db w) = [].

(** At most one token of a family is active. *)
Definition rt_linear (w : World) : Prop :=
  ∀ r r', r ∈ refresh_tokens (w_db w) → r' ∈ refresh_tokens (w_db w) →
    rt_status_ r = RActive → rt_status_ r' = RActive →
    rt_family_id r = rt_family_id r' → r = r'.

Definition rt_family_drawn (w : World) (r : RefreshTokenRow) : Prop :=
  ∃ n, (n < w_draws w)%N ∧ rt_family_id r = random_uuid n.

Definition rt_inv (w : World) : Prop :=
  rt_wf w ∧ Forall (rt_family_drawn w) (refresh_tokens (w_db w)) ∧ rt_linear w.

Lemma rt_inv_draws w n : rt_inv w → (w_draws w ≤ n)%N → rt_inv (w <| w_draws := n |>).
Proof.
  intros ([Hu Hd] & Hf & Hl) Hn. split; [split; [done|]|split; [|done]]; simpl.
  - eapply Forall_impl; [exact Hd|]. intros r (m & Hm & E).
    exists m. simpl. split; [lia|done].
  - eapply Forall_impl; [exact Hf|]. intros r (m & Hm & E).
    exists m. simpl. split; [lia|done].
Qed.

(** Updates that only move rows forward keep the invariant. *)
Lemma rt_inv_update (Q : RefreshTokenRow → Prop) `{!∀ r, Decision (Q r)} f w w' :
  (∀ r, Q r → rt_core (f r) = rt_core r ∧ rt_status_ (f r) ≠ RActive) →
  refresh_tokens (w_db w') = sql_update Q f (refresh_tokens (w_db w)) →
  w_draws w' = w_draws w → rt_inv w → rt_inv w'.
Proof.
  intros Hf E Ed ([Hu Hd] & Hfam & Hl).
  assert (Hcore : ∀ r, rt_core (sql_set Q f r) = rt_core r).
  { intros r. unfold sql_set. case_decide; [by apply Hf | done]. }
  unfold rt_core in Hcore. split; [split|split].
  - unfold rt_unique. rewrite E, sql_update_key; [done|].
    intros r HQ. destruct (Hf r HQ) as [Hc _]. unfold rt_core in Hc. congruence.
  - rewrite E. apply Forall_fmap, Forall_forall. intros r Hr.
    rewrite Forall_forall in Hd. destruct (Hd r Hr) as (n & Hn & Hh).
    exists n. specialize (Hcore r). split; [by rewrite Ed | simpl; congruence].
  - rewrite E. apply Forall_fmap, Forall_forall. intros r Hr.
    rewrite Forall_forall in Hfam. destruct (Hfam r Hr) as (n & Hn & Hh).
    exists n. specialize (Hcore r). split; [by rewrite Ed | simpl; congruence].
  - unfold rt_linear. rewrite E. setoid_rewrite elem_of_update.
    intros r r' (r0 & Hr0 & ->) (r1 & Hr1 & ->) Ha Ha' Hff.
    assert (Hact : ∀ x, rt_status_ (sql_set Q f x) = RActive → sql_set Q f x = x).
    { intros x. unfold sql_set. case_decide as HQ; [|done].
      intros Hx. by destruct (Hf x HQ) as [_ []]. }
    pose proof (Hact _ Ha) as E0. pose proof (Hact _ Ha') as E1.
    rewrite E0, E1 in *. by apply Hl.
Qed.

(** A new active row keeps it if its family has no active token yet. *)
Lemma rt_inv_insert w r n fam_n :
  rt_inv w → (w_draws w ≤ n)%N →
  rt_token_hash r ∉ rt_token_hash <$> refresh_tokens (w_db w) →
  rt_drawn (w <| w_draws := n |>) r → (fam_n < n)%N → rt_family_id r = random_uuid fam_n →
  (∀ r', r' ∈ refresh_tokens (w_db w) → rt_family_id r' = rt_family_id r →
         rt_status_ r' ≠ RActive) →
  rt_inv (on_tokens (λ t, t ++ [r]) w <| w_draws := n |>).
Proof.
  intros ([Hu Hd] & Hfam & Hl) Hn Hnew Hdr Hfn Hf Hno.
  assert (Hmono : ∀ m, (m < w_draws w)%N → (m < n)%N) by (intros; lia).
  split; [split|split]; simpl.
  - unfold rt_unique. simpl. rewrite fmap_app. apply NoDup_app.
    split; [done|]. split; [|apply NoDup_singleton].
    intros h Hh Hin. apply list_elem_of_singleton in Hin as ->. done.
  - apply Forall_app. split; [|by constructor].
    eapply Forall_impl; [exact Hd|]. intros x (m & Hm & E). exists m. simpl. auto.
  - apply Forall_app. split; [|constructor; [exists fam_n; exact (conj Hfn Hf) | constructor]].
    eapply Forall_impl; [exact Hfam|]. intros x (m & Hm & E). exists m. simpl. auto.
  - intros x y Hx Hy Hax Hay Hxy. simpl in Hx, Hy.
    apply elem_of_app in Hx as [Hx|Hx%list_elem_of_singleton];
      apply elem_of_app in Hy as [Hy|Hy%list_elem_of_singleton]; subst.
    + by apply Hl.
    + by destruct (Hno x Hx).
    + by destruct (Hno y Hy).
    + done.
Qed.

Lemma rt_inv_issue p w :
  i_familyId p = None → rt_inv w → rt_inv (run (issue p) w).2.
Proof.
  intros Hp Hinv. destruct Hinv as (Hwf & Hfam & Hl).
  rewrite run_issue_new_family; [|done|apply rt_wf_fresh; [done|lia]].
  apply (rt_inv_insert _ _ _ (N.succ (w_draws w))); [by split_and!|lia| | |lia|done|].
  - apply rt_wf_fresh; [done|lia].
  - exists (w_draws w). simpl. split; [lia|done].
  - simpl. intros r' Hr' E. rewrite Forall_forall in Hfam.
    destruct (Hfam r' Hr') as (n & Hn & Hr'n). rewrite E in Hr'n.
    pose proof random_uuid_inj as Hi. apply (inj random_uuid) in Hr'n. lia.
Qed.

Lemma rt_inv_rotation token w r :
  rt_inv w → r ∈ refresh_tokens (w_db w) →
  rt_consumable (rt_hash token) (w_now w) r → rt_inv (after_rotation token r w).
Proof.
  intros Hinv Hr Hc. pose proof Hinv as (Hwf & Hfam & Hl).
  set (w1 := on_tokens (sql_update (rt_consumable (rt_hash token) (w_now w))
                          (rt_rotate (w_now w))) w).
  assert (rt_inv w1) as Hinv1.
  { eapply (rt_inv_update (rt_consumable (rt_hash token) (w_now w))); [|done..].
    by intros x. }
  rewrite Forall_forall in Hfam. destruct (Hfam r Hr) as (n & Hn & Hrn).
  apply (rt_inv_insert w1 _ _ n); [done|simpl; lia| | |lia|done|].
  - apply (rt_wf_fresh w1); [apply Hinv1 | simpl; lia].
  - exists (w_draws w). simpl. split; [lia|done].
  - simpl. intros r' Hr' E Ha. apply elem_of_update in Hr' as (r0 & Hr0 & ->).
    unfold sql_set in *. case_decide as Hc0; [done|]. apply Hc0.
    enough (r0 = r) as -> by done. apply Hl; try done. apply Hc.
Qed.

Lemma rt_inv_consume token w : rt_inv w → rt_inv (run (consume token) w).2.
Proof.
  intros Hinv. pose proof Hinv as (Hwf & _ & _).
  destruct (decide (rt_hash token ∈ rt_token_hash <$> refresh_tokens (w_db w))) as [Hin|Hn].
  - apply list_elem_of_fmap in Hin as (r & Hh & Hr).
    destruct (decide (rt_consumable (rt_hash token) (w_now w) r)) as [Hc|Hc].
    + rewrite (run_consume_active token w r) by done. by apply rt_inv_rotation.
    + rewrite (run_consume_dead token w r) by (done || apply Hwf).
      eapply (rt_inv_update (λ x, rt_family_id x = rt_family_id r ∧ rt_not_revoked x));
        [|done..]. by intros x.
  - by rewrite run_consume_unknown.
Qed.

Lemma rt_inv_initial w : rt_initial w → rt_inv w.
Proof.
  unfold rt_initial. intros H0. split; [split|split].
  - unfold rt_unique. rewrite H0. constructor.
  - rewrite H0. constructor.
  - rewrite H0. constructor.
  - intros r r'. rewrite H0. intros Hr. by apply not_elem_of_nil in Hr.
Qed.

(** In every state reached by calls of the service from an empty table,
    hashes are unique, and a rotation family has at most one active token:
    a chain never forks. *)
Theorem refresh_chains_linear (w0 w : World) :
  rt_initial w0 → rtc rt_call w0 w → rt_unique w ∧ rt_linear w.
Proof.
  intros H0%rt_inv_initial Hsteps. enough (rt_inv w) as ([Hu _] & _ & Hl) by done. revert H0.
  induction Hsteps as [w|w w1 w2 Hcall _ IH]; [done|]. intros Hinv.
  apply IH. clear IH. destruct Hcall as [p w Hp|t w|t w|f w|t w Ht|n w Hn].
  - by apply rt_inv_issue.
  - by apply rt_inv_consume.
  - eapply (rt_inv_update (λ r, rt_token_hash r = rt_hash t ∧ rt_not_revoked r));
      [|done..]. by intros x.
  - eapply (rt_inv_update (λ r, rt_family_id r = f ∧ rt_not_revoked r)); [|done..].
    by intros x.
  - done.
  - by apply rt_inv_draws.
Qed.
End reachability.

(** * Concrete runs *)

(** A store with one live token, issued for the draw 0. *)
Definition demo_token : string := "random-value-of-24-or-32-bytes-0".
Definition demo_row : RefreshTokenRow :=
  mkRefreshTokenRow "rt-1" "sess-1" "user-1" None (hex_encode "random-value-of-24-or-32-bytes-0") "fam-1" None "openid"
    RActive 5000 None None.
Definition demo_session : SessionRow :=
  mkSessionRow "sess-1" "user-1" None None None None false SActive 9000 0 None None.
Definition demo_world (now : Z) : World :=
  empty_world now <| w_draws := 4%N |>
    <| w_db := empty_db <| refresh_tokens := [demo_row] |> <| sessions := [demo_session] |> |>.

Lemma demo_wf now : rt_wf (P := toy) (demo_world now).
Proof.
  split; [apply NoDup_singleton|]. constructor; [|constructor].
  exists 0%N. by split.
Qed.

Lemma refresh_rotation_witness :
  ∃ c w', run (consume (P := toy) demo_token) (demo_world 1000) = (Resolved c, w') ∧
    co_row c = rt_rotate 1000 demo_row ∧ length (refresh_tokens (w_db w')) = 2%nat.
Proof.
  destruct (refresh_rotation (P := toy) demo_token (demo_world 1000) demo_row)
    as (c & w' & next & Hrun & Hrow & Hrows & _).
  - apply demo_wf.
  - apply list_elem_of_here.
  - by split_and!.
  - exists c, w'. split; [exact Hrun|]. split; [exact Hrow|]. by rewrite Hrows.
Defined.

(** Six seconds later the token has expired. *)
Lemma refresh_reuse_witness :
  ∃ e w', run (consume (P := toy) demo_token) (demo_world 6000) = (Rejected e, w') ∧
    ∀ s, s ∈ sessions (w_db w') → s_id s = "sess-1" → s_status s = SRevoked.
Proof.
  destruct (refresh_reuse (P := toy) demo_token (demo_world 6000) demo_row)
    as (e & w' & Hrun & _ & _ & _ & _ & Hs & _).
  - apply NoDup_singleton.
  - apply list_elem_of_here.
  - done.
  - by intros (_ & _ & ?).
  - exists e, w'. by split.
Defined.

(** The same token presented twice: the first presentation wins. *)
Lemma refresh_single_winner_witness :
  let ps := replicate 2 (consume (P := toy) demo_token) in
  let win := consumed_hash (rt_hash (P := toy) demo_token) in
  winners win (serve ps (demo_world 1000)).1 = 1%nat ∧
  (winners win (serve ps (demo_world 1000)).1 ≤ 1)%nat.
Proof.
  intros ps win. split; [by vm_compute|].
  apply (refresh_single_winner (P := toy) demo_token rt_step ps
           (serve ps (demo_world 1000)).1 (demo_world 1000) (serve ps (demo_world 1000)).2).
  - done.
  - apply NoDup_singleton.
  - by repeat (constructor; [by eexists|]).
  - rewrite <- surjective_pairing. apply pool_serve.
Defined.

Lemma refresh_chains_linear_witness :
  let w := (run (issue (P := toy) (mkIssue "sess-1" "user-1" None "openid" None None))
              (empty_world 0)).2 in
  length (refresh_tokens (w_db w)) = 1%nat ∧ rt_unique w ∧ rt_linear w.
Proof.
  intros w. split; [done|].
  apply (refresh_chains_linear (P := toy) (empty_world 0) w); [done|].
  by apply rtc_once, call_issue.
Defined.
