(* ===== verification/Family.v ===== *)
(** An abstract specification of refresh token rotation, and the proof that
    src/modules/tokens/refresh-token.service.ts (RefreshTokens) implements it.

    A family is the set of the token hashes it ever had and, while it is open,
    the one hash it accepts with its expiry. Nothing else of the rows, their
    identifiers, time stamps and intermediate statuses, is visible. *)
From S2P Require Import Prelude Async JsString Errors Store Evolution Toy RefreshTokens.
From stdpp Require Import base gmap strings list relations.
From Stdlib Require Import ZArith Lia.
Local Open Scope string_scope.
Local Open Scope list_scope.
Local Open Scope Z_scope.

(** * The specification *)

Record Family : Type := mkFamily {
  fam_current : option (string * Z);
  fam_tokens : gset string;
}.

Notation Spec := (gmap string Family).

(** What a caller of the service observes. *)
Inductive Action : Type :=
  | Opened (h : string)
  | Rotated (h h' : string)
  | Reused (h : string)
  | Unknown (h : string)
  | Withdrawn (h : string)
  | Closed (fam : string).

Definition known (s : Spec) (h : string) : Prop := ∃ fam F, s !! fam = Some F ∧ h ∈ fam_tokens F.

(** The family accepts the hash now. *)
Definition accepts (now : Z) (F : Family) (h : string) : Prop :=
  ∃ e, fam_current F = Some (h, e) ∧ now < e.

Definition closed (F : Family) : Family := mkFamily None (fam_tokens F).

Definition withdraw (h : string) (F : Family) : Family :=
  match fam_current F with
  | Some (h', _) => if bool_decide (h' = h) then closed F else F
  | None => F
  end.

Section spec.
(** How long a token lives. *)
Context {lifetime : Z}.

Inductive spec_step (now : Z) : Action → Spec → Spec → Prop :=
  | spec_open fam h s :
      s !! fam = None → ¬ known s h →
      spec_step now (Opened h) s (<[fam := mkFamily (Some (h, now + lifetime)) {[h]}]> s)
  | spec_rotate fam F h h' s :
      s !! fam = Some F → accepts now F h → ¬ known s h' →
      spec_step now (Rotated h h') s (<[fam := mkFamily (Some (h', now + lifetime)) ({[h']} ∪ fam_tokens F)]> s)
  | spec_reuse fam F h s :
      s !! fam = Some F → h ∈ fam_tokens F → ¬ accepts now F h →
      spec_step now (Reused h) s (<[fam := closed F]> s)
  | spec_unknown h s : ¬ known s h → spec_step now (Unknown h) s s
  | spec_withdraw h s : spec_step now (Withdrawn h) s (withdraw h <$> s)
  | spec_close fam s : spec_step now (Closed fam) s (alter closed fam s).

(** Sequences of observations, each with the time of the server's clock. *)
Inductive spec_trace : Spec → list (Z * Action) → Spec → Prop :=
  | spec_nil s : spec_trace s [] s
  | spec_cons now a s s1 tr s2 :
      spec_step now a s s1 → spec_trace s1 tr s2 → spec_trace s ((now, a) :: tr) s2.

(** * What the specification promises *)

(** Hashes belong to one family, and the accepted one is among them. *)
Definition spec_wf (s : Spec) : Prop :=
  (∀ f f' F F' h, s !! f = Some F → s !! f' = Some F' → h ∈ fam_tokens F → h ∈ fam_tokens F' → f = f') ∧
  (∀ f F h e, s !! f = Some F → fam_current F = Some (h, e) → h ∈ fam_tokens F).

(** A spent hash: known, and no family accepts it, at any time. *)
Definition spent (s : Spec) (h : string) : Prop :=
  known s h ∧ ∀ f F e, s !! f = Some F → fam_current F ≠ Some (h, e).

Lemma withdraw_current h F : fam_current (withdraw h F) = fam_current F ∨ fam_current (withdraw h F) = None.
Proof. unfold withdraw. destruct (fam_current F) as [[h' e]|] eqn:E; [case_bool_decide|]; rewrite ?E; auto. Qed.

Lemma withdraw_tokens h F : fam_tokens (withdraw h F) = fam_tokens F.
Proof. unfold withdraw. destruct (fam_current F) as [[h' e]|]; [case_bool_decide|]; done. Qed.

(** A step either keeps a family's tokens and at most closes it, or opens it,
    or hands it on to a new hash. *)
Lemma spec_step_family now a s s' f F' :
  spec_step now a s s' → s' !! f = Some F' →
  (∃ F, s !! f = Some F ∧ fam_tokens F' = fam_tokens F ∧
     (fam_current F' = fam_current F ∨ fam_current F' = None)) ∨
  (∃ h e, s !! f = None ∧ ¬ known s h ∧ F' = mkFamily (Some (h, e)) {[h]}) ∨
  (∃ F h h' e', s !! f = Some F ∧ a = Rotated h h' ∧ accepts now F h ∧ ¬ known s h' ∧
     F' = mkFamily (Some (h', e')) ({[h']} ∪ fam_tokens F)).
Proof.
  intros Hs Hf. destruct Hs as [fam h s Hn Hk|fam F h h' s Hl Ha Hk|fam F h s Hl Hin Ha|h s Hk|h s|fam s].
  - destruct (decide (f = fam)) as [->|Hne].
    + rewrite lookup_insert_eq in Hf. injection Hf as <-. right. left. by eexists h, _.
    + rewrite lookup_insert_ne in Hf by done. left. exists F'. auto.
  - destruct (decide (f = fam)) as [->|Hne].
    + rewrite lookup_insert_eq in Hf. injection Hf as <-. right. right. by eexists F, h, h', _.
    + rewrite lookup_insert_ne in Hf by done. left. exists F'. auto.
  - left. destruct (decide (f = fam)) as [->|Hne].
    + rewrite lookup_insert_eq in Hf. injection Hf as <-. exists F. auto.
    + rewrite lookup_insert_ne in Hf by done. exists F'. auto.
  - left. exists F'. auto.
  - left. rewrite lookup_fmap in Hf. apply fmap_Some in Hf as (F & HF & ->). exists F.
    split; [done|]. split; [apply withdraw_tokens|apply withdraw_current].
  - left. destruct (decide (f = fam)) as [->|Hne].
    + rewrite lookup_alter_eq in Hf. apply fmap_Some in Hf as (F & HF & ->). exists F. auto.
    + rewrite lookup_alter_ne in Hf by done. exists F'. auto.
Qed.

(** Families are not forgotten, and keep their tokens. *)
Lemma spec_step_grows now a s s' f F :
  spec_step now a s s' → s !! f = Some F → ∃ F', s' !! f = Some F' ∧ fam_tokens F ⊆ fam_tokens F'.
Proof.
  intros Hs Hf. destruct Hs as [fam h s Hn _|fam F1 h h' s Hl _ _|fam F1 h s Hl _ _|h s _|h s|fam s].
  - rewrite lookup_insert_ne by congruence. eauto.
  - destruct (decide (f = fam)) as [->|]; [rewrite lookup_insert_eq|rewrite lookup_insert_ne by done]; eauto.
    eexists. split; [done|]. simplify_eq. set_solver.
  - destruct (decide (f = fam)) as [->|]; [rewrite lookup_insert_eq|rewrite lookup_insert_ne by done]; eauto.
    eexists. split; [done|]. by simplify_eq.
  - eauto.
  - rewrite lookup_fmap, Hf. eexists. split; [done|]. by rewrite withdraw_tokens.
  - destruct (decide (f = fam)) as [->|]; [rewrite lookup_alter_eq, Hf|rewrite lookup_alter_ne by done]; eauto.
Qed.

Lemma spec_step_known now a s s' h : spec_step now a s s' → known s h → known s' h.
Proof.
  intros Hs (f & F & Hf & Hh). destruct (spec_step_grows _ _ _ _ _ _ Hs Hf) as (F' & ? & ?).
  exists f, F'. set_solver.
Qed.

(** Whose token a hash is was so before, or the hash is new. *)
Lemma spec_step_tokens now a s s' f F' h :
  spec_step now a s s' → s' !! f = Some F' → h ∈ fam_tokens F' →
  (∃ F, s !! f = Some F ∧ h ∈ fam_tokens F) ∨
  (¬ known s h ∧ ∀ f2 F2, s' !! f2 = Some F2 → h ∈ fam_tokens F2 → f2 = f).
Proof.
  intros Hs Hf Hh.
  assert (Hnew : ∀ s fam F2, ¬ known s h → ∀ f2 F3, <[fam := F2]> s !! f2 = Some F3 → h ∈ fam_tokens F3 → f2 = fam).
  { intros s0 fam F2 Hk f2 F3 Hf2 Hh2. destruct (decide (f2 = fam)) as [|Hne]; [done|].
    rewrite lookup_insert_ne in Hf2 by done. destruct Hk. by exists f2, F3. }
  destruct Hs as [fam h1 s Hn Hk|fam F h1 h' s Hl Ha Hk|fam F h1 s Hl Hin Ha|h1 s Hk|h1 s|fam s].
  - destruct (decide (f = fam)) as [->|Hne].
    + rewrite lookup_insert_eq in Hf. injection Hf as <-. simpl in Hh; apply elem_of_singleton in Hh as ->.
      right. split; [done|]. by apply Hnew.
    + rewrite lookup_insert_ne in Hf by done. eauto.
  - destruct (decide (f = fam)) as [->|Hne].
    + rewrite lookup_insert_eq in Hf. injection Hf as <-. simpl in Hh.
      apply elem_of_union in Hh as [->%elem_of_singleton|]; [|eauto]. right. split; [done|]. by apply Hnew.
    + rewrite lookup_insert_ne in Hf by done. eauto.
  - destruct (decide (f = fam)) as [->|Hne].
    + rewrite lookup_insert_eq in Hf. injection Hf as <-. eauto.
    + rewrite lookup_insert_ne in Hf by done. eauto.
  - eauto.
  - rewrite lookup_fmap in Hf. apply fmap_Some in Hf as (F & HF & ->). rewrite withdraw_tokens in Hh. eauto.
  - destruct (decide (f = fam)) as [->|Hne].
    + rewrite lookup_alter_eq in Hf. apply fmap_Some in Hf as (F & HF & ->). eauto.
    + rewrite lookup_alter_ne in Hf by done. eauto.
Qed.

Lemma spec_step_wf now a s s' : spec_step now a s s' → spec_wf s → spec_wf s'.
Proof.
  intros Hs [Hu Hc]. split.
  - intros f f' F F' h Hf Hf' Hh Hh'.
    destruct (spec_step_tokens _ _ _ _ _ _ _ Hs Hf Hh) as [(F1 & HF1 & Hh1)|[Hk Hone]]; [|symmetry; by eapply Hone].
    destruct (spec_step_tokens _ _ _ _ _ _ _ Hs Hf' Hh') as [(F2 & HF2 & Hh2)|[Hk _]]; [by eapply Hu|].
    destruct Hk. by exists f, F1.
  - intros f F h e Hf HF.
    destruct (spec_step_family _ _ _ _ _ _ Hs Hf) as [(F1 & HF1 & -> & [Hcur|Hcur])|[(h1 & e1 & _ & _ & ->)|
      (F1 & h1 & h' & e' & HF1 & _ & _ & _ & ->)]].
    + apply (Hc f F1 h e); [done|]. congruence.
    + congruence.
    + simpl in *. simplify_eq. set_solver.
    + simpl in *. simplify_eq. set_solver.
Qed.

(** What is spent stays spent, and is not handed on. *)
Lemma spec_step_spent now a s s' h : spec_step now a s s' → spent s h → spent s' h.
Proof.
  intros Hs [Hk Hno]. split; [by eapply spec_step_known|]. intros f F e Hf HF.
  destruct (spec_step_family _ _ _ _ _ _ Hs Hf) as [(F1 & HF1 & _ & [Hcur|Hcur])|[(h1 & e1 & _ & Hn & ->)|
    (F1 & h1 & h' & e' & HF1 & _ & _ & Hn & ->)]].
  - eapply (Hno f F1 e); [done|]. congruence.
  - congruence.
  - simpl in HF. by simplify_eq.
  - simpl in HF. by simplify_eq.
Qed.

Lemma spent_not_rotated now h h' s s' : spent s h → ¬ spec_step now (Rotated h h') s s'.
Proof.
  intros [_ Hno] Hs. inversion Hs as [|fam F ? ? ? Hl (e & Hc & _) Hk| | | |]; subst. by eapply Hno.
Qed.

Lemma rotated_spent now h h' s s' : spec_wf s → spec_step now (Rotated h h') s s' → spent s' h.
Proof.
  intros [Hu Hc] Hs. inversion Hs as [|fam F ? ? ? Hl (e & Hcur & _) Hk| | | |]; subst.
  assert (h ∈ fam_tokens F) as Hin by by eapply Hc. split.
  - exists fam. eexists. rewrite lookup_insert_eq. split; [done|]. simpl. set_solver.
  - intros f F2 e2 Hf HF2. destruct (decide (f = fam)) as [->|Hne].
    + rewrite lookup_insert_eq in Hf. injection Hf as <-. simpl in HF2. injection HF2 as -> _.
      destruct Hk. by exists fam, F.
    + rewrite lookup_insert_ne in Hf by done. destruct Hne.
      exact (Hu _ _ _ _ _ Hf Hl (Hc _ _ _ _ Hf HF2) Hin).
Qed.

(** A reuse spends the whole family. *)
Lemma reused_spent now h g s s' f F :
  spec_wf s → spec_step now (Reused h) s s' → s !! f = Some F → h ∈ fam_tokens F → g ∈ fam_tokens F → spent s' g.
Proof.
  intros [Hu Hc] Hs Hf Hh Hg. inversion Hs as [| |fam F1 ? ? Hl Hin Ha| | |]; subst.
  assert (f = fam) as -> by exact (Hu _ _ _ _ _ Hf Hl Hh Hin).
  assert (F1 = F) as -> by congruence. split.
  - exists fam, (closed F). by rewrite lookup_insert_eq.
  - intros f2 F2 e2 Hf2 HF2. destruct (decide (f2 = fam)) as [->|Hne].
    + rewrite lookup_insert_eq in Hf2. injection Hf2 as <-. done.
    + rewrite lookup_insert_ne in Hf2 by done. destruct Hne.
      exact (Hu _ _ _ _ _ Hf2 Hl (Hc _ _ _ _ Hf2 HF2) Hg).
Qed.

Lemma spec_trace_wf s tr s' : spec_trace s tr s' → spec_wf s → spec_wf s'.
Proof. induction 1 as [|now a s s1 tr s2 Hs _ IH]; [done|]. intros. apply IH. by eapply spec_step_wf. Qed.

Lemma spec_trace_app s tr1 tr2 s' :
  spec_trace s (tr1 ++ tr2) s' → ∃ s1, spec_trace s tr1 s1 ∧ spec_trace s1 tr2 s'.
Proof.
  revert s. induction tr1 as [|[now0 a] tr1 IH]; intros s Ht; [exists s; split; [constructor|done]|].
  inversion Ht as [|now ? ? s1 ? ? Hs Hr]; subst. destruct (IH s1 Hr) as (s2 & ? & ?).
  exists s2. split; [by econstructor|done].
Qed.

Lemma spec_trace_spent s tr s' h h' : spec_trace s tr s' → spent s h → Rotated h h' ∉ tr.*2.
Proof.
  induction 1 as [|now a s s1 tr s2 Hs _ IH]; intros Hsp; [apply not_elem_of_nil|]. cbn.
  apply not_elem_of_cons. split; [|apply IH; by eapply spec_step_spent].
  intros <-. by eapply spent_not_rotated.
Qed.

(** A rotation puts both hashes in one family. *)
Lemma spec_trace_linked s tr s' h h' :
  spec_trace s tr s' → spec_wf s → Rotated h h' ∈ tr.*2 →
  ∃ f F, s' !! f = Some F ∧ h ∈ fam_tokens F ∧ h' ∈ fam_tokens F.
Proof.
  assert (Hgrow : ∀ s tr s' f F, spec_trace s tr s' → s !! f = Some F →
    ∃ F', s' !! f = Some F' ∧ fam_tokens F ⊆ fam_tokens F').
  { intros s0 tr0 s0' f F Ht. revert F. induction Ht as [|now a s0 s1 tr0 s2 Hs _ IH]; intros F HF; [by exists F|].
    destruct (spec_step_grows _ _ _ _ _ _ Hs HF) as (F1 & HF1 & ?). destruct (IH F1 HF1) as (F2 & ? & ?).
    exists F2. split; [done|]. by etrans. }
  induction 1 as [|now a s s1 tr s2 Hs Hr IH]; intros Hwf; [by intros ?%not_elem_of_nil|].
  cbn. intros [Ha|Hin]%elem_of_cons; [subst a|apply IH; [by eapply spec_step_wf|done]].
  inversion Hs as [|fam F ? ? ? Hl (e & Hc & _) Hk| | | |]; subst.
  destruct (Hgrow _ _ _ fam (mkFamily (Some (h', now + lifetime)) ({[h']} ∪ fam_tokens F)) Hr) as (F' & HF' & Hsub);
    [apply lookup_insert_eq|]. simpl in Hsub.
  exists fam, F'. split; [done|]. pose proof (proj2 Hwf _ _ _ _ Hl Hc). set_solver.
Qed.

End spec.
Arguments spec_step : clear implicits.
Arguments spec_trace : clear implicits.

(** * The table represents a state of the specification *)

Section refinement.
Context `{P : Platform, !PlatformLaws P}.

Notation lifetime := (REFRESH_TOKEN_TTL cfg * 1000).

Definition in_family (w : World) (fam h : string) : Prop :=
  ∃ r, r ∈ refresh_tokens (w_db w) ∧ rt_family_id r = fam ∧ rt_token_hash r = h.
Definition active_in (w : World) (fam h : string) (e : Z) : Prop :=
  ∃ r, r ∈ refresh_tokens (w_db w) ∧ rt_family_id r = fam ∧ rt_token_hash r = h ∧
    rt_status_ r = RActive ∧ rt_expires_at r = e.

Definition represents (w : World) (s : Spec) : Prop := ∀ fam,
  match s !! fam with
  | None => ∀ h, ¬ in_family w fam h
  | Some F =>
      (∃ h, in_family w fam h) ∧ (∀ h, h ∈ fam_tokens F ↔ in_family w fam h) ∧
      (∀ h e, fam_current F = Some (h, e) ↔ active_in w fam h e)
  end.

Lemma represents_family w s r :
  represents w s → r ∈ refresh_tokens (w_db w) →
  ∃ F, s !! rt_family_id r = Some F ∧ rt_token_hash r ∈ fam_tokens F.
Proof.
  intros Hrep Hr. specialize (Hrep (rt_family_id r)). destruct (s !! rt_family_id r) as [F|].
  - exists F. split; [done|]. apply Hrep. by exists r.
  - exfalso. apply (Hrep (rt_token_hash r)). by exists r.
Qed.

Lemma represents_known w s h : represents w s → known s h ↔ h ∈ rt_token_hash <$> refresh_tokens (w_db w).
Proof.
  intros Hrep. split.
  - intros (fam & F & Hf & Hh). specialize (Hrep fam). rewrite Hf in Hrep.
    apply Hrep in Hh as (r & Hr & _ & <-). by apply list_elem_of_fmap_2.
  - intros (r & -> & Hr)%list_elem_of_fmap. destruct (represents_family _ _ _ Hrep Hr) as (F & ? & ?).
    by exists (rt_family_id r), F.
Qed.

(** The family of a row accepts its hash exactly when the row is consumable. *)
Lemma represents_accepts w s r F :
  represents w s → rt_unique w → r ∈ refresh_tokens (w_db w) → s !! rt_family_id r = Some F →
  accepts (w_now w) F (rt_token_hash r) ↔ rt_consumable (rt_token_hash r) (w_now w) r.
Proof.
  intros Hrep Hu Hr Hf. specialize (Hrep (rt_family_id r)). rewrite Hf in Hrep. destruct Hrep as (_ & _ & Hc).
  split.
  - intros (e & Hcur & Hlt). apply Hc in Hcur as (r' & Hr' & _ & Hh & Ha & He).
    assert (r' = r) as -> by (by eapply rt_unique_eq). subst. done.
  - intros (_ & Ha & Hlt). exists (rt_expires_at r). split; [|done]. apply Hc. by exists r.
Qed.

(** An update that takes rows out of the active status, and keeps the rest. *)
Lemma represents_update (Q : RefreshTokenRow → Prop) `{!∀ r, Decision (Q r)} f w w' s s' :
  (∀ r, Q r → rt_core (f r) = rt_core r ∧ rt_status_ (f r) ≠ RActive) →
  refresh_tokens (w_db w') = sql_update Q f (refresh_tokens (w_db w)) →
  (∀ fam, match s !! fam with
          | None => s' !! fam = None
          | Some F => ∃ F', s' !! fam = Some F' ∧ fam_tokens F' = fam_tokens F ∧
              ∀ h e, fam_current F' = Some (h, e) ↔ fam_current F = Some (h, e) ∧
                ∀ r, r ∈ refresh_tokens (w_db w) → rt_family_id r = fam → rt_token_hash r = h → ¬ Q r
          end) →
  rt_unique w → represents w s → represents w' s'.
Proof.
  intros Hq E Hs Hu Hrep fam. specialize (Hs fam). specialize (Hrep fam).
  assert (Hcore : ∀ r, rt_core (sql_set Q f r) = rt_core r).
  { intros r. unfold sql_set. case_decide; [by apply Hq|done]. }
  assert (Hin : ∀ h, in_family w' fam h ↔ in_family w fam h).
  { intros h. unfold in_family. rewrite E. setoid_rewrite elem_of_update. split.
    - intros (r' & (r & Hr & ->) & Hf & Hh). exists r. specialize (Hcore r). unfold rt_core in Hcore.
      split_and!; [done|congruence..].
    - intros (r & Hr & Hf & Hh). exists (sql_set Q f r). specialize (Hcore r). unfold rt_core in Hcore.
      split_and!; [by exists r|congruence..]. }
  destruct (s !! fam) as [F|].
  - destruct Hs as (F' & -> & Ht & Hc). destruct Hrep as (Hne & Htok & Hcur). split_and!.
    + destruct Hne as [h Hh]. exists h. by apply Hin.
    + intros h. by rewrite Ht, Htok, Hin.
    + intros h e. rewrite Hc, Hcur. unfold active_in. rewrite E. setoid_rewrite elem_of_update. split.
      * intros [(r & Hr & Hf & Hh & Ha & He) Hno]. exists r. split_and!; try done.
        exists r. split; [done|]. symmetry. apply sql_set_false. by apply Hno.
      * intros (r' & (r & Hr & ->) & Hf & Hh & Ha & He).
        assert (¬ Q r) as Hn.
        { intros HQ. rewrite sql_set_true in Ha by done. by apply (Hq r HQ). }
        rewrite sql_set_false in Hf, Hh, Ha, He by done.
        split; [by exists r|]. intros r2 Hr2 _ Hh2. assert (r2 = r) as ->; [|done].
        eapply rt_unique_eq; [done..|congruence].
  - rewrite Hs. intros h Hh. by apply (Hrep h), Hin.
Qed.

(** A new active row in a family that has no active row. *)
Lemma represents_insert w w' s r :
  refresh_tokens (w_db w') = refresh_tokens (w_db w) ++ [r] → rt_status_ r = RActive →
  (∀ h e, ¬ active_in w (rt_family_id r) h e) → represents w s →
  represents w' (<[rt_family_id r := mkFamily (Some (rt_token_hash r, rt_expires_at r))
    ({[rt_token_hash r]} ∪ from_option fam_tokens ∅ (s !! rt_family_id r))]> s).
Proof.
  intros E Ha Hno Hrep fam. specialize (Hrep fam).
  assert (Hin : ∀ h, in_family w' fam h ↔ in_family w fam h ∨ (rt_family_id r = fam ∧ rt_token_hash r = h)).
  { intros h. unfold in_family. rewrite E. setoid_rewrite elem_of_app. setoid_rewrite list_elem_of_singleton.
    naive_solver. }
  assert (Hact : ∀ h e, active_in w' fam h e ↔
    active_in w fam h e ∨ (rt_family_id r = fam ∧ rt_token_hash r = h ∧ rt_expires_at r = e)).
  { intros h e. unfold active_in. rewrite E. setoid_rewrite elem_of_app. setoid_rewrite list_elem_of_singleton. split.
    - intros (x & [Hx| ->] & Hx'); [left; by exists x|right; tauto].
    - intros [(x & Hx & Hx')|(Hf & Hh & He)]; [exists x; auto|]. exists r. split_and!; auto. }
  destruct (decide (fam = rt_family_id r)) as [->|Hne].
  - rewrite lookup_insert_eq. split_and!.
    + exists (rt_token_hash r). rewrite Hin. auto.
    + intros h. rewrite Hin. simpl. rewrite elem_of_union, elem_of_singleton.
      destruct (s !! rt_family_id r) as [F|]; simpl.
      * destruct Hrep as (_ & Ht & _). rewrite Ht. naive_solver.
      * specialize (Hrep h). rewrite elem_of_empty. naive_solver.
    + intros h e. rewrite Hact. simpl. specialize (Hno h e). naive_solver.
  - rewrite lookup_insert_ne by done. destruct (s !! fam) as [F|].
    + destruct Hrep as ([h0 Hh0] & Ht & Hc). split_and!.
      * exists h0. rewrite Hin. auto.
      * intros h. rewrite Ht, Hin. naive_solver.
      * intros h e. rewrite Hc, Hact. naive_solver.
    + intros h. rewrite Hin. intros [Hh|[? _]]; [by apply (Hrep h)|congruence].
Qed.

Lemma in_family_none w s fam : represents w s → (∀ r, r ∈ refresh_tokens (w_db w) → rt_family_id r ≠ fam) → s !! fam = None.
Proof.
  intros Hrep Hno. specialize (Hrep fam). destruct (s !! fam) as [F|]; [|done].
  destruct Hrep as ((h & r & Hr & Hf & _) & _). by destruct (Hno r Hr).
Qed.

(** * Observed calls *)

(** A call of the service and what its caller sees of it. *)
Inductive observed : World → Action → World → Prop :=
  | obs_issue p t e w w' :
      i_familyId p = None → run (issue p) w = (Resolved (t, e), w') → observed w (Opened (rt_hash t)) w'
  | obs_rotated t c w w' :
      run (consume t) w = (Resolved c, w') → observed w (Rotated (rt_hash t) (rt_hash (co_nextToken c))) w'
  | obs_reused t e w w' :
      run (consume t) w = (Rejected e, w') → err_code e = Some "REFRESH_TOKEN_REUSE" →
      observed w (Reused (rt_hash t)) w'
  | obs_unknown t e w w' :
      run (consume t) w = (Rejected e, w') → err_code e ≠ Some "REFRESH_TOKEN_REUSE" →
      observed w (Unknown (rt_hash t)) w'
  | obs_withdrawn t w : observed w (Withdrawn (rt_hash t)) (run (revokeByToken t) w).2
  | obs_closed fam w : observed w (Closed fam) (run (revokeFamily fam) w).2.

(** Calls one after the other, while the clock and the random source go on, and
    the times at which they are made. *)
Inductive calls : World → list (Z * Action) → World → Prop :=
  | calls_nil w : calls w [] w
  | calls_tick t w tr w' : w_now w ≤ t → calls (w <| w_now := t |>) tr w' → calls w tr w'
  | calls_draw n w tr w' : (w_draws w ≤ n)%N → calls (w <| w_draws := n |>) tr w' → calls w tr w'
  | calls_cons a w w1 tr w' : observed w a w1 → calls w1 tr w' → calls w ((w_now w, a) :: tr) w'.

Lemma observed_inv w a w' : observed w a w' → rt_inv w → rt_inv w'.
Proof.
  intros Ho Hinv. destruct Ho as [p t e w w' Hp Hr|t c w w' Hr|t e w w' Hr _|t e w w' Hr _|t w|fam w].
  - pose proof (rt_inv_issue p w Hp Hinv) as H. by rewrite Hr in H.
  - pose proof (rt_inv_consume t w Hinv) as H. by rewrite Hr in H.
  - pose proof (rt_inv_consume t w Hinv) as H. by rewrite Hr in H.
  - pose proof (rt_inv_consume t w Hinv) as H. by rewrite Hr in H.
  - eapply (rt_inv_update (λ r, rt_token_hash r = rt_hash t ∧ rt_not_revoked r)); [|done..]. by intros x.
  - eapply (rt_inv_update (λ r, rt_family_id r = fam ∧ rt_not_revoked r)); [|done..]. by intros x.
Qed.

Lemma issue_simulated p t e w w' s :
  rt_inv w → represents w s → i_familyId p = None → run (issue p) w = (Resolved (t, e), w') →
  ∃ s', spec_step lifetime (w_now w) (Opened (rt_hash t)) s s' ∧ represents w' s'.
Proof.
  intros (Hwf & Hfam & _) Hrep Hp. pose proof (rt_wf_fresh w (w_draws w) Hwf (N.le_refl _)) as Hnew.
  rewrite run_issue_new_family by done. intros [= <- <- <-].
  set (r := issued_row _ _ _ _ _).
  assert (Hnof : ∀ x, x ∈ refresh_tokens (w_db w) → rt_family_id x ≠ rt_family_id r).
  { intros x Hx E. rewrite Forall_forall in Hfam. destruct (Hfam x Hx) as (n & Hn & Hxn). rewrite E in Hxn.
    pose proof random_uuid_inj as Hi. apply (inj random_uuid) in Hxn. lia. }
  pose proof (in_family_none _ _ _ Hrep Hnof) as Hs.
  eexists. split; [|apply (represents_insert w _ s r); [done|done| |exact Hrep]].
  - rewrite Hs. cbn [from_option]. rewrite union_empty_r_L. apply spec_open; [done|].
    by rewrite represents_known.
  - intros h e (x & Hx & Hf & _). by apply (Hnof x).
Qed.
(** Closing the family of every row the update touches. *)
Lemma represents_close (Q : RefreshTokenRow → Prop) `{!∀ r, Decision (Q r)} f w w' s fam :
  (∀ r, Q r → rt_core (f r) = rt_core r ∧ rt_status_ (f r) ≠ RActive) →
  refresh_tokens (w_db w') = sql_update Q f (refresh_tokens (w_db w)) →
  (∀ r, r ∈ refresh_tokens (w_db w) → Q r → rt_family_id r = fam) →
  (∀ r, r ∈ refresh_tokens (w_db w) → rt_family_id r = fam → rt_status_ r = RActive → Q r) →
  rt_unique w → represents w s → represents w' (alter closed fam s).
Proof.
  intros Hf E Hout Hall Hu Hrep. eapply represents_update; [done|done| |done|done].
  intros g. destruct (decide (g = fam)) as [->|Hne].
  - rewrite lookup_alter_eq. pose proof (Hrep fam) as Hg. destruct (s !! fam) as [F|]; [|done].
    exists (closed F). split; [done|]. split; [done|]. intros h e. split; [done|]. intros [Hc Hno].
    apply Hg in Hc as (r & Hr & Hfr & Hh & Ha & _). destruct (Hno r Hr Hfr Hh). by apply Hall.
  - rewrite lookup_alter_ne by done. destruct (s !! g) as [F|]; [|done]. exists F. split; [done|]. split; [done|].
    intros h e. split; [|tauto]. intros Hc. split; [done|]. intros r Hr Hfr _ HQ. apply Hne.
    by rewrite <- Hfr, (Hout r Hr HQ).
Qed.

Lemma alter_closed (s : Spec) (fam : string) F : s !! fam = Some F → alter closed fam s = <[fam := closed F]> s.
Proof.
  intros Hf. apply map_eq. intros g. destruct (decide (g = fam)) as [->|Hne].
  - by rewrite lookup_alter_eq, lookup_insert_eq, Hf.
  - by rewrite lookup_alter_ne, lookup_insert_ne.
Qed.

Lemma rotation_simulated token w r s :
  rt_inv w → represents w s → r ∈ refresh_tokens (w_db w) → rt_consumable (rt_hash token) (w_now w) r →
  ∃ s', spec_step lifetime (w_now w) (Rotated (rt_hash token) (rt_hash (random_b64url 32 (w_draws w)))) s s' ∧
    represents (after_rotation token r w) s'.
Proof.
  intros ((Hu & Hd) & _ & Hl) Hrep Hr Hc.
  destruct (represents_family _ _ _ Hrep Hr) as (F & HF & Hin).
  assert (Hh : rt_token_hash r = rt_hash token) by apply Hc.
  set (fam := rt_family_id r) in *.
  set (w1 := on_tokens (sql_update (rt_consumable (rt_hash token) (w_now w)) (rt_rotate (w_now w))) w).
  assert (Hrep1 : represents w1 (alter closed fam s)).
  { apply (represents_close (rt_consumable (rt_hash token) (w_now w)) (rt_rotate (w_now w)) w); try done.
    - intros x Hx [Hhx _]. unfold fam. f_equal. apply (rt_unique_eq w); [done..|]. congruence.
    - intros x Hx Hfx Hax. assert (x = r) as -> by (apply Hl; try done; apply Hc). done. }
  assert (Hno : ∀ h e, ¬ active_in w1 fam h e).
  { intros h e Ha. specialize (Hrep1 fam). rewrite (alter_closed _ _ _ HF), lookup_insert_eq in Hrep1.
    apply Hrep1 in Ha. done. }
  pose proof (represents_insert w1 (after_rotation token r w) (alter closed fam s)
    (issued_row (rotated_from r) fam (w_draws w) (N.succ (w_draws w)) (w_now w)) eq_refl eq_refl Hno Hrep1) as Hrep2.
  eexists. split; [|exact Hrep2]. cbn [rt_family_id rt_token_hash rt_expires_at issued_row].
  rewrite (alter_closed _ _ _ HF), lookup_insert_eq, insert_insert_eq. cbn [from_option closed fam_tokens].
  apply spec_rotate; [done| |].
  - rewrite <- Hh. apply (represents_accepts w s r); try done. by rewrite Hh.
  - rewrite represents_known by done. apply rt_wf_fresh; [done|lia].
Qed.

Lemma consume_simulated t w s o w' :
  rt_inv w → represents w s → run (consume t) w = (o, w') →
  ∃ s' a, spec_step lifetime (w_now w) a s s' ∧ represents w' s' ∧
    a = match o with
        | Resolved c => Rotated (rt_hash t) (rt_hash (co_nextToken c))
        | Rejected e => if bool_decide (err_code e = Some "REFRESH_TOKEN_REUSE") then Reused (rt_hash t) else Unknown (rt_hash t)
        end.
Proof.
  intros Hinv Hrep Hrun. pose proof Hinv as ((Hu & Hd) & _ & Hl).
  destruct (decide (rt_hash t ∈ rt_token_hash <$> refresh_tokens (w_db w))) as [Hin|Hn].
  - apply list_elem_of_fmap in Hin as (r & Hh & Hr).
    destruct (decide (rt_consumable (rt_hash t) (w_now w) r)) as [Hc|Hc].
    + rewrite (run_consume_active t w r) in Hrun by done. injection Hrun as <- <-.
      destruct (rotation_simulated t w r s) as (s' & Hs & Hrep'); [done..|]. by exists s', (Rotated (rt_hash t) (rt_hash (random_b64url 32 (w_draws w)))).
    + rewrite (run_consume_dead t w r) in Hrun by done. injection Hrun as <- <-.
      destruct (represents_family _ _ _ Hrep Hr) as (F & HF & HhF).
      exists (alter closed (rt_family_id r) s), (Reused (rt_hash t)). split_and!.
      * rewrite (alter_closed _ _ _ HF). rewrite <- Hh in HhF. apply spec_reuse; [done..|].
        rewrite Hh. rewrite (represents_accepts w s r) by done. by rewrite <- Hh.
      * eapply (represents_close (λ x, rt_family_id x = rt_family_id r ∧ rt_not_revoked x)
          (rt_revoke (w_now w)) w); try done.
        -- by intros x _ [? _].
        -- intros x _ Hf Ha. split; [done|]. by left.
      * done.
  - rewrite run_consume_unknown in Hrun by done. injection Hrun as <- <-.
    exists s, (Unknown (rt_hash t)). split_and!; [|done|done]. apply spec_unknown. by rewrite represents_known.
Qed.

Lemma withdrawn_simulated t w s :
  rt_inv w → represents w s → represents (run (revokeByToken t) w).2 (withdraw (rt_hash t) <$> s).
Proof.
  intros ((Hu & _) & _ & _) Hrep.
  eapply (represents_update (λ r, rt_token_hash r = rt_hash t ∧ rt_not_revoked r) (rt_revoke (w_now w)) w); try done.
  intros fam. rewrite lookup_fmap. pose proof (Hrep fam) as Hg. destruct (s !! fam) as [F|]; [|done].
  exists (withdraw (rt_hash t) F). split; [done|]. split; [apply withdraw_tokens|]. intros h e.
  destruct (decide (h = rt_hash t)) as [->|Hne].
  - split.
    + unfold withdraw. destruct (fam_current F) as [[h' e']|] eqn:Hc; [|by rewrite Hc].
      case_bool_decide as Hd; [done|]. rewrite Hc. by intros [= -> _].
    + intros [Hc Hno]. apply Hg in Hc as (r & Hr & Hf & Hh & Ha & _). destruct (Hno r Hr Hf Hh).
      split; [done|by left].
  - transitivity (fam_current F = Some (h, e)).
    + unfold withdraw. destruct (fam_current F) as [[h' e']|] eqn:Hc; [|by rewrite Hc].
      case_bool_decide as Hd; [subst|by rewrite Hc]. split; [done|]. by intros [= <- _].
    + split; [|tauto]. intros Hc. split; [done|]. intros r _ _ Hh [Hh' _]. congruence.
Qed.

(** Every observed call is a step of the specification. *)
Lemma observed_simulated w a w' s :
  rt_inv w → represents w s → observed w a w' → ∃ s', spec_step lifetime (w_now w) a s s' ∧ represents w' s'.
Proof.
  intros Hinv Hrep Ho. destruct Ho as [p t e w w' Hp Hr|t c w w' Hr|t e w w' Hr He|t e w w' Hr He|t w|fam w].
  - by eapply issue_simulated.
  - destruct (consume_simulated t w s _ _ Hinv Hrep Hr) as (s' & a & ? & ? & ->). by exists s'.
  - destruct (consume_simulated t w s _ _ Hinv Hrep Hr) as (s' & a & ? & ? & ->).
    rewrite bool_decide_eq_true_2 in * by done. by exists s'.
  - destruct (consume_simulated t w s _ _ Hinv Hrep Hr) as (s' & a & ? & ? & ->).
    rewrite bool_decide_eq_false_2 in * by done. by exists s'.
  - eexists. split; [apply spec_withdraw|]. by apply withdrawn_simulated.
  - eexists. split; [apply spec_close|].
    eapply (represents_close (λ x, rt_family_id x = fam ∧ rt_not_revoked x) (rt_revoke (w_now w)) w); try done.
    + by intros x _ [? _].
    + intros x _ Hf Ha. split; [done|by left].
    + apply Hinv.
Qed.

Lemma calls_simulated w tr w' s :
  calls w tr w' → rt_inv w → represents w s → ∃ s', spec_trace lifetime s tr s' ∧ represents w' s'.
Proof.
  intros Hc. revert s. induction Hc as [w|t w tr w' Ht _ IH|n w tr w' Hn _ IH|a w w1 tr w' Ho _ IH]; intros s Hinv Hrep.
  - exists s. split; [constructor|done].
  - by apply IH.
  - apply IH; [by apply rt_inv_draws|done].
  - destruct (observed_simulated _ _ _ _ Hinv Hrep Ho) as (s1 & Hs & Hrep1).
    destruct (IH s1) as (s' & Ht & Hrep'); [by eapply observed_inv|done|]. exists s'. split; [by econstructor|done].
Qed.

Lemma initial_represented w : rt_initial w → represents w ∅.
Proof.
  unfold rt_initial. intros H0 fam. rewrite lookup_empty. intros h (r & Hr & _). rewrite H0 in Hr.
  by apply not_elem_of_nil in Hr.
Qed.

Lemma spec_wf_empty : spec_wf ∅.
Proof. split; intros *; by rewrite lookup_empty. Qed.

(** What the specification makes of a sequence of calls. *)
Lemma calls_trace w0 tr w :
  rt_initial w0 → calls w0 tr w → ∃ s, spec_trace lifetime ∅ tr s ∧ represents w s.
Proof. intros H0 Hc. eapply calls_simulated; [done|by apply rt_inv_initial|by apply initial_represented]. Qed.

Lemma linked_family s tr s' h g f F :
  spec_trace lifetime s tr s' → spec_wf s → s' !! f = Some F → h ∈ fam_tokens F →
  rtsc (λ a b, Rotated a b ∈ tr.*2) h g → g ∈ fam_tokens F.
Proof.
  intros Ht Hwf Hf Hh Hl. pose proof (spec_trace_wf _ _ _ Ht Hwf) as [Hu _].
  induction Hl as [h|h g g' Hstep _ IH]; [done|]. apply IH.
  destruct Hstep as [Hr|Hr]; destruct (spec_trace_linked _ _ _ _ _ Ht Hwf Hr) as (f' & F' & Hf' & H1 & H2).
  - assert (f' = f) as -> by exact (Hu _ _ _ _ _ Hf' Hf H1 Hh). by simplify_eq.
  - assert (f' = f) as -> by exact (Hu _ _ _ _ _ Hf' Hf H2 Hh). by simplify_eq.
Qed.

(** * Properties *)

(** C4: The service implements the specification, at the times of the clock:
    whatever is observed of any sequence of its calls, one after the other,
    starting from an empty table and with the clock and the random source going
    on in between, is a trace of the specification with the same times, and the
    table represents the state the trace ends in. In particular a token is
    accepted only before its expiry, which is its issue plus the configured
    life time. *)
Theorem rotation_refined (w0 w : World) (tr : list (Z * Action)) :
  rt_initial w0 → calls w0 tr w → ∃ s, spec_trace lifetime ∅ tr s ∧ spec_wf s ∧ represents w s.
Proof.
  intros H0 Hc. destruct (calls_trace _ _ _ H0 Hc) as (s & Ht & Hrep). exists s.
  split; [done|]. split; [|done]. by eapply spec_trace_wf, spec_wf_empty.
Qed.

(** C5: Of any sequence of calls, one after the other: once a reuse has been
    answered, no token of its family is accepted any more, that is no token that
    any number of rotations before links to the reused one, in either direction,
    whoever holds it. And no token is accepted twice. *)
Theorem stolen_family_dead (w0 w : World) (tr1 tr2 : list (Z * Action)) (now : Z) (h : string) :
  rt_initial w0 →
  (calls w0 (tr1 ++ (now, Reused h) :: tr2) w →
     ∀ g g', rtsc (λ a b, Rotated a b ∈ tr1.*2) h g → Rotated g g' ∉ tr2.*2) ∧
  (∀ h', calls w0 (tr1 ++ (now, Rotated h h') :: tr2) w → ∀ h2, Rotated h h2 ∉ tr2.*2).
Proof.
  intros H0. split.
  - intros Hc g g' Hl. destruct (calls_trace _ _ _ H0 Hc) as (s & Ht & _).
    apply spec_trace_app in Ht as (s1 & Ht1 & Ht2). inversion Ht2 as [|? ? ? s2 ? ? Hs Ht3]; subst.
    pose proof (spec_trace_wf _ _ _ Ht1 spec_wf_empty) as Hwf.
    assert (∃ f F, s1 !! f = Some F ∧ h ∈ fam_tokens F) as (f & F & Hf & Hh).
    { inversion Hs; subst; eauto. }
    apply (spec_trace_spent _ _ _ _ _ Ht3). eapply (reused_spent now h); [done..|].
    by eapply (linked_family _ tr1).
  - intros h' Hc h2. destruct (calls_trace _ _ _ H0 Hc) as (s & Ht & _).
    apply spec_trace_app in Ht as (s1 & Ht1 & Ht2). inversion Ht2 as [|? ? ? s2 ? ? Hs Ht3]; subst.
    apply (spec_trace_spent _ _ _ _ _ Ht3). eapply rotated_spent; [|done].
    by eapply spec_trace_wf, spec_wf_empty.
Qed.
End refinement.

(** * Concrete runs *)

Definition first_hash : string := rt_hash (P := toy) "random-value-of-24-or-32-bytes-0".
Definition second_hash : string := rt_hash (P := toy) "random-value-of-24-or-32-bytes-3".

(** A token is issued and rotated, then presented again by someone else; its
    successor is not accepted either, nor is a token when its time is over. *)
Definition third_hash : string := rt_hash (P := toy) "random-value-of-24-or-32-bytes-5".
Definition token_life : Z := REFRESH_TOKEN_TTL (@cfg toy) * 1000.

Lemma calls_at t a w w1 tr w' :
  observed (P := toy) w a w1 → w_now w = t → calls (P := toy) w1 tr w' → calls (P := toy) w ((t, a) :: tr) w'.
Proof. intros Ho <- Hc. by eapply calls_cons. Qed.

Lemma stolen_calls :
  ∃ w, calls (P := toy) (empty_world 0)
    ([(0, Opened first_hash); (0, Rotated first_hash second_hash)] ++ (0, Reused first_hash) ::
     [(0, Reused second_hash); (0, Opened third_hash); (token_life, Reused third_hash)]) w.
Proof.
  eexists. cbn [app].
  eapply calls_at; [|reflexivity|].
  { eapply (obs_issue (P := toy) (mkIssue "sess-1" "user-1" None "openid" None None) "random-value-of-24-or-32-bytes-0");
      [reflexivity|vm_compute; reflexivity]. }
  eapply calls_at; [|reflexivity|].
  { eapply (obs_rotated (P := toy) "random-value-of-24-or-32-bytes-0"
      (mkConsumed _ "random-value-of-24-or-32-bytes-3" _)). vm_compute. reflexivity. }
  eapply calls_at; [|reflexivity|].
  { eapply (obs_reused (P := toy) "random-value-of-24-or-32-bytes-0"); [vm_compute; reflexivity|reflexivity]. }
  eapply calls_at; [|reflexivity|].
  { eapply (obs_reused (P := toy) "random-value-of-24-or-32-bytes-3"); [vm_compute; reflexivity|reflexivity]. }
  eapply calls_at; [|reflexivity|].
  { eapply (obs_issue (P := toy) (mkIssue "sess-2" "user-1" None "openid" None None) "random-value-of-24-or-32-bytes-5");
      [reflexivity|vm_compute; reflexivity]. }
  apply (calls_tick (P := toy) token_life); [vm_compute; discriminate|].
  eapply calls_at; [|reflexivity|].
  { eapply (obs_reused (P := toy) "random-value-of-24-or-32-bytes-5"); [vm_compute; reflexivity|reflexivity]. }
  apply calls_nil.
Qed.

Lemma stolen_family_dead_witness : Rotated second_hash first_hash ∉ [Reused second_hash; Opened third_hash; Reused third_hash].
Proof.
  destruct stolen_calls as [w Hc].
  refine (proj1 (stolen_family_dead (P := toy) (empty_world 0) w _ _ 0 first_hash _) Hc second_hash first_hash _).
  - reflexivity.
  - apply rtc_once. left. do 1 right. left.
Defined.

Lemma rotation_refined_witness :
  ∃ w s, spec_trace token_life ∅
      [(0, Opened first_hash); (0, Rotated first_hash second_hash); (0, Reused first_hash); (0, Reused second_hash);
       (0, Opened third_hash); (token_life, Reused third_hash)] s ∧
    represents w s.
Proof.
  destruct stolen_calls as [w Hc]. exists w.
  destruct (rotation_refined (P := toy) (empty_world 0) w _ eq_refl Hc) as (s & Ht & _ & Hrep).
  by exists s.
Defined.

(** ** Overlapping calls

    Two presentations of one token overlap: the first marks the row, the second
    finds it rotated, revokes the family and answers with the reuse, and then
    the first inserts the successor, which the next call accepts. What stops
    the thief is the session, which the second has revoked. *)
Definition overlap_start : World :=
  (run (issue (P := toy) (mkIssue "sess-1" "user-1" None "openid" None None)) (empty_world 0)).2.
Definition first_token : string := "random-value-of-24-or-32-bytes-0".
Definition overlap_end : list (M Consumed) * World :=
  schedule [0%nat; 1%nat; 1%nat; 1%nat; 1%nat; 0%nat; 0%nat; 0%nat; 0%nat]
    ([consume (P := toy) first_token; consume (P := toy) first_token], overlap_start).

Lemma overlap_reaches :
  rtc (pstep eq (λ _, False)) ([consume (P := toy) first_token; consume (P := toy) first_token], overlap_start) overlap_end.
Proof. apply schedule_steps. Qed.

Lemma reuse_race_leaves_successor :
  ∃ c w, overlap_end = ([Ret c; Throw (AppError 401 "REFRESH_TOKEN_REUSE" "Refresh token reuse detected - session revoked")], w) ∧
    is_resolved (run (consume (P := toy) (co_nextToken c)) w).1 = true.
Proof. eexists _, _. split; vm_compute; reflexivity. Qed.
