(* ===== verification/Sessions.v ===== *)
(** src/modules/sessions/session.repository.ts: sessions in the database with
    a cache in Redis. *)
From S2P Require Import Prelude Async JsString Errors Store Evolution Toy Redis RefreshTokens.
From stdpp Require Import base gmap strings list relations.
From Stdlib Require Import ZArith.
Local Open Scope string_scope.
Local Open Scope list_scope.
Local Open Scope Z_scope.

Definition session_key (id : string) : string := RedisService.key ["sess"; id].

Record CreateSession : Type := mkCreateSession {
  cs_userId : string;
  cs_clientId : option string;
  cs_ip : option string;
  cs_userAgent : option string;
  cs_deviceId : option string;
  cs_mfaPassed : bool;
  cs_ttlSeconds : Z;
}.

Module SessionRepository.

Section repository.
Context `{P : Platform}.

(** The INSERT .. RETURNING: id, status and last_seen_at are defaults of the
    schema. *)
Definition insert (p : CreateSession) (w : World) : outcome Err SessionRow * World :=
  let id := random_uuid (w_draws w) in
  let row := mkSessionRow id (cs_userId p) (cs_clientId p) (cs_ip p) (cs_userAgent p)
    (cs_deviceId p) (cs_mfaPassed p) SActive (w_now w + cs_ttlSeconds p * 1000)
    (w_now w) None None in
  if decide (id ∈ s_id <$> sessions (w_db w)) then (Rejected unique_violation, w)
  else (Resolved row,
        on_db (λ d, d <| sessions ::= λ t, t ++ [row] |>) w <| w_draws ::= N.succ |>).

Definition create (p : CreateSession) : M SessionRow := attempt (insert p).

Definition loadFresh (id : string) : M (option SessionRow) :=
  row ← db_select (λ d, sql_first (λ s, s_id s = id) (sessions d));
  match row with
  | Some r => _ ← RedisService.setJson (session_key id) (VSession r) (Some 300); mret row
  | None => mret None
  end.

Definition findById (id : string) : M (option SessionRow) :=
  cached ← RedisService.getSession (session_key id);
  match cached with
  | Some c =>
      if decide (s_status c ≠ SActive) then mret (Some c)
      else
        fresh ← loadFresh id;
        match fresh with
        | None => _ ← RedisService.del (session_key id); mret None
        | Some f => mret (Some f)
        end
  | None => loadFresh id
  end.

Definition touch (id : string) : M () :=
  db_exec (λ now d, d <| sessions ::=
    sql_update (λ s, s_id s = id) (λ s, s <| s_last_seen_at := now |>) |>).

Definition revoke_rows (Q : SessionRow → Prop) `{!∀ s, Decision (Q s)} (reason : string)
    (now : Z) (d : Db) : Db :=
  d <| sessions ::= sql_update (λ s, Q s ∧ s_status s = SActive) (session_revoke reason now) |>.

(** [status IN ('active')] *)
Definition revoke_tokens_of (id : string) (now : Z) (d : Db) : Db :=
  d <| refresh_tokens ::=
    sql_update (λ r, rt_session_id r = id ∧ rt_status_ r = RActive) (rt_revoke now) |>.

Definition revoke (id reason : string) : M () :=
  _ ← db_exec (revoke_rows (λ s, s_id s = id) reason);
  _ ← db_exec (revoke_tokens_of id);
  RedisService.del (session_key id).

Definition revokeAllForUser (userId reason : string) : M Z :=
  ids ← db_select (X := list string) (λ d, s_id <$> sql_select (λ s, s_user_id s = userId ∧ s_status s = SActive)
                                  (sessions d));
  _ ← db_exec (revoke_rows (λ s, s_user_id s = userId) reason);
  _ ← db_exec (λ now d, d <| refresh_tokens ::=
        sql_update (λ r, rt_user_id r = userId ∧ rt_not_revoked r) (rt_revoke now) |>);
  _ ← RedisService.delByPrefix (RedisService.key ["sess"] +:+ ":");
  mret (Z.of_nat (length ids)).
End repository.
End SessionRepository.

(** * Steps of the store *)

Section evolution.
Context `{P : Platform}.

Lemma create_step p : respects step (SessionRepository.create p).
Proof.
  apply respects_attempt. intros w. unfold SessionRepository.insert. case_decide; [done|].
  step_tables. by apply evolves_insert; [apply _|].
Qed.

Lemma loadFresh_step id : respects step (SessionRepository.loadFresh id).
Proof. unfold SessionRepository.loadFresh. respects_step. Qed.

Lemma findById_step id : respects step (SessionRepository.findById id).
Proof.
  pose proof loadFresh_step. unfold SessionRepository.findById. respects_step.
Qed.

Lemma findById_keeps id : keeps non_redis (SessionRepository.findById id).
Proof.
  assert (Hf : keeps non_redis (SessionRepository.loadFresh id)).
  { apply respects_bind; [by apply respects_reads, _|intros [r|]]; [|done].
    by apply respects_bind; [apply redis_keeps_set_value|]. }
  apply respects_bind; [apply redis_keeps_getSession|intros [c|]]; [|done].
  case_decide; [done|]. apply respects_bind; [done|intros [f|]]; [done|].
  by apply respects_bind; [apply redis_keeps_del|].
Qed.

(** A lookup touches the cache entry of the session only. *)
Lemma findById_at id : respects (redis_at (session_key id)) (SessionRepository.findById id).
Proof.
  assert (Hf : respects (redis_at (session_key id)) (SessionRepository.loadFresh id)).
  { apply respects_bind; [by apply respects_reads, _|intros [r|]]; [|done].
    by apply respects_bind; [apply redis_at_set_value|]. }
  apply respects_bind; [apply redis_at_getSession|intros [c|]]; [|done].
  case_decide; [done|]. apply respects_bind; [done|intros [f|]]; [done|].
  by apply respects_bind; [apply redis_at_del|].
Qed.

Lemma touch_step id : respects step (SessionRepository.touch id).
Proof.
  apply respects_writes. intros w. step_tables.
  apply evolves_update; [apply _|done|apply sess_le_id].
Qed.

Lemma revoke_rows_step (Q : SessionRow → Prop) `{!∀ s, Decision (Q s)} why :
  respects step (db_exec (SessionRepository.revoke_rows Q why)).
Proof. apply session_revoke_step. Qed.

Lemma revoke_tokens_step (Q : RefreshTokenRow → Prop) `{!∀ r, Decision (Q r)} :
  respects step (db_exec (λ now d, d <| refresh_tokens ::= sql_update Q (rt_revoke now) |>)).
Proof.
  apply respects_writes. intros w. step_tables.
  apply evolves_update; [apply _|intros; apply rt_le_revoke|apply rt_le_hash].
Qed.

Lemma revoke_step id why : respects step (SessionRepository.revoke id why).
Proof.
  apply respects_bind; [apply revoke_rows_step|intros _].
  apply respects_bind; [apply revoke_tokens_step|intros _]. respects_step.
Qed.

Lemma revokeAllForUser_step u why : respects step (SessionRepository.revokeAllForUser u why).
Proof.
  apply respects_bind; [apply select_step|intros ids].
  apply respects_bind; [apply revoke_rows_step|intros _].
  apply respects_bind; [apply revoke_tokens_step|intros _]. respects_step.
Qed.
End evolution.
#[export] Hint Resolve create_step findById_step touch_step revoke_step
  revokeAllForUser_step : steps.

(** * The cache

    A cached session is an earlier state of its row. *)

Definition sess_unique (w : World) : Prop := NoDup (s_id <$> sessions (w_db w)).

Definition once_stored (c : SessionRow) (w : World) : Prop :=
  ∃ s, s ∈ sessions (w_db w) ∧ sess_le c s.

Definition cache_ok (w : World) : Prop :=
  ∀ id e c, w_redis w !! session_key id = Some e → re_value e = VSession c →
    s_id c = id ∧ once_stored c w.

(** A step of the store that keeps the cache coherent. *)
Definition cache_step (w w' : World) : Prop :=
  step w w' ∧ (cache_ok w → cache_ok w').

#[export] Instance cache_step_preorder : PreOrder cache_step.
Proof.
  split; [by split|]. intros w1 w2 w3 [S2 C2] [S3 C3]. split; [by etrans | auto].
Qed.

Lemma once_stored_step c w w' : step w w' → once_stored c w → once_stored c w'.
Proof.
  intros [_ [Hg _] _ _ _ _ _ _] (s & Hs & Hle).
  destruct (grows_elem _ _ _ _ Hg Hs) as (s' & Hs' & Hle').
  exists s'. split; [done | by etrans].
Qed.

(** Entries may disappear, and rows may move on. *)
Lemma cache_step_shrink w w' : step w w' → w_redis w' ⊆ w_redis w → cache_step w w'.
Proof.
  intros Hs Hsub. split; [done|]. intros Hok id e c Hk Hv.
  destruct (Hok id e c) as [? ?]; [by eapply lookup_weaken|done|].
  split; [done | by eapply once_stored_step].
Qed.

Lemma session_key_inj id id' : session_key id = session_key id' → id = id'.
Proof.
  unfold session_key, RedisService.key. cbn. intros H. by injection H.
Qed.

Lemma sess_first_unique w s :
  sess_unique w → s ∈ sessions (w_db w) →
  sql_first (λ s', s_id s' = s_id s) (sessions (w_db w)) = Some s.
Proof. intros Hu Hs. by apply (sql_first_unique _ s_id (s_id s)). Qed.

Section coherence.
Context `{P : Platform}.

Lemma cache_ok_put id c ttl w :
  s_id c = id → once_stored c w → cache_ok w →
  cache_ok (redis_put (session_key id) (mkEntry (VSession c) ttl) w).
Proof.
  intros Hid Hc Hok id' e c' Hk Hv. simpl in Hk.
  destruct (decide (id' = id)) as [->|Hne].
  - rewrite lookup_insert_eq in Hk. simplify_eq/=. by split.
  - rewrite lookup_insert_ne in Hk by (intros H; by apply Hne, session_key_inj).
    by eapply Hok.
Qed.

Lemma loadFresh_rg id w :
  rg cache_step (λ _ _, True) (SessionRepository.loadFresh id) w.
Proof.
  unfold SessionRepository.loadFresh.
  apply (rg_bind _ (λ o v, ∀ r, o = Some r → s_id r = id ∧ once_stored r v)).
  - apply rg_reads; [apply _|]. intros v v' _ [Hv' _] r Hf.
    apply sql_first_Some in Hf as [Hid Hr]. split; [done|].
    eapply once_stored_step; [exact Hv'|]. by exists r.
  - intros [r|] v _ Hr; [|done]. destruct (Hr r eq_refl) as [Hid Hst].
    apply (rg_bind _ (λ _ _, True)); [|done]. apply rg_attempt. intros v' [Hv' _].
    split; [|done]. split.
    + apply (respects_run step (RedisService.setJson (session_key id) (VSession r) (Some 300))).
      apply redis_step, redis_keeps_set_value.
    + simpl. apply cache_ok_put; [done|]. by eapply once_stored_step.
Qed.

Lemma del_rg k w : rg cache_step (λ _ _, True) (RedisService.del k) w.
Proof.
  apply rg_respects, respects_writes. intros v. apply cache_step_shrink; [by apply step_same|].
  simpl. apply delete_subseteq.
Qed.

Lemma foldr_delete_subseteq (keys : list string) (m : gmap string redis_entry) : foldr delete m keys ⊆ m.
Proof. induction keys as [|k keys IH]; [done|]. cbn [foldr]. etrans; [apply delete_subseteq|exact IH]. Qed.

Lemma delByPrefix_rg k w : rg cache_step (λ _ _, True) (RedisService.delByPrefix k) w.
Proof.
  apply rg_respects. unfold RedisService.delByPrefix. generalize 0 (S (redis_scan_pages "0")). generalize "0".
  intros c d fuel. revert c d. induction fuel as [|fuel IH]; intros c d; [done|]. cbn [RedisService.delByPrefix_rec].
  apply respects_bind; [by apply respects_reads, _|]. intros [next keys].
  apply respects_bind; [|intros n; case_bool_decide; [done|apply IH]].
  destruct keys as [|key keys]; [done|]. apply respects_bind; [|done].
  apply respects_atomically. intros v. apply cache_step_shrink; [by apply step_same|].
  apply foldr_delete_subseteq.
Qed.

Lemma findById_rg id w : rg cache_step (λ _ _, True) (SessionRepository.findById id) w.
Proof.
  unfold SessionRepository.findById.
  apply (rg_bind _ (λ _ _, True)); [apply rg_reads; [apply _|done]|]. intros [c|] v _ _; [|apply loadFresh_rg].
  case_decide; [done|]. apply (rg_bind _ (λ _ _, True)); [apply loadFresh_rg|]. intros [f|] v' _ _; [done|].
  apply (rg_bind _ (λ _ _, True)); [apply del_rg | done].
Qed.

(** Statements that leave the keyspace alone. *)
Lemma db_rg {A} (p : M A) w :
  respects step p → keeps w_redis p → rg cache_step (λ _ _, True) p w.
Proof.
  intros Hs Hk. apply rg_respects. induction p as [a|e|X op k IH]; simpl in *; [done..|].
  intros v. destruct (Hs v) as [H1 H2], (Hk v) as [H3 H4]. split; [|by apply IH].
  apply cache_step_shrink; [done|]. unfold same in H3. by rewrite H3.
Qed.

Lemma revoke_rg id why w : rg cache_step (λ _ _, True) (SessionRepository.revoke id why) w.
Proof.
  apply (rg_bind _ (λ _ _, True)); [apply db_rg; [apply revoke_rows_step | by apply respects_writes]|intros [] v _ _].
  apply (rg_bind _ (λ _ _, True)); [apply db_rg; [apply revoke_tokens_step | by apply respects_writes]|].
  intros [] v' _ _. apply del_rg.
Qed.

Lemma revokeAll_rg u why w :
  rg cache_step (λ _ _, True) (SessionRepository.revokeAllForUser u why) w.
Proof.
  apply (rg_bind _ (λ _ _, True)); [apply db_rg; [apply select_step | apply respects_reads, _]|intros ids v _ _].
  apply (rg_bind _ (λ _ _, True)); [apply db_rg; [apply revoke_rows_step | by apply respects_writes]|intros [] v1 _ _].
  apply (rg_bind _ (λ _ _, True)); [apply db_rg; [apply revoke_tokens_step | by apply respects_writes]|].
  intros [] v2 _ _. apply (rg_bind _ (λ _ _, True)); [apply delByPrefix_rg | done].
Qed.

Lemma create_rg p w : rg cache_step (λ _ _, True) (SessionRepository.create p) w.
Proof.
  apply db_rg; [apply create_step|]. apply respects_attempt. intros v.
  unfold SessionRepository.insert. by case_decide.
Qed.
End coherence.

(** The calls a repository serves, their results dropped. *)
Inductive session_call `{P : Platform} : M () → Prop :=
  | sc_create p : session_call (_ ← SessionRepository.create p; mret ())
  | sc_findById id : session_call (_ ← SessionRepository.findById id; mret ())
  | sc_touch id : session_call (SessionRepository.touch id)
  | sc_revoke id why : session_call (SessionRepository.revoke id why)
  | sc_revokeAll u why : session_call (_ ← SessionRepository.revokeAllForUser u why; mret ()).

Definition session_view (s : SessionRow) := (sess_core s, s_status s).

Section properties.
Context `{P : Platform}.

Lemma session_call_rg p w : session_call p → rg cache_step (λ _ _, True) p w.
Proof.
  intros [q|id|id|id why|u why].
  - apply (rg_bind _ (λ _ _, True)); [apply create_rg | done].
  - apply (rg_bind _ (λ _ _, True)); [apply findById_rg | done].
  - apply db_rg; [apply touch_step | by apply respects_writes].
  - apply revoke_rg.
  - apply (rg_bind _ (λ _ _, True)); [apply revokeAll_rg | done].
Qed.

(** C35: The cache never says more than the database: however the awaits of any
    number of repository calls interleave with each other and with coherent
    steps of the rest of the system, every cached session is an earlier state
    of its row, so that a session cached as revoked is revoked. *)
Theorem session_cache_coherent (env : World → World → Prop) ps ps' (w w' : World) :
  (∀ v v', env v v' → cache_step v v') →
  cache_ok w → Forall session_call ps →
  rtc (pstep env session_call) (ps, w) (ps', w') → cache_ok w'.
Proof.
  intros Henv Hok Hps Hsteps.
  destruct (pool_rg cache_step env session_call (λ _, True) (λ _ _, True) (ps, w) (ps', w'))
    as [[_ Hstep] _]; [done|done|intros; by apply session_call_rg|done|done| |by apply Hstep].
  eapply Forall_impl; [exact Hps|]. intros. by apply session_call_rg.
Qed.

(** What a lookup answers. *)
Lemma run_findById (id : string) (w : World) :
  sess_unique w → cache_ok w →
  ∃ o w', run (SessionRepository.findById id) w = (Resolved o, w') ∧
    session_view <$> o = session_view <$> sql_first (λ s, s_id s = id) (sessions (w_db w)) ∧
    (∀ s, o = Some s → s_status s = SActive → s ∈ sessions (w_db w)) ∧
    w_db w' = w_db w ∧ cache_ok w'.
Proof.
  intros Hu Hok.
  assert (Hfresh : ∃ w', run (SessionRepository.loadFresh id) w
    = (Resolved (sql_first (λ s, s_id s = id) (sessions (w_db w))), w') ∧ w_db w' = w_db w ∧
      cache_ok w').
  { unfold SessionRepository.loadFresh, db_select. run_simpl.
    destruct (sql_first _ _) as [r|] eqn:Hf; run_simpl; eexists; split; [done| |done|done].
    split; [done|]. apply sql_first_Some in Hf as [Hid Hr].
    apply cache_ok_put; [done| |done]. by exists r. }
  destruct Hfresh as (w1 & Hrun & Hdb & Hok1).
  assert (Hin : ∀ s, sql_first (λ s, s_id s = id) (sessions (w_db w)) = Some s →
    s ∈ sessions (w_db w)) by (intros s Hf; by apply sql_first_Some in Hf as [_ ?]).
  unfold SessionRepository.findById. rewrite run_bind.
  unfold RedisService.getSession at 1. rewrite run_reads. unfold redis_value_at.
  destruct (redis_live w (session_key id)) as [[v t]|] eqn:Hlive; cbn [fmap option_fmap option_map re_value].
  2: { exists (sql_first (λ s, s_id s = id) (sessions (w_db w))), w1. naive_solver. }
  apply redis_live_Some in Hlive as [Hk _].
  destruct v as [| | |c|];
    try by (exists (sql_first (λ s, s_id s = id) (sessions (w_db w))), w1; naive_solver).
  destruct (Hok id _ c Hk eq_refl) as [Hid (s & Hs & Hcore & Hrev & _)].
  assert (s_id s = id) as Hsid by (unfold sess_core in Hcore; congruence).
  assert (sql_first (λ s', s_id s' = id) (sessions (w_db w)) = Some s) as Hsf.
  { rewrite <- Hsid. by apply sess_first_unique. }
  case_decide as Hst.
  - assert (s_status c = SRevoked) as Hc by by destruct (s_status c).
    exists (Some c), w. rewrite Hsf. split; [done|]. split.
    { simpl. unfold session_view. by rewrite Hcore, Hc, Hrev. }
    split; [|by split]. intros ? [= <-]. congruence.
  - rewrite run_bind, Hrun, Hsf. exists (Some s), w1. rewrite Hsf in Hin. naive_solver.
Qed.

(** [findById] implements the lookup of the session table: with a coherent
    cache it always answers, finds a session exactly when the table has it,
    and reports its owner and its status as they are in the table. *)
Theorem findById_refines (id : string) (w : World) :
  sess_unique w → cache_ok w →
  ∃ o w', run (SessionRepository.findById id) w = (Resolved o, w') ∧
    session_view <$> o = session_view <$> sql_first (λ s, s_id s = id) (sessions (w_db w)) ∧
    (∀ s, o = Some s → s_status s = SActive → s ∈ sessions (w_db w)) ∧
    w_db w' = w_db w ∧ cache_ok w'.
Proof. apply run_findById. Qed.

(** The row of a session is revoked. *)
Definition session_dead (id : string) (w : World) : Prop :=
  sess_unique w ∧ ∃ s, s ∈ sessions (w_db w) ∧ s_id s = id ∧ s_status s = SRevoked.

Lemma session_dead_step id w w' : step w w' → session_dead id w → session_dead id w'.
Proof.
  intros [_ [Hg Hu] _ _ _ _ _ _] (Hun & s & Hs & Hid & Hst). split; [by apply Hu|].
  destruct (grows_elem _ _ _ _ Hg Hs) as (s' & Hs' & Hle). exists s'.
  split; [done|]. split; [by rewrite (sess_le_id s) | by apply Hle].
Qed.

Lemma session_dead_first id w :
  session_dead id w →
  ∃ s, sql_first (λ s, s_id s = id) (sessions (w_db w)) = Some s ∧ s_status s = SRevoked.
Proof.
  intros (Hun & s & Hs & Hid & Hst). exists s. split; [|done].
  rewrite <- Hid. by apply sess_first_unique.
Qed.

(** What [findById] returns is not an active session. *)
Definition not_active (o : option SessionRow) (_ : World) : Prop :=
  ∀ s, o = Some s → s_status s = SRevoked.

Lemma findById_dead id w :
  session_dead id w → rg step not_active (SessionRepository.findById id) w.
Proof.
  intros Hd. unfold SessionRepository.findById.
  assert (Hfresh : ∀ v, step w v → rg step not_active (SessionRepository.loadFresh id) v).
  { intros v Hv. unfold SessionRepository.loadFresh. apply (rg_bind _ not_active).
    - apply rg_reads; [apply _|]. intros v1 v2 H1 _ s Hf.
      destruct (session_dead_first id v1) as (s0 & Hf0 & Hs0).
      { eapply session_dead_step; [|exact Hd]. by etrans. }
      unfold db_select in Hf. rewrite Hf0 in Hf. by simplify_eq.
    - intros [r|] v1 _ Hr; [|by intros v2 _ s].
      apply (rg_bind _ (λ _ _, True)); [apply rg_respects; eauto with steps|].
      intros [] v2 _ _ v3 _. exact Hr. }
  apply (rg_bind _ (λ _ _, True)); [apply rg_reads; [apply _|done]|].
  intros [c|] v Hv _; [|by apply Hfresh]. case_decide as Hc.
  - apply rg_ret. intros ? _ s [= <-]. by destruct (s_status c).
  - eapply (rg_bind _ not_active); [by apply Hfresh|]. intros [f|] v' _ Hf; [by intros v2 _|].
    apply (rg_bind _ (λ _ _, True)); [apply rg_respects; eauto with steps | by intros].
Qed.

(** C28: Once a session is revoked, no lookup that starts later reports it active,
    whatever runs concurrently and whatever the cache holds. *)
Theorem session_revocation_effective (id : string) (env : World → World → Prop)
    ps ps' (w w' : World) (o : option SessionRow) :
  (∀ v v', env v v' → step v v') →
  session_dead id w → Forall (λ p, p = SessionRepository.findById id) ps →
  rtc (pstep env (λ p, p = SessionRepository.findById id)) (ps, w) (ps', w') →
  Ret o ∈ ps' → ∀ s, o = Some s → s_status s = SRevoked.
Proof.
  intros Henv Hd Hps Hsteps Ho.
  apply (pool_rg_values step env (λ p, p = SessionRepository.findById id) (session_dead id)
    not_active (ps, w) (ps', w') o); try done.
  - apply session_dead_step.
  - intros p v ->. apply findById_dead.
Qed.

(** The effect of [revoke]. *)
Lemma revoke_effect (id why : string) (w : World) :
  let w' := (run (SessionRepository.revoke id why) w).2 in
  (run (SessionRepository.revoke id why) w).1 = Resolved () ∧
  (∀ s, s ∈ sessions (w_db w') → s_id s = id → s_status s = SRevoked) ∧
  (∀ s, s_id s ≠ id → (s ∈ sessions (w_db w') ↔ s ∈ sessions (w_db w))) ∧
  (∀ r, r ∈ refresh_tokens (w_db w') → rt_session_id r = id → rt_status_ r ≠ RActive) ∧
  (∀ r, rt_session_id r ≠ id →
        (r ∈ refresh_tokens (w_db w') ↔ r ∈ refresh_tokens (w_db w))) ∧
  redis_live w' (session_key id) = None ∧ (sess_unique w → sess_unique w').
Proof.
  assert (Hst : ∀ s, s_status s = SActive ∨ s_status s = SRevoked)
    by (intros s; destruct (s_status s); auto).
  simpl. split; [done|]. split; [|split; [|split; [|split; [|split]]]].
  - intros s.
    apply (update_establishes _ _ (λ x, s_id x = id) (λ x, s_status x = SRevoked)); [done|]. intros s0 Hid Hn. destruct (Hst s0); tauto.
  - intros s. by apply (elem_of_update_other _ _ (λ x, s_id x = id)); intros s0 [].
  - intros r.
    apply (update_establishes _ _ (λ x, rt_session_id x = id) (λ x, rt_status_ x ≠ RActive)); [done|]. tauto.
  - intros r. by apply (elem_of_update_other _ _ (λ x, rt_session_id x = id)); intros r0 [].
  - apply redis_live_delete_eq.
  - unfold sess_unique. simpl. by rewrite sql_update_key.
Qed.

(** [revoke] ends the session: its row is revoked, none of its refresh tokens
    is active, its cache entry is gone, and every other row is untouched. *)
Theorem session_revoke_effect (id why : string) (w : World) :
  let w' := (run (SessionRepository.revoke id why) w).2 in
  (run (SessionRepository.revoke id why) w).1 = Resolved () ∧
  (∀ s, s ∈ sessions (w_db w') → s_id s = id → s_status s = SRevoked) ∧
  (∀ s, s_id s ≠ id → (s ∈ sessions (w_db w') ↔ s ∈ sessions (w_db w))) ∧
  (∀ r, r ∈ refresh_tokens (w_db w') → rt_session_id r = id → rt_status_ r ≠ RActive) ∧
  (∀ r, rt_session_id r ≠ id →
        (r ∈ refresh_tokens (w_db w') ↔ r ∈ refresh_tokens (w_db w))) ∧
  redis_live w' (session_key id) = None ∧ (sess_unique w → sess_unique w').
Proof. apply revoke_effect. Qed.

Lemma run_revokeAllForUser `{!PlatformLaws P} (u why : string) (w : World) :
  ∃ m, run (SessionRepository.revokeAllForUser u why) w =
      (Resolved (Z.of_nat (sql_count (λ s, s_user_id s = u ∧ s_status s = SActive) (sessions (w_db w)))),
       on_db (λ d, SessionRepository.revoke_rows (λ s, s_user_id s = u) why (w_now w) d
                     <| refresh_tokens ::= sql_update (λ r, rt_user_id r = u ∧ rt_not_revoked r) (rt_revoke (w_now w)) |>) w
         <| w_redis := m |>) ∧
    ∀ k, m !! k = if String.prefix (RedisService.key ["sess"] +:+ ":") k then None else w_redis w !! k.
Proof.
  unfold SessionRepository.revokeAllForUser. erewrite !run_bind_eq by reflexivity.
  destruct (run_delByPrefix (RedisService.key ["sess"] +:+ ":")
    (on_db (λ d, SessionRepository.revoke_rows (λ s, s_user_id s = u) why (w_now w) d
       <| refresh_tokens ::= sql_update (λ r, rt_user_id r = u ∧ rt_not_revoked r) (rt_revoke (w_now w)) |>) w))
    as (n & m & Hrun & Hm).
  exists m. split; [|exact Hm]. erewrite run_bind_eq by exact Hrun. by rewrite length_fmap.
Qed.

(** The effect of [revokeAllForUser]. *)
Lemma revoke_all_effect `{!PlatformLaws P} (u why : string) (w : World) :
  let w' := (run (SessionRepository.revokeAllForUser u why) w).2 in
  (run (SessionRepository.revokeAllForUser u why) w).1 =
    Resolved (Z.of_nat (sql_count (λ s, s_user_id s = u ∧ s_status s = SActive)
                          (sessions (w_db w)))) ∧
  (∀ s, s ∈ sessions (w_db w') → s_user_id s = u → s_status s = SRevoked) ∧
  (∀ s, s_user_id s ≠ u → (s ∈ sessions (w_db w') ↔ s ∈ sessions (w_db w))) ∧
  (∀ r, r ∈ refresh_tokens (w_db w') → rt_user_id r = u → rt_status_ r = RRevoked) ∧
  (∀ r, rt_user_id r ≠ u →
        (r ∈ refresh_tokens (w_db w') ↔ r ∈ refresh_tokens (w_db w))) ∧
  (∀ id, redis_live w' (session_key id) = None).
Proof.
  assert (Hst : ∀ s, s_status s = SActive ∨ s_status s = SRevoked)
    by (intros s; destruct (s_status s); auto).
  destruct (run_revokeAllForUser u why w) as (m & Hrun & Hm). cbv zeta. rewrite Hrun. simpl.
  split; [done|]. split; [|split; [|split; [|split]]].
  - intros s.
    apply (update_establishes _ _ (λ x, s_user_id x = u) (λ x, s_status x = SRevoked)); [done|]. intros s0 Hid Hn. destruct (Hst s0); tauto.
  - intros s. by apply (elem_of_update_other _ _ (λ x, s_user_id x = u)); intros s0 [].
  - intros r.
    apply (update_establishes _ _ (λ x, rt_user_id x = u) (λ x, rt_status_ x = RRevoked)); [done|]. intros r0. unfold rt_not_revoked.
    destruct (rt_status_ r0); tauto.
  - intros r. by apply (elem_of_update_other _ _ (λ x, rt_user_id x = u)); intros r0 [].
  - intros id. unfold redis_live. simpl.
    pose proof (Hm (session_key id)) as Hk. change (String.prefix _ (session_key id)) with
      (starts_with ("identity:sess:" +:+ id) "identity:sess:") in Hk. rewrite starts_with_app in Hk. by rewrite Hk.
Qed.

(** [revokeAllForUser] ends every session of the user and every refresh token
    of theirs that was not revoked yet, drops the cached sessions, and returns
    how many sessions were active. *)
Theorem session_revoke_all_effect `{!PlatformLaws P} (u why : string) (w : World) :
  let w' := (run (SessionRepository.revokeAllForUser u why) w).2 in
  (run (SessionRepository.revokeAllForUser u why) w).1 =
    Resolved (Z.of_nat (sql_count (λ s, s_user_id s = u ∧ s_status s = SActive)
                          (sessions (w_db w)))) ∧
  (∀ s, s ∈ sessions (w_db w') → s_user_id s = u → s_status s = SRevoked) ∧
  (∀ s, s_user_id s ≠ u → (s ∈ sessions (w_db w') ↔ s ∈ sessions (w_db w))) ∧
  (∀ r, r ∈ refresh_tokens (w_db w') → rt_user_id r = u → rt_status_ r = RRevoked) ∧
  (∀ r, rt_user_id r ≠ u →
        (r ∈ refresh_tokens (w_db w') ↔ r ∈ refresh_tokens (w_db w))) ∧
  (∀ id, redis_live w' (session_key id) = None).
Proof. apply revoke_all_effect. Qed.
End properties.

(** * Concrete runs *)

Definition sess_demo : World :=
  empty_world 1000 <| w_db := empty_db <| sessions := [demo_session] |> |>.

Lemma sess_demo_ok : cache_ok sess_demo.
Proof. intros id e c Hk. simpl in Hk. by rewrite lookup_empty in Hk. Qed.

(** A lookup caches the session; a revocation in between is still seen. *)
Lemma session_cache_coherent_witness :
  let ps := [(_ ← SessionRepository.findById "sess-1"; mret ());
             SessionRepository.revoke "sess-1" "logout";
             (_ ← SessionRepository.findById "sess-1"; mret ())] in
  let w' := (serve ps sess_demo).2 in
  bool_decide (is_Some (w_redis w' !! session_key "sess-1")) = true ∧ cache_ok w'.
Proof.
  intros ps w'. split; [by vm_compute|].
  apply (session_cache_coherent (P := toy) eq ps (serve ps sess_demo).1 sess_demo w').
  - by intros v v' ->.
  - apply sess_demo_ok.
  - repeat constructor.
  - rewrite <- surjective_pairing. apply pool_serve.
Defined.

Lemma findById_refines_witness :
  ∃ o w', run (SessionRepository.findById "sess-1") sess_demo = (Resolved o, w') ∧
    s_status <$> o = Some SActive.
Proof.
  destruct (findById_refines "sess-1" sess_demo) as (o & w' & Hrun & Hv & _).
  - apply NoDup_singleton.
  - apply sess_demo_ok.
  - exists o, w'. split; [exact Hrun|]. destruct o as [s|]; [|done]. injection Hv as _ _ _ _ _ _ _ Hst.
    simpl. by rewrite Hst.
Defined.

Lemma session_revocation_effective_witness :
  let w := (run (SessionRepository.revoke "sess-1" "logout")
              (run (SessionRepository.findById "sess-1") sess_demo).2).2 in
  let ps := [SessionRepository.findById "sess-1"] in
  let dead := session_revoke "logout" 1000 demo_session in
  Ret (Some dead) ∈ (serve ps w).1 ∧ s_status dead = SRevoked.
Proof.
  intros w ps dead.
  assert (H : Ret (Some dead) ∈ (serve ps w).1) by (vm_compute; left).
  split; [exact H|].
  apply (session_revocation_effective "sess-1" eq ps (serve ps w).1 w (serve ps w).2
           (Some dead)).
  - by intros v v' ->.
  - split; [apply NoDup_singleton|]. exists dead. split_and!; [apply list_elem_of_here|done..].
  - by repeat constructor.
  - rewrite <- surjective_pairing. apply pool_serve.
  - exact H.
  - done.
Defined.
