(* ===== verification/Users.v ===== *)
(** src/modules/users/user.repository.ts: accounts, their roles and the
    permissions the roles grant. *)
From S2P Require Import Prelude Async JsString Errors Store Evolution Toy.
From stdpp Require Import base gmap strings list sorting.
From Stdlib Require Import ZArith.
Local Open Scope string_scope.
Local Open Scope list_scope.
Local Open Scope Z_scope.

Record CreateUserData : Type := mkCreateUser {
  cu_email : string;
  cu_passwordHash : string;
  cu_firstName : option string;
  cu_lastName : option string;
}.

(** [ORDER BY name], in byte order. *)
Definition name_le (a b : string) : Prop := String.leb a b = true.
#[export] Instance name_le_dec : RelDecision name_le := λ a b, decide (String.leb a b = true).

Definition order_by_name (names : list string) : list string := merge_sort name_le names.

Module UserRepository.

(** [UPDATE users SET .., updated_at = now() WHERE id = $1] *)
Definition update_user (id : string) (f : Z → UserRow → UserRow) : M () :=
  db_exec (λ now d, d <| users ::=
    sql_update (λ u, u_id u = id) (λ u, f now u <| u_updated_at := now |>) |>).

Section repository.
Context `{P : Platform}.

Definition insert (data : CreateUserData) (w : World) : outcome Err UserRow * World :=
  let email := to_lower (cu_email data) in
  let row := mkUserRow (random_uuid (w_draws w)) email (cu_passwordHash data)
    (cu_firstName data) (cu_lastName data) UPendingVerification 0 None false None
    (w_now w) (w_now w) (w_now w) in
  if decide (to_lower email ∈ u_email_key <$> users (w_db w) ∨
             u_id row ∈ u_id <$> users (w_db w))
  then (Rejected unique_violation, w)
  else (Resolved row,
        on_db (λ d, d <| users ::= λ t, t ++ [row] |>) w <| w_draws ::= N.succ |>).

Definition create (data : CreateUserData) : M UserRow := attempt (insert data).
End repository.

Definition findByEmail (email : string) : M (option UserRow) :=
  db_select (λ d, sql_first (λ u, u_email_key u = to_lower (to_lower email)) (users d)).

Definition findById (id : string) : M (option UserRow) :=
  db_select (λ d, sql_first (λ u, u_id u = id) (users d)).

Definition updateProfile (id : string) (firstName lastName : option string) : M () :=
  update_user id (λ _ u, u <| u_first_name := firstName |> <| u_last_name := lastName |>).

Definition markVerified (id : string) : M () :=
  db_exec (λ now d, d <| users ::=
    sql_update (λ u, u_id u = id ∧ u_status u = UPendingVerification)
      (λ u, u <| u_status := UActive |> <| u_updated_at := now |>) |>).

Definition setStatus (id : string) (status : user_status) : M () :=
  update_user id (λ _ u, u <| u_status := status |>).

Definition recordFailedLogin (id : string) : M () :=
  update_user id (λ _ u, u <| u_failed_login_count ::= Z.succ |>).

(** [locked_until IS NULL OR locked_until < $2] *)
Definition lock_shorter (until : Z) (u : UserRow) : bool :=
  match u_locked_until u with None => true | Some t => t <? until end.

Definition lock (until now : Z) (u : UserRow) : UserRow :=
  u <| u_locked_until := Some until |> <| u_status := ULocked |> <| u_updated_at := now |>.

Definition lockUntil (id : string) (until : Z) : M () :=
  db_exec (λ now d, d <| users ::=
    sql_update (λ u, u_id u = id ∧ lock_shorter until u = true) (lock until now) |>).

Definition unlocked (u : UserRow) : UserRow :=
  u <| u_failed_login_count := 0 |> <| u_locked_until := None |>
    <| u_status ::= λ s, if decide (s = ULocked) then UActive else s |>.

Definition clearLockAndFailures (id : string) : M () :=
  update_user id (λ _ u, unlocked u).

Definition setLastLogin (id : string) : M () :=
  update_user id (λ now u, u <| u_last_login_at := Some now |>).

Definition updatePasswordHash (id passwordHash : string) : M () :=
  update_user id (λ now u, u <| u_password_hash := passwordHash |>
    <| u_password_changed_at := now |> <| u_failed_login_count := 0 |>
    <| u_locked_until := None |>).

(** The rows of [roles JOIN user_roles] of a user. *)
Definition roles_joined (userId : string) (d : Db) : list string :=
  r ← roles d; ur ← user_roles d;
  if decide (ur_role_id ur = role_id r ∧ ur_user_id ur = userId) then [role_name r] else [].

Definition rolesOf (userId : string) : M (list string) :=
  db_select (λ d, order_by_name (roles_joined userId d)).

Definition addRole (userId roleName : string) : M () :=
  db_exec (λ _ d, d <| user_roles ::= λ t,
    t ++ (r ← roles d;
          if decide (role_name r = roleName ∧
                     (userId, role_id r) ∉ (λ ur, (ur_user_id ur, ur_role_id ur)) <$> t)
          then [mkUserRoleRow userId (role_id r)] else []) |>).

(** The rows of [permissions JOIN role_permissions JOIN user_roles]. *)
Definition permissions_joined (userId : string) (d : Db) : list string :=
  p ← permissions d; rp ← role_permissions d; ur ← user_roles d;
  if decide (rp_permission_id rp = perm_id p ∧ ur_role_id ur = rp_role_id rp ∧
             ur_user_id ur = userId)
  then [perm_name p] else [].

Definition permissionsOf (userId : string) : M (list string) :=
  db_select (λ d, order_by_name (remove_dups (permissions_joined userId d))).
End UserRepository.

(** * Steps of the store *)

Lemma update_user_step id f :
  (∀ now u, user_le u (f now u)) → respects step (UserRepository.update_user id f).
Proof.
  intros Hf. apply respects_writes. intros w. step_tables.
  apply user_evolves_update. intros u _. apply Hf.
Qed.

Section evolution.
Context `{P : Platform}.

Lemma user_create_step data : respects step (UserRepository.create data).
Proof.
  apply respects_attempt. intros w. unfold UserRepository.insert. case_decide as Hd; [done|].
  step_tables. split; apply evolves_insert; try apply _; intros Hin; apply Hd; auto.
Qed.
End evolution.

Lemma findByEmail_step e : respects step (UserRepository.findByEmail e).
Proof. apply select_step. Qed.
Lemma user_findById_step id : respects step (UserRepository.findById id).
Proof. apply select_step. Qed.
Lemma rolesOf_step u : respects step (UserRepository.rolesOf u).
Proof. apply select_step. Qed.
Lemma permissionsOf_step u : respects step (UserRepository.permissionsOf u).
Proof. apply select_step. Qed.
Lemma updateProfile_step id f l : respects step (UserRepository.updateProfile id f l).
Proof. by apply update_user_step. Qed.
Lemma setStatus_step id s : respects step (UserRepository.setStatus id s).
Proof. by apply update_user_step. Qed.
Lemma recordFailedLogin_step id : respects step (UserRepository.recordFailedLogin id).
Proof. by apply update_user_step. Qed.
Lemma clearLock_step id : respects step (UserRepository.clearLockAndFailures id).
Proof. by apply update_user_step. Qed.
Lemma setLastLogin_step id : respects step (UserRepository.setLastLogin id).
Proof. by apply update_user_step. Qed.
Lemma updatePasswordHash_step id h : respects step (UserRepository.updatePasswordHash id h).
Proof. by apply update_user_step. Qed.
Lemma markVerified_step id : respects step (UserRepository.markVerified id).
Proof.
  apply respects_writes. intros w. step_tables.
  by apply user_evolves_update.
Qed.
Lemma lockUntil_step id t : respects step (UserRepository.lockUntil id t).
Proof.
  apply respects_writes. intros w. step_tables.
  by apply user_evolves_update.
Qed.
Lemma addRole_step u r : respects step (UserRepository.addRole u r).
Proof. apply respects_writes. intros w. by apply step_same. Qed.
#[export] Hint Resolve user_create_step findByEmail_step user_findById_step rolesOf_step
  permissionsOf_step updateProfile_step setStatus_step recordFailedLogin_step
  clearLock_step setLastLogin_step updatePasswordHash_step markVerified_step
  lockUntil_step addRole_step : steps.

(** * The RBAC query *)

(** The abstract reading of the three tables. *)
Definition granted (d : Db) (userId perm : string) : Prop :=
  ∃ p rp ur, p ∈ permissions d ∧ rp ∈ role_permissions d ∧ ur ∈ user_roles d ∧
    ur_user_id ur = userId ∧ ur_role_id ur = rp_role_id rp ∧
    rp_permission_id rp = perm_id p ∧ perm_name p = perm.

Definition has_role (d : Db) (userId role : string) : Prop :=
  ∃ r ur, r ∈ roles d ∧ ur ∈ user_roles d ∧ ur_user_id ur = userId ∧
    ur_role_id ur = role_id r ∧ role_name r = role.

#[export] Instance name_le_total : Total name_le.
Proof. intros a b. apply String.leb_total. Qed.

Lemma elem_of_order_by_name x l : x ∈ order_by_name l ↔ x ∈ l.
Proof. unfold order_by_name. by rewrite merge_sort_Permutation. Qed.

Lemma elem_of_permissions_joined d u p :
  p ∈ UserRepository.permissions_joined u d ↔ granted d u p.
Proof.
  unfold UserRepository.permissions_joined, granted.
  repeat setoid_rewrite list_elem_of_bind. setoid_rewrite elem_of_if. naive_solver.
Qed.

Lemma elem_of_roles_joined d u r : r ∈ UserRepository.roles_joined u d ↔ has_role d u r.
Proof.
  unfold UserRepository.roles_joined, has_role.
  repeat setoid_rewrite list_elem_of_bind. setoid_rewrite elem_of_if. naive_solver.
Qed.

(** C36: A user's permissions are exactly those some role of the user grants, each
    once and in order; the roles are exactly the user's. *)
Theorem rbac_query_correct (userId : string) (w : World) :
  (∃ ps, run (UserRepository.permissionsOf userId) w = (Resolved ps, w) ∧
     NoDup ps ∧ Sorted name_le ps ∧ ∀ p, p ∈ ps ↔ granted (w_db w) userId p) ∧
  (∃ rs, run (UserRepository.rolesOf userId) w = (Resolved rs, w) ∧
     Sorted name_le rs ∧ ∀ r, r ∈ rs ↔ has_role (w_db w) userId r).
Proof.
  split; eexists; (split; [done|]).
  - split; [|split].
    + unfold order_by_name. rewrite merge_sort_Permutation. apply NoDup_remove_dups.
    + apply Sorted_merge_sort, _.
    + intros p. rewrite elem_of_order_by_name, elem_of_remove_dups.
      apply elem_of_permissions_joined.
  - split; [apply Sorted_merge_sort, _|].
    intros r. rewrite elem_of_order_by_name. apply elem_of_roles_joined.
Qed.
