(* ===== verification/Password.v ===== *)
(** src/modules/users/password.service.ts: Argon2 hashing and the password
    policy. *)
From S2P Require Import Prelude Async JsString Errors Store Evolution Toy.
From stdpp Require Import base strings list pretty.
From Stdlib Require Import ZArith.
Local Open Scope string_scope.
Local Open Scope list_scope.

Definition COMMON_PASSWORDS : list string :=
  ["password"; "password1"; "password123"; "12345678"; "123456789"; "1234567890";
   "qwerty123"; "qwertyuiop"; "letmein123"; "welcome123"; "admin123456"; "iloveyou1";
   "sunshine1"; "princess1"; "football1"; "abc123456"].

(** [/^\s|\s$/]: the first or the last character is white space. *)
Definition first_space (s : string) : bool :=
  match s with String c _ => is_space c | EmptyString => false end.
Fixpoint last_space (s : string) : bool :=
  match s with
  | EmptyString => false
  | String c EmptyString => is_space c
  | String _ s => last_space s
  end.

(** [errors.password ??= ''; errors.password += msg] *)
Definition add_error (bad : bool) (msg : string) (e : option string) : option string :=
  if bad then Some (default "" e +:+ msg) else e.

Section service.
Context `{P : Platform}.

Definition hashPassword (plain : string) : M string := draw (argon2_hash plain).

(** A malformed hash behaves like a failed login. *)
Definition verifyPassword (hash plain : string) : bool :=
  match argon2_verify hash plain with Some ok => ok | None => false end.

(** The entry [errors.password], if any rule is broken. *)
Definition policy_errors (password : string) : option string :=
  let minLength := PASSWORD_MIN_LENGTH cfg in
  let e := if Nat.ltb (String.length password) minLength
           then Some ("Must be at least " +:+ pretty minLength +:+ " characters")
           else None in
  let e := add_error (negb (some_char is_lower password)) " Must contain a lowercase letter." e in
  let e := add_error (negb (some_char is_upper password)) " Must contain an uppercase letter." e in
  let e := add_error (negb (some_char is_digit password)) " Must contain a digit." e in
  let e := add_error (first_space password || last_space password)
             " Must not start or end with whitespace." e in
  if includes COMMON_PASSWORDS (to_lower password)
  then Some "This password is too common." else e.

Definition checkPasswordPolicy (password : string) : outcome Err () :=
  match policy_errors password with
  | Some msg => Rejected (ValidationError "Password does not meet the policy"
                            (JObj [("password", JStr msg)]))
  | None => Resolved ()
  end.

(** The call inside an async function. *)
Definition check_policy (password : string) : M () :=
  match checkPasswordPolicy password with Resolved _ => mret () | Rejected e => Throw e end.

(** * The policy as a predicate *)

Record acceptable (password : string) : Prop := mk_acceptable {
  acc_length : (PASSWORD_MIN_LENGTH cfg ≤ String.length password)%nat;
  acc_lower : some_char is_lower password = true;
  acc_upper : some_char is_upper password = true;
  acc_digit : some_char is_digit password = true;
  acc_trimmed : first_space password = false ∧ last_space password = false;
  acc_rare : to_lower password ∉ COMMON_PASSWORDS;
}.

Lemma add_error_None bad msg e : add_error bad msg e = None ↔ bad = false ∧ e = None.
Proof. unfold add_error. destruct bad; naive_solver. Qed.

Lemma policy_errors_None password : policy_errors password = None ↔ acceptable password.
Proof.
  unfold policy_errors. destruct (includes COMMON_PASSWORDS (to_lower password)) eqn:Hc.
  - split; [done|]. intros []. by apply includes_spec in Hc.
  - rewrite !add_error_None, !negb_false_iff, orb_false_iff. split.
    + intros (? & ? & ? & ? & Hlen). split; try done.
      * destruct (Nat.ltb_spec (String.length password) (PASSWORD_MIN_LENGTH cfg)); [done|lia].
      * intros Hin. apply includes_spec in Hin. congruence.
    + intros []. split_and!; try done; try tauto.
      by rewrite (proj2 (Nat.ltb_ge _ _)).
Qed.

Lemma password_policy_ok password :
  checkPasswordPolicy password = Resolved () ↔ acceptable password.
Proof.
  rewrite <- policy_errors_None. unfold checkPasswordPolicy.
  by destruct (policy_errors password).
Qed.

Lemma password_policy_bad password :
  ¬ acceptable password →
  ∃ msg, checkPasswordPolicy password =
    Rejected (ValidationError "Password does not meet the policy" (JObj [("password", JStr msg)])).
Proof.
  rewrite <- policy_errors_None. unfold checkPasswordPolicy.
  destruct (policy_errors password) as [msg|]; [by exists msg | done].
Qed.

(** The policy accepts exactly the passwords that meet every rule; any other
    is answered with a 400 that names the field [password]. *)
Theorem password_policy_exact (password : string) :
  (checkPasswordPolicy password = Resolved () ↔ acceptable password) ∧
  (¬ acceptable password →
   ∃ msg, checkPasswordPolicy password =
     Rejected (ValidationError "Password does not meet the policy"
                 (JObj [("password", JStr msg)]))).
Proof. split; [apply password_policy_ok | apply password_policy_bad]. Qed.

Lemma hashPassword_step pw : respects step (hashPassword pw).
Proof. apply draw_step. Qed.
Lemma check_policy_step pw : respects step (check_policy pw).
Proof. unfold check_policy. by destruct (checkPasswordPolicy pw). Qed.

(** A password hash verifies the password it was made from and no other. *)
Lemma verify_hashed `{!PlatformLaws P} pw pw' n :
  verifyPassword (argon2_hash pw n) pw' = bool_decide (pw = pw').
Proof. unfold verifyPassword. by rewrite argon2_verify_hash. Qed.
End service.
#[export] Hint Resolve hashPassword_step check_policy_step : steps.
