(* ===== verification/EmailTokens.v ===== *)
(** src/modules/users/email-token.service.ts: opaque single-use tokens for
    e-mail verification and password reset. *)
From S2P Require Import Prelude Async JsString Errors Store Evolution Toy.
From stdpp Require Import base gmap strings list relations.
From Stdlib Require Import ZArith.
Local Open Scope string_scope.
Local Open Scope list_scope.
Local Open Scope Z_scope.

(** The two tables the service keeps. *)
Inductive token_table := Verifications | Resets.

Definition et_rows (k : token_table) (d : Db) : list EmailTokenRow :=
  match k with Verifications => email_verifications d | Resets => password_reset_tokens d end.

Definition on_rows (k : token_table) (f : list EmailTokenRow → list EmailTokenRow) (d : Db) : Db :=
  match k with
  | Verifications => d <| email_verifications ::= f |>
  | Resets => d <| password_reset_tokens ::= f |>
  end.

Module EmailTokenService.
Section service.
Context `{P : Platform}.

Definition hash (token : string) : string := sha256_hex token.

Definition newToken : M (string * string) :=
  token ← draw (random_b64url 32); mret (token, hash token).

(** The INSERT of either table. *)
Definition insert (k : token_table) (userId : string) (email : option string)
    (tokenHash : string) (ttl : Z) (w : World) : outcome Err () * World :=
  if decide (tokenHash ∈ et_token_hash <$> et_rows k (w_db w))
  then (Rejected unique_violation, w)
  else
    let row := mkEmailTokenRow (random_uuid (w_draws w)) userId tokenHash email
      (w_now w + ttl * 1000) None in
    (Resolved (), on_db (on_rows k (λ t, t ++ [row])) w <| w_draws ::= N.succ |>).

Definition issueEmailVerification (userId email : string) : M string :=
  let ttl := EMAIL_VERIFICATION_TTL cfg in
  t ← newToken;
  _ ← attempt (insert Verifications userId (Some (to_lower email)) t.2 ttl);
  mret t.1.

(** [WHERE token_hash = $1 AND consumed_at IS NULL AND expires_at > now()] *)
Definition usable (h : string) (now : Z) (e : EmailTokenRow) : Prop :=
  et_token_hash e = h ∧ et_used_at e = None ∧ now < et_expires_at e.
#[global] Instance usable_dec h now e : Decision (usable h now e).
Proof. unfold usable. apply _. Defined.

Definition use (now : Z) (e : EmailTokenRow) : EmailTokenRow := e <| et_used_at := Some now |>.

(** The UPDATE .. RETURNING of either table. *)
Definition take (k : token_table) (h : string) (w : World) : option EmailTokenRow * World :=
  (head (sql_returning (usable h (w_now w)) (use (w_now w)) (et_rows k (w_db w))),
   on_db (on_rows k (sql_update (usable h (w_now w)) (use (w_now w)))) w).

Definition consumeEmailVerification (token : string) : M (option string) :=
  row ← atomically (take Verifications (hash token));
  match row with None => mret None | Some r => mret (Some (et_user_id r)) end.

Definition issuePasswordReset (userId : string) : M string :=
  let ttl := PASSWORD_RESET_TTL cfg in
  t ← newToken;
  _ ← attempt (insert Resets userId None t.2 ttl);
  mret t.1.

Definition consumePasswordReset (token : string) : M (option string) :=
  row ← atomically (take Resets (hash token));
  match row with None => mret None | Some r => mret (Some (et_user_id r)) end.

(** Both consumptions are the same code on different tables. *)
Definition consume_from (k : token_table) : string → M (option string) :=
  match k with
  | Verifications => consumeEmailVerification
  | Resets => consumePasswordReset
  end.
End service.
End EmailTokenService.

(** * Steps of the store *)

Lemma et_rows_step k (w : World) f :
  evolves et_le et_token_hash (et_rows k (w_db w)) (f (et_rows k (w_db w))) →
  step w (on_db (on_rows k f) w).
Proof. intros Hf. destruct k; by step_tables. Qed.

Lemma et_rows_on k f d : et_rows k (on_rows k f d) = f (et_rows k d).
Proof. by destruct k. Qed.

(** * Single use *)

Definition et_live (e : EmailTokenRow) : Prop := et_used_at e = None.
#[export] Instance et_live_dec e : Decision (et_live e).
Proof. unfold et_live. apply _. Defined.

Lemma et_le_live e e' : et_le e e' → et_live e' → et_live e.
Proof.
  unfold et_live. intros [_ Hu] He. destruct (et_used_at e); [|done].
  destruct Hu as [? Hu]; [done|]. congruence.
Qed.

Definition et_table (k : token_table) (w : World) : list EmailTokenRow := et_rows k (w_db w).
Definition et_step (k : token_table) : relation World :=
  pull (et_table k) (evolves et_le et_token_hash).

Section evolution.
Context `{P : Platform}.

Lemma newToken_step : respects step EmailTokenService.newToken.
Proof. unfold EmailTokenService.newToken. respects_step. Qed.

Lemma et_insert_step k u e h ttl : respects step (attempt (EmailTokenService.insert k u e h ttl)).
Proof.
  apply respects_attempt. intros w. unfold EmailTokenService.insert.
  case_decide as Hd; [reflexivity|].
  destruct k; step_tables; by apply evolves_insert; [apply _|].
Qed.

Lemma take_step k h : respects step (atomically (EmailTokenService.take k h) : M _).
Proof.
  apply respects_atomically. intros w. apply et_rows_step.
  apply evolves_update; [apply _| |apply et_le_hash]. intros e (_ & Hu & _).
  split; [done|]. rewrite Hu. intros [? ?]. done.
Qed.

#[local] Hint Resolve newToken_step et_insert_step take_step : steps.
Lemma issueEmailVerification_step u e :
  respects step (EmailTokenService.issueEmailVerification u e).
Proof. unfold EmailTokenService.issueEmailVerification. respects_step. Qed.
Lemma issuePasswordReset_step u : respects step (EmailTokenService.issuePasswordReset u).
Proof. unfold EmailTokenService.issuePasswordReset. respects_step. Qed.
Lemma consumeEmailVerification_step t :
  respects step (EmailTokenService.consumeEmailVerification t).
Proof. unfold EmailTokenService.consumeEmailVerification. respects_step. Qed.
Lemma consumePasswordReset_step t :
  respects step (EmailTokenService.consumePasswordReset t).
Proof. unfold EmailTokenService.consumePasswordReset. respects_step. Qed.
End evolution.
#[export] Hint Resolve issueEmailVerification_step issuePasswordReset_step
  consumeEmailVerification_step consumePasswordReset_step : steps.

Section races.
Context `{P : Platform}.

Definition accepted (o : option string) : bool := bool_decide (is_Some o).

Lemma consume_from_take k token :
  EmailTokenService.consume_from k token =
    (row ← atomically (EmailTokenService.take k (EmailTokenService.hash token));
     match row with None => mret None | Some r => mret (Some (et_user_id r)) end).
Proof. by destruct k. Qed.

Lemma consume_from_earns k token :
  earns (key_unique (et_table k) et_token_hash)
    (spent_count (et_table k) et_token_hash et_live (EmailTokenService.hash token))
    (earned accepted) 0 (EmailTokenService.consume_from k token).
Proof.
  rewrite consume_from_take. apply earns_bind. eapply earns_mono; cycle 1.
  - apply (take_earns (et_table k) et_le et_token_hash et_live et_le_hash et_le_live
      (EmailTokenService.hash token)
      (λ w, EmailTokenService.usable (EmailTokenService.hash token) (w_now w))
      (λ w, EmailTokenService.use (w_now w))).
    + intros w e (_ & Hu & _). split; [done|]. split; [done|]. split; [done|].
      rewrite Hu. by intros [].
    + intros w. apply sql_returning_head.
    + intros w. apply et_rows_on.
  - intros m [e|] _ Hm; [|done]. intros _.
    destruct (Hm e eq_refl) as (Hle & w & e0 & (Hh & _) & ->). by apply Hle.
Qed.

(** However the presentations of one token interleave with each other and
    with the rest of the system, at most one of them is accepted. *)
Theorem email_token_single_use (k : token_table) (token : string)
    (env : World → World → Prop) (ps ps' : list (M (option string))) (w w' : World) :
  (∀ v v', env v v' → et_step k v v') →
  NoDup (et_token_hash <$> et_table k w) →
  Forall (λ p, p = EmailTokenService.consume_from k token) ps →
  rtc (pstep env (λ p, p = EmailTokenService.consume_from k token)) (ps, w) (ps', w') →
  (winners accepted ps' ≤ 1)%nat.
Proof.
  intros Henv Hu Hps Hsteps.
  refine (single_use_pool (et_table k) et_le et_token_hash et_live et_le_hash et_le_live
    (EmailTokenService.hash token) _ env _ ps ps' w w' Henv _ Hu Hps Hsteps).
  intros p ->. apply consume_from_earns.
Qed.

(** The store after the statement of [consume_from]. *)
Definition taken (k : token_table) (token : string) (w : World) : World :=
  (EmailTokenService.take k (EmailTokenService.hash token) w).2.

Lemma run_consume_from k token w :
  run (EmailTokenService.consume_from k token) w =
    (Resolved (et_user_id <$>
       sql_first (EmailTokenService.usable (EmailTokenService.hash token) (w_now w)) (et_table k w)),
     taken k token w).
Proof.
  rewrite consume_from_take, run_bind, run_atomically. unfold EmailTokenService.take at 1.
  cbn [fst]. rewrite sql_returning_head. by destruct (sql_first _ _).
Qed.

(** A token whose row is the last one of its table. *)
Section last_row.
Context (k : token_table) (token : string) (t : list EmailTokenRow) (row : EmailTokenRow).
Context (Hno : ∀ e, e ∈ t → et_token_hash e ≠ EmailTokenService.hash token).

Lemma no_usable now e :
  e ∈ t → ¬ EmailTokenService.usable (EmailTokenService.hash token) now e.
Proof. intros He [Hh _]. by apply (Hno e). Qed.

Lemma run_consume_last w :
  et_table k w = t ++ [row] →
  run (EmailTokenService.consume_from k token) w =
    (Resolved (if decide (EmailTokenService.usable (EmailTokenService.hash token) (w_now w) row)
               then Some (et_user_id row) else None), taken k token w).
Proof.
  intros Ht. rewrite run_consume_from, Ht, sql_first_last by (intros; by apply no_usable).
  by case_decide.
Qed.

Lemma taken_last w :
  et_table k w = t ++ [row] →
  EmailTokenService.usable (EmailTokenService.hash token) (w_now w) row →
  et_table k (taken k token w) = t ++ [EmailTokenService.use (w_now w) row].
Proof.
  intros Ht Hrow. unfold taken, EmailTokenService.take, et_table, on_db. cbn [snd].
  transitivity (sql_update (EmailTokenService.usable (EmailTokenService.hash token) (w_now w))
    (EmailTokenService.use (w_now w)) (t ++ [row])); [rewrite <- Ht; apply et_rows_on|].
  unfold sql_update. rewrite fmap_app.
  fold (sql_update (EmailTokenService.usable (EmailTokenService.hash token) (w_now w))
    (EmailTokenService.use (w_now w)) t).
  rewrite sql_update_nothing by (intros; by apply no_usable).
  simpl. by rewrite sql_set_true.
Qed.
End last_row.

(** Every stored hash is that of a token drawn before. *)
Definition et_drawn (k : token_table) (w : World) : Prop :=
  Forall (λ e, ∃ n, (n < w_draws w)%N ∧
            et_token_hash e = EmailTokenService.hash (random_b64url 32 n)) (et_table k w).

Lemma et_drawn_fresh `{!PlatformLaws P} k w e :
  et_drawn k w → e ∈ et_table k w →
  et_token_hash e ≠ EmailTokenService.hash (random_b64url 32 (w_draws w)).
Proof.
  unfold et_drawn. rewrite Forall_forall. intros Hd He Hh.
  destruct (Hd e He) as (n & Hn & Hn'). rewrite Hn' in Hh. unfold EmailTokenService.hash in Hh.
  pose proof sha256_hex_inj. pose proof (random_b64url_inj 32).
  apply (inj sha256_hex), (inj (random_b64url 32)) in Hh. lia.
Qed.

Definition issue_for (k : token_table) (userId email : string) : M string :=
  match k with
  | Verifications => EmailTokenService.issueEmailVerification userId email
  | Resets => EmailTokenService.issuePasswordReset userId
  end.

Definition ttl_of (k : token_table) : Z :=
  match k with Verifications => EMAIL_VERIFICATION_TTL cfg | Resets => PASSWORD_RESET_TTL cfg end.

(** What issuing does: a row for the user, live, holding the hash only. *)
Lemma run_issue_for `{!PlatformLaws P} k userId email w :
  et_drawn k w →
  ∃ row w1, run (issue_for k userId email) w = (Resolved (random_b64url 32 (w_draws w)), w1) ∧
    et_table k w1 = et_table k w ++ [row] ∧
    et_token_hash row = EmailTokenService.hash (random_b64url 32 (w_draws w)) ∧
    et_user_id row = userId ∧ et_used_at row = None ∧
    et_expires_at row = w_now w + ttl_of k * 1000 ∧
    users (w_db w1) = users (w_db w) ∧ w_mail w1 = w_mail w.
Proof.
  intros Hd.
  assert (Hnew : EmailTokenService.hash (random_b64url 32 (w_draws w))
    ∉ et_token_hash <$> et_table k w).
  { intros Hin. apply list_elem_of_fmap in Hin as (e & Hh & He).
    by apply (et_drawn_fresh k w e). }
  unfold issue_for, EmailTokenService.issueEmailVerification,
    EmailTokenService.issuePasswordReset, EmailTokenService.newToken, draw.
  destruct k; run_simpl; unfold EmailTokenService.insert; rewrite decide_False by done;
    by eexists _, _.
Qed.

(** Life cycle of a token: an issued token is accepted until it expires, for
    the user it was issued to, and from then on never again. *)
Theorem email_token_lifecycle `{!PlatformLaws P} (k : token_table) (userId email : string)
    (later last : Z) (w : World) :
  et_drawn k w →
  ∃ token w1, run (issue_for k userId email) w = (Resolved token, w1) ∧
    (run (EmailTokenService.consume_from k token) (w1 <| w_now := later |>)).1
    = Resolved (if decide (later < w_now w + ttl_of k * 1000) then Some userId else None) ∧
    (later < w_now w + ttl_of k * 1000 →
     (run (EmailTokenService.consume_from k token)
        (taken k token (w1 <| w_now := later |>) <| w_now := last |>)).1 = Resolved None).
Proof.
  intros Hd. destruct (run_issue_for k userId email w Hd)
    as (row & w1 & Hrun & Htbl & Hh & Hu & Hl & He & _).
  set (token := random_b64url 32 (w_draws w)) in *.
  assert (Hno : ∀ e, e ∈ et_table k w → et_token_hash e ≠ EmailTokenService.hash token)
    by (intros e; by apply et_drawn_fresh).
  set (w2 := w1 <| w_now := later |>).
  assert (Ht2 : et_table k w2 = et_table k w ++ [row]) by done.
  assert (Huse : EmailTokenService.usable (EmailTokenService.hash token) later row
    ↔ later < w_now w + ttl_of k * 1000).
  { unfold EmailTokenService.usable. rewrite He. tauto. }
  exists token, w1. split; [done|]. split.
  - rewrite (run_consume_last k token (et_table k w) row) by done. simpl. rewrite Hu. f_equal.
    by apply decide_ext.
  - intros Hlate. apply Huse in Hlate.
    rewrite (run_consume_last k token (et_table k w) (EmailTokenService.use later row)); [|done|].
    + simpl. rewrite decide_False; [done|]. by intros (_ & ? & _).
    + by apply (taken_last k token (et_table k w) row Hno w2).
Qed.
End races.

(** * Concrete runs *)

Lemma email_token_lifecycle_witness :
  ∃ token w1, run (issue_for (P := toy) Resets "user-1" "") (empty_world 0) = (Resolved token, w1) ∧
    (run (EmailTokenService.consume_from (P := toy) Resets token) (w1 <| w_now := 1799999 |>)).1
    = Resolved (Some "user-1").
Proof.
  destruct (email_token_lifecycle (P := toy) Resets "user-1" "" 1799999 1799999 (empty_world 0))
    as (token & w1 & Hrun & Hr & _); [constructor|].
  exists token, w1. split; [exact Hrun | exact Hr].
Defined.

Lemma email_token_single_use_witness :
  let w := (run (issue_for (P := toy) Verifications "user-1" "a@b.c") (empty_world 0)).2 in
  let ps := replicate 3 (EmailTokenService.consume_from (P := toy) Verifications "random-value-of-24-or-32-bytes-0") in
  winners accepted (serve ps w).1 = 1%nat ∧ (winners accepted (serve ps w).1 ≤ 1)%nat.
Proof.
  intros w ps. split; [by vm_compute|].
  apply (email_token_single_use (P := toy) Verifications "random-value-of-24-or-32-bytes-0" eq ps (serve ps w).1 w
           (serve ps w).2).
  - by intros v v' ->.
  - apply NoDup_singleton.
  - by repeat constructor.
  - rewrite <- surjective_pairing. apply pool_serve.
Defined.
