(* ===== verification/UserService.v ===== *)
(** src/modules/users/user.service.ts: registration and e-mail verification. *)
From S2P Require Import Prelude Async JsString Errors Store Evolution Toy Redis AuditLog Users Password EmailTokens.
From stdpp Require Import base gmap strings list.
From Stdlib Require Import ZArith Ascii.
Local Open Scope string_scope.
Local Open Scope list_scope.
Local Open Scope Z_scope.

Record RegisterInput : Type := mkRegister {
  reg_email : string;
  reg_password : string;
  reg_first_name : option string;
  reg_last_name : option string;
}.

(** The public representation has no password hash. *)
Record PublicUser : Type := mkPublicUser {
  pu_id : string;
  pu_email : string;
  pu_first_name : option string;
  pu_last_name : option string;
  pu_status : user_status;
  pu_mfa_required : bool;
  pu_created_at : Z;
}.

Definition toPublicUser (row : UserRow) : PublicUser :=
  mkPublicUser (u_id row) (u_email row) (u_first_name row) (u_last_name row)
    (u_status row) (u_mfa_required row) (u_created_at row).

Definition nl : string := String "010"%char EmptyString.

Definition verification_mail (to token : string) : EmailMessage :=
  mkEmail to "Verify your email address"
    ("Welcome! Verify your email with this token:" +:+ nl +:+ nl +:+ token +:+ nl +:+ nl +:+
     "POST it to /auth/verify-email within 24 hours.").

(** [{ email_domain: email.split('@')[1] }]; an undefined value is dropped
    when the metadata is serialised. *)
Definition domain_metadata (email : string) : list (string * json) :=
  match split_on "@"%char email !! 1%nat with
  | Some d => [("email_domain", JStr d)]
  | None => []
  end.

Module UserService.
Section service.
Context `{P : Platform}.

Definition register (input : RegisterInput) (ctx : RequestContext) : M PublicUser :=
  _ ← check_policy (reg_password input);
  existing ← UserRepository.findByEmail (reg_email input);
  match existing with
  | Some _ => Throw (ConflictError "Email is already registered")
  | None =>
      passwordHash ← hashPassword (reg_password input);
      user ← UserRepository.create
        (mkCreateUser (reg_email input) passwordHash (reg_first_name input) (reg_last_name input));
      _ ← UserRepository.addRole (u_id user) "user";
      _ ← audit_record (event AuditEventType.USER_REGISTERED (Some (u_id user)) None ctx true
            (Some (domain_metadata (u_email user))));
      token ← EmailTokenService.issueEmailVerification (u_id user) (u_email user);
      _ ← email_send (verification_mail (u_email user) token);
      mret (toPublicUser user)
  end.

Definition verifyEmail (token : string) (ctx : RequestContext) : M () :=
  consumed ← EmailTokenService.consumeEmailVerification token;
  match consumed with
  | None => Throw (ConflictError "Invalid or expired verification token")
  | Some userId =>
      _ ← UserRepository.markVerified userId;
      audit_record (event AuditEventType.USER_EMAIL_VERIFIED (Some userId) None ctx false None)
  end.
End service.

Definition getById (id : string) : M (option PublicUser) :=
  row ← UserRepository.findById id;
  match row with Some r => mret (Some (toPublicUser r)) | None => mret None end.
End UserService.

(** * Steps of the store *)

Lemma email_send_step msg : respects step (email_send msg).
Proof. apply respects_writes. intros w. by apply step_same. Qed.
#[export] Hint Resolve email_send_step : steps.

Section evolution.
Context `{P : Platform}.

Lemma register_step i ctx : respects step (UserService.register i ctx).
Proof. unfold UserService.register. respects_step. Qed.
Lemma verifyEmail_step t ctx : respects step (UserService.verifyEmail t ctx).
Proof. unfold UserService.verifyEmail. respects_step. Qed.
End evolution.
#[export] Hint Resolve register_step verifyEmail_step : steps.

(** * Registration and verification *)

Section properties.
Context `{P : Platform, !PlatformLaws P}.

Definition find_user (email : string) (w : World) : option UserRow :=
  sql_first (λ u, u_email_key u = to_lower email) (users (w_db w)).

(** A request that is refused changes nothing. *)
Theorem register_refused (input : RegisterInput) (ctx : RequestContext) (w : World) :
  (¬ acceptable (reg_password input) →
   ∃ msg, run (UserService.register input ctx) w =
     (Rejected (ValidationError "Password does not meet the policy"
                  (JObj [("password", JStr msg)])), w)) ∧
  (acceptable (reg_password input) → is_Some (find_user (reg_email input) w) →
   run (UserService.register input ctx) w =
     (Rejected (ConflictError "Email is already registered"), w)).
Proof.
  split.
  - intros Hn. destruct (password_policy_bad _ Hn) as [msg Hmsg]. exists msg.
    unfold UserService.register, check_policy. by rewrite Hmsg.
  - intros Ha [u Hu]. unfold UserService.register, check_policy.
    rewrite (proj2 (password_policy_ok _) Ha). unfold UserRepository.findByEmail, db_select. run_simpl.
    unfold find_user in Hu. by rewrite to_lower_idem, Hu.
Qed.

Definition user_ids_drawn (w : World) : Prop :=
  Forall (λ u, ∃ n, (n < w_draws w)%N ∧ u_id u = random_uuid n) (users (w_db w)).

Definition new_user (data : CreateUserData) (id : string) (now : Z) : UserRow :=
  mkUserRow id (to_lower (cu_email data)) (cu_passwordHash data) (cu_firstName data)
    (cu_lastName data) UPendingVerification 0 None false None now now now.

Lemma user_id_fresh w n :
  user_ids_drawn w → (w_draws w ≤ n)%N → random_uuid n ∉ u_id <$> users (w_db w).
Proof.
  unfold user_ids_drawn. rewrite Forall_forall. intros Hd Hn Hin.
  apply list_elem_of_fmap in Hin as (u & Hu & Hin).
  destruct (Hd u Hin) as (m & Hm & Hm'). rewrite Hm' in Hu.
  pose proof random_uuid_inj. apply (inj random_uuid) in Hu. lia.
Qed.

Lemma run_create data w :
  find_user (cu_email data) w = None → random_uuid (w_draws w) ∉ u_id <$> users (w_db w) →
  run (UserRepository.create data) w =
    (Resolved (new_user data (random_uuid (w_draws w)) (w_now w)),
     on_db (λ d, d <| users ::= λ t,
       t ++ [new_user data (random_uuid (w_draws w)) (w_now w)] |>) w <| w_draws ::= N.succ |>).
Proof.
  intros Hnone Hid. unfold UserRepository.create. rewrite run_attempt.
  unfold UserRepository.insert. rewrite decide_False; [done|].
  rewrite to_lower_idem. intros [Hin|Hin]; [|done].
  apply list_elem_of_fmap in Hin as (u & Hu & Hin).
  unfold find_user in Hnone. rewrite sql_first_None in Hnone. by apply (Hnone u).
Qed.

(** What a successful registration leaves behind. *)
Lemma run_register input ctx w :
  acceptable (reg_password input) → find_user (reg_email input) w = None →
  user_ids_drawn w → et_drawn Verifications w →
  ∃ u token w1, run (UserService.register input ctx) w = (Resolved (toPublicUser u), w1) ∧
    u = new_user (mkCreateUser (reg_email input) (u_password_hash u)
          (reg_first_name input) (reg_last_name input)) (u_id u) (w_now w) ∧
    u_id u ∉ u_id <$> users (w_db w) ∧
    (∀ pw, verifyPassword (u_password_hash u) pw = bool_decide (reg_password input = pw)) ∧
    users (w_db w1) = users (w_db w) ++ [u] ∧
    w_mail w1 = w_mail w ++ [verification_mail (u_email u) token] ∧
    ∃ row, et_table Verifications w1 = et_table Verifications w ++ [row] ∧
      (∀ e, e ∈ et_table Verifications w → et_token_hash e ≠ EmailTokenService.hash token) ∧
      et_token_hash row = EmailTokenService.hash token ∧
      et_user_id row = u_id u ∧ et_used_at row = None ∧
      et_expires_at row = w_now w + EMAIL_VERIFICATION_TTL cfg * 1000.
Proof.
  intros Hacc Hnone Hids Htok.
  pose proof (proj2 (password_policy_ok _) Hacc) as Hpol.
  set (n := w_draws w). set (data := mkCreateUser (reg_email input)
    (argon2_hash (reg_password input) n) (reg_first_name input) (reg_last_name input)).
  set (u := new_user data (random_uuid (N.succ n)) (w_now w)).
  set (w0 := w <| w_draws ::= N.succ |>).
  set (w1 := on_db (λ d, d <| users ::= λ t, t ++ [u] |>) w0 <| w_draws ::= N.succ |>).
  set (w2 := with_audit [recorded (event AuditEventType.USER_REGISTERED (Some (u_id u)) None ctx true
      (Some (domain_metadata (u_email u)))) w]
    (run (UserRepository.addRole (u_id u) "user") w1).2).
  assert (Hid : random_uuid (N.succ n) ∉ u_id <$> users (w_db w))
    by (apply user_id_fresh; [done|lia]).
  assert (Hrun : run (UserRepository.create data) w0 = (Resolved u, w1)) by by apply run_create.
  assert (Htok2 : et_drawn Verifications w2).
  { eapply Forall_impl; [exact Htok|]. intros e (m & Hm & Heq). exists m. split; [|done].
    simpl. lia. }
  destruct (run_issue_for Verifications (u_id u) (u_email u) w2 Htok2)
    as (row & w3 & Hissue & Hrows & Hh & Hu & Hl & He & Husers & Hmail).
  exists u, (random_b64url 32 (w_draws w2)).
  eexists. split.
  { unfold UserService.register, check_policy. rewrite Hpol.
    run_next. run_next. unfold find_user in Hnone. rewrite to_lower_idem, Hnone.
    run_next. run_next_by Hrun. run_next. run_next_by @run_audit_record.
    run_next_by Hissue. run_next. reflexivity. }
  split; [done|]. split; [done|]. split; [intros pw; apply verify_hashed|].
  split; [exact Husers|]. split; [simpl; by rewrite Hmail|].
  exists row. split; [exact Hrows|].
  split; [intros e Hin; by apply (et_drawn_fresh Verifications w2)|]. done.
Qed.

Definition user_status_of (id : string) (w : World) : option user_status :=
  u_status <$> sql_first (λ u, u_id u = id) (users (w_db w)).

(** Registering and then presenting the mailed token in time activates the
    account: the stored hash accepts the chosen password and no other, the
    account is pending until the token is presented and active afterwards, and
    the token cannot be presented twice. *)
Theorem register_verify_roundtrip (input : RegisterInput) (ctx ctx' : RequestContext)
    (later last : Z) (w : World) :
  acceptable (reg_password input) → find_user (reg_email input) w = None →
  user_ids_drawn w → et_drawn Verifications w →
  later < w_now w + EMAIL_VERIFICATION_TTL cfg * 1000 →
  ∃ pu token w1 w2,
    run (UserService.register input ctx) w = (Resolved pu, w1) ∧
    pu_email pu = to_lower (reg_email input) ∧
    w_mail w1 = w_mail w ++ [verification_mail (pu_email pu) token] ∧
    user_status_of (pu_id pu) w1 = Some UPendingVerification ∧
    run (UserService.verifyEmail token ctx') (w1 <| w_now := later |>) = (Resolved (), w2) ∧
    user_status_of (pu_id pu) w2 = Some UActive ∧
    (∃ h, u_password_hash <$> sql_first (λ u, u_id u = pu_id pu) (users (w_db w2)) = Some h ∧
          ∀ pw, verifyPassword h pw = bool_decide (reg_password input = pw)) ∧
    (run (UserService.verifyEmail token ctx') (w2 <| w_now := last |>)).1
      = Rejected (ConflictError "Invalid or expired verification token").
Proof.
  intros Hacc Hnone Hids Htok Hlater.
  destruct (run_register input ctx w Hacc Hnone Hids Htok)
    as (u & token & w1 & Hrun & Hu & Hid & Hpw & Husers & Hmail & row & Hrows & Hno & Hh & Hru & Hl & He).
  set (w1' := w1 <| w_now := later |>).
  assert (Ht1 : et_table Verifications w1' = et_table Verifications w ++ [row]) by done.
  assert (Huse : EmailTokenService.usable (EmailTokenService.hash token) later row)
    by (split_and!; [done..|by rewrite He]).
  pose proof (run_consume_last Verifications token _ row Hno w1' Ht1) as Hc.
  rewrite decide_True in Hc by done. rewrite Hru in Hc.
  pose proof (taken_last Verifications token _ row Hno w1' Ht1 Huse) as Ht2.
  set (wt := taken Verifications token w1') in *.
  set (w2 := (run (UserRepository.markVerified (u_id u)) wt).2).
  assert (Hfirst : sql_first (λ x, u_id x = u_id u) (users (w_db w2))
    = Some (u <| u_status := UActive |> <| u_updated_at := later |>)).
  { simpl. rewrite sql_first_update.
    2: { intros x. unfold sql_set. by case_decide. }
    change (users (w_db wt)) with (users (w_db w1)). rewrite Husers, sql_first_last.
    2: { intros x Hx Heq. apply Hid. rewrite <- Heq. by apply list_elem_of_fmap_2. }
    rewrite decide_True by done. simpl. rewrite sql_set_true; [done|].
    by rewrite Hu. }
  assert (Hverify : ∃ rows, run (UserService.verifyEmail token ctx') w1'
    = (Resolved (), with_audit rows w2)).
  { eexists. unfold UserService.verifyEmail. run_next_by Hc. run_next. apply run_audit_record. }
  destruct Hverify as [rows Hverify].
  exists (toPublicUser u), token, w1, (with_audit rows w2).
  assert (Hst : user_status_of (u_id u) w1 = Some UPendingVerification).
  { unfold user_status_of. rewrite Husers, sql_first_last.
    2: { intros x Hx Heq. apply Hid. rewrite <- Heq. by apply list_elem_of_fmap_2. }
    rewrite decide_True by done. by rewrite Hu. }
  split_and!; try done; try (by rewrite Hu).
  - change (u_status <$> sql_first (λ x, u_id x = u_id u) (users (w_db w2)) = Some UActive).
    by rewrite Hfirst.
  - exists (u_password_hash u). split; [|done].
    change (u_password_hash <$> sql_first (λ x, u_id x = u_id u) (users (w_db w2))
            = Some (u_password_hash u)). by rewrite Hfirst.
  - unfold UserService.verifyEmail. rewrite run_bind.
    rewrite (run_consume_last Verifications token _ (EmailTokenService.use later row) Hno);
      [|exact Ht2].
    rewrite decide_False; [done|]. by intros (_ & ? & _).
Qed.
End properties.

(** * Concrete runs *)

Definition demo_register : RegisterInput :=
  mkRegister "Ada@Example.com" "Correct-Horse-42" (Some "Ada") None.
Definition demo_ctx : RequestContext := mkContext "req-1" (Some "10.0.0.1") None.

Lemma demo_acceptable : acceptable (P := toy) (reg_password demo_register).
Proof. apply password_policy_ok. by vm_compute. Qed.

Lemma register_refused_witness :
  run (UserService.register (P := toy) demo_register demo_ctx)
    (run (UserService.register (P := toy) demo_register demo_ctx) (empty_world 0)).2
  = (Rejected (ConflictError "Email is already registered"),
     (run (UserService.register (P := toy) demo_register demo_ctx) (empty_world 0)).2).
Proof.
  apply (register_refused (P := toy) demo_register demo_ctx).
  - apply demo_acceptable.
  - by eexists; vm_compute.
Defined.

Lemma register_verify_roundtrip_witness :
  ∃ pu token w1 w2,
    run (UserService.register (P := toy) demo_register demo_ctx) (empty_world 0)
      = (Resolved pu, w1) ∧ pu_email pu = "ada@example.com" ∧
    run (UserService.verifyEmail (P := toy) token demo_ctx) (w1 <| w_now := 86399999 |>)
      = (Resolved (), w2) ∧ user_status_of (pu_id pu) w2 = Some UActive.
Proof.
  destruct (register_verify_roundtrip (P := toy) demo_register demo_ctx demo_ctx 86399999 86400000
    (empty_world 0)) as (pu & token & w1 & w2 & H1 & H2 & _ & _ & H3 & H4 & _).
  - apply demo_acceptable.
  - done.
  - constructor.
  - constructor.
  - done.
  - exists pu, token, w1, w2. by split_and!.
Defined.
