(* ===== verification/Seed.v ===== *)
(** src/infrastructure/database/seed.ts: the roles, permissions and scopes of a
    new installation, and its first administrator. *)
From S2P Require Import Prelude Async JsString Errors Store Database Evolution Toy Users Password.
From stdpp Require Import base gmap strings list sorting relations.
From Stdlib Require Import ZArith.
Local Open Scope string_scope.
Local Open Scope list_scope.
Local Open Scope Z_scope.

Definition seed_roles : list (string * string) :=
  [("admin", "Full administrative access"); ("user", "Standard end-user");
   ("support", "Read-only support access to users and audits"); ("service", "Machine/service account")].

Definition seed_permissions : list string :=
  ["users:read"; "users:write"; "users:delete"; "clients:read"; "clients:write"; "roles:read"; "roles:write";
   "audit:read"].

Definition seed_scopes : list (string * string) :=
  [("openid", "Authenticate via OpenID Connect"); ("profile", "Access basic profile claims");
   ("email", "Access email claims"); ("offline_access", "Request refresh tokens");
   ("api.read", "Read access to protected APIs"); ("api.write", "Write access to protected APIs");
   ("mfa", "Manage own MFA methods")].

Definition seed_grants : list (string * list string) :=
  [("admin", seed_permissions); ("support", ["users:read"; "audit:read"]); ("service", ["clients:read"])].

Section seed.
Context `{P : Platform}.

(** A statement whose rows get an identifier of their own. *)
Definition insert_statement (f : string → Db → Db) : M () :=
  writes (λ w, on_db (f (random_uuid (w_draws w))) w <| w_draws ::= N.succ |>).

(** [INSERT INTO roles ... ON CONFLICT (name) DO UPDATE SET description] *)
Definition with_role (role : string * string) (id : string) (d : Db) : Db :=
  d <| roles ::= λ t,
    match sql_first (λ r, role_name r = role.1) t with
    | Some _ => sql_update (λ r, role_name r = role.1)
                  (λ r, mkRoleRow (role_id r) (role_name r) (Some role.2) (role_is_system r)) t
    | None => t ++ [mkRoleRow id role.1 (Some role.2) true]
    end |>.

(** [INSERT ... ON CONFLICT (name) DO NOTHING] *)
Definition with_permission (name id : string) (d : Db) : Db :=
  d <| permissions ::= λ t,
    match sql_first (λ p, perm_name p = name) t with
    | Some _ => t
    | None => t ++ [mkPermissionRow id name]
    end |>.
Definition with_scope (scope : string * string) (id : string) (d : Db) : Db :=
  d <| scopes ::= λ t,
    match sql_first (λ s, scope_name s = scope.1) t with
    | Some _ => t
    | None => t ++ [mkScopeRow id scope.1 (Some scope.2)]
    end |>.

(** The pairs the SELECT of a grant yields. *)
Definition grant_rows (g : string * list string) (d : Db) : list RolePermissionRow :=
  r ← roles d; p ← permissions d;
  if decide (role_name r = g.1 ∧ perm_name p ∈ g.2) then [mkRolePermissionRow (role_id r) (perm_id p)] else [].

(** The rows that are not there yet, each once. *)
Definition add_missing {R} `{EqDecision R} (rows t : list R) : list R :=
  foldl (λ t r, if decide (r ∈ t) then t else t ++ [r]) t rows.

#[local] Instance rp_eq_dec : EqDecision RolePermissionRow.
Proof. solve_decision. Defined.
#[local] Instance ur_eq_dec : EqDecision UserRoleRow.
Proof. solve_decision. Defined.

Definition with_grant (g : string * list string) (d : Db) : Db :=
  d <| role_permissions ::= add_missing (grant_rows g d) |>.

Definition seed_catalogue : M () :=
  _ ← for_each (λ r, insert_statement (with_role r)) seed_roles;
  _ ← for_each (λ p, insert_statement (with_permission p)) seed_permissions;
  _ ← for_each (λ s, insert_statement (with_scope s)) seed_scopes;
  for_each (λ g, db_exec (λ _, with_grant g)) seed_grants.

(** E-mail addresses are compared without regard to case. *)
Definition with_admin (email hash : string) (now : Z) (id : string) (d : Db) : Db :=
  d <| users ::= λ t,
    match sql_first (λ u, u_email_key u = to_lower email) t with
    | Some _ => t
    | None => t ++ [mkUserRow id email hash None None UActive 0 None false None now now now]
    end |>.

Definition admin_rows (email : string) (d : Db) : list UserRoleRow :=
  u ← users d; r ← roles d;
  if decide (u_email_key u = to_lower email ∧ role_name r = "admin")
  then [mkUserRoleRow (u_id u) (role_id r)] else [].

Definition with_admin_role (email : string) (d : Db) : Db :=
  d <| user_roles ::= add_missing (admin_rows email d) |>.

Definition seed_admin (email hash : string) : M () :=
  _ ← writes (λ w, on_db (with_admin email hash (w_now w) (random_uuid (w_draws w))) w <| w_draws ::= N.succ |>);
  db_exec (λ _, with_admin_role email).

(** The database part of the state is what a rollback restores. *)
Definition in_transaction {A} (fn : M A) : M A := withTransaction w_db (λ d w, w <| w_db := d |>) fn.

Record SeedResult : Type := mkSeedResult { sr_adminEmail : string; sr_generatedPassword : option string }.

Definition runSeeds (ADMIN_EMAIL : string) (ADMIN_PASSWORD : option string) : M SeedResult :=
  _ ← in_transaction seed_catalogue;
  password ← match truthy ADMIN_PASSWORD with
             | Some p => mret (p, None)
             | None => p ← draw (random_b64url 18); mret (p, Some p)
             end;
  hash ← hashPassword password.1;
  _ ← in_transaction (seed_admin ADMIN_EMAIL hash);
  mret (mkSeedResult ADMIN_EMAIL password.2).

(** * What a run establishes *)

(** The role exists, with this description. *)
Definition described (role : string * string) (d : Db) : Prop :=
  role.1 ∈ role_name <$> roles d ∧
  ∀ r, r ∈ roles d → role_name r = role.1 → role_description r = Some role.2.

Record seeded (email : string) (d : Db) : Prop := mk_seeded {
  sd_roles : ∀ r, r ∈ seed_roles → described r d;
  sd_permissions : ∀ p, p ∈ seed_permissions → p ∈ perm_name <$> permissions d;
  sd_scopes : ∀ s, s ∈ seed_scopes → s.1 ∈ scope_name <$> scopes d;
  sd_grants : ∀ g row, g ∈ seed_grants → row ∈ grant_rows g d → row ∈ role_permissions d;
  sd_admin : to_lower email ∈ u_email_key <$> users d;
  sd_admin_role : ∀ row, row ∈ admin_rows email d → row ∈ user_roles d;
}.

Lemma elem_of_add_missing {R} `{EqDecision R} (rows t : list R) x : x ∈ add_missing rows t ↔ x ∈ t ∨ x ∈ rows.
Proof.
  unfold add_missing. revert t. induction rows as [|r rows IH]; intros t; simpl; [set_solver|].
  rewrite IH. case_decide; set_solver.
Qed.

Lemma add_missing_none {R} `{EqDecision R} (rows t : list R) : (∀ x, x ∈ rows → x ∈ t) → add_missing rows t = t.
Proof.
  unfold add_missing. induction rows as [|r rows IH]; intros Hall; simpl; [done|].
  rewrite decide_True by (apply Hall; by left). apply IH. intros x Hx. apply Hall. by right.
Qed.

Lemma sql_update_same {R} (Q : R → Prop) `{!∀ r, Decision (Q r)} f t :
  (∀ r, r ∈ t → Q r → f r = r) → sql_update Q f t = t.
Proof.
  intros Hf. unfold sql_update. induction t as [|r t IH]; [done|]. simpl. f_equal.
  - unfold sql_set. case_decide; [|done]. apply Hf; [by left|done].
  - apply IH. intros x Hx. apply Hf. by right.
Qed.

Lemma named_first {R} (name : R → string) (n : string) t :
  n ∈ name <$> t → is_Some (sql_first (λ r, name r = n) t).
Proof.
  intros Hin. destruct (sql_first _ t) eqn:E; [by eexists|]. rewrite sql_first_None in E.
  apply list_elem_of_fmap in Hin as (r & -> & Hr). by destruct (E r Hr).
Qed.

(** ** A second run *)

Lemma with_role_same r id d : described r d → with_role r id d = d.
Proof.
  intros [Hin Hd]. destruct (named_first _ _ _ Hin) as [x Hx].
  assert (Hu : sql_update (λ r', role_name r' = r.1)
    (λ r', mkRoleRow (role_id r') (role_name r') (Some r.2) (role_is_system r')) (roles d) = roles d).
  { apply sql_update_same. intros [i n de s] Hr Hn. simpl in *. by rewrite <- (Hd _ Hr Hn). }
  destruct d. unfold with_role, set_field. simpl in *. by rewrite Hx, Hu.
Qed.

Lemma with_permission_same p id d : p ∈ perm_name <$> permissions d → with_permission p id d = d.
Proof.
  intros Hin. destruct (named_first _ _ _ Hin) as [x Hx].
  destruct d. unfold with_permission, set_field. simpl in *. by rewrite Hx.
Qed.

Lemma with_scope_same s id d : s.1 ∈ scope_name <$> scopes d → with_scope s id d = d.
Proof.
  intros Hin. destruct (named_first _ _ _ Hin) as [x Hx].
  destruct d. unfold with_scope, set_field. simpl in *. by rewrite Hx.
Qed.

Lemma with_grant_same g d : (∀ row, row ∈ grant_rows g d → row ∈ role_permissions d) → with_grant g d = d.
Proof.
  intros Hrows. pose proof (add_missing_none _ _ Hrows) as Ha.
  destruct d. unfold with_grant, set_field. simpl in *. by rewrite Ha.
Qed.

Lemma with_admin_same email hash now id d :
  to_lower email ∈ u_email_key <$> users d → with_admin email hash now id d = d.
Proof.
  intros Hin. destruct (named_first _ _ _ Hin) as [x Hx].
  destruct d. unfold with_admin, set_field. simpl in *. by rewrite Hx.
Qed.

Lemma with_admin_role_same email d :
  (∀ row, row ∈ admin_rows email d → row ∈ user_roles d) → with_admin_role email d = d.
Proof.
  intros Hrows. pose proof (add_missing_none _ _ Hrows) as Ha.
  destruct d. unfold with_admin_role, set_field. simpl in *. by rewrite Ha.
Qed.

(** A loop whose body keeps an invariant of what has been done. *)
Lemma run_for_each_inv {A} (body : A → M ()) (I : list A → World → Prop) xs w :
  I [] w →
  (∀ pre x w, pre ++ [x] `prefix_of` xs → I pre w →
     ∃ w', run (body x) w = (Resolved (), w') ∧ I (pre ++ [x]) w') →
  ∃ w', run (for_each body xs) w = (Resolved (), w') ∧ I xs w'.
Proof.
  intros H0 Hstep.
  assert (Hgen : ∀ rest pre w, pre ++ rest = xs → I pre w →
    ∃ w', run (for_each body rest) w = (Resolved (), w') ∧ I xs w').
  { induction rest as [|x rest IH]; intros pre w1 Hxs Hpre.
    - rewrite app_nil_r in Hxs. subst pre. by exists w1.
    - destruct (Hstep pre x w1) as (w2 & Hrun & Hi); [|done|].
      { exists rest. by rewrite <- Hxs, <- app_assoc. }
      destruct (IH (pre ++ [x]) w2) as (w3 & Hrun3 & Hi3); [by rewrite <- app_assoc|done|].
      exists w3. split; [|done]. cbn [for_each]. by rewrite (run_bind_eq _ _ _ _ _ Hrun). }
  by apply (Hgen xs []).
Qed.

Lemma run_insert_statement f w :
  ∃ w', run (insert_statement f) w = (Resolved (), w') ∧ w_db w' = f (random_uuid (w_draws w)) (w_db w).
Proof. by eexists. Qed.

(** Each statement changes nothing when it has nothing to do. *)
Lemma run_catalogue_same email w :
  seeded email (w_db w) → ∃ w', run seed_catalogue w = (Resolved (), w') ∧ w_db w' = w_db w.
Proof.
  intros [Hr Hp Hs Hg _ _]. set (d := w_db w) in *. set (I := λ A (_ : list A) (w' : World), w_db w' = d).
  assert (Hin : ∀ A (pre xs : list A) x, pre ++ [x] `prefix_of` xs → x ∈ xs).
  { intros A pre xs x [k ->]. rewrite elem_of_app, elem_of_app, list_elem_of_singleton. by left; right. }
  destruct (run_for_each_inv (λ r, insert_statement (with_role r)) (I _) seed_roles w) as (w1 & H1 & Hd1); [done| |].
  { intros pre x w0 Hx%Hin Hd. destruct (run_insert_statement (with_role x) w0) as (w' & Hrun & Hw').
    exists w'. split; [done|]. unfold I in *. rewrite Hw', Hd. by apply with_role_same, Hr. }
  destruct (run_for_each_inv (λ p, insert_statement (with_permission p)) (I _) seed_permissions w1) as (w2 & H2 & Hd2); [done| |].
  { intros pre x w0 Hx%Hin Hd. destruct (run_insert_statement (with_permission x) w0) as (w' & Hrun & Hw').
    exists w'. split; [done|]. unfold I in *. rewrite Hw', Hd. by apply with_permission_same, Hp. }
  destruct (run_for_each_inv (λ s, insert_statement (with_scope s)) (I _) seed_scopes w2) as (w3 & H3 & Hd3); [done| |].
  { intros pre x w0 Hx%Hin Hd. destruct (run_insert_statement (with_scope x) w0) as (w' & Hrun & Hw').
    exists w'. split; [done|]. unfold I in *. rewrite Hw', Hd. by apply with_scope_same, Hs. }
  destruct (run_for_each_inv (λ g, db_exec (λ _, with_grant g)) (I _) seed_grants w3) as (w4 & H4 & Hd4); [done| |].
  { intros pre x w0 Hx%Hin Hd. eexists. split; [reflexivity|]. unfold I in *. simpl. rewrite Hd.
    apply with_grant_same. intros row. by apply Hg. }
  exists w4. split; [|exact Hd4]. unfold seed_catalogue.
  by rewrite (run_bind_eq _ _ _ _ _ H1), (run_bind_eq _ _ _ _ _ H2), (run_bind_eq _ _ _ _ _ H3).
Qed.

(** ** The first run *)

Lemma elem_of_names_app {R} (name : R → string) t r : name r ∈ name <$> t ++ [r].
Proof. rewrite fmap_app. apply elem_of_app. right. by left. Qed.

Lemma with_role_describes r id d : described r (with_role r id d).
Proof.
  unfold described, with_role, set_field. cbn [roles]. destruct (sql_first _ (roles d)) as [x|] eqn:Hx.
  - apply sql_first_Some in Hx as [Hn Hin]. split.
    + rewrite sql_update_key by done. rewrite <- Hn. by apply list_elem_of_fmap_2.
    + intros y (y0 & Hy & ->)%elem_of_update. unfold sql_set. by case_decide.
  - split; [apply (elem_of_names_app role_name (roles d) (mkRoleRow id r.1 (Some r.2) true))|].
    rewrite sql_first_None in Hx. intros y [Hy|Hy]%elem_of_app Hn; [by destruct (Hx y Hy)|].
    by apply list_elem_of_singleton in Hy as ->.
Qed.

Lemma with_role_keeps r r' id d : r.1 ≠ r'.1 → described r d → described r (with_role r' id d).
Proof.
  intros Hne [Hin Hd]. unfold described, with_role, set_field. cbn [roles].
  destruct (sql_first _ (roles d)) as [x|].
  - split; [by rewrite sql_update_key|]. intros y (y0 & Hy & ->)%elem_of_update.
    unfold sql_set. case_decide as Hc; simpl; [congruence|by apply Hd].
  - split; [rewrite fmap_app; apply elem_of_app; by left|].
    intros y [Hy|Hy]%elem_of_app Hn; [by apply Hd|]. apply list_elem_of_singleton in Hy. subst y. simpl in Hn. congruence.
Qed.

(** The first element that a prefix ends with differs from those before. *)
Lemma prefix_fresh {A} (key : A → string) (pre xs : list A) x y :
  NoDup (key <$> xs) → pre ++ [x] `prefix_of` xs → y ∈ pre → key y ≠ key x.
Proof.
  intros Hn [k ->] Hy E. rewrite !fmap_app, <- app_assoc in Hn.
  apply NoDup_app in Hn as (_ & Hd & _). apply (Hd (key y)); [by apply list_elem_of_fmap_2|].
  rewrite E. by left.
Qed.

Lemma run_seed_roles w :
  ∃ w', run (for_each (λ r, insert_statement (with_role r)) seed_roles) w = (Resolved (), w') ∧
    (∃ t, w_db w' = w_db w <| roles := t |>) ∧ ∀ r, r ∈ seed_roles → described r (w_db w').
Proof.
  destruct (run_for_each_inv (λ r, insert_statement (with_role r))
    (λ pre w', (∃ t, w_db w' = w_db w <| roles := t |>) ∧ ∀ r, r ∈ pre → described r (w_db w')) seed_roles w)
    as (w' & Hrun & Ht & Hd); [|intros pre x w1 Hx [[t Ht] Hd]|by exists w'].
  - split; [exists (roles (w_db w)); by destruct (w_db w)|by intros r ?%elem_of_nil].
  - destruct (run_insert_statement (with_role x) w1) as (w2 & Hrun & Hw2). exists w2. split; [done|].
    rewrite Hw2. split.
    + rewrite Ht. eexists. reflexivity.
    + intros r [Hr| ->%list_elem_of_singleton]%elem_of_app; [|apply with_role_describes].
      apply with_role_keeps; [|by apply Hd]. apply (prefix_fresh fst pre seed_roles x r); [|done|done].
      apply (bool_decide_unpack _). by vm_compute.
Qed.

(** The statements that only add. *)
Lemma run_seed_permissions w :
  ∃ w' t, run (for_each (λ p, insert_statement (with_permission p)) seed_permissions) w = (Resolved (), w') ∧
    w_db w' = w_db w <| permissions := t |> ∧ ∀ p, p ∈ seed_permissions → p ∈ perm_name <$> t.
Proof.
  destruct (run_for_each_inv (λ p, insert_statement (with_permission p))
    (λ pre w', ∃ t, w_db w' = w_db w <| permissions := t |> ∧ ∀ p, p ∈ pre → p ∈ perm_name <$> t) seed_permissions w)
    as (w' & Hrun & t & Ht); [|intros pre x w1 _ (t & Ht & Hd)|by exists w', t].
  - exists (permissions (w_db w)). split; [by destruct (w_db w)|by intros p ?%elem_of_nil].
  - destruct (run_insert_statement (with_permission x) w1) as (w2 & Hrun & Hw2). exists w2. split; [done|].
    eexists. split; [rewrite Hw2, Ht; reflexivity|]. cbn [permissions set_field]. simpl.
    intros p Hp. destruct (sql_first _ t) as [y|] eqn:Hy.
    + apply elem_of_app in Hp as [Hp| ->%list_elem_of_singleton]; [by apply Hd|].
      apply sql_first_Some in Hy as [<- Hin]. by apply list_elem_of_fmap_2.
    + rewrite fmap_app. apply elem_of_app. apply elem_of_app in Hp as [Hp| ->%list_elem_of_singleton].
      * left. by apply Hd.
      * right. by left.
Qed.

Lemma run_seed_scopes w :
  ∃ w' t, run (for_each (λ s, insert_statement (with_scope s)) seed_scopes) w = (Resolved (), w') ∧
    w_db w' = w_db w <| scopes := t |> ∧ ∀ s, s ∈ seed_scopes → s.1 ∈ scope_name <$> t.
Proof.
  destruct (run_for_each_inv (λ s, insert_statement (with_scope s))
    (λ pre w', ∃ t, w_db w' = w_db w <| scopes := t |> ∧ ∀ s, s ∈ pre → s.1 ∈ scope_name <$> t) seed_scopes w)
    as (w' & Hrun & t & Ht); [|intros pre x w1 _ (t & Ht & Hd)|by exists w', t].
  - exists (scopes (w_db w)). split; [by destruct (w_db w)|by intros s ?%elem_of_nil].
  - destruct (run_insert_statement (with_scope x) w1) as (w2 & Hrun & Hw2). exists w2. split; [done|].
    eexists. split; [rewrite Hw2, Ht; reflexivity|]. simpl.
    intros s Hs. destruct (sql_first _ t) as [y|] eqn:Hy.
    + apply elem_of_app in Hs as [Hs| ->%list_elem_of_singleton]; [by apply Hd|].
      apply sql_first_Some in Hy as [<- Hin]. by apply list_elem_of_fmap_2.
    + rewrite fmap_app. apply elem_of_app. apply elem_of_app in Hs as [Hs| ->%list_elem_of_singleton].
      * left. by apply Hd.
      * right. by left.
Qed.

Lemma run_seed_grants w :
  ∃ w' t, run (for_each (λ g, db_exec (λ _, with_grant g)) seed_grants) w = (Resolved (), w') ∧
    w_db w' = w_db w <| role_permissions := t |> ∧
    ∀ g row, g ∈ seed_grants → row ∈ grant_rows g (w_db w) → row ∈ t.
Proof.
  destruct (run_for_each_inv (λ g, db_exec (λ _, with_grant g))
    (λ pre w', ∃ t, w_db w' = w_db w <| role_permissions := t |> ∧
       ∀ g row, g ∈ pre → row ∈ grant_rows g (w_db w) → row ∈ t) seed_grants w)
    as (w' & Hrun & t & Ht); [|intros pre x w1 _ (t & Ht & Hd)|by exists w', t].
  - exists (role_permissions (w_db w)). split; [by destruct (w_db w)|by intros g row ?%elem_of_nil].
  - eexists. split; [reflexivity|]. exists (add_missing (grant_rows x (w_db w)) t). split.
    + simpl. rewrite Ht. reflexivity.
    + intros g row Hg Hrow. apply elem_of_add_missing.
      apply elem_of_app in Hg as [Hg| ->%list_elem_of_singleton]; [left; by apply (Hd g)|by right].
Qed.

Lemma run_catalogue w :
  ∃ w', run seed_catalogue w = (Resolved (), w') ∧
    users (w_db w') = users (w_db w) ∧ user_roles (w_db w') = user_roles (w_db w) ∧
    (∀ r, r ∈ seed_roles → described r (w_db w')) ∧
    (∀ p, p ∈ seed_permissions → p ∈ perm_name <$> permissions (w_db w')) ∧
    (∀ s, s ∈ seed_scopes → s.1 ∈ scope_name <$> scopes (w_db w')) ∧
    (∀ g row, g ∈ seed_grants → row ∈ grant_rows g (w_db w') → row ∈ role_permissions (w_db w')).
Proof.
  destruct (run_seed_roles w) as (w1 & H1 & [t1 E1] & Hr).
  destruct (run_seed_permissions w1) as (w2 & t2 & H2 & E2 & Hp).
  destruct (run_seed_scopes w2) as (w3 & t3 & H3 & E3 & Hs).
  destruct (run_seed_grants w3) as (w4 & t4 & H4 & E4 & Hg).
  exists w4. split.
  { unfold seed_catalogue. by rewrite (run_bind_eq _ _ _ _ _ H1), (run_bind_eq _ _ _ _ _ H2), (run_bind_eq _ _ _ _ _ H3). }
  rewrite E4, E3, E2. split_and!; try done.
  - by rewrite E1.
  - by rewrite E1.
  - intros g row Hgs Hrow. apply (Hg g); [done|]. by rewrite E3, E2.
Qed.

Lemma run_seed_admin email hash w :
  ∃ w', run (seed_admin email hash) w = (Resolved (), w') ∧
    w_db w' = with_admin_role email (with_admin email hash (w_now w) (random_uuid (w_draws w)) (w_db w)).
Proof. by eexists. Qed.

Lemma with_admin_user email hash now id d :
  to_lower email ∈ u_email_key <$> users (with_admin email hash now id d).
Proof.
  unfold with_admin, set_field. cbn [users]. destruct (sql_first _ (users d)) as [u|] eqn:Hu.
  - apply sql_first_Some in Hu as [<- Hin]. by apply list_elem_of_fmap_2.
  - apply (elem_of_names_app u_email_key (users d)
      (mkUserRow id email hash None None UActive 0 None false None now now now)).
Qed.

(** The password and the hash that are drawn. *)
Definition seed_password (pw : option string) (w : World) : string * option string :=
  match truthy pw with Some p => (p, None) | None => (random_b64url 18 (w_draws w), Some (random_b64url 18 (w_draws w))) end.

Lemma run_seeds email pw w :
  ∃ w1 w2 w3, run seed_catalogue w = (Resolved (), w1) ∧ w_db w2 = w_db w1 ∧
    (∃ n, run (seed_admin email (argon2_hash (seed_password pw w1).1 n)) w2 = (Resolved (), w3)) ∧
    run (runSeeds email pw) w = (Resolved (mkSeedResult email (seed_password pw w1).2), w3).
Proof.
  destruct (run_catalogue w) as (w1 & H1 & _).
  assert (∃ wp, run (match truthy pw with
             | Some p => mret (p, None)
             | None => p ← draw (random_b64url 18); mret (p, Some p)
             end) w1 = (Resolved (seed_password pw w1), wp) ∧ w_db wp = w_db w1) as (wp & Hp & Ep).
  { unfold seed_password. destruct (truthy pw); by eexists. }
  set (w2 := wp <| w_draws ::= N.succ |>). set (hash := argon2_hash (seed_password pw w1).1 (w_draws wp)).
  destruct (run_seed_admin email hash w2) as (w3 & H3 & _).
  exists w1, w2, w3. split; [done|]. split; [done|]. split; [by eexists|].
  unfold runSeeds. rewrite (run_bind_eq _ _ _ () w1).
  2: { unfold in_transaction. by rewrite run_withTransaction, H1. }
  rewrite (run_bind_eq _ _ _ _ _ Hp). rewrite (run_bind_eq _ _ _ hash w2) by done.
  rewrite (run_bind_eq _ _ _ () w3); [done|]. unfold in_transaction. by rewrite run_withTransaction, H3.
Qed.

Lemma run_seeds_seeded email pw w r w' :
  run (runSeeds email pw) w = (Resolved r, w') → seeded email (w_db w').
Proof.
  destruct (run_seeds email pw w) as (w1 & w2 & w3 & H1 & E2 & [n H3] & ->). intros [= <- <-].
  destruct (run_catalogue w) as (w1' & H1' & _ & _ & Hr & Hp & Hs & Hg). rewrite H1 in H1'. injection H1' as <-.
  destruct (run_seed_admin email (argon2_hash (seed_password pw w1).1 n) w2) as (w3' & H3' & E3).
  rewrite H3 in H3'. injection H3' as <-. rewrite E2 in E3. set (d := w_db w1) in *.
  set (d1 := with_admin _ _ _ _ d) in *. rewrite E3. split; try done.
  - apply with_admin_user.
  - intros row Hrow. change (row ∈ add_missing (admin_rows email d1) (user_roles d1)).
    apply elem_of_add_missing. by right.
Qed.

(** A run on a seeded database. *)
Lemma run_seeds_again email pw w :
  seeded email (w_db w) → ∃ r w', run (runSeeds email pw) w = (Resolved r, w') ∧ w_db w' = w_db w.
Proof.
  intros Hs. destruct (run_seeds email pw w) as (w1 & w2 & w3 & H1 & E2 & [n H3] & Hrun).
  destruct (run_catalogue_same email w Hs) as (w1' & H1' & E1). rewrite H1 in H1'. injection H1' as <-.
  destruct (run_seed_admin email (argon2_hash (seed_password pw w1).1 n) w2) as (w3' & H3' & E3).
  rewrite H3 in H3'. injection H3' as <-. eexists _, w3. split; [exact Hrun|].
  rewrite E3, E2, E1, with_admin_same by apply Hs. apply with_admin_role_same, Hs.
Qed.

(** What the administrator of a seeded database may do. *)
Lemma seeded_admin email d u :
  seeded email d → u ∈ users d → u_email_key u = to_lower email →
  has_role d (u_id u) "admin" ∧ ∀ p, p ∈ seed_permissions → granted d (u_id u) p.
Proof.
  intros [Hr Hp _ Hg _ Ha] Hu He.
  destruct (Hr ("admin", "Full administrative access")) as [Hin _]; [by left|].
  apply list_elem_of_fmap in Hin as (r & Hn & Hin). simpl in Hn.
  assert (Hur : mkUserRoleRow (u_id u) (role_id r) ∈ user_roles d).
  { apply Ha. unfold admin_rows. apply list_elem_of_bind. exists u. split; [|done].
    apply list_elem_of_bind. exists r. split; [|done]. rewrite decide_True by done. by left. }
  split; [by exists r, (mkUserRoleRow (u_id u) (role_id r))|].
  intros p Hps. destruct (proj1 (list_elem_of_fmap _ _ _) (Hp p Hps)) as (pr & -> & Hpr).
  exists pr, (mkRolePermissionRow (role_id r) (perm_id pr)), (mkUserRoleRow (u_id u) (role_id r)).
  split_and!; try done. apply (Hg ("admin", seed_permissions)); [by left|].
  unfold grant_rows. apply list_elem_of_bind. exists r. split; [|done].
  apply list_elem_of_bind. exists pr. split; [|done]. rewrite decide_True by done. by left.
Qed.

(** Seeding is idempotent, on any database. A run makes the account of the
    configured address an administrator who holds every permission; a second
    run, whatever password it is given, leaves the database as the first one
    did. *)
Theorem seed_idempotent (email : string) (pw pw' : option string) (w : World) :
  ∃ r1 w1 r2 w2, run (runSeeds email pw) w = (Resolved r1, w1) ∧
    run (runSeeds email pw') w1 = (Resolved r2, w2) ∧ w_db w2 = w_db w1 ∧
    (∃ u, u ∈ users (w_db w1) ∧ u_email_key u = to_lower email) ∧
    ∀ u, u ∈ users (w_db w1) → u_email_key u = to_lower email →
      has_role (w_db w1) (u_id u) "admin" ∧ ∀ p, p ∈ seed_permissions → granted (w_db w1) (u_id u) p.
Proof.
  destruct (run_seeds email pw w) as (wa & wb & w1 & _ & _ & _ & Hrun).
  pose proof (run_seeds_seeded _ _ _ _ _ Hrun) as Hs.
  destruct (run_seeds_again email pw' w1 Hs) as (r2 & w2 & Hrun2 & E2).
  eexists _, w1, r2, w2. split; [exact Hrun|]. split; [exact Hrun2|]. split; [exact E2|]. split.
  - pose proof (sd_admin _ _ Hs) as Hin. apply list_elem_of_fmap in Hin as (u & He & Hu). by exists u.
  - intros u. by apply seeded_admin.
Qed.

(** When the administrator exists already and no password is configured, the
    run still reports a generated password; the account keeps its own. *)
Lemma seed_reports_unused_password (email : string) (w : World) :
  to_lower email ∈ u_email_key <$> users (w_db w) →
  ∃ p w', run (runSeeds email None) w = (Resolved (mkSeedResult email (Some p)), w') ∧
    users (w_db w') = users (w_db w).
Proof.
  intros Hin. destruct (run_seeds email None w) as (w1 & w2 & w3 & H1 & E2 & [n H3] & Hrun).
  destruct (run_catalogue w) as (w1' & H1' & Hus & _). rewrite H1 in H1'. injection H1' as <-.
  destruct (run_seed_admin email (argon2_hash (seed_password None w1).1 n) w2) as (w3' & H3' & E3).
  rewrite H3 in H3'. injection H3' as <-. eexists _, w3. split; [exact Hrun|].
  rewrite E3, E2. rewrite with_admin_same by by rewrite Hus. exact Hus.
Qed.
End seed.

Lemma seed_reports_unused_password_witness :
  ∃ p w', run (runSeeds (P := toy) "admin@auth.local" None)
      (on_db (λ d, d <| users := [mkUserRow "u-1" "Admin@auth.local" "argon2:old" None None UActive 0 None false None 0 0 0] |>)
         (empty_world 0)) = (Resolved (mkSeedResult "admin@auth.local" (Some p)), w') ∧
    u_password_hash <$> users (w_db w') = ["argon2:old"].
Proof.
  destruct (seed_reports_unused_password (P := toy) "admin@auth.local"
    (on_db (λ d, d <| users := [mkUserRow "u-1" "Admin@auth.local" "argon2:old" None None UActive 0 None false None 0 0 0] |>)
         (empty_world 0))) as (p & w' & Hrun & Hus).
  - vm_compute. by left.
  - exists p, w'. split; [exact Hrun|]. by rewrite Hus.
Defined.
