(* ===== verification/Keys.v ===== *)
(** src/modules/keys: the key management interface and the local provider
    that keeps wrapped signing keys in a directory. *)
From S2P Require Import Prelude Async JsString Errors Store Evolution Toy.
From stdpp Require Import base gmap strings list sorting pretty.
From Stdlib Require Import ZArith Ascii.
Local Open Scope string_scope.
Local Open Scope list_scope.
Local Open Scope Z_scope.

(** * Dates: [new Date(ms).toISOString().slice(0, 10)] *)

Definition digit (n : Z) : ascii := ascii_of_nat (48 + Z.to_nat (n mod 10)).
Definition pad2 (n : Z) : string := String (digit (n / 10)) (String (digit n) EmptyString).
Definition pad4 (n : Z) : string := pad2 (n / 100) +:+ pad2 n.

(** Year, month and day of a day number (0 is 1970-01-01), in the proleptic
    Gregorian calendar. *)
Definition civil (day : Z) : Z * Z * Z :=
  let z := day + 719468 in
  let era := z / 146097 in
  let doe := z mod 146097 in
  let yoe := (doe - doe / 1460 + doe / 36524 - doe / 146096) / 365 in
  let doy := doe - (365 * yoe + yoe / 4 - yoe / 100) in
  let mp := (5 * doy + 2) / 153 in
  let d := doy - (153 * mp + 2) / 5 + 1 in
  let m := if mp <? 10 then mp + 3 else mp - 9 in
  (yoe + era * 400 + (if m <=? 2 then 1 else 0), m, d).

Definition iso_date (ms : Z) : string :=
  let '(y, m, d) := civil (ms / 86400000) in
  pad4 y +:+ "-" +:+ pad2 m +:+ "-" +:+ pad2 d.

Example iso_date_epoch : iso_date 0 = "1970-01-01". Proof. reflexivity. Qed.
Example iso_date_leap : iso_date 1709164800000 = "2024-02-29". Proof. reflexivity. Qed.
Example iso_date_today : iso_date 1767225599999 = "2025-12-31". Proof. reflexivity. Qed.

(** * The cryptographic library

    [node:crypto] as functions of their inputs; buffers are strings. *)

Class Crypto : Type := {
  env_KMS_MASTER_KEY : option string;
  env_production : bool;
  base64_decode : string → string;
  random_base64 : nat → N → string;
  generateKeyPair : N → string * string;   (* public PEM, private PEM *)
  hkdf : string → string → string;
  gcm_encrypt : string → string → string → string * string;   (* key, iv, data: ct, tag *)
  gcm_decrypt : string → string → string → string → option string;
}.

Definition no_dot (s : string) : Prop := all_chars (λ c, negb (Ascii.eqb c ".")) s = true.

(** [/^[A-Za-z0-9._-]+$/] *)
Definition kid_char (c : ascii) : bool :=
  in_range "a" "z" c || in_range "A" "Z" c || is_digit c || Ascii.eqb c "." ||
  Ascii.eqb c "_" || Ascii.eqb c "-".

(** Hexadecimal digests are made of characters a kid may contain. *)
Class CryptoLaws `{P : Platform} (C : Crypto) : Prop := {
  gcm_roundtrip : ∀ k iv p,
    gcm_decrypt k iv (gcm_encrypt k iv p).1 (gcm_encrypt k iv p).2 = Some p;
  random_base64_no_dot : ∀ n i, no_dot (random_base64 n i);
  gcm_no_dot : ∀ k iv p, no_dot (gcm_encrypt k iv p).1 ∧ no_dot (gcm_encrypt k iv p).2;
  sha256_hex_chars : ∀ x, all_chars kid_char (sha256_hex x) = true;
  random_hex_chars : ∀ n i, all_chars kid_char (random_hex n i) = true;
}.

(** * The interface (kms.types.ts) *)

Record SigningPublicKey : Type := mkPublicKey {
  pk_kid : string; pk_publicKeyPem : string; pk_createdAt : Z;
}.
Record SigningKey : Type := mkSigningKey {
  sk_kid : string; sk_privateKeyPem : string; sk_publicKeyPem : string;
}.

Class KeyManagementService : Type := {
  getCurrentSigningKey : M SigningKey;
  getPublicKey : string → M SigningPublicKey;
  listPublicKeys : M (list SigningPublicKey);
  rotateSigningKey : M string;
  kms_encrypt : string → M EncryptedEnvelope;
  kms_decrypt : EncryptedEnvelope → M string;
}.

Definition KmsError : string → Err := EKms.

Definition ENVELOPE_VERSION : Z := 1.

(** [s.trim() !== ''] *)
Definition nonblank (s : string) : bool := some_char (λ c, negb (is_space c)) s.
(** [b.localeCompare(a) <= 0], in byte order. *)
Definition name_ge (a b : string) : Prop := String.leb b a = true.
#[export] Instance name_ge_dec : RelDecision name_ge := λ a b, decide (String.leb b a = true).

Module LocalKeyProvider.
Section provider.
Context `{P : Platform, C : Crypto}.

(** [fromEnv && fromEnv.trim() !== ''] *)
Definition fromEnv : option string :=
  match env_KMS_MASTER_KEY with Some e => if nonblank e then Some e else None | None => None end.

(** The development key, written to master.key on first use. *)
Definition masterFileKey : M string :=
  atomically (λ w,
    match w_masterFile w with
    | Some f => (base64_decode (js_trim f), w)
    | None =>
        let f := random_base64 32 (w_draws w) in
        (base64_decode (js_trim f), w <| w_masterFile := Some f |> <| w_draws ::= N.succ |>)
    end).

(** The cache of the key is transparent: no source of it changes while the
    process runs. *)
Definition masterKey : M string :=
  match fromEnv with
  | Some e =>
      if Nat.eqb (String.length (base64_decode e)) 32 then mret (base64_decode e)
      else Throw (KmsError "KMS_MASTER_KEY must be 32 bytes base64")
  | None =>
      if env_production then Throw (KmsError "KMS_MASTER_KEY is required in production")
      else masterFileKey
  end.

Definition dataEncryptionKey : M string :=
  k ← masterKey; mret (hkdf k "identity-platform:data-encryption:v1").

Definition encrypt (plaintext : string) : M EncryptedEnvelope :=
  iv ← draw (random_base64 12);
  k ← dataEncryptionKey;
  let '(ct, tag) := gcm_encrypt k iv plaintext in
  mret (mkEnvelope ENVELOPE_VERSION iv ct tag).

Definition decryption_failed : Err :=
  KmsError "Decryption failed - data tampered or wrong master key".

Definition decrypt (e : EncryptedEnvelope) : M string :=
  if negb (env_v e =? ENVELOPE_VERSION)
  then Throw (KmsError ("Unsupported envelope version " +:+ pretty (env_v e)))
  else
    catch (λ _, Throw decryption_failed)
      (k ← dataEncryptionKey;
       match gcm_decrypt k (env_iv e) (env_ct e) (env_tag e) with
       | Some p => mret p
       | None => Throw (ELib None None "Unsupported state or unable to authenticate data")
       end).

Definition wrapPrivateKey (privateKeyPem : string) : M string :=
  iv ← draw (random_base64 12);
  k ← masterKey;
  let '(ct, tag) := gcm_encrypt k iv privateKeyPem in
  mret (js_join "." [pretty ENVELOPE_VERSION; iv; ct; tag]).

Definition unwrapPrivateKey (wrapped : string) : M string :=
  match split_on "."%char wrapped with
  | v :: parts =>
      if negb (bool_decide (v = pretty ENVELOPE_VERSION))
      then Throw (KmsError "Unsupported wrapped key version")
      else
        k ← masterKey;
        match parts with
        | iv :: ct :: tag :: _ =>
            match gcm_decrypt k iv ct tag with
            | Some p => mret p
            | None => Throw (ELib None None "Unsupported state or unable to authenticate data")
            end
        | _ => Throw (ELib None (Some "ERR_INVALID_ARG_TYPE") "The first argument must be a string")
        end
  | [] => Throw (KmsError "Unsupported wrapped key version")
  end.

Definition kid_ok (kid : string) : bool :=
  match kid with EmptyString => false | _ => all_chars kid_char kid end.

Definition keyFilePath (kid : string) : outcome Err string :=
  if kid_ok kid then Resolved ("signing-" +:+ kid +:+ ".json")
  else Rejected (KmsError "Invalid kid").

(** Newest first, then by kid, descending. *)
Definition key_newer (a b : WrappedSigningKeyFile) : Prop :=
  kf_createdAt b < kf_createdAt a ∨
  (kf_createdAt a = kf_createdAt b ∧ name_ge (kf_kid a) (kf_kid b)).
#[global] Instance key_newer_dec : RelDecision key_newer.
Proof. intros a b. unfold key_newer. apply _. Defined.

Definition sorted_files (files : list WrappedSigningKeyFile) : list WrappedSigningKeyFile :=
  merge_sort key_newer files.

Definition listSigningKeyFiles : M (list WrappedSigningKeyFile) :=
  reads (λ w, sorted_files (w_keys w)).

(** [writeFileSync]: a file of the same name is replaced. *)
Definition writeKeyFile (f : WrappedSigningKeyFile) : M () :=
  match keyFilePath (kf_kid f) with
  | Rejected e => Throw e
  | Resolved _ =>
      writes (λ w, w <| w_keys ::= λ ks, f :: filter (λ g, kf_kid g ≠ kf_kid f) ks |>)
  end.

Definition new_kid (now : Z) (publicKeyPem suffix : string) : string :=
  "sig-" +:+ iso_date now +:+ "-" +:+ slice_to 8 (sha256_hex publicKeyPem) +:+ "-" +:+ suffix.

Definition rotateSigningKey : M string :=
  pair ← draw generateKeyPair;
  let '(publicKeyPem, privateKeyPem) := (pair : string * string) in
  suffix ← draw (random_hex 2);
  now ← now_ms;
  let kid := new_kid now publicKeyPem suffix in
  seq ← atomically (λ w, (w_rotateSeq w, w <| w_rotateSeq ::= Z.succ |>));
  wrapped ← wrapPrivateKey privateKeyPem;
  _ ← writeKeyFile (mkKeyFile kid (now + seq) publicKeyPem wrapped);
  mret kid.

(** The recursion of [getCurrentSigningKey]: two rounds are enough, since the
    first leaves a key file behind. *)
Definition exhausted : Err := ELib None None "recursion budget exhausted".

Fixpoint getCurrentSigningKey_rec (fuel : nat) : M SigningKey :=
  match fuel with
  | O => Throw exhausted
  | S fuel =>
      files ← listSigningKeyFiles;
      match files with
      | [] => _ ← rotateSigningKey; getCurrentSigningKey_rec fuel
      | current :: _ =>
          priv ← unwrapPrivateKey (kf_wrappedPrivateKey current);
          mret (mkSigningKey (kf_kid current) priv (kf_publicKeyPem current))
      end
  end.

Definition getCurrentSigningKey : M SigningKey := getCurrentSigningKey_rec 2.

Definition getPublicKey (kid : string) : M SigningPublicKey :=
  files ← listSigningKeyFiles;
  match head (filter (λ f, kf_kid f = kid) files) with
  | Some f => mret (mkPublicKey (kf_kid f) (kf_publicKeyPem f) (kf_createdAt f))
  | None => Throw (KmsError ("Unknown signing key: " +:+ kid))
  end.

Definition listPublicKeys : M (list SigningPublicKey) :=
  files ← listSigningKeyFiles;
  mret ((λ f, mkPublicKey (kf_kid f) (kf_publicKeyPem f) (kf_createdAt f)) <$> sorted_files files).
End provider.
End LocalKeyProvider.

(** The local provider is a key management service. *)
#[export] Instance local_kms `{P : Platform, C : Crypto} : KeyManagementService := {|
  getCurrentSigningKey := LocalKeyProvider.getCurrentSigningKey;
  getPublicKey := LocalKeyProvider.getPublicKey;
  listPublicKeys := LocalKeyProvider.listPublicKeys;
  rotateSigningKey := LocalKeyProvider.rotateSigningKey;
  kms_encrypt := LocalKeyProvider.encrypt;
  kms_decrypt := LocalKeyProvider.decrypt;
|}.

(** * Steps of the store *)

(** The provider touches the key directory, its counter and the random source. *)
Definition non_keys (w : World) := (w_now w, w_db w, w_redis w, w_mail w).

Section evolution.
Context `{P : Platform, C : Crypto}.
Import LocalKeyProvider.

Definition key_step (w w' : World) : Prop :=
  non_keys w' = non_keys w ∧ (w_draws w ≤ w_draws w')%N.

#[global] Instance key_step_preorder : PreOrder key_step.
Proof. split; unfold key_step; [by intros w | intros w1 w2 w3 [] []; split; [congruence|lia]]. Qed.

Lemma key_step_step {A} (p : M A) : respects key_step p → respects step p.
Proof.
  apply respects_mono. intros w w' [E Hd]. unfold non_keys in E. injection E as E1 E2 _ _.
  split; unfold time_step, rt_step, sess_step, code_step, verification_step, reset_step,
    user_step, audit_step, pull; rewrite ?E1, ?E2; first [done | lia].
Qed.

Lemma draw_key_step {X} (f : N → X) : respects key_step (draw f).
Proof. apply respects_atomically. intros w. split; simpl; [done|lia]. Qed.
Lemma now_key_step : respects key_step now_ms.
Proof. apply respects_reads, _. Qed.
#[local] Hint Resolve draw_key_step now_key_step : steps.

Lemma masterKey_key_step : respects key_step masterKey.
Proof.
  unfold masterKey. repeat break_match; try done. apply respects_atomically. intros w.
  destruct (w_masterFile w); split; simpl; [done|lia|done|lia].
Qed.
#[local] Hint Resolve masterKey_key_step : steps.

Lemma dataEncryptionKey_key_step : respects key_step dataEncryptionKey.
Proof. unfold dataEncryptionKey. respects_step. Qed.
#[local] Hint Resolve dataEncryptionKey_key_step : steps.

Lemma encrypt_key_step p : respects key_step (encrypt p).
Proof. unfold encrypt. respects_step. Qed.
Lemma decrypt_key_step e : respects key_step (decrypt e).
Proof. unfold decrypt. respects_step. Qed.
Lemma wrap_key_step k : respects key_step (wrapPrivateKey k).
Proof. unfold wrapPrivateKey. respects_step. Qed.
Lemma unwrap_key_step s : respects key_step (unwrapPrivateKey s).
Proof. unfold unwrapPrivateKey. respects_step. Qed.
Lemma list_key_step : respects key_step listSigningKeyFiles.
Proof. apply respects_reads, _. Qed.
Lemma write_key_step f : respects key_step (writeKeyFile f).
Proof. unfold writeKeyFile. by destruct (keyFilePath _). Qed.
#[local] Hint Resolve encrypt_key_step decrypt_key_step wrap_key_step unwrap_key_step
  list_key_step write_key_step : steps.

Lemma rotate_key_step : respects key_step rotateSigningKey.
Proof.
  unfold rotateSigningKey. apply respects_bind; [apply draw_key_step|]. intros [pub priv].
  do 2 (apply respects_bind; [eauto with steps|intros ?]).
  apply respects_bind; [by apply respects_atomically|intros ?]. respects_step.
Qed.
#[local] Hint Resolve rotate_key_step : steps.

Lemma current_key_step : respects key_step getCurrentSigningKey.
Proof.
  unfold getCurrentSigningKey. generalize 2%nat as n. induction n as [|n IH]; [done|].
  cbn [getCurrentSigningKey_rec]. respects_step.
Qed.
Lemma public_key_step kid : respects key_step (getPublicKey kid).
Proof. unfold getPublicKey. respects_step. Qed.
Lemma listPublic_key_step : respects key_step listPublicKeys.
Proof. unfold listPublicKeys. respects_step. Qed.
End evolution.

(** * What the interface promises

    The token service relies on these laws only. *)

Definition same_keys (w w' : World) : Prop :=
  w_keys w' = w_keys w ∧ w_masterFile w' = w_masterFile w.

Definition publishes `{K : KeyManagementService} (w : World) (kid pub : string) : Prop :=
  ∃ t, run (getPublicKey kid) w = (Resolved (mkPublicKey kid pub t), w).

(** An envelope that opens to [p]. *)
Definition sealed `{K : KeyManagementService} (w : World) (e : EncryptedEnvelope) (p : string) : Prop :=
  run (kms_decrypt e) w = (Resolved p, w).

Class KmsLaws (K : KeyManagementService) : Type := {
  kms_wf : World → Prop;
  keypair : string → string → Prop;
  kms_current : ∀ w, kms_wf w →
    ∃ sk w', run getCurrentSigningKey w = (Resolved sk, w') ∧ kms_wf w' ∧
      sk_kid sk ≠ "" ∧ keypair (sk_publicKeyPem sk) (sk_privateKeyPem sk) ∧
      publishes w' (sk_kid sk) (sk_publicKeyPem sk);
  kms_rotate : ∀ w, kms_wf w →
    ∃ kid w', run rotateSigningKey w = (Resolved kid, w') ∧ kms_wf w' ∧
      ∀ kid' pub, kid' ≠ kid → publishes w kid' pub → publishes w' kid' pub;
  kms_wf_stable : ∀ w w', same_keys w w' → kms_wf w → kms_wf w';
  kms_publishes_stable : ∀ w w' kid pub, same_keys w w' → publishes w kid pub →
    publishes w' kid pub;
  kms_seal : ∀ w p, kms_wf w →
    ∃ e w', run (kms_encrypt p) w = (Resolved e, w') ∧ kms_wf w' ∧ sealed w' e p;
  kms_sealed_stable : ∀ w w' e p, same_keys w w' → sealed w e p → sealed w' e p;
  kms_unseal_error : ∀ w e err w', run (kms_decrypt e) w = (Rejected err, w') → ∃ m, err = KmsError m;
  kms_lookup : ∀ w kid r w', run (getPublicKey kid) w = (r, w') → w' = w ∧
    match r with Resolved pk => pk_kid pk = kid | Rejected e => ∃ m, e = KmsError m end;
  kms_list : ∀ w, ∃ pks, run listPublicKeys w = (Resolved pks, w);
  kms_listed : ∀ w kid pk w' pks, run (getPublicKey kid) w = (Resolved pk, w') →
    run listPublicKeys w = (Resolved pks, w) → pk ∈ pks;
  kms_current_frame : respects key_step getCurrentSigningKey;
  kms_rotate_frame : respects key_step rotateSigningKey;
  kms_public_frame : ∀ kid, respects key_step (getPublicKey kid);
  kms_list_frame : respects key_step listPublicKeys;
  kms_encrypt_frame : ∀ p, respects key_step (kms_encrypt p);
  kms_decrypt_frame : ∀ e, respects key_step (kms_decrypt e);
}.

(** * The local provider keeps the promises *)

Section local.
Context `{P : Platform, C : Crypto, !CryptoLaws C}.
Import LocalKeyProvider.

(** The environment gives a usable master key. *)
Definition master_configured : Prop :=
  match fromEnv with
  | Some e => String.length (base64_decode e) = 32%nat
  | None => env_production = false
  end.

(** In [w] the master key is [k], and reading it changes nothing. *)
Definition master_is (k : string) (w : World) : Prop := run masterKey w = (Resolved k, w).

Lemma master_is_stable k w w' :
  w_masterFile w' = w_masterFile w → master_is k w → master_is k w'.
Proof.
  unfold master_is, masterKey, masterFileKey. intros Hf.
  repeat break_match_goal; run_simpl; rewrite ?Hf; try congruence.
  destruct (w_masterFile w); simpl; [congruence|]. intros Heq. exfalso. injection Heq as _ Heq.
  apply (f_equal w_draws) in Heq. simpl in Heq. lia.
Qed.

Lemma masterKey_fixes w :
  master_configured →
  ∃ k w', run masterKey w = (Resolved k, w') ∧ master_is k w' ∧ w_keys w' = w_keys w ∧
    w_now w' = w_now w ∧ w_rotateSeq w' = w_rotateSeq w ∧
    (∀ k0, master_is k0 w → k = k0 ∧ w' = w).
Proof.
  unfold master_configured, master_is. intros Hc. destruct (run masterKey w) as [r w'] eqn:E.
  unfold masterKey, masterFileKey in *. destruct fromEnv as [e|].
  - rewrite Hc in *. simpl in *. simplify_eq. eexists _, _. split_and!; try done. naive_solver.
  - rewrite Hc in *. destruct (w_masterFile w) as [f|] eqn:Hf; run_simpl_in E; rewrite ?Hf in E;
      simplify_eq/=; eexists _, _; split_and!; try done; run_simpl; rewrite ?Hf; try done;
      naive_solver.
Qed.

(** Encrypting and decrypting a secret. *)
Lemma dataKey_of k w :
  master_is k w →
  run dataEncryptionKey w = (Resolved (hkdf k "identity-platform:data-encryption:v1"), w).
Proof. unfold master_is. intros Hk. unfold dataEncryptionKey. by run_next_by Hk. Qed.

Lemma run_encrypt p w :
  master_configured →
  ∃ env w', run (encrypt p) w = (Resolved env, w') ∧ w_keys w' = w_keys w ∧
    (∀ w'', w_masterFile w'' = w_masterFile w' → run (decrypt env) w'' = (Resolved p, w'')) ∧
    (∀ k, master_is k w → master_is k w').
Proof.
  intros Hc. set (w0 := w <| w_draws ::= N.succ |>).
  destruct (masterKey_fixes w0 Hc) as (k & w' & Hk & His & Hkeys & _ & _ & Hsame).
  set (iv := random_base64 12 (w_draws w)).
  set (dk := hkdf k "identity-platform:data-encryption:v1").
  exists (mkEnvelope ENVELOPE_VERSION iv (gcm_encrypt dk iv p).1 (gcm_encrypt dk iv p).2), w'.
  split; [|split; [done|split]].
  - unfold encrypt. run_next. fold iv w0.
    assert (Hd : run dataEncryptionKey w0 = (Resolved dk, w')).
    { unfold dataEncryptionKey. by run_next_by Hk. }
    run_next_by Hd. by destruct (gcm_encrypt dk iv p).
  - intros w'' Hf. unfold decrypt. simpl env_v. rewrite Z.eqb_refl. simpl negb. cbv iota.
    rewrite run_catch. erewrite run_bind_eq by (apply dataKey_of; by eapply master_is_stable).
    simpl. fold dk. by rewrite gcm_roundtrip.
  - intros k0 Hk0. destruct (Hsame k0) as [-> ->]; [|done]. by apply (master_is_stable k0 w).
Qed.

(** Envelope encryption is lossless: what [encrypt] returns, [decrypt] opens
    again in every later state of the key directory with the same master key;
    and an envelope of another version is refused. *)
Theorem envelope_roundtrip (p : string) (w : World) :
  master_configured →
  ∃ env w', run (encrypt p) w = (Resolved env, w') ∧
    (∀ w'', w_masterFile w'' = w_masterFile w' → run (decrypt env) w'' = (Resolved p, w'')) ∧
    (∀ w'' v, v ≠ ENVELOPE_VERSION → ∃ msg,
       run (decrypt (mkEnvelope v (env_iv env) (env_ct env) (env_tag env))) w''
       = (Rejected (KmsError msg), w'')).
Proof.
  intros Hc. destruct (run_encrypt p w Hc) as (env & w' & Hrun & _ & Hdec & _).
  exists env, w'. split; [done|]. split; [done|]. intros w'' v Hv. unfold decrypt. simpl env_v.
  rewrite (proj2 (Z.eqb_neq _ _) Hv). by eexists.
Qed.

(** An envelope that opens does so wherever the master key is the same. *)
Lemma decrypt_stable e p w w' :
  w_masterFile w' = w_masterFile w → run (decrypt e) w = (Resolved p, w) →
  run (decrypt e) w' = (Resolved p, w').
Proof.
  unfold decrypt. intros Hf. destruct (negb _); [done|]. rewrite !run_catch.
  match goal with |- context [run ?q w] => destruct (run q w) as [[err|p'] w1] eqn:Hr end; [done|].
  intros [= -> ->]. apply run_bind_resolved in Hr as (dk & w2 & Hk & Hr).
  unfold dataEncryptionKey in Hk. apply run_bind_resolved in Hk as (k & w3 & Hk & Hd).
  injection Hd as <- <-. assert (w3 = w) as ->.
  { destruct (gcm_decrypt _ _ _ _); [by injection Hr | done]. }
  run_next_by (dataKey_of k w' (master_is_stable k w w' Hf Hk)).
  by destruct (gcm_decrypt _ _ _ _) as [p''|]; [injection Hr as ->|].
Qed.

(** Wrapping a private key. *)
Definition unwrapped_by (k wrapped priv : string) : Prop :=
  ∃ iv ct tag, split_on "."%char wrapped = [pretty ENVELOPE_VERSION; iv; ct; tag] ∧
    gcm_decrypt k iv ct tag = Some priv.

Lemma run_unwrap k wrapped priv w :
  master_is k w → unwrapped_by k wrapped priv →
  run (unwrapPrivateKey wrapped) w = (Resolved priv, w).
Proof.
  intros Hk (iv & ct & tag & Hs & Hd). unfold unwrapPrivateKey. rewrite Hs.
  rewrite bool_decide_eq_true_2 by done. simpl negb. cbv iota.
  unfold master_is in Hk. run_next_by Hk. by rewrite Hd.
Qed.

Lemma run_wrap priv w :
  master_configured →
  ∃ s k w', run (wrapPrivateKey priv) w = (Resolved s, w') ∧ master_is k w' ∧
    unwrapped_by k s priv ∧ w_keys w' = w_keys w ∧
    (∀ k0, master_is k0 w → k = k0).
Proof.
  intros Hc. set (w0 := w <| w_draws ::= N.succ |>).
  destruct (masterKey_fixes w0 Hc) as (k & w' & Hk & His & Hkeys & _ & _ & Huniq).
  set (iv := random_base64 12 (w_draws w)).
  exists (js_join "." [pretty ENVELOPE_VERSION; iv; (gcm_encrypt k iv priv).1;
                       (gcm_encrypt k iv priv).2]), k, w'.
  split; [|split; [done|split; [|split; [done|]]]].
  - unfold wrapPrivateKey. run_next. fold iv w0. run_next_by Hk. by destruct (gcm_encrypt k iv priv).
  - exists iv, (gcm_encrypt k iv priv).1, (gcm_encrypt k iv priv).2. split; [|apply gcm_roundtrip].
    apply split_on_join. destruct (gcm_no_dot k iv priv).
    repeat constructor; try done. apply random_base64_no_dot.
  - intros k0 Hk0. destruct (Huniq k0) as [-> _]; [|done]. by apply (master_is_stable k0 w w0).
Qed.

(** * Signing keys *)

Definition local_keypair (pub priv : string) : Prop := ∃ n, generateKeyPair n = (pub, priv).

Definition usable_file (k : string) (f : WrappedSigningKeyFile) : Prop :=
  kf_kid f ≠ "" ∧ ∃ priv, local_keypair (kf_publicKeyPem f) priv ∧ unwrapped_by k (kf_wrappedPrivateKey f) priv.

Definition keys_ok (w : World) : Prop :=
  master_configured ∧ NoDup (kf_kid <$> w_keys w) ∧
  (w_keys w = [] ∨ ∃ k, master_is k w ∧ Forall (usable_file k) (w_keys w)).

Lemma keys_ok_stable w w' : same_keys w w' → keys_ok w → keys_ok w'.
Proof.
  intros [Hk Hm] (Hc & Hn & Hf). split; [done|]. rewrite Hk. split; [done|].
  destruct Hf as [Hf|(k & His & Hf)]; [by left|]. right. exists k.
  split; [by eapply master_is_stable | done].
Qed.

Lemma sorted_files_perm fs : sorted_files fs ≡ₚ fs.
Proof. apply merge_sort_Permutation. Qed.

Lemma getPublicKey_eq kid w :
  run (getPublicKey kid) w =
    (match sql_first (λ f, kf_kid f = kid) (sorted_files (w_keys w)) with
     | Some f => Resolved (mkPublicKey (kf_kid f) (kf_publicKeyPem f) (kf_createdAt f))
     | None => Rejected (KmsError ("Unknown signing key: " +:+ kid))
     end, w).
Proof. unfold getPublicKey. run_next. by destruct (sql_first _ _) eqn:E; unfold sql_first, sql_select in E; rewrite E. Qed.

(** A published key is found under its kid. *)
Lemma run_getPublicKey w f :
  NoDup (kf_kid <$> w_keys w) → f ∈ w_keys w →
  run (getPublicKey (kf_kid f)) w
  = (Resolved (mkPublicKey (kf_kid f) (kf_publicKeyPem f) (kf_createdAt f)), w).
Proof.
  intros Hn Hf. rewrite getPublicKey_eq.
  by rewrite (sql_first_unique (λ g, kf_kid g = kf_kid f) kf_kid (kf_kid f) _ f);
    rewrite ?sorted_files_perm.
Qed.

Lemma publishes_inv w kid pub :
  publishes w kid pub → ∃ f, f ∈ w_keys w ∧ kf_kid f = kid ∧ kf_publicKeyPem f = pub.
Proof.
  intros [t Ht]. change (run (LocalKeyProvider.getPublicKey kid) w
    = (Resolved (mkPublicKey kid pub t), w)) in Ht. rewrite getPublicKey_eq in Ht.
  destruct (sql_first _ _) as [f|] eqn:Hh; simplify_eq.
  apply sql_first_Some in Hh as [_ Hin]. exists f. by rewrite sorted_files_perm in Hin.
Qed.

Lemma digit_kid_char z : kid_char (digit z) = true.
Proof.
  unfold digit. assert (0 ≤ z mod 10 < 10) as Hz by (apply Z.mod_pos_bound; lia).
  revert Hz. generalize (z mod 10). intros n Hn.
  assert (n = 0 ∨ n = 1 ∨ n = 2 ∨ n = 3 ∨ n = 4 ∨ n = 5 ∨ n = 6 ∨ n = 7 ∨ n = 8 ∨ n = 9)
    as Hc by lia.
  by repeat (destruct Hc as [->|Hc]; [done|]); subst.
Qed.

Lemma pad2_chars z : all_chars kid_char (pad2 z) = true.
Proof. unfold pad2. cbn [all_chars]. by rewrite !digit_kid_char. Qed.

Lemma iso_date_chars ms : all_chars kid_char (iso_date ms) = true.
Proof.
  unfold iso_date, pad4. destruct (civil _) as [[y mo] d].
  by rewrite !all_chars_app, !pad2_chars.
Qed.

Lemma kid_ok_new now pub n m : kid_ok (new_kid now pub (random_hex n m)) = true.
Proof.
  assert (H : all_chars kid_char (new_kid now pub (random_hex n m)) = true).
  { unfold new_kid. rewrite !all_chars_app, iso_date_chars, random_hex_chars.
    by rewrite (all_chars_slice_to kid_char 8 _ (sha256_hex_chars pub)). }
  exact H.
Qed.

(** Rotation adds a usable key file and keeps the others. *)
Lemma run_rotate w :
  keys_ok w →
  ∃ f w', run rotateSigningKey w = (Resolved (kf_kid f), w') ∧ keys_ok w' ∧
    w_keys w' = f :: filter (λ g, kf_kid g ≠ kf_kid f) (w_keys w) ∧
    kf_createdAt f = w_now w + w_rotateSeq w.
Proof.
  intros (Hc & Hn & Hf). destruct (generateKeyPair (w_draws w)) as [pub priv] eqn:Hpair.
  set (w2 := w <| w_draws ::= N.succ |> <| w_draws ::= N.succ |>).
  set (kid := new_kid (w_now w) pub (random_hex 2 (N.succ (w_draws w)))).
  destruct (run_wrap priv (w2 <| w_rotateSeq ::= Z.succ |>) Hc)
    as (s & k & w' & Hw & His & Hu & Hkeys & Huniq).
  set (f := mkKeyFile kid (w_now w + w_rotateSeq w) pub s).
  set (w3 := w' <| w_keys ::= λ ks, f :: filter (λ g, kf_kid g ≠ kf_kid f) ks |>).
  assert (Hk3 : w_keys w3 = f :: filter (λ g, kf_kid g ≠ kf_kid f) (w_keys w))
    by (transitivity (f :: filter (λ g, kf_kid g ≠ kf_kid f) (w_keys w')); [done|by rewrite Hkeys]).
  assert (Hsub : ∀ g, g ∈ filter (λ g, kf_kid g ≠ kid) (w_keys w) →
    kf_kid g ≠ kid ∧ g ∈ w_keys w) by (intros g; by rewrite list_elem_of_filter).
  exists f, w3. split; [|split; [|by split]].
  - unfold rotateSigningKey. run_next. rewrite Hpair. do 3 run_next. fold w2 kid.
    run_next_by Hw. unfold writeKeyFile, keyFilePath. cbn [kf_kid].
    unfold kid. rewrite kid_ok_new. by run_next.
  - split; [done|]. rewrite Hk3. split.
    + rewrite fmap_cons. apply NoDup_cons. split.
      * intros Hin. apply list_elem_of_fmap in Hin as (g & Hg & Hin). by destruct (Hsub g Hin).
      * eapply sublist_NoDup; [exact Hn|]. by apply fmap_sublist, sublist_filter.
    + right. exists k. split; [by apply (master_is_stable k w')|].
      constructor; [split; [done|]; exists priv; split; [by eexists | done]|].
      destruct Hf as [->|(k0 & Hk0 & Hall)]; [constructor|].
      rewrite (Huniq k0) by by apply (master_is_stable k0 w).
      apply Forall_forall. intros g Hg. rewrite Forall_forall in Hall. by apply Hall, Hsub.
Qed.

Lemma rotated_publishes w w' f kid pub :
  keys_ok w' → w_keys w' = f :: filter (λ g, kf_kid g ≠ kf_kid f) (w_keys w) →
  kid ≠ kf_kid f → publishes w kid pub → publishes w' kid pub.
Proof.
  intros (_ & Hn & _) Hk Hne Hp. destruct (publishes_inv w kid pub Hp) as (g & Hg & <- & <-).
  eexists. apply (run_getPublicKey w' g Hn). rewrite Hk. apply list_elem_of_further.
  by apply list_elem_of_filter.
Qed.

Lemma run_current_rec fuel w f rest :
  keys_ok w → sorted_files (w_keys w) = f :: rest →
  ∃ priv, run (getCurrentSigningKey_rec (S fuel)) w
    = (Resolved (mkSigningKey (kf_kid f) priv (kf_publicKeyPem f)), w) ∧
    local_keypair (kf_publicKeyPem f) priv ∧ kf_kid f ≠ "".
Proof.
  intros (Hc & Hn & Hok) Hs.
  assert (Hin : f ∈ w_keys w) by (rewrite <- sorted_files_perm, Hs; apply list_elem_of_here).
  destruct Hok as [E|(k & Hk & Hall)]; [rewrite E in Hin; by apply not_elem_of_nil in Hin|].
  rewrite Forall_forall in Hall. destruct (Hall f Hin) as (Hkid & priv & Hpair & Hu).
  exists priv. split; [|by split]. cbn [getCurrentSigningKey_rec]. run_next. rewrite Hs.
  by run_next_by (run_unwrap k _ priv w Hk Hu).
Qed.

Lemma current_key_ok w :
  keys_ok w →
  ∃ sk w', run getCurrentSigningKey w = (Resolved sk, w') ∧ keys_ok w' ∧
    local_keypair (sk_publicKeyPem sk) (sk_privateKeyPem sk) ∧ sk_kid sk ≠ "" ∧
    (∃ f, head (sorted_files (w_keys w')) = Some f ∧ kf_kid f = sk_kid sk ∧
          kf_publicKeyPem f = sk_publicKeyPem sk) ∧
    (w_keys w ≠ [] → w' = w).
Proof.
  intros Hok. unfold getCurrentSigningKey.
  destruct (sorted_files (w_keys w)) as [|f rest] eqn:Hs.
  - destruct (run_rotate w Hok) as (f & w1 & Hrot & Hok1 & Hk1 & _).
    assert (w_keys w = []) as Hnil.
    { apply Permutation_nil. by rewrite <- Hs, sorted_files_perm. }
    rewrite Hnil in Hk1.
    assert (Hs1 : sorted_files (w_keys w1) = [f]) by by rewrite Hk1.
    destruct (run_current_rec 0 w1 f [] Hok1 Hs1) as (priv & Hrun & Hpair & Hkid).
    exists (mkSigningKey (kf_kid f) priv (kf_publicKeyPem f)), w1.
    split; [|split; [done|split; [done|split; [done|split; [|done]]]]].
    + cbn [getCurrentSigningKey_rec]. run_next. rewrite Hs. by run_next_by Hrot.
    + exists f. by rewrite Hs1.
  - destruct (run_current_rec 1 w f rest Hok Hs) as (priv & Hrun & Hpair & Hkid).
    exists (mkSigningKey (kf_kid f) priv (kf_publicKeyPem f)), w.
    split; [done|]. split; [done|]. split; [done|]. split; [done|]. split; [|done].
    exists f. by rewrite Hs.
Qed.

(** [getCurrentSigningKey] always returns: the newest key of the directory
    without touching it, or, on an empty directory, the key it creates; two
    rounds of its recursion are enough, and the private key returned is the
    other half of the public key published under the same kid. *)
Theorem current_key_total (w : World) :
  keys_ok w →
  ∃ sk w', run getCurrentSigningKey w = (Resolved sk, w') ∧ keys_ok w' ∧
    local_keypair (sk_publicKeyPem sk) (sk_privateKeyPem sk) ∧ sk_kid sk ≠ "" ∧
    (∃ f, head (sorted_files (w_keys w')) = Some f ∧ kf_kid f = sk_kid sk ∧
          kf_publicKeyPem f = sk_publicKeyPem sk) ∧
    (w_keys w ≠ [] → w' = w).
Proof. apply current_key_ok. Qed.

Lemma newest_first f fs :
  (∀ g, g ∈ fs → kf_createdAt g < kf_createdAt f) →
  ∃ rest, sorted_files (f :: fs) = f :: rest.
Proof.
  intros Hnew. assert (Hs : Sorted key_newer (sorted_files (f :: fs))).
  { apply Sorted_merge_sort. intros a b. unfold key_newer.
    destruct (Z.lt_trichotomy (kf_createdAt a) (kf_createdAt b)) as [?|[?|?]]; [auto| |auto].
    destruct (String.leb_total (kf_kid b) (kf_kid a)); [left|right]; right;
      split; first [done | by symmetry | done]. }
  pose proof (sorted_files_perm (f :: fs)) as Hp.
  destruct (sorted_files (f :: fs)) as [|h rest] eqn:E.
  - by apply Permutation_nil_cons in Hp.
  - exists rest. f_equal. assert (f ∈ h :: rest) as Hin by (rewrite Hp; apply list_elem_of_here).
    apply elem_of_cons in Hin as [->|Hin]; [done|].
    assert (Htr : Transitive key_newer).
    { intros a b c [?|[Eab Hab]] [?|[Ebc Hbc]]; unfold key_newer; [left; lia|left; lia|left; lia|].
      right. split; [lia|]. unfold name_ge in *. apply (string_leb_trans _ _ _ Hbc Hab). }
    apply Sorted_StronglySorted in Hs; [|done]. apply StronglySorted_inv in Hs as [_ Hall].
    rewrite Forall_forall in Hall. specialize (Hall f Hin).
    assert (h ∈ f :: fs) as Hh by (rewrite <- Hp; apply list_elem_of_here).
    apply elem_of_cons in Hh as [->|Hh]; [done|].
    specialize (Hnew h Hh). destruct Hall as [?|[? _]]; lia.
Qed.

(** Key rotation: afterwards tokens are signed with the new key, whose public
    half is published under its kid, and every key published before, under
    another kid, is still published. *)
Theorem key_rotation (w : World) :
  keys_ok w → (∀ g, g ∈ w_keys w → kf_createdAt g < w_now w + w_rotateSeq w) →
  ∃ kid w' sk, run rotateSigningKey w = (Resolved kid, w') ∧ keys_ok w' ∧
    run getCurrentSigningKey w' = (Resolved sk, w') ∧ sk_kid sk = kid ∧
    local_keypair (sk_publicKeyPem sk) (sk_privateKeyPem sk) ∧
    publishes w' kid (sk_publicKeyPem sk) ∧
    ∀ kid' pub, kid' ≠ kid → publishes w kid' pub → publishes w' kid' pub.
Proof.
  intros Hok Hnew. destruct (run_rotate w Hok) as (f & w' & Hrun & Hok' & Hk & Ht).
  destruct (newest_first f (filter (λ g, kf_kid g ≠ kf_kid f) (w_keys w))) as [rest Hs].
  { intros g Hg. apply list_elem_of_filter in Hg as [_ Hg]. rewrite Ht. by apply Hnew. }
  rewrite <- Hk in Hs.
  destruct (run_current_rec 1 w' f rest Hok' Hs) as (priv & Hcur & Hpair & _).
  exists (kf_kid f), w', (mkSigningKey (kf_kid f) priv (kf_publicKeyPem f)).
  split; [done|]. split; [done|]. split; [done|]. split; [done|]. split; [done|].
  split.
  - eexists. apply (run_getPublicKey w' f); [apply Hok'|]. rewrite Hk. apply list_elem_of_here.
  - intros kid' pub. by apply (rotated_publishes w w' f).
Qed.
End local.

#[export] Program Instance local_kms_laws `{P : Platform, C : Crypto, !CryptoLaws C} :
  KmsLaws local_kms := {|
  kms_wf := keys_ok;
  keypair := local_keypair;
|}.
Next Obligation.
  intros P C HC w Hok.
  destruct (current_key_ok w Hok) as (sk & w' & Hrun & Hok' & Hpair & Hne & (f & Hf & Hkid & Hpub) & _).
  exists sk, w'. split; [done|]. split; [done|]. split; [done|]. split; [done|].
  rewrite <- Hkid, <- Hpub. eexists. apply (run_getPublicKey w' f); [apply Hok'|].
  rewrite <- sorted_files_perm. destruct (LocalKeyProvider.sorted_files _); [done|].
  simpl in Hf. simplify_eq. apply list_elem_of_here.
Qed.
Next Obligation.
  intros P C HC w Hok. destruct (run_rotate w Hok) as (f & w' & Hrun & Hok' & Hk & _).
  exists (kf_kid f), w'. split; [done|]. split; [done|]. intros kid' pub.
  by apply (rotated_publishes w w' f).
Qed.
Next Obligation. intros P C HC w w'. apply keys_ok_stable. Qed.
Next Obligation.
  intros P C HC w w' kid pub [Hk _] [t Ht]. exists t. revert Ht.
  change (run (LocalKeyProvider.getPublicKey kid) w = (Resolved (mkPublicKey kid pub t), w) →
    run (LocalKeyProvider.getPublicKey kid) w' = (Resolved (mkPublicKey kid pub t), w')).
  rewrite !getPublicKey_eq, Hk. by intros [= ->].
Qed.
Next Obligation.
  intros P C HC w p (Hc & Hn & Hf). destruct (run_encrypt p w Hc) as (e & w' & Hrun & Hk & Hdec & Hm).
  exists e, w'. split; [done|]. split; [|by apply Hdec].
  split; [done|]. rewrite Hk. split; [done|]. destruct Hf as [Hf|(k & His & Hf)]; [by left|right].
  exists k. split; [by apply Hm | done].
Qed.
Next Obligation. intros P C HC w w' e p [_ Hf]. by apply decrypt_stable. Qed.
Next Obligation.
  intros P C HC w e err w'. change (kms_decrypt e) with (LocalKeyProvider.decrypt e).
  unfold LocalKeyProvider.decrypt. destruct (negb _); [intros [= <- _]; by eexists|].
  rewrite run_catch.
  match goal with |- context [run ?q w] => destruct (run q w) as [[err'|p'] w1] end; [|done].
  intros [= <- _]. by eexists.
Qed.
Next Obligation.
  intros P C HC w kid r w'.
  change (run (LocalKeyProvider.getPublicKey kid) w = (r, w') → w' = w ∧
    match r with Resolved pk => pk_kid pk = kid | Rejected e => ∃ m, e = KmsError m end).
  rewrite getPublicKey_eq. intros [= <- <-]. split; [done|].
  destruct (sql_first _ _) as [f|] eqn:Hh; [|by eexists]. by apply sql_first_Some in Hh as [? _].
Qed.
Next Obligation. intros P C HC w. by eexists. Qed.
Next Obligation.
  intros P C HC w kid pk w' pks.
  change (run (LocalKeyProvider.getPublicKey kid) w = (Resolved pk, w') →
    run LocalKeyProvider.listPublicKeys w = (Resolved pks, w) → pk ∈ pks).
  rewrite getPublicKey_eq. destruct (sql_first _ _) as [f|] eqn:Hf; cbv iota; [|by intros ? ?].
  intros [= <- _] Hl.
  assert (E : run LocalKeyProvider.listPublicKeys w = (Resolved ((λ f, mkPublicKey (kf_kid f) (kf_publicKeyPem f)
    (kf_createdAt f)) <$> LocalKeyProvider.sorted_files (LocalKeyProvider.sorted_files (w_keys w))), w)) by done.
  rewrite E in Hl. injection Hl as <-. apply sql_first_Some in Hf as [_ Hf]. apply list_elem_of_fmap. exists f.
  by rewrite sorted_files_perm.
Qed.
Next Obligation. intros P C HC. apply current_key_step. Qed.
Next Obligation. intros P C HC. apply rotate_key_step. Qed.
Next Obligation. intros P C HC kid. apply public_key_step. Qed.
Next Obligation. intros P C HC. apply listPublic_key_step. Qed.
Next Obligation. intros P C HC p. apply encrypt_key_step. Qed.
Next Obligation. intros P C HC e. apply decrypt_key_step. Qed.

(** * Concrete runs *)

Definition toy_crypto : Crypto := {|
  env_KMS_MASTER_KEY := None;
  env_production := false;
  base64_decode s := s;
  random_base64 k n := hex_encode (pretty n);
  generateKeyPair n := ("public " +:+ bits (N.succ_pos n), "private " +:+ bits (N.succ_pos n));
  hkdf k info := k +:+ info;
  gcm_encrypt k iv p := (hex_encode p, hex_encode k);
  gcm_decrypt k iv ct tag := if bool_decide (tag = hex_encode k) then hex_decode ct else None;
|}.

Lemma hex_encode_all (p : ascii → bool) s :
  forallb p (hex_digit <$> [0; 1; 2; 3; 4; 5; 6; 7; 8; 9; 10; 11; 12; 13; 14; 15]%N) = true →
  all_chars p (hex_encode s) = true.
Proof.
  intros Hall. apply hex_encode_chars. intros n Hn.
  rewrite forallb_forall in Hall. apply Hall, list_elem_of_In, list_elem_of_fmap_2.
  assert (Hc : ∃ k, (k < 16)%nat ∧ n = N.of_nat k) by (exists (N.to_nat n); lia).
  destruct Hc as (k & Hk & ->). do 16 (destruct k as [|k]; [repeat constructor|]); lia.
Qed.

#[export] Instance toy_crypto_laws : CryptoLaws (P := toy) toy_crypto.
Proof.
  split.
  - intros k iv p. simpl. by rewrite bool_decide_eq_true_2, hex_decode_encode.
  - intros n i. by apply hex_encode_all.
  - intros k iv p. split; by apply hex_encode_all.
  - intros x. by apply hex_encode_all.
  - intros n i. by apply hex_encode_all.
Qed.

Lemma toy_configured : master_configured (C := toy_crypto).
Proof. done. Qed.

Lemma empty_keys_ok now : keys_ok (C := toy_crypto) (empty_world now).
Proof. split; [done|]. split; [constructor|by left]. Qed.

Lemma envelope_roundtrip_witness :
  ∃ env w', run (LocalKeyProvider.encrypt (C := toy_crypto) "totp secret") (empty_world 0)
      = (Resolved env, w') ∧
    run (LocalKeyProvider.decrypt (C := toy_crypto) env) w' = (Resolved "totp secret", w').
Proof.
  destruct (envelope_roundtrip (P := toy) (C := toy_crypto) "totp secret" (empty_world 0))
    as (env & w' & Hrun & Hdec & _); [apply toy_configured|].
  exists env, w'. split; [exact Hrun|]. by apply Hdec.
Defined.

Lemma current_key_total_witness :
  ∃ sk w', run (LocalKeyProvider.getCurrentSigningKey (P := toy) (C := toy_crypto)) (empty_world 0)
      = (Resolved sk, w') ∧ length (w_keys w') = 1%nat ∧
    local_keypair (C := toy_crypto) (sk_publicKeyPem sk) (sk_privateKeyPem sk).
Proof.
  destruct (current_key_total (P := toy) (C := toy_crypto) (empty_world 0) (empty_keys_ok 0))
    as (sk & w' & Hrun & _ & Hpair & _).
  exists sk, w'. split; [exact Hrun|]. split; [|exact Hpair].
  assert (Hl : length (w_keys (run (LocalKeyProvider.getCurrentSigningKey (P := toy)
    (C := toy_crypto)) (empty_world 0)).2) = 1%nat) by by vm_compute.
  by rewrite Hrun in Hl.
Defined.

(** Rotating twice: the directory holds both keys. *)
Lemma key_rotation_witness :
  let rotate := LocalKeyProvider.rotateSigningKey (P := toy) (C := toy_crypto) in
  let w := (run rotate (empty_world 0)).2 in
  ∃ kid w' sk, run rotate w = (Resolved kid, w') ∧
    run (LocalKeyProvider.getCurrentSigningKey (P := toy) (C := toy_crypto)) w'
      = (Resolved sk, w') ∧ sk_kid sk = kid.
Proof.
  intros rotate w.
  destruct (key_rotation (P := toy) (C := toy_crypto) w) as (kid & w' & sk & H1 & _ & H2 & H3 & _).
  - destruct (kms_rotate (KmsLaws := local_kms_laws (P := toy) (C := toy_crypto)) (empty_world 0)
      (empty_keys_ok 0)) as (kid & w1 & Hrun & Hok & _).
    unfold w. change (run rotate (empty_world 0) = (Resolved kid, w1)) in Hrun. by rewrite Hrun.
  - intros g Hg. assert (E : kf_createdAt <$> w_keys w = [0]) by by vm_compute.
    assert (kf_createdAt g = 0) as ->; [|by vm_compute].
    apply (list_elem_of_fmap_2 kf_createdAt) in Hg. rewrite E in Hg.
    by apply list_elem_of_singleton in Hg.
  - exists kid, w', sk. by split_and!.
Defined.

