(* ===== verification/Lifecycle.v ===== *)
(** The processes of src/apps and src/scripts: how each of the four servers
    shuts down on a signal, while requests are still being served, and what the
    two database scripts print and exit with. *)
From S2P Require Import Prelude Async JsString Errors Store Evolution Redis RateLimit Http Database Seed Keys.
From stdpp Require Import base gmap strings list relations.
Local Open Scope string_scope.
Local Open Scope list_scope.
Local Open Scope nat_scope.

(** * A process *)

Inductive Service := AuthServer | ApiGateway | ResourceApi | Frontend.
Inductive Handle := DatabasePool | RedisClient.

(** What a process holds for its requests. *)
Definition handles (svc : Service) : list Handle :=
  match svc with
  | AuthServer => [DatabasePool; RedisClient]
  | ApiGateway => [RedisClient]
  | ResourceApi => [DatabasePool]
  | Frontend => []
  end.

Record Process : Type := mkProcess {
  (** whether the server accepts connections, and the requests it is serving *)
  listening : bool;
  inflight : nat;
  (** the shutdowns that wait for the server's close event *)
  awaiting : nat;
  (** the handles that can be used, and the shutdowns that wait for handles to close *)
  usable : list Handle;
  closing : nat;
  exited : option nat;
}.
#[export] Instance eta_Process : Settable Process := λ p,
  mkProcess (listening p) (inflight p) (awaiting p) (usable p) (closing p) (exited p).

(** [app.listen(port)] *)
Definition started (svc : Service) : Process := mkProcess true 0 0 (handles svc) 0 None.

Definition process_exit (code : nat) (p : Process) : Process := p <| exited := Some code |>.

(** [db.close()], [redis.close()]: the handles serve no more, and [n]
    shutdowns wait for them. *)
Definition close_handles (n : nat) (p : Process) : Process := p <| usable := [] |> <| closing ::= Nat.add n |>.

(** The close event of the server runs the callbacks that were registered, as
    soon as it listens no more and the last request is done. *)
Definition emit_close (svc : Service) (p : Process) : Process :=
  if negb (listening p) && (inflight p =? 0) && negb (awaiting p =? 0) then
    match svc with
    | Frontend => process_exit 0 p
    | _ => close_handles (awaiting p) (p <| awaiting := 0 |>)
    end
  else p.

(** [server.close(callback)] *)
Definition server_close (svc : Service) (p : Process) : Process :=
  emit_close svc (p <| listening := false |> <| awaiting ::= S |>).

(** [shutdown] of each server: the authorization server does not wait for the
    close event. *)
Definition auth_shutdown (p : Process) : Process := close_handles 1 (p <| listening := false |>).
Definition gateway_shutdown : Process → Process := server_close ApiGateway.
Definition resource_shutdown : Process → Process := server_close ResourceApi.
Definition frontend_shutdown : Process → Process := server_close Frontend.

Definition shutdown (svc : Service) : Process → Process :=
  match svc with
  | AuthServer => auth_shutdown
  | ApiGateway => gateway_shutdown
  | ResourceApi => resource_shutdown
  | Frontend => frontend_shutdown
  end.

(** A process that has exited does nothing. *)
Inductive event : Service → Process → Process → Prop :=
  | ev_signal svc p : exited p = None → event svc p (shutdown svc p)
  | ev_arrive svc p : exited p = None → listening p = true → event svc p (p <| inflight ::= S |>)
  | ev_finish svc p n :
      exited p = None → inflight p = S n → event svc p (emit_close svc (p <| inflight := n |>))
  | ev_settled svc p : exited p = None → closing p ≠ 0 → event svc p (process_exit 0 p).

Definition reachable (svc : Service) : Process → Prop := rtc (event svc) (started svc).

(** * The servers that drain *)

Definition drains (svc : Service) : bool := match svc with AuthServer => false | _ => true end.

(** Nothing is given up before the last request is done; and a process that
    was told to stop has somebody waiting. *)
Record orderly (svc : Service) (p : Process) : Prop := {
  or_serving : listening p = true ∨ inflight p ≠ 0 → usable p = handles svc ∧ closing p = 0 ∧ exited p = None;
  or_waiting : listening p = true → awaiting p = 0;
  or_stopping : listening p = false → exited p = None → inflight p ≠ 0 ∧ awaiting p ≠ 0 ∨ closing p ≠ 0;
}.

Lemma orderly_started svc : orderly svc (started svc).
Proof. by split. Qed.

(** Once the server listens no more, and somebody waits for its close event. *)
Lemma orderly_emit svc p :
  listening p = false → exited p = None → awaiting p ≠ 0 →
  (inflight p ≠ 0 → usable p = handles svc ∧ closing p = 0) → orderly svc (emit_close svc p).
Proof.
  intros Hl He Ha Hs. unfold emit_close. rewrite Hl, (proj2 (Nat.eqb_neq _ _) Ha). cbn [negb andb].
  rewrite andb_true_r. destruct (Nat.eqb_spec (inflight p) 0) as [Hz|Hz].
  - destruct svc; split; cbn; rewrite ?Hl, ?Hz; (intros [|]; done) || (intros; done) || (intros; right; lia).
  - destruct (Hs Hz) as [Hu Hc]. split; [done|by rewrite Hl|]. intros _ _. left. by split.
Qed.

Lemma orderly_event svc p p' : drains svc = true → orderly svc p → event svc p p' → orderly svc p'.
Proof.
  intros Hd [H1 H2 H3] Hev. destruct Hev as [svc p He|svc p He Hl|svc p n He Hn|svc p He Hc].
  - replace (shutdown svc p) with (emit_close svc (p <| listening := false |> <| awaiting ::= S |>)) by by destruct svc.
    apply orderly_emit; [done|done|done|]. cbn. intros Hi. destruct H1 as (? & ? & _); auto.
  - destruct H1 as (Hu & Hc & _); [by left|]. split; cbn; [done|done|]. by rewrite Hl.
  - destruct H1 as (Hu & Hc & _); [right; lia|]. destruct (listening p) eqn:Hl.
    + unfold emit_close. cbn. rewrite Hl. cbn. split; cbn; [done|auto|congruence].
    + destruct (H3 eq_refl He) as [[_ Ha]|?]; [|done]. by apply orderly_emit.
  - split; cbn; [|done|done]. intros Hs. by destruct (H1 Hs) as (_ & ? & _).
Qed.

Lemma orderly_reachable svc p : drains svc = true → reachable svc p → orderly svc p.
Proof.
  intros Hd. unfold reachable. apply (rtc_ind_r (orderly svc)); [apply orderly_started|].
  intros p1 p2 _ Hev IH. by eapply orderly_event.
Qed.

(** * Stopping *)

(** The events that end a shutdown: the requests finish, the handles close. *)
Inductive ending : Service → Process → Process → Prop :=
  | end_finish svc p n :
      exited p = None → inflight p = S n → ending svc p (emit_close svc (p <| inflight := n |>))
  | end_settled svc p : exited p = None → inflight p = 0 → closing p ≠ 0 → ending svc p (process_exit 0 p).

Lemma ending_event svc p p' : ending svc p p' → event svc p p'.
Proof. destruct 1; by constructor. Qed.

Lemma emit_close_keeps svc p : listening (emit_close svc p) = listening p ∧ inflight (emit_close svc p) = inflight p.
Proof. unfold emit_close. destruct (_ && _); [|done]. by destruct svc. Qed.

(** A process that was told to stop does, when its requests are done. *)
Lemma stops svc p :
  drains svc = true → orderly svc p → listening p = false →
  ∃ p', rtc (ending svc) p p' ∧ is_Some (exited p').
Proof.
  intros Hd. remember (inflight p) as n eqn:Hn. revert p Hn. induction n as [|n IH]; intros p Hn Ho Hl;
    (destruct (exited p) as [c|] eqn:He; [exists p; split; [done|by rewrite He]|]).
  - destruct (or_stopping _ _ Ho Hl He) as [[? _]|Hc]; [congruence|].
    exists (process_exit 0 p). split; [|by eexists]. apply rtc_once. by constructor.
  - set (p1 := emit_close svc (p <| inflight := n |>)).
    assert (Hs : ending svc p p1) by by constructor.
    destruct (emit_close_keeps svc (p <| inflight := n |>)) as [Hl1 Hi1].
    destruct (IH p1) as (p' & Hr & Hx).
    + symmetry. exact Hi1.
    + by eapply orderly_event, ending_event.
    + exact (eq_trans Hl1 Hl).
    + exists p'. split; [by eapply rtc_l|done].
Qed.

(** C22: A graceful shutdown. In every state that the gateway, the resource API
    or the frontend can reach, by any signals, arrivals and ends of requests,
    their handles are usable as long as a request is being served, and the
    process has not exited; and once a signal has come, the process exits as
    soon as the requests that are under way have been served. *)
Theorem graceful_shutdown (svc : Service) (p : Process) :
  svc ≠ AuthServer → reachable svc p →
  (inflight p ≠ 0 → usable p = handles svc ∧ exited p = None) ∧
  (listening p = false → ∃ p', rtc (ending svc) p p' ∧ is_Some (exited p')).
Proof.
  intros Hsvc Hr. assert (Hd : drains svc = true) by by destruct svc.
  pose proof (orderly_reachable svc p Hd Hr) as Ho. split.
  - intros Hi. destruct (or_serving _ _ Ho) as (? & _ & ?); [by right|done].
  - by apply stops.
Qed.

(** The authorization server gives up its handles at once, and exits however
    many requests it is serving. *)
Theorem auth_server_drops_requests (n : nat) :
  ∃ p, reachable AuthServer p ∧ inflight p = n ∧ usable p = [] ∧ exited p = Some 0.
Proof.
  assert (∃ p, reachable AuthServer p ∧ inflight p = n ∧ listening p = true ∧ exited p = None)
    as (p & Hr & Hi & Hl & He).
  { induction n as [|n (p & Hr & Hi & Hl & He)]; [exists (started AuthServer); split; [apply rtc_refl|done]|].
    exists (p <| inflight ::= S |>). split; [|by rewrite <- Hi]. eapply rtc_r; [exact Hr|by constructor]. }
  exists (process_exit 0 (shutdown AuthServer p)). split; [|by rewrite <- Hi].
  eapply rtc_r; [eapply rtc_r; [exact Hr|by apply ev_signal]|]. by apply ev_settled.
Qed.

(** * Scripts *)

(** What a script prints, the code it exits with, and the store it leaves; the
    pool is closed in both cases. *)
Inductive Line := Out (text : string) | Err_ (text : string).
Definition script {S E A} (job : Async S E A) (report : A → list string) (failure : E → string) (s : S)
    : list Line * nat * S :=
  match run job s with
  | (Resolved a, s') => (Out <$> report a, 0, s')
  | (Rejected e, s') => ([Err_ (failure e)], 1, s')
  end.

Definition migrate_report (applied : list string) : list string :=
  [match applied with
   | [] => "Database up to date."
   | _ => "Applied " +:+ decimal_of (Z.of_nat (length applied)) +:+ " migration(s)."
   end].

Definition seed_report (r : SeedResult) : list string :=
  ("Seed complete. Admin user: " +:+ sr_adminEmail r) ::
  match truthy (sr_generatedPassword r) with
  | Some p => ["Generated admin password (store it now, shown once): " +:+ p]
  | None => []
  end.

(** [err.message] *)
Definition migrate_script {T E} (message : E → string) (duplicate_name : E) (dir : list (string * (T → outcome E T)))
    (create_fails : SchemaState T → option E) : SchemaState T → list Line * nat * SchemaState T :=
  script (runMigrations duplicate_name dir create_fails) migrate_report (λ e, "Migration failed: " +:+ message e).

Definition seed_script `{P : Platform} (message : Err → string) (ADMIN_EMAIL : string) (ADMIN_PASSWORD : option string)
    : World → list Line * nat * World :=
  script (runSeeds ADMIN_EMAIL ADMIN_PASSWORD) seed_report (λ e, "Seed failed: " +:+ message e).

(** src/scripts/generate-keys.ts; [join] is node's path function. *)
Definition keys_report (join : string → string) (KMS_KEY_DIR : string) (sk : SigningKey) : list string :=
  ["Signing key ready: kid=" +:+ sk_kid sk +:+ " dir=" +:+ join KMS_KEY_DIR].

Definition keys_script `{P : Platform, C : Crypto} (join : string → string) (KMS_KEY_DIR : string)
    (message : Err → string) : World → list Line * nat * World :=
  script LocalKeyProvider.getCurrentSigningKey (keys_report join KMS_KEY_DIR)
    (λ e, "Key generation failed: " +:+ message e).

(** The start of the authorization server: it listens once there is a signing
    key, and exits when there cannot be one. *)
Definition auth_main `{P : Platform, C : Crypto} : M Process :=
  catch (λ _, mret (process_exit 1 (mkProcess false 0 0 (handles AuthServer) 0 None)))
    (_ ← LocalKeyProvider.getCurrentSigningKey;
     mret (started AuthServer)).

(** A server that listens has a key to sign with, and a server that cannot have
    one never listens. *)
Lemma auth_main_starts `{P : Platform, C : Crypto, !CryptoLaws C} w :
  (keys_ok w → ∃ w', run auth_main w = (Resolved (started AuthServer), w') ∧ w_keys w' ≠ []) ∧
  (∀ e w', run LocalKeyProvider.getCurrentSigningKey w = (Rejected e, w') →
     ∃ p, run auth_main w = (Resolved p, w') ∧ listening p = false ∧ exited p = Some 1).
Proof.
  unfold auth_main. split.
  - intros Hok. destruct (current_key_total w Hok) as (sk & w' & Hrun & _ & _ & _ & (f & Hf & _) & _).
    exists w'. rewrite run_catch. split; [by rewrite (run_bind_eq _ _ _ _ _ Hrun)|].
    intros Hnil. by rewrite Hnil in Hf.
  - intros e w' Hrun. eexists. rewrite run_catch, run_bind, Hrun. by split_and!.
Qed.

(** Running the script again makes no other key: it reports the one there is. *)
Lemma generate_keys_again `{P : Platform, C : Crypto, !CryptoLaws C} join dir message w :
  keys_ok w →
  let '(lines, code, w1) := keys_script join dir message w in
  code = 0 ∧ keys_script join dir message w1 = (lines, 0, w1).
Proof.
  intros Hok. unfold keys_script, script.
  destruct (current_key_total w Hok) as (sk & w1 & -> & Hok1 & _ & _ & (f & Hf & Hkid & _) & _).
  split; [done|].
  destruct (current_key_total w1 Hok1) as (sk1 & w2 & -> & _ & _ & _ & (g & Hg & Hkid1 & _) & Hsame).
  assert (w2 = w1) as -> by (apply Hsame; intros Hnil; by rewrite Hnil in Hf).
  rewrite Hf in Hg. injection Hg as <-. unfold keys_report. by rewrite <- Hkid, <- Hkid1.
Qed.

(** The exit code tells whether the job was done. *)
Lemma script_code {S E A} (job : Async S E A) report failure s :
  (script job report failure s).1.2 = 0 ↔ is_resolved (run job s).1 = true.
Proof. unfold script. by destruct (run job s) as [[e|a] s']. Qed.

(** * At concrete inputs *)

(** Told to stop while it serves one request. *)
Lemma graceful_shutdown_witness :
  let p := shutdown ApiGateway (started ApiGateway <| inflight ::= S |>) in
  usable p = [RedisClient] ∧ ∃ p', rtc (ending ApiGateway) p p' ∧ is_Some (exited p').
Proof.
  intros p. destruct (graceful_shutdown ApiGateway p) as [Hs Hx].
  - discriminate.
  - eapply rtc_l; [apply (ev_arrive ApiGateway (started ApiGateway)); reflexivity|].
    apply rtc_once. apply ev_signal. reflexivity.
  - split; [apply Hs; discriminate|apply Hx; reflexivity].
Defined.
