(* ===== verification/Jwt.v ===== *)
(** src/modules/tokens/jwt.service.ts and token-revocation.ts: access tokens,
    ID tokens and the denylist of revoked token identifiers. *)
From S2P Require Import Prelude Async JsString Errors Store Evolution Toy Redis Keys.
From stdpp Require Import base gmap strings list pretty.
From Stdlib Require Import ZArith.
Local Open Scope string_scope.
Local Open Scope list_scope.
Local Open Scope Z_scope.

(** * The JOSE library *)

(** A JWT claims set; [undefined] is [None]. *)
Record Claims : Type := mkClaims {
  cl_iss : option string;
  cl_aud : option (list string);
  cl_sub : option string;
  cl_iat : option Z;
  cl_nbf : option Z;
  cl_exp : option Z;
  cl_jti : option string;
  cl_scope : option string;
  cl_roles : option (list string);
  cl_permissions : option (list string);
  cl_sid : option string;
  cl_client_id : option string;
  cl_amr : option (list string);
  cl_extra : list (string * json);
}.

(** The options of [jwtVerify] the program passes. *)
Record VerifyOptions : Type := mkVerifyOptions {
  vo_issuer : string;
  vo_audience : string;
  vo_clockTolerance : Z;
  vo_requiredClaims : list string;
}.

(** [SignJWT(claims).setProtectedHeader({alg: 'EdDSA', kid, typ: 'JWT'}).sign(key)],
    [decodeProtectedHeader] (the pair alg, kid; [None] when it throws) and
    [jwtVerify] at an instant, with the EdDSA algorithm only. *)
Class Jose : Type := {
  SignJWT : string → Claims → string → string;
  decodeProtectedHeader : string → option (option string * option string);
  jwtVerify : string → string → VerifyOptions → Z → outcome Err Claims;
}.

Definition has_claim (c : Claims) (name : string) : bool :=
  bool_decide (name ∈ (cl_extra c).*1) ||
  (if bool_decide (name = "iss") then bool_decide (is_Some (cl_iss c))
   else if bool_decide (name = "sub") then bool_decide (is_Some (cl_sub c))
   else if bool_decide (name = "aud") then bool_decide (is_Some (cl_aud c))
   else if bool_decide (name = "exp") then bool_decide (is_Some (cl_exp c))
   else if bool_decide (name = "iat") then bool_decide (is_Some (cl_iat c))
   else if bool_decide (name = "jti") then bool_decide (is_Some (cl_jti c))
   else if bool_decide (name = "scope") then bool_decide (is_Some (cl_scope c))
   else false).

(** The documented claim validation, at [now] in seconds: the error code, or
    [None] when the claims are accepted. *)
Definition claims_verdict (o : VerifyOptions) (now : Z) (c : Claims) : option string :=
  if negb (forallb (has_claim c) (vo_requiredClaims o)) then Some "ERR_JWT_CLAIM_VALIDATION_FAILED"
  else if negb (bool_decide (cl_iss c = Some (vo_issuer o))) then Some "ERR_JWT_CLAIM_VALIDATION_FAILED"
  else if negb (bool_decide (vo_audience o ∈ default [] (cl_aud c)))
  then Some "ERR_JWT_CLAIM_VALIDATION_FAILED"
  else if (match cl_nbf c with Some nbf => now + vo_clockTolerance o <? nbf | None => false end)
  then Some "ERR_JWT_CLAIM_VALIDATION_FAILED"
  else if (match cl_exp c with Some e => e <=? now - vo_clockTolerance o | None => false end)
  then Some "ERR_JWT_EXPIRED"
  else None.

Definition jose_error (code : string) (r : outcome Err Claims) : Prop :=
  ∃ msg, r = Rejected (ELib None (Some code) msg).

(** The behaviour of the library the program relies on, for the key pairs
    [kp]: signatures verify under the matching key only, and cannot be made
    without the private key. A header without a key identifier is written with
    the empty one, which the program reads alike. *)
Class JoseLaws (J : Jose) (kp : string → string → Prop) : Prop := {
  jose_header : ∀ kid c priv,
    decodeProtectedHeader (SignJWT kid c priv) = Some (Some "EdDSA", Some kid);
  jose_verify_signed : ∀ kid c pub priv o now, kp pub priv →
    match claims_verdict o (now / 1000) c with
    | None => jwtVerify (SignJWT kid c priv) pub o now = Resolved c
    | Some code => jose_error code (jwtVerify (SignJWT kid c priv) pub o now)
    end;
  jose_verify_sound : ∀ t pub o now c, jwtVerify t pub o now = Resolved c →
    claims_verdict o (now / 1000) c = None ∧
    ∃ kid priv, kp pub priv ∧ t = SignJWT kid c priv;
  jose_verify_throws : ∀ t pub o now e, jwtVerify t pub o now = Rejected e →
    ∃ code msg, e = ELib None code msg;
}.

(** * The denylist *)

Module TokenRevocationService.
Definition revoked_key (jti : string) : string := RedisService.key ["jti"; "revoked"; jti].

(** [Math.max(1, Math.ceil(exp - Date.now() / 1000))] *)
Definition denylist_ttl (expiresAt now : Z) : Z := Z.max 1 (- ((now - expiresAt * 1000) / 1000)).

Definition revokeUntil (jti : string) (expiresAtEpochSeconds : Z) : M () :=
  now ← now_ms;
  RedisService.set (revoked_key jti) "1" (Some (denylist_ttl expiresAtEpochSeconds now)).

Definition isRevoked (jti : string) : M bool :=
  v ← RedisService.get (revoked_key jti);
  mret (bool_decide (v = Some "1")).
End TokenRevocationService.

(** * Tokens *)

Record AccessTokenInput : Type := mkTokenInput {
  ti_sub : string;
  ti_scope : string;
  ti_roles : option (list string);
  ti_permissions : option (list string);
  ti_sid : option string;
  ti_client_id : option string;
  ti_amr : option (list string);
}.

Record JwtServiceOptions : Type := mkJwtOptions {
  jo_issuer : string; jo_audience : string; jo_defaultTtlSeconds : Z;
}.

Record Signed : Type := mkSigned {
  sg_token : string; sg_jti : string; sg_expiresAt : Z; sg_issuedAt : Z;
}.

(** [xs?.length ? { field: xs } : {}] *)
Definition nonempty_list (xs : option (list string)) : option (list string) :=
  match xs with Some [] => None | _ => xs end.

Definition mapJoseError (err : Err) : Err :=
  match err with
  | EApp _ => err
  | EKms msg => AuthError msg "KMS_ERROR"
  | _ =>
      match err_code err with
      | Some c =>
          if bool_decide (c = "ERR_JWT_EXPIRED") then AuthError "Token expired" "TOKEN_EXPIRED"
          else if bool_decide (c ∈ ["ERR_JWS_SIGNATURE_VERIFICATION_FAILED";
                                    "ERR_JWS_VERIFICATION_FAILED"])
          then AuthError "Invalid token signature" "INVALID_TOKEN_SIGNATURE"
          else if bool_decide (c = "ERR_JWT_CLAIM_VALIDATION_FAILED")
          then AuthError "Invalid token claims" "INVALID_TOKEN_CLAIMS"
          else if bool_decide (c = "ERR_JWT_MALFORMED")
          then AuthError "Malformed token" "MALFORMED_TOKEN"
          else AuthError "Invalid token" "INVALID_TOKEN"
      | None => AuthError "Invalid token" "INVALID_TOKEN"
      end
  end.

Module JwtService.
Section service.
Context `{P : Platform, K : KeyManagementService, J : Jose}.
Context (options : JwtServiceOptions) (revocationChecker : option (string → M bool)).

Definition access_claims (input : AccessTokenInput) (now ttl : Z) (jti : string) : Claims :=
  mkClaims (Some (jo_issuer options)) (Some [jo_audience options]) (Some (ti_sub input))
    (Some now) (Some now) (Some (now + ttl)) (Some jti) (Some (ti_scope input))
    (nonempty_list (ti_roles input)) (nonempty_list (ti_permissions input))
    (truthy (ti_sid input)) (truthy (ti_client_id input)) (ti_amr input) [].

Definition signAccessToken (input : AccessTokenInput) (ttlOverrideSeconds : option Z)
    : M Signed :=
  sk ← getCurrentSigningKey;
  let ttl := default (jo_defaultTtlSeconds options) ttlOverrideSeconds in
  ms ← now_ms;
  let now := ms / 1000 in
  jti ← draw random_uuid;
  let token := SignJWT (sk_kid sk) (access_claims input now ttl jti) (sk_privateKeyPem sk) in
  mret (mkSigned token jti ((now + ttl) * 1000) (now * 1000)).

Definition decodeProtectedHeaderSafe (token : string) : M (option string * option string) :=
  match decodeProtectedHeader token with
  | Some h => mret h
  | None => Throw (AuthError "Malformed token" "MALFORMED_TOKEN")
  end.

Definition verify_options : VerifyOptions :=
  mkVerifyOptions (jo_issuer options) (jo_audience options) 5
    ["iss"; "sub"; "aud"; "exp"; "iat"; "jti"].

(** The key the header names, or the newest one. *)
Definition signing_key_for (kid : option string) : M (option SigningPublicKey) :=
  match truthy kid with
  | Some k => pk ← getPublicKey k; mret (Some pk)
  | None => pks ← listPublicKeys; mret (head pks)
  end.

Definition lift (r : outcome Err Claims) : M Claims :=
  match r with Resolved c => mret c | Rejected e => Throw e end.

Definition check_revoked (jti : option string) : M bool :=
  match truthy jti, revocationChecker with
  | Some j, Some checker => checker j
  | _, _ => mret false
  end.

Definition verifyAccessToken (token : string) : M Claims :=
  catch (λ err, Throw (mapJoseError err))
    (h ← decodeProtectedHeaderSafe token;
     if negb (bool_decide (h.1 = Some "EdDSA"))
     then Throw (AuthError "Unsupported token algorithm" "UNSUPPORTED_TOKEN_ALG")
     else
       signing ← signing_key_for h.2;
       match signing with
       | None => Throw (AuthError "Unknown signing key" "UNKNOWN_SIGNING_KEY")
       | Some pk =>
           now ← now_ms;
           payload ← lift (jwtVerify token (pk_publicKeyPem pk) verify_options now);
           revoked ← check_revoked (cl_jti payload);
           if (revoked : bool) then Throw (AuthError "Token has been revoked" "TOKEN_REVOKED")
           else mret payload
       end).

Definition id_claims (extraClaims : list (string * json)) (audience subject : string)
    (now ttl : Z) : Claims :=
  mkClaims (Some (jo_issuer options)) (Some [audience]) (Some subject)
    (Some now) (Some now) (Some (now + ttl)) None None None None None None None extraClaims.

Definition signIdToken (extraClaims : list (string * json)) (audience subject : string)
    (ttlSeconds : Z) : M string :=
  sk ← getCurrentSigningKey;
  ms ← now_ms;
  mret (SignJWT (sk_kid sk) (id_claims extraClaims audience subject (ms / 1000) ttlSeconds)
          (sk_privateKeyPem sk)).
End service.
End JwtService.

(** The service as src/app.factory.ts composes it. *)
Definition app_jwt_options `{P : Platform} : JwtServiceOptions :=
  mkJwtOptions (JWT_ISSUER cfg) (JWT_AUDIENCE cfg) (ACCESS_TOKEN_TTL cfg).
Definition app_checker : option (string → M bool) := Some TokenRevocationService.isRevoked.

(** * Steps of the store *)

Lemma revokeUntil_step jti e : respects step (TokenRevocationService.revokeUntil jti e).
Proof.
  apply respects_bind; [apply now_step|]. intros now. apply redis_step, redis_keeps_set_value.
Qed.
Lemma isRevoked_step jti : respects step (TokenRevocationService.isRevoked jti).
Proof. unfold TokenRevocationService.isRevoked. respects_step. Qed.
#[export] Hint Resolve revokeUntil_step isRevoked_step : steps.

Section evolution.
Context `{P : Platform, K : KeyManagementService, J : Jose, KL : !KmsLaws K}.
Context (options : JwtServiceOptions).

Lemma signAccessToken_step i ttl : respects step (JwtService.signAccessToken options i ttl).
Proof.
  apply respects_bind; [apply key_step_step, kms_current_frame|intros sk]. respects_step.
Qed.
Lemma signIdToken_step c a s ttl : respects step (JwtService.signIdToken options c a s ttl).
Proof.
  apply respects_bind; [apply key_step_step, kms_current_frame|intros sk]. respects_step.
Qed.

Lemma getPublicKey_step kid : respects step (getPublicKey kid).
Proof. apply key_step_step, kms_public_frame. Qed.
Lemma listPublicKeys_step : respects step listPublicKeys.
Proof. apply key_step_step, kms_list_frame. Qed.
#[local] Hint Resolve getPublicKey_step listPublicKeys_step : steps.

Lemma verifyAccessToken_step checker token :
  (∀ f j, checker = Some f → respects step (f j)) →
  respects step (JwtService.verifyAccessToken options checker token).
Proof.
  intros Hc. unfold JwtService.verifyAccessToken. apply respects_catch; [|done].
  apply respects_bind; [unfold JwtService.decodeProtectedHeaderSafe; respects_step|intros h].
  destruct (negb _); [done|]. apply respects_bind.
  { unfold JwtService.signing_key_for. respects_step. }
  intros [pk|]; [|done]. apply respects_bind; [apply now_step|intros now].
  apply respects_bind; [unfold JwtService.lift; respects_step|intros c].
  apply respects_bind; [|intros []; done].
  unfold JwtService.check_revoked. destruct (truthy _); [|done].
  destruct checker; [by apply Hc | done].
Qed.

Lemma app_verify_step token :
  respects step (JwtService.verifyAccessToken options app_checker token).
Proof. apply verifyAccessToken_step. intros f j [= <-]. apply isRevoked_step. Qed.
End evolution.
#[export] Hint Resolve signAccessToken_step signIdToken_step app_verify_step : steps.

(** * Behaviour *)

Lemma verdict_codes o now c code :
  claims_verdict o now c = Some code →
  code = "ERR_JWT_CLAIM_VALIDATION_FAILED" ∨ code = "ERR_JWT_EXPIRED".
Proof. unfold claims_verdict. repeat break_match; intros; simplify_eq; auto. Qed.

(** What accepted claims say. *)
Lemma verdict_none o now c :
  claims_verdict o now c = None →
  cl_iss c = Some (vo_issuer o) ∧ vo_audience o ∈ default [] (cl_aud c) ∧
  (∀ nbf, cl_nbf c = Some nbf → nbf ≤ now + vo_clockTolerance o) ∧
  (∀ e, cl_exp c = Some e → now - vo_clockTolerance o < e) ∧
  forallb (has_claim c) (vo_requiredClaims o) = true.
Proof.
  unfold claims_verdict. destruct (forallb _ _) eqn:Hreq; [|done]. cbn [negb].
  case_bool_decide as Hiss; [|done]. case_bool_decide as Haud; [|done]. cbn [negb].
  destruct (match cl_nbf c with Some nbf => _ | None => _ end) eqn:Hnbf; [done|].
  destruct (match cl_exp c with Some e => _ | None => _ end) eqn:Hexp; [done|]. intros _.
  split_and!; try done.
  - intros nbf Hn. rewrite Hn in Hnbf. by apply Z.ltb_ge.
  - intros e He. rewrite He in Hexp. by apply Z.leb_gt in Hexp.
Qed.

(** The denylist lookup. *)
Definition denylisted (jti : string) (w : World) : Prop :=
  redis_value_at w (TokenRevocationService.revoked_key jti) = Some (VStr "1").

Lemma run_isRevoked_no jti w :
  redis_value_at w (TokenRevocationService.revoked_key jti) = None →
  run (TokenRevocationService.isRevoked jti) w = (Resolved false, w).
Proof.
  intros H. unfold TokenRevocationService.isRevoked, RedisService.get.
  rewrite run_bind, run_attempt, H. done.
Qed.

Lemma run_isRevoked_yes jti w :
  denylisted jti w → run (TokenRevocationService.isRevoked jti) w = (Resolved true, w).
Proof.
  intros H. unfold TokenRevocationService.isRevoked, RedisService.get.
  rewrite run_bind, run_attempt, H. done.
Qed.

Section properties.
Context `{P : Platform, K : KeyManagementService, J : Jose}.
Context `{KL : !KmsLaws K, JL : !JoseLaws J keypair}.
Context (options : JwtServiceOptions).

(** What a signature is made of, and what signing leaves alone. *)
Lemma sign_inv i ttl w s w' :
  run (JwtService.signAccessToken options i ttl) w = (Resolved s, w') →
  ∃ kid priv,
    sg_token s = SignJWT kid (JwtService.access_claims options i (w_now w / 1000)
      (default (jo_defaultTtlSeconds options) ttl) (sg_jti s)) priv ∧
    sg_expiresAt s = (w_now w / 1000 + default (jo_defaultTtlSeconds options) ttl) * 1000 ∧
    non_keys w' = non_keys w.
Proof.
  intros (sk & w1 & Hk & H)%run_bind_resolved.
  pose proof (respects_run key_step getCurrentSigningKey w kms_current_frame) as [Hn _].
  rewrite Hk in Hn. simpl in Hn.
  assert (w_now w1 = w_now w) as Hnow by (unfold non_keys in Hn; by injection Hn).
  erewrite run_bind_eq in H by reflexivity. erewrite run_bind_eq in H by reflexivity.
  injection H as <- <-. exists (sk_kid sk), (sk_privateKeyPem sk). cbn [sg_token sg_jti sg_expiresAt].
  rewrite Hnow. split; [done|]. split; [done|]. rewrite <- Hn. done.
Qed.

Lemma sign_total i ttl w :
  kms_wf w →
  ∃ s w', run (JwtService.signAccessToken options i ttl) w = (Resolved s, w') ∧ kms_wf w' ∧
    key_step w w'.
Proof.
  intros Hwf. destruct (kms_current w Hwf) as (sk & w1 & Hcur & Hwf1 & _).
  pose proof (respects_run key_step getCurrentSigningKey w kms_current_frame) as Hk.
  rewrite Hcur in Hk. simpl in Hk.
  eexists _, _. split.
  { unfold JwtService.signAccessToken. run_next_by Hcur. run_next. by run_next. }
  split; [by apply (kms_wf_stable w1)|]. etrans; [exact Hk|]. split; [done|simpl; lia].
Qed.

Definition published_signature (token : string) (c : Claims) (w : World) : Prop :=
  ∃ kid pub priv, kid ≠ "" ∧ publishes w kid pub ∧ keypair pub priv ∧ token = SignJWT kid c priv.

Lemma published_stable token c w w' :
  same_keys w w' → published_signature token c w → published_signature token c w'.
Proof.
  intros Hk (kid & pub & priv & Hkid & Hpub & H). exists kid, pub, priv. split; [done|].
  split; [by apply (kms_publishes_stable w)|done].
Qed.

(** Signing draws a new identifier and uses a published key. *)
Lemma run_sign_published i ttl w :
  kms_wf w →
  ∃ s w' n, run (JwtService.signAccessToken options i ttl) w = (Resolved s, w') ∧ kms_wf w' ∧
    key_step w w' ∧ (w_draws w ≤ n)%N ∧ sg_jti s = random_uuid n ∧
    published_signature (sg_token s) (JwtService.access_claims options i (w_now w / 1000)
      (default (jo_defaultTtlSeconds options) ttl) (sg_jti s)) w'.
Proof.
  intros Hwf. destruct (kms_current w Hwf) as (sk & w1 & Hcur & Hwf1 & Hkid & Hpair & Hpub).
  pose proof (respects_run key_step getCurrentSigningKey w kms_current_frame) as Hk.
  rewrite Hcur in Hk. simpl in Hk.
  assert (w_now w1 = w_now w) as Hnow by (destruct Hk as [Hk _]; unfold non_keys in Hk; by injection Hk).
  eexists _, _, (w_draws w1). split.
  { unfold JwtService.signAccessToken. run_next_by Hcur. run_next. by run_next. }
  split; [by apply (kms_wf_stable w1)|]. split; [etrans; [exact Hk|split; [done|simpl; lia]]|].
  split; [apply Hk|]. cbn [sg_jti sg_token]. split; [done|]. rewrite <- Hnow.
  exists (sk_kid sk), (sk_publicKeyPem sk), (sk_privateKeyPem sk). split; [done|].
  split; [by apply (kms_publishes_stable w1)|done].
Qed.

(** How the claims of an access token are judged. *)
Lemma access_verdict i now0 ttl jti now :
  claims_verdict (JwtService.verify_options options) now
    (JwtService.access_claims options i now0 ttl jti) =
  if now + 5 <? now0 then Some "ERR_JWT_CLAIM_VALIDATION_FAILED"
  else if now0 + ttl <=? now - 5 then Some "ERR_JWT_EXPIRED" else None.
Proof.
  unfold claims_verdict. simpl. rewrite !bool_decide_eq_true_2; [|set_solver|done].
  done.
Qed.

(** Verification of a token signed with a published key. *)
Lemma run_verify_signed checker kid c pub priv w :
  kid ≠ "" → publishes w kid pub → keypair pub priv →
  run (JwtService.verifyAccessToken options checker (SignJWT kid c priv)) w =
    match claims_verdict (JwtService.verify_options options) (w_now w / 1000) c with
    | Some code => (Rejected (mapJoseError (ELib None (Some code) "")), w)
    | None =>
        run (catch (λ err, Throw (mapJoseError err))
          (revoked ← JwtService.check_revoked checker (cl_jti c);
           if (revoked : bool) then Throw (AuthError "Token has been revoked" "TOKEN_REVOKED")
           else mret c)) w
    end.
Proof.
  intros Hkid [t Hpub] Hpair. unfold JwtService.verifyAccessToken.
  rewrite run_catch. unfold JwtService.decodeProtectedHeaderSafe. rewrite jose_header.
  run_next. cbn [fst snd]. rewrite bool_decide_eq_true_2 by done. cbn [negb].
  assert (Hs : run (JwtService.signing_key_for (Some kid)) w
    = (Resolved (Some (mkPublicKey kid pub t)), w)).
  { unfold JwtService.signing_key_for. destruct kid; [done|]. cbn [truthy]. by run_next_by Hpub. }
  run_next_by Hs. run_next. cbn [pk_publicKeyPem].
  pose proof (jose_verify_signed kid c pub priv (JwtService.verify_options options) (w_now w) Hpair)
    as Hv.
  destruct (claims_verdict _ _ c) as [code|] eqn:E.
  - destruct Hv as [msg ->]. unfold JwtService.lift. by rewrite run_bind, run_throw.
  - rewrite Hv. unfold JwtService.lift. run_next. by rewrite run_catch.
Qed.

(** A token signed with a key the store publishes verifies, as long as its
    claims are valid and its identifier is not on the denylist. *)
Lemma published_verifies token c w :
  published_signature token c w →
  (∀ j, cl_jti c = Some j → redis_value_at w (TokenRevocationService.revoked_key j) = None) →
  claims_verdict (JwtService.verify_options options) (w_now w / 1000) c = None →
  run (JwtService.verifyAccessToken options app_checker token) w = (Resolved c, w).
Proof.
  intros (kid & pub & priv & Hkid & Hpub & Hpair & ->) Hden Hverdict.
  rewrite (run_verify_signed _ _ _ pub) by done.
  rewrite Hverdict, run_catch. unfold JwtService.check_revoked, app_checker.
  destruct (cl_jti c) as [[|a u]|] eqn:Hj; cbn [truthy]; [done| |done].
  by run_next_by (run_isRevoked_no _ _ (Hden _ eq_refl)).
Qed.

(** C27: A signed access token verifies, with exactly the claims put in, from five
    seconds before it was issued until five seconds after it expires, under
    every set of published keys that still has its key, unless its identifier
    is on the denylist. *)
Theorem access_token_roundtrip (input : AccessTokenInput) (ttlOverride : option Z) (w : World) :
  kms_wf w →
  let ttl := default (jo_defaultTtlSeconds options) ttlOverride in
  let issued := w_now w / 1000 in
  ∃ s w' kid pub,
    run (JwtService.signAccessToken options input ttlOverride) w = (Resolved s, w') ∧
    kms_wf w' ∧ publishes w' kid pub ∧ sg_expiresAt s = (issued + ttl) * 1000 ∧
    ∀ w'', publishes w'' kid pub →
      redis_value_at w'' (TokenRevocationService.revoked_key (sg_jti s)) = None →
      run (JwtService.verifyAccessToken options app_checker (sg_token s)) w'' =
        (if w_now w'' / 1000 + 5 <? issued
         then Rejected (AuthError "Invalid token claims" "INVALID_TOKEN_CLAIMS")
         else if issued + ttl <=? w_now w'' / 1000 - 5
         then Rejected (AuthError "Token expired" "TOKEN_EXPIRED")
         else Resolved (JwtService.access_claims options input issued ttl (sg_jti s)), w'').
Proof.
  intros Hwf ttl issued.
  destruct (kms_current w Hwf) as (sk & w1 & Hcur & Hwf1 & Hkid & Hpair & Hpub).
  assert (Hnow : w_now w1 = w_now w).
  { pose proof (respects_run key_step getCurrentSigningKey w kms_current_frame) as [Hk _].
    rewrite Hcur in Hk. unfold non_keys in Hk. simpl in Hk. by injection Hk. }
  assert (Hsame : same_keys w1 (w1 <| w_draws ::= N.succ |>)) by done.
  eexists _, _, (sk_kid sk), (sk_publicKeyPem sk). split.
  { unfold JwtService.signAccessToken. run_next_by Hcur. run_next. by run_next. }
  split; [by eapply kms_wf_stable|]. split; [by eapply kms_publishes_stable|].
  cbn [sg_expiresAt sg_jti sg_token]. rewrite Hnow. split; [done|].
  intros w'' Hpub'' Hden.
  rewrite (run_verify_signed _ _ _ (sk_publicKeyPem sk)) by done. rewrite access_verdict.
  fold issued ttl. destruct (_ <? issued); [done|]. destruct (_ <=? _); [done|].
  rewrite run_catch. unfold JwtService.check_revoked, app_checker. cbn [cl_jti JwtService.access_claims].
  destruct (random_uuid (w_draws w1)) as [|a u] eqn:Hj; cbn [truthy]; [done|].
  by run_next_by (run_isRevoked_no _ _ Hden).
Qed.

Lemma mapJoseError_lib code msg : ∃ m c, mapJoseError (ELib None code msg) = AuthError m c.
Proof. unfold mapJoseError. simpl. repeat break_match; by eexists _, _. Qed.

Lemma run_signing_key kid w :
  (run (JwtService.signing_key_for kid) w).2 = w ∧
  (is_resolved (run (JwtService.signing_key_for kid) w).1 = true ∨
   ∃ m, (run (JwtService.signing_key_for kid) w).1 = Rejected (EKms m)).
Proof.
  unfold JwtService.signing_key_for. destruct (truthy kid) as [k|].
  - rewrite run_bind. destruct (run (getPublicKey k) w) as [r w1] eqn:Hk.
    pose proof (kms_lookup _ _ _ _ Hk) as [-> Hr].
    destruct r as [e|pk]; [destruct Hr as [m ->]; simpl; eauto|simpl; auto].
  - destruct (kms_list w) as [pks Hl]. rewrite (run_bind_eq _ _ _ _ _ Hl). simpl. auto.
Qed.

Lemma run_check_revoked jti w :
  (run (JwtService.check_revoked app_checker jti) w).2 = w ∧
  ∀ e, (run (JwtService.check_revoked app_checker jti) w).1 = Rejected e → ∃ st c m, e = ELib st c m.
Proof.
  unfold JwtService.check_revoked, app_checker, TokenRevocationService.isRevoked, RedisService.get.
  destruct (truthy jti) as [j|]; [|done]. rewrite run_bind, run_attempt.
  destruct (redis_value_at _ _) as [[]|]; (split; [done|]); simpl; intros; simplify_eq; eauto.
Qed.

(** Verification reads the store, and refuses with a 401. *)
Lemma verify_outcome token w :
  (run (JwtService.verifyAccessToken options app_checker token) w).2 = w ∧
  ∀ e, (run (JwtService.verifyAccessToken options app_checker token) w).1 = Rejected e →
    ∃ msg code, e = AuthError msg code.
Proof.
  unfold JwtService.verifyAccessToken. rewrite run_catch.
  match goal with |- context [run ?p w] => assert ((run p w).2 = w ∧
    ∀ e, (run p w).1 = Rejected e → ∃ msg code, mapJoseError e = AuthError msg code) as [Hw He] end.
  { unfold JwtService.decodeProtectedHeaderSafe.
    destruct (decodeProtectedHeader token) as [h|];
      [|split; [done|]; intros e [= <-]; by eexists _, _].
    run_next. destruct (negb _); [split; [done|]; intros e [= <-]; by eexists _, _|].
    rewrite run_bind. pose proof (run_signing_key h.2 w) as [Hw Hs].
    destruct (run (JwtService.signing_key_for h.2) w) as [r w1]. simpl in Hw, Hs. subst w1.
    destruct r as [e|[pk|]];
      [|run_next|split; [done|]; intros e [= <-]; by eexists _, _].
    { split; [done|]. intros e' [= <-]. destruct Hs as [Hs|[m [= ->]]]; [done|]. by eexists _, _. }
    unfold JwtService.lift. destruct (jwtVerify _ _ _ _) as [e|c] eqn:Hj.
    { destruct (jose_verify_throws _ _ _ _ _ Hj) as (code & msg & ->). split; [done|].
      intros e [= <-]. apply mapJoseError_lib. }
    run_next. rewrite run_bind. pose proof (run_check_revoked (cl_jti c) w) as [Hw Hr].
    destruct (run (JwtService.check_revoked _ _) w) as [[e|[]] w1]; simpl in Hw, Hr; subst w1.
    - split; [done|]. intros e' [= <-]. destruct (Hr e eq_refl) as (st & co & m & ->).
      destruct (mapJoseError_lib co m) as (m' & c' & E). exists m', c'. exact E.
    - split; [done|]. intros e [= <-]. by eexists _, _.
    - done. }
  match goal with |- context [run ?p w] => destruct (run p w) as [[e|c] w1] end; simpl in *.
  - split; [done|]. intros e' [= <-]. by apply He.
  - done.
Qed.

(** Whatever string is presented, verification answers with the claims or
    with a 401 of the authentication error class: no library, key or database
    error escapes it. *)
Theorem verify_rejects_with_auth_error (token : string) (w w' : World) (e : Err) :
  run (JwtService.verifyAccessToken options app_checker token) w = (Rejected e, w') →
  ∃ msg code, e = AuthError msg code.
Proof.
  intros Hr. destruct (verify_outcome token w) as [_ He]. apply He. by rewrite Hr.
Qed.

(** C26: Soundness: claims are returned only for a token signed with the private
    key of a key the service publishes at that moment (the one its header names,
    or the first of the list when it names none), for this issuer and this
    audience, within its time window (five seconds of tolerance), carrying every
    required claim, and whose identifier is not on the denylist. *)
Theorem verify_sound (token : string) (w w' : World) (c : Claims) :
  run (JwtService.verifyAccessToken options app_checker token) w = (Resolved c, w') →
  (∃ kid priv pk pks, token = SignJWT kid c priv ∧ keypair (pk_publicKeyPem pk) priv ∧
     run listPublicKeys w = (Resolved pks, w) ∧ pk ∈ pks ∧
     if bool_decide (kid = "") then head pks = Some pk else pk_kid pk = kid ∧ publishes w kid (pk_publicKeyPem pk)) ∧
  cl_iss c = Some (jo_issuer options) ∧ jo_audience options ∈ default [] (cl_aud c) ∧
  (∀ nbf, cl_nbf c = Some nbf → nbf ≤ w_now w / 1000 + 5) ∧
  (∀ e, cl_exp c = Some e → w_now w / 1000 - 5 < e) ∧
  forallb (has_claim c) ["iss"; "sub"; "aud"; "exp"; "iat"; "jti"] = true ∧
  (∀ j, cl_jti c = Some j → j ≠ "" → ¬ denylisted j w).
Proof.
  unfold JwtService.verifyAccessToken. rewrite run_catch.
  match goal with |- context [run ?p w] => destruct (run p w) as [[err|c1] w1] eqn:Hr end; [done|].
  intros [= -> ->]. revert Hr. unfold JwtService.decodeProtectedHeaderSafe.
  destruct (decodeProtectedHeader token) as [h|] eqn:Hh; [|done].
  run_next. destruct (negb _); [done|].
  intros (signing & w2 & Hs & Hr)%run_bind_resolved.
  assert (w2 = w ∧ ∀ pk, signing = Some pk → ∃ pks, run listPublicKeys w = (Resolved pks, w) ∧ pk ∈ pks ∧
    match truthy h.2 with
    | Some k => run (getPublicKey k) w = (Resolved pk, w) ∧ pk_kid pk = k
    | None => head pks = Some pk
    end) as [-> Hkey].
  { unfold JwtService.signing_key_for in Hs. destruct (kms_list w) as [pks Hl]. destruct (truthy h.2) as [k|].
    - apply run_bind_resolved in Hs as (pk & w3 & Hk & Hs).
      destruct (kms_lookup _ _ _ _ Hk) as [-> Hkid]. injection Hs as <- <-.
      split; [done|]. intros pk' [= <-]. exists pks. split; [done|]. split; [by eapply kms_listed|done].
    - rewrite (run_bind_eq _ _ _ _ _ Hl) in Hs. injection Hs as <- <-. split; [done|]. intros pk Hpk.
      exists pks. split; [done|]. split; [|done]. by apply head_Some_elem_of. }
  destruct signing as [pk|]; [|done]. erewrite run_bind_eq in Hr by reflexivity.
  unfold JwtService.lift in Hr. destruct (jwtVerify _ _ _ _) as [e|c2] eqn:Hj; [done|].
  erewrite run_bind_eq in Hr by reflexivity.
  apply run_bind_resolved in Hr as (b & w3 & Hb & Hr). destruct b; [done|].
  injection Hr as -> ->. destruct (jose_verify_sound _ _ _ _ _ Hj) as (Hv & kid & priv & Hpair & ->).
  split.
  { rewrite jose_header in Hh. injection Hh as <-. destruct (Hkey pk eq_refl) as (pks & Hl & Hin & Hsel).
    exists kid, priv, pk, pks. split_and!; [done..|]. cbn [snd] in Hsel. destruct kid as [|a kid]; [exact Hsel|].
    destruct Hsel as [Hk Hkid]. split; [exact Hkid|]. exists (pk_createdAt pk). rewrite Hk. destruct pk. simpl in *. by subst. }
  apply verdict_none in Hv as (? & ? & ? & ? & ?). split_and!; try done.
  intros j Hjti Hne Hden. unfold JwtService.check_revoked, app_checker in Hb.
  rewrite Hjti in Hb. destruct j; [done|]. cbn [truthy] in Hb.
  by rewrite (run_isRevoked_yes _ _ Hden) in Hb.
Qed.

(** An ID token is not an access token: it lacks the token identifier that
    verification requires, and is refused whatever its audience. *)
Theorem id_token_not_access (extra : list (string * json)) (audience subject : string)
    (ttl : Z) (w : World) :
  kms_wf w → "jti" ∉ extra.*1 →
  ∃ token w' kid pub,
    run (JwtService.signIdToken options extra audience subject ttl) w = (Resolved token, w') ∧
    publishes w' kid pub ∧
    ∀ w'' checker, publishes w'' kid pub →
      run (JwtService.verifyAccessToken options checker token) w''
      = (Rejected (AuthError "Invalid token claims" "INVALID_TOKEN_CLAIMS"), w'').
Proof.
  intros Hwf Hjti. destruct (kms_current w Hwf) as (sk & w1 & Hcur & Hwf1 & Hkid & Hpair & Hpub).
  eexists _, w1, (sk_kid sk), (sk_publicKeyPem sk). split.
  { unfold JwtService.signIdToken. run_next_by Hcur. by run_next. }
  split; [done|]. intros w'' checker Hpub''.
  rewrite (run_verify_signed _ _ _ (sk_publicKeyPem sk)) by done.
  unfold claims_verdict. replace (forallb _ _) with false; [done|]. symmetry.
  apply not_true_is_false. rewrite forallb_forall. intros Hall.
  assert (has_claim (JwtService.id_claims options extra audience subject (w_now w1 / 1000) ttl)
    "jti" = true) as Hh.
  { apply Hall. simpl. tauto. }
  unfold has_claim in Hh. simpl in Hh. by rewrite bool_decide_eq_false_2 in Hh.
Qed.

(** Until when a denylist entry lives. *)
Definition denied_until (exp now : Z) : Z :=
  now + TokenRevocationService.denylist_ttl exp now * 1000.

Lemma denied_until_bounds exp now :
  now < exp * 1000 → exp * 1000 ≤ denied_until exp now < exp * 1000 + 1000.
Proof.
  intros H. unfold denied_until, TokenRevocationService.denylist_ttl.
  pose proof (Z.div_mod (now - exp * 1000) 1000) as Hd.
  pose proof (Z.mod_pos_bound (now - exp * 1000) 1000) as Hm. lia.
Qed.

Lemma run_revokeUntil jti exp w :
  run (TokenRevocationService.revokeUntil jti exp) w =
    (Resolved (), redis_put (TokenRevocationService.revoked_key jti)
       (mkEntry (VStr "1") (Some (denied_until exp (w_now w)))) w).
Proof.
  unfold TokenRevocationService.revokeUntil. run_next. apply run_set_value.
  unfold TokenRevocationService.denylist_ttl. lia.
Qed.

(** Verification while an entry that lives until [until] is on the denylist. *)
Lemma verify_denylisted input issued ttl jti kid pub priv until w t :
  let c := JwtService.access_claims options input issued ttl jti in
  kid ≠ "" → jti ≠ "" → publishes w kid pub → keypair pub priv →
  w_redis w !! TokenRevocationService.revoked_key jti = Some (mkEntry (VStr "1") (Some until)) →
  w_now w = t → issued ≤ t / 1000 →
  (t ≤ until → t / 1000 - 5 < issued + ttl) →
  (run (JwtService.verifyAccessToken options app_checker (SignJWT kid c priv)) w).1 =
    if t <=? until then Rejected (AuthError "Token has been revoked" "TOKEN_REVOKED")
    else if issued + ttl <=? t / 1000 - 5 then Rejected (AuthError "Token expired" "TOKEN_EXPIRED")
    else Resolved c.
Proof.
  intros c Hkid Hjti Hpub Hpair Hentry <- Hq Hexp.
  rewrite (run_verify_signed _ _ _ pub) by done. unfold c at 1. rewrite access_verdict.
  rewrite (proj2 (Z.ltb_ge _ _)) by lia.
  assert (Hlive : redis_value_at w (TokenRevocationService.revoked_key jti)
    = if w_now w <=? until then Some (VStr "1") else None).
  { unfold redis_value_at, redis_live. rewrite Hentry. simpl. unfold entry_live. simpl.
    by destruct (w_now w <=? until). }
  destruct (Z.leb_spec (w_now w) until) as [Hle|Hgt].
  - rewrite (proj2 (Z.leb_gt _ _)) by auto. rewrite run_catch.
    unfold JwtService.check_revoked, app_checker. cbn [cl_jti c JwtService.access_claims].
    destruct jti as [|a j]; [done|]. cbn [truthy]. by run_next_by (run_isRevoked_yes _ _ Hlive).
  - destruct (_ <=? w_now w / 1000 - 5); [done|]. rewrite run_catch.
    unfold JwtService.check_revoked, app_checker. cbn [cl_jti c JwtService.access_claims].
    destruct jti as [|a j]; [done|]. cbn [truthy]. by run_next_by (run_isRevoked_no _ _ Hlive).
Qed.

(** The reach of a revocation. A token revoked before it expires is refused
    from then on until its expiry, as it should be; but its denylist entry
    disappears less than a second after the expiry, while verification
    tolerates five: in between the revoked token is accepted again. *)
Theorem revocation_window (input : AccessTokenInput) (issued ttl : Z) (jti kid pub priv : string)
    (w : World) :
  let c := JwtService.access_claims options input issued ttl jti in
  let exp := issued + ttl in
  kid ≠ "" → jti ≠ "" → publishes w kid pub → keypair pub priv →
  issued * 1000 ≤ w_now w → w_now w < exp * 1000 →
  ∃ w', run (TokenRevocationService.revokeUntil jti exp) w = (Resolved (), w') ∧
    (∀ t, w_now w ≤ t →
      (run (JwtService.verifyAccessToken options app_checker (SignJWT kid c priv))
         (w' <| w_now := t |>)).1 =
      if t <=? denied_until exp (w_now w) then Rejected (AuthError "Token has been revoked" "TOKEN_REVOKED")
      else if exp <=? t / 1000 - 5 then Rejected (AuthError "Token expired" "TOKEN_EXPIRED")
      else Resolved c) ∧
    exp * 1000 ≤ denied_until exp (w_now w) < exp * 1000 + 1000 ∧
    (run (JwtService.verifyAccessToken options app_checker (SignJWT kid c priv))
       (w' <| w_now := exp * 1000 + 1000 |>)).1 = Resolved c.
Proof.
  intros c exp Hkid Hjti Hpub Hpair Hfrom Hto.
  pose proof (denied_until_bounds exp (w_now w) Hto) as Hbounds.
  eexists. split; [apply run_revokeUntil|]. set (w' := redis_put _ _ w).
  assert (Hall : ∀ t, w_now w ≤ t →
      (run (JwtService.verifyAccessToken options app_checker (SignJWT kid c priv))
         (w' <| w_now := t |>)).1 =
      if t <=? denied_until exp (w_now w) then Rejected (AuthError "Token has been revoked" "TOKEN_REVOKED")
      else if exp <=? t / 1000 - 5 then Rejected (AuthError "Token expired" "TOKEN_EXPIRED")
      else Resolved c).
  { intros t Ht. apply (verify_denylisted _ _ _ _ _ pub); try done.
    - by apply (kms_publishes_stable w).
    - unfold w'. simpl. by rewrite lookup_insert_eq.
    - apply Z.div_le_lower_bound; lia.
    - intros Hle. assert (t / 1000 < exp + 1); [apply Z.div_lt_upper_bound|]; lia. }
  split; [done|]. split; [done|].
  rewrite Hall by lia. rewrite (proj2 (Z.leb_gt _ _)) by lia.
  rewrite (proj2 (Z.leb_gt _ _)); [done|].
  assert ((exp * 1000 + 1000) / 1000 ≤ exp + 1) by (apply Z.div_le_upper_bound; lia). lia.
Qed.
End properties.
