(* ===== verification/ToyJose.v ===== *)
(** A concrete instance of the JOSE library, used by the witnesses: a token is
    the encoding of its header, its claims and the key it is signed with. *)
From S2P Require Import Prelude Async JsString Errors Store Toy Redis Keys Jwt.
From stdpp Require Import base countable gmap strings list.
From Stdlib Require Import ZArith.
Local Open Scope string_scope.
Local Open Scope list_scope.

(** * Encoding JSON values *)

Notation leaf := (string + Z)%type.

Fixpoint json_tree (v : json) : gen_tree leaf :=
  match v with
  | JNull => GenNode 0 []
  | JBool false => GenNode 1 []
  | JBool true => GenNode 2 []
  | JNum n => GenLeaf (inr n)
  | JStr s => GenLeaf (inl s)
  | JArr vs => GenNode 3 (map json_tree vs)
  | JObj fs => GenNode 4 (map (λ f, GenNode 5 [GenLeaf (inl f.1); json_tree f.2]) fs)
  end.

Fixpoint tree_json (t : gen_tree leaf) : json :=
  match t with
  | GenLeaf (inr n) => JNum n
  | GenLeaf (inl s) => JStr s
  | GenNode 1 _ => JBool false
  | GenNode 2 _ => JBool true
  | GenNode 3 ts => JArr (map tree_json ts)
  | GenNode 4 ts =>
      JObj (map (λ t, match t with
                      | GenNode _ [GenLeaf (inl s); v] => (s, tree_json v)
                      | _ => ("", JNull)
                      end) ts)
  | _ => JNull
  end.

Lemma tree_json_tree v : tree_json (json_tree v) = v.
Proof.
  revert v. fix IH 1. intros [|[]|n|s|vs|fs]; try reflexivity; simpl; f_equal.
  - induction vs as [|v vs IHl]; [reflexivity|]. simpl. by rewrite IH, IHl.
  - induction fs as [|[s v] fs IHl]; [reflexivity|]. simpl. by rewrite IH, IHl.
Qed.

(** * Encoding tokens *)

Definition str_tree (o : option string) : gen_tree leaf :=
  match o with Some s => GenLeaf (inl s) | None => GenNode 0 [] end.
Definition tree_str (t : gen_tree leaf) : option string :=
  match t with GenLeaf (inl s) => Some s | _ => None end.
Definition num_tree (o : option Z) : gen_tree leaf :=
  match o with Some n => GenLeaf (inr n) | None => GenNode 0 [] end.
Definition tree_num (t : gen_tree leaf) : option Z :=
  match t with GenLeaf (inr n) => Some n | _ => None end.
Definition strs_tree (o : option (list string)) : gen_tree leaf :=
  match o with Some l => GenNode 1 (map (λ s, GenLeaf (inl s)) l) | None => GenNode 0 [] end.
Definition tree_strs (t : gen_tree leaf) : option (list string) :=
  match t with
  | GenNode 1 ts => Some (map (λ t, default "" (tree_str t)) ts)
  | _ => None
  end.

Lemma tree_strs_tree o : tree_strs (strs_tree o) = o.
Proof.
  destruct o as [l|]; [|done]. simpl. f_equal. induction l as [|s l IH]; [done|]. simpl. by rewrite IH.
Qed.
Lemma tree_str_tree o : tree_str (str_tree o) = o.
Proof. by destruct o. Qed.
Lemma tree_num_tree o : tree_num (num_tree o) = o.
Proof. by destruct o. Qed.

Definition claims_tree (c : Claims) : gen_tree leaf :=
  GenNode 0
    [str_tree (cl_iss c); strs_tree (cl_aud c); str_tree (cl_sub c); num_tree (cl_iat c);
     num_tree (cl_nbf c); num_tree (cl_exp c); str_tree (cl_jti c); str_tree (cl_scope c);
     strs_tree (cl_roles c); strs_tree (cl_permissions c); str_tree (cl_sid c);
     str_tree (cl_client_id c); strs_tree (cl_amr c); json_tree (JObj (cl_extra c))].

Definition tree_claims (t : gen_tree leaf) : Claims :=
  match t with
  | GenNode _ [iss; aud; sub; iat; nbf; exp; jti; scope; roles; permissions; sid; client; amr; extra] =>
      mkClaims (tree_str iss) (tree_strs aud) (tree_str sub) (tree_num iat) (tree_num nbf)
        (tree_num exp) (tree_str jti) (tree_str scope) (tree_strs roles) (tree_strs permissions)
        (tree_str sid) (tree_str client) (tree_strs amr)
        (match tree_json extra with JObj fs => fs | _ => [] end)
  | _ => mkClaims None None None None None None None None None None None None None []
  end.

Lemma tree_claims_tree c : tree_claims (claims_tree c) = c.
Proof.
  unfold claims_tree, tree_claims. rewrite tree_json_tree, !tree_str_tree, !tree_strs_tree, !tree_num_tree.
  by destruct c.
Qed.

Definition toy_sign (kid : string) (c : Claims) (priv : string) : string :=
  bits (encode (GenNode 0 [GenLeaf (inl kid); claims_tree c; GenLeaf (inl priv)])).

(** The parts of a string that is a token. *)
Definition toy_read (t : string) : option (string * Claims * string) :=
  match decode (of_bits t) : option (gen_tree leaf) with
  | Some (GenNode 0 [GenLeaf (inl kid); c; GenLeaf (inl priv)]) =>
      if bool_decide (t = toy_sign kid (tree_claims c) priv)
      then Some (kid, tree_claims c, priv) else None
  | _ => None
  end.

Lemma toy_read_sign kid c priv : toy_read (toy_sign kid c priv) = Some (kid, c, priv).
Proof.
  unfold toy_read. unfold toy_sign at 1. rewrite of_bits_bits, decode_encode.
  by rewrite tree_claims_tree, bool_decide_eq_true_2.
Qed.

Lemma toy_read_sound t kid c priv : toy_read t = Some (kid, c, priv) → t = toy_sign kid c priv.
Proof.
  unfold toy_read. destruct (decode _) as [tr|]; [|done].
  destruct tr as [|[|n] ts]; try done. destruct ts as [|[[k|]|] ts]; try done.
  destruct ts as [|tc ts]; [done|]. destruct ts as [|[[pk|]|] ts]; try done. destruct ts; [|done].
  case_bool_decide as E; [|done]. intros [= <- <- <-]. exact E.
Qed.

(** * The library *)

(** The two halves of a key pair of the toy library. *)
Definition toy_pair (pub priv : string) : bool :=
  let n := Pos.pred_N (of_bits (slice_from 7 pub)) in
  bool_decide (generateKeyPair (Crypto := toy_crypto) n = (pub, priv)).

Lemma toy_pair_spec pub priv :
  toy_pair pub priv = true ↔ local_keypair (C := toy_crypto) pub priv.
Proof.
  unfold toy_pair, local_keypair. rewrite bool_decide_eq_true. split; [by eexists|].
  intros [n [= <- <-]]. cbn [generateKeyPair toy_crypto].
  rewrite (slice_from_app "public "), of_bits_bits, N.pos_pred_succ. done.
Qed.

Definition toy_jose : Jose := {|
  SignJWT := toy_sign;
  decodeProtectedHeader t :=
    match toy_read t with Some (kid, _, _) => Some (Some "EdDSA", Some kid) | None => None end;
  jwtVerify t pub o now :=
    match toy_read t with
    | Some (_, c, priv) =>
        if toy_pair pub priv then
          match claims_verdict o (now / 1000) c with
          | None => Resolved c
          | Some code => Rejected (ELib None (Some code) "")
          end
        else Rejected (ELib None (Some "ERR_JWS_SIGNATURE_VERIFICATION_FAILED") "")
    | None => Rejected (ELib None (Some "ERR_JWS_INVALID") "")
    end;
|}.

#[export] Instance toy_jose_laws : JoseLaws toy_jose (local_keypair (C := toy_crypto)).
Proof.
  split.
  - intros kid c priv. simpl. by rewrite toy_read_sign.
  - intros kid c pub priv o now Hpair. simpl. rewrite toy_read_sign.
    rewrite (proj2 (toy_pair_spec pub priv) Hpair).
    by destruct (claims_verdict _ _ _); [eexists|].
  - intros t pub o now c. simpl. destruct (toy_read t) as [[[kid c'] priv]|] eqn:Hr; [|done].
    destruct (toy_pair pub priv) eqn:Hp; [|done].
    destruct (claims_verdict _ _ c') eqn:Hv; [done|]. intros [= <-]. split; [done|].
    exists kid, priv. split; [by apply toy_pair_spec|]. by apply toy_read_sound.
  - intros t pub o now e. simpl. repeat break_match; intros; simplify_eq; by eexists _, _.
Qed.

(** * The properties of the token service at concrete inputs *)

Section witnesses.
#[local] Existing Instances toy toy_crypto toy_jose.

Lemma nothing_stored w k : w_redis w = ∅ → redis_value_at w k = None.
Proof. intros E. unfold redis_value_at, redis_live. by rewrite E, lookup_empty. Qed.

Lemma empty_keys_wf now : kms_wf (K := local_kms) (empty_world now).
Proof. exact (empty_keys_ok now). Qed.

Definition demo_token_input : AccessTokenInput :=
  mkTokenInput "uuid-1" "openid email" (Some ["user"]) None (Some "uuid-2") None None.

(** Signed at the epoch, verified a second later. *)
Lemma access_token_roundtrip_witness :
  ∃ s w' c,
    run (JwtService.signAccessToken app_jwt_options demo_token_input None) (empty_world 0)
      = (Resolved s, w') ∧ cl_sub c = Some "uuid-1" ∧ cl_exp c = Some 900%Z ∧
    (run (JwtService.verifyAccessToken app_jwt_options app_checker (sg_token s))
       (w' <| w_redis := ∅ |> <| w_now := 1000%Z |>)).1 = Resolved c.
Proof.
  destruct (access_token_roundtrip app_jwt_options demo_token_input None (empty_world 0)
    (empty_keys_wf 0)) as (s & w' & kid & pub & Hrun & _ & Hpub & _ & Hv).
  exists s, w', (JwtService.access_claims app_jwt_options demo_token_input 0 900 (sg_jti s)).
  split; [exact Hrun|]. split; [reflexivity|]. split; [reflexivity|].
  rewrite Hv; [reflexivity|apply (kms_publishes_stable w'); [by split|exact Hpub]|by apply nothing_stored].
Defined.

Lemma verify_rejects_with_auth_error_witness :
  ∃ msg code,
    run (JwtService.verifyAccessToken app_jwt_options app_checker "not a token") (empty_world 0)
      = (Rejected (AuthError msg code), empty_world 0).
Proof.
  destruct (verify_rejects_with_auth_error app_jwt_options "not a token" (empty_world 0)
    (empty_world 0) (AuthError "Malformed token" "MALFORMED_TOKEN")) as (m & c & E).
  - by vm_compute.
  - exists m, c. rewrite <- E. by vm_compute.
Defined.

Lemma verify_sound_witness :
  ∃ token w c,
    run (JwtService.verifyAccessToken app_jwt_options app_checker token) w = (Resolved c, w) ∧
    cl_iss c = Some "https://auth.local" ∧ ¬ denylisted "uuid-7" w.
Proof.
  destruct (access_token_roundtrip app_jwt_options demo_token_input None (empty_world 0)
    (empty_keys_wf 0)) as (s & w' & kid & pub & Hrun & _ & Hpub & _ & Hv).
  set (w1 := w' <| w_redis := ∅ |> <| w_now := 1000%Z |>).
  destruct (verify_sound app_jwt_options (sg_token s) w1 w1
    (JwtService.access_claims app_jwt_options demo_token_input 0 900 (sg_jti s)))
    as (_ & Hiss & _).
  - rewrite Hv; [done|apply (kms_publishes_stable w'); [by split|exact Hpub]|by apply nothing_stored].
  - exists (sg_token s), w1. eexists. split; [|split; [exact Hiss|]].
    + rewrite Hv; [done|apply (kms_publishes_stable w'); [by split|exact Hpub]|by apply nothing_stored].
    + unfold denylisted. by rewrite nothing_stored.
Defined.

Lemma id_token_not_access_witness :
  ∃ token w',
    run (JwtService.signIdToken app_jwt_options [("nonce", JStr "n")] "api" "uuid-1" 3600)
      (empty_world 0) = (Resolved token, w') ∧
    (run (JwtService.verifyAccessToken app_jwt_options app_checker token) w').1
      = Rejected (AuthError "Invalid token claims" "INVALID_TOKEN_CLAIMS").
Proof.
  destruct (id_token_not_access app_jwt_options [("nonce", JStr "n")] "api" "uuid-1" 3600
    (empty_world 0) (empty_keys_wf 0)) as (token & w' & kid & pub & Hrun & Hpub & Hv).
  - set_solver.
  - exists token, w'. split; [exact Hrun|]. by rewrite Hv.
Defined.

(** A token of fifteen minutes, revoked ten minutes after it was issued. *)
Lemma revocation_window_witness :
  ∃ token w w',
    run (TokenRevocationService.revokeUntil "uuid-7" 900) w = (Resolved (), w') ∧
    is_Some (match (run (JwtService.verifyAccessToken app_jwt_options app_checker token)
                      (w' <| w_now := 901000%Z |>)).1 with Resolved c => cl_jti c | _ => None end).
Proof.
  destruct (kms_current (K := local_kms) (empty_world 0) (empty_keys_wf 0))
    as (sk & w0 & _ & _ & Hkid & Hpair & Hpub).
  destruct (revocation_window app_jwt_options demo_token_input 0 900 "uuid-7" (sk_kid sk)
    (sk_publicKeyPem sk) (sk_privateKeyPem sk) (w0 <| w_now := 600000%Z |>))
    as (w' & Hrun & _ & _ & Hback); try done.
  - by apply (kms_publishes_stable w0).
  - eexists _, _, w'. split; [exact Hrun|].
    change (901000%Z) with ((0 + 900) * 1000 + 1000)%Z. rewrite Hback. by eexists.
Defined.
End witnesses.
