(* ===== verification/Guards.v ===== *)
(** src/common/guards: bearer authentication, and the permission and scope
    guards of the routes. *)
From S2P Require Import Prelude Async JsString Errors Store Evolution Toy Redis Keys Jwt ToyJose RateLimit Http.
From stdpp Require Import base gmap strings list.
From Stdlib Require Import ZArith.
Local Open Scope string_scope.
Local Open Scope list_scope.
Local Open Scope Z_scope.

(** [header?.startsWith('Bearer ')] and [header.slice(7)] *)
Definition bearer (rq : HttpRequest) : option string :=
  match header rq "authorization" with
  | Some h => if starts_with h "Bearer " then Some (slice_from 7 h) else None
  | None => None
  end.

(** [req.user] for the claims of a token. The subject is always present:
    verification requires it. *)
Definition user_of_claims (c : Claims) : AuthenticatedUser :=
  mkAuthUser (default "" (cl_sub c)) (default "" (cl_scope c)) (cl_roles c) (cl_permissions c)
    (cl_sid c) (cl_client_id c) (default "" (cl_jti c)).

(** [(user.scope ?? '').split(/\s+/).filter(Boolean)] *)
Definition tokenPermissions (user : AuthenticatedUser) : list string := scope_list (au_scope user).

Definition granted (user : AuthenticatedUser) : list string :=
  default [] (au_permissions user) ++ tokenPermissions user.

Definition requirePermission (permissions : list string) : RequestHandler := λ rq,
  match rq_user rq with
  | None => mret (NextErr rq (ForbiddenError "Authentication required" "FORBIDDEN"))
  | Some user =>
      if forallb (includes (granted user)) permissions then mret (Next rq)
      else mret (NextErr rq (ForbiddenError
             ("Missing required permission(s): " +:+ js_join ", " permissions) "MISSING_PERMISSION"))
  end.

Definition requireScope (scopes : list string) : RequestHandler := λ rq,
  match rq_user rq with
  | None => mret (NextErr rq (ForbiddenError "Authentication required" "FORBIDDEN"))
  | Some user =>
      if existsb (includes (tokenPermissions user)) scopes then mret (Next rq)
      else mret (NextErr rq (ForbiddenError
             ("Missing required scope(s): " +:+ js_join ", " scopes) "INSUFFICIENT_SCOPE"))
  end.

Section guards.
Context `{P : Platform, K : KeyManagementService, J : Jose}.

(** The token service of the application. *)
Definition verify_token (token : string) : M Claims :=
  JwtService.verifyAccessToken app_jwt_options app_checker token.

Definition authenticate : RequestHandler := λ rq,
  catch (λ err, mret (NextErr rq err))
    (match bearer rq with
     | None => Throw AuthError_default
     | Some token =>
         payload ← verify_token token;
         mret (Next (rq <| rq_user := Some (user_of_claims payload) |>))
     end).

Definition maybeAuthenticate : RequestHandler := λ rq,
  match bearer rq with
  | None => mret (Next rq)
  | Some _ => authenticate rq
  end.
End guards.

(** * What the guards let through *)

Lemma pure_requirePermission ps : pure_handler (requirePermission ps).
Proof.
  intros rq w. unfold requirePermission. destruct (rq_user rq); [|by eexists].
  destruct (forallb _ _); by eexists.
Qed.

Lemma pure_requireScope ss : pure_handler (requireScope ss).
Proof.
  intros rq w. unfold requireScope. destruct (rq_user rq); [|by eexists].
  destruct (existsb _ _); by eexists.
Qed.

Lemma run_requirePermission_next ps rq w rq' w' :
  run (requirePermission ps rq) w = (Resolved (Next rq'), w') →
  rq' = rq ∧ w' = w ∧ ∃ user, rq_user rq = Some user ∧ ∀ p, p ∈ ps → p ∈ granted user.
Proof.
  unfold requirePermission. destruct (rq_user rq) as [user|] eqn:Hu; [|done].
  destruct (forallb _ _) eqn:Hall; [|done]. intros [= <- <-]. do 2 (split; [done|]).
  exists user. split; [done|]. intros p Hp. apply includes_spec.
  rewrite forallb_forall in Hall. apply Hall. by apply list_elem_of_In.
Qed.

(** How a guard refuses: with a 401 or a 403 of the program. *)
Definition refusal (e : Err) : Prop :=
  (∃ msg code, e = AuthError msg code) ∨ (∃ msg code, e = ForbiddenError msg code).

Lemma run_requirePermission ps rq w :
  (run (requirePermission ps rq) w = (Resolved (Next rq), w) ∧
   ∃ user, rq_user rq = Some user ∧ ∀ p, p ∈ ps → p ∈ granted user) ∨
  (∃ e, run (requirePermission ps rq) w = (Resolved (NextErr rq e), w) ∧ refusal e).
Proof.
  unfold requirePermission. destruct (rq_user rq) as [user|] eqn:Hu.
  - destruct (forallb _ _) eqn:Hall; [left; split; [done|]|right; eexists; split; [done|]].
    + exists user. split; [done|]. intros p Hp. apply includes_spec.
      rewrite forallb_forall in Hall. apply Hall. by apply list_elem_of_In.
    + right. by eexists _, _.
  - right. eexists. split; [done|]. right. by eexists _, _.
Qed.

Section properties.
Context `{P : Platform, K : KeyManagementService, J : Jose}.

(** The guards let no error escape. *)
Lemma answers_authenticate : answers authenticate.
Proof.
  intros rq w. unfold authenticate. rewrite run_catch.
  match goal with |- context [run ?p w] => by destruct (run p w) as [[]] end.
Qed.

Lemma answers_maybeAuthenticate : answers maybeAuthenticate.
Proof.
  intros rq w. unfold maybeAuthenticate. destruct (bearer rq); [apply answers_authenticate|done].
Qed.

Context `{KL : !KmsLaws K, JL : !JoseLaws J keypair}.

Lemma verify_token_rejects token w e w' :
  run (verify_token token) w = (Rejected e, w') → ∃ msg code, e = AuthError msg code.
Proof.
  intros Hr. apply (verify_outcome app_jwt_options token w). unfold verify_token in Hr. by rewrite Hr.
Qed.

(** Verification reads the store. *)
Lemma run_verify_token_store token w :
  (run (verify_token token) w).2 = w.
Proof. apply verify_outcome. Qed.

Lemma run_authenticate rq w :
  (∃ token c, bearer rq = Some token ∧ run (verify_token token) w = (Resolved c, w) ∧
     run (authenticate rq) w = (Resolved (Next (rq <| rq_user := Some (user_of_claims c) |>)), w)) ∨
  (∃ e, run (authenticate rq) w = (Resolved (NextErr rq e), w) ∧ refusal e ∧
     ∀ token, bearer rq = Some token → run (verify_token token) w = (Rejected e, w)).
Proof.
  unfold authenticate. rewrite run_catch. destruct (bearer rq) as [token|].
  - rewrite run_bind. pose proof (run_verify_token_store token w) as Hs.
    destruct (run (verify_token token) w) as [[e|c] w'] eqn:Hv; simpl in Hs; subst w'.
    + right. exists e. split; [done|]. split; [left; by apply (verify_token_rejects token w e w)|].
      by intros token' [= <-].
    + left. by exists token, c.
  - right. eexists. split; [done|]. split; [left; by eexists _, _|done].
Qed.

End properties.
