(* ===== verification/Mfa.v ===== *)
(** src/modules/mfa/mfa.service.ts: TOTP enrolment and the second factor of a
    login. *)
From S2P Require Import Prelude Async JsString Errors Store Evolution Toy Redis Sessions Keys.
From stdpp Require Import base gmap strings list relations.
From Stdlib Require Import ZArith.
Local Open Scope string_scope.
Local Open Scope list_scope.
Local Open Scope Z_scope.

Module MfaService.
Definition challengeKey (id : string) : string := RedisService.key ["mfa"; "challenge"; id].

Definition INVALID_MFA_CODE : Err := AuthError "Invalid MFA code" "INVALID_MFA_CODE".

Section service.
Context `{P : Platform, K : KeyManagementService}.

(** [authenticator.check(code, secret)], at the time of the call. *)
Definition check (code secret : string) : M bool :=
  now ← now_ms; mret (totp_check code secret now).

(** INSERT .. ON CONFLICT (user_id, type) DO UPDATE. *)
Definition upsert (userId : string) (secret : EncryptedEnvelope) (w : World)
    : outcome Err () * World :=
  let id := random_uuid (w_draws w) in
  let mine := λ m, m_user_id m = userId in
  if decide (userId ∈ m_user_id <$> mfa_methods (w_db w)) then
    (Resolved (),
     on_db (λ d, d <| mfa_methods ::= sql_update mine
       (λ m, m <| m_secret_encrypted := secret |> <| m_status := MPending |>
               <| m_enrolled_at := None |> <| m_last_used_at := None |>) |>) w
     <| w_draws ::= N.succ |>)
  else if decide (id ∈ m_id <$> mfa_methods (w_db w)) then (Rejected unique_violation, w)
  else
    (Resolved (),
     on_db (λ d, d <| mfa_methods ::= λ t,
       t ++ [mkMfaMethodRow id userId secret MPending false None None] |>) w
     <| w_draws ::= N.succ |>).

Definition beginEnroll (userId email : string) : M (string * string) :=
  secret ← draw totp_generateSecret;
  encrypted ← kms_encrypt secret;
  _ ← attempt (upsert userId encrypted);
  let otpauthUrl := totp_keyuri email (MFA_ISSUER cfg) secret in
  mret (otpauthUrl, qr_toDataURL otpauthUrl).

Definition method_with (st : mfa_status) (userId : string) (d : Db) : option MfaMethodRow :=
  sql_first (λ m, m_user_id m = userId ∧ m_status m = st) (mfa_methods d).
Definition getActiveMethod (userId : string) : M (option MfaMethodRow) :=
  db_select (method_with MActive userId).
Definition getPendingMethod (userId : string) : M (option MfaMethodRow) :=
  db_select (method_with MPending userId).

Definition decryptSecret (stored : EncryptedEnvelope) : M string := kms_decrypt stored.

Definition set_mfa_required (userId : string) (b : bool) : M () :=
  db_exec (λ _ d, d <| users ::=
    sql_update (λ u, u_id u = userId) (λ u, u <| u_mfa_required := b |>) |>).

Definition confirmEnroll (userId code : string) : M () :=
  method ← getPendingMethod userId;
  match method with
  | None => Throw (AuthError "No pending MFA enrollment" "MFA_NOT_ENROLLING")
  | Some m =>
      secret ← decryptSecret (m_secret_encrypted m);
      ok ← check code secret;
      if negb ok then Throw INVALID_MFA_CODE
      else
        _ ← db_exec (λ now d, d <| mfa_methods ::= sql_update (λ m, m_user_id m = userId)
              (λ m, m <| m_status := MActive |> <| m_enrolled_at := Some now |>
                      <| m_is_primary := true |>) |>);
        set_mfa_required userId true
  end.

Definition hasActiveMethod (userId : string) : M bool :=
  db_select (λ d, bool_decide (is_Some (method_with MActive userId d))).

Definition getEmailForUser (userId : string) : M string :=
  row ← db_select (λ d, sql_first (λ u, u_id u = userId) (users d));
  match row with
  | None => Throw (AuthError "User not found" "USER_NOT_FOUND")
  | Some u => mret (u_email u)
  end.

Definition createLoginChallenge (userId sessionId : string) : M string :=
  challengeId ← draw random_uuid;
  _ ← RedisService.setJson (challengeKey challengeId)
        (VChallenge (mkChallenge userId sessionId 0)) (Some (MFA_CHALLENGE_TTL cfg));
  mret challengeId.

Definition one_more (c : MfaChallengePayload) : MfaChallengePayload :=
  mkChallenge (ch_userId c) (ch_sessionId c) (ch_attempts c + 1).

(** The part of [verifyLoginChallenge] after the challenge has been read. *)
Definition verify_read (key code : string) (challenge : option MfaChallengePayload) : M string :=
  match challenge with
  | None => Throw (AuthError "Invalid or expired MFA challenge" "INVALID_MFA_CHALLENGE")
  | Some c =>
      if 3 <=? ch_attempts c then
        _ ← RedisService.del key;
        Throw (AuthError "Too many MFA attempts" "MFA_ATTEMPTS_EXCEEDED")
      else
        method ← getActiveMethod (ch_userId c);
        secret ← match method with
                 | Some m => s ← decryptSecret (m_secret_encrypted m); mret (Some s)
                 | None => mret None
                 end;
        ok ← match secret with
             | None | Some EmptyString => mret false
             | Some s => check code s
             end;
        match method, (ok : bool) with
        | Some m, true =>
            _ ← db_exec (λ _ d, d <| sessions ::= sql_update (λ s, s_id s = ch_sessionId c)
                  (λ s, s <| s_mfa_passed := true |>) |>);
            _ ← db_exec (λ now d, d <| mfa_methods ::= sql_update (λ x, m_id x = m_id m)
                  (λ x, x <| m_last_used_at := Some now |>) |>);
            _ ← RedisService.del key;
            mret (ch_sessionId c)
        | _, _ =>
            _ ← RedisService.setJson key (VChallenge (one_more c)) (Some (MFA_CHALLENGE_TTL cfg));
            Throw INVALID_MFA_CODE
        end
  end.

Definition verifyLoginChallenge (challengeId code : string) : M string :=
  let key := challengeKey challengeId in
  challenge ← RedisService.getChallenge key;
  verify_read key code challenge.

Definition disable (userId code : string) : M () :=
  method ← getActiveMethod userId;
  match method with
  | None => Throw (AuthError "MFA is not enabled" "MFA_NOT_ENABLED")
  | Some m =>
      secret ← decryptSecret (m_secret_encrypted m);
      ok ← check code secret;
      if negb ok then Throw INVALID_MFA_CODE
      else
        _ ← db_exec (λ _ d, d <| mfa_methods ::= sql_update (λ x, m_id x = m_id m)
              (λ x, x <| m_status := MDisabled |>) |>);
        set_mfa_required userId false
  end.
End service.
End MfaService.
Import MfaService.

(** * Steps of the store *)

Section evolution.
Context `{P : Platform, K : KeyManagementService, KL : !KmsLaws K}.

Lemma check_step code secret : respects step (check code secret).
Proof. unfold check. respects_step. Qed.
Lemma upsert_step u e : respects step (attempt (upsert u e)).
Proof.
  apply respects_attempt. intros w. unfold upsert. repeat case_decide; [|done|]; step_tables.
Qed.
Lemma decryptSecret_step e : respects step (decryptSecret e).
Proof. apply key_step_step, kms_decrypt_frame. Qed.
Lemma kms_encrypt_step e : respects step (kms_encrypt e).
Proof. apply key_step_step, kms_encrypt_frame. Qed.
Lemma methods_step (f : Z → list MfaMethodRow → list MfaMethodRow) :
  respects step (db_exec (λ now d, d <| mfa_methods ::= f now |>)).
Proof. apply respects_writes. intros w. by apply step_same. Qed.
Lemma set_mfa_required_step u b : respects step (set_mfa_required u b).
Proof.
  apply respects_writes. intros w. step_tables. by apply user_evolves_update.
Qed.
Lemma mfa_passed_step id :
  respects step (db_exec (λ _ d, d <| sessions ::=
    sql_update (λ s, s_id s = id) (λ s, s <| s_mfa_passed := true |>) |>)).
Proof.
  apply respects_writes. intros w. step_tables. apply evolves_update; [apply _|done|apply sess_le_id].
Qed.
#[local] Hint Resolve check_step upsert_step decryptSecret_step kms_encrypt_step methods_step
  set_mfa_required_step mfa_passed_step : steps.

Lemma beginEnroll_step u e : respects step (beginEnroll u e).
Proof. unfold beginEnroll. respects_step. Qed.
Lemma confirmEnroll_step u c : respects step (confirmEnroll u c).
Proof. unfold confirmEnroll, getPendingMethod. respects_step. Qed.
Lemma hasActiveMethod_step u : respects step (hasActiveMethod u).
Proof. apply select_step. Qed.
Lemma getEmailForUser_step u : respects step (getEmailForUser u).
Proof. unfold getEmailForUser. respects_step. Qed.
Lemma createLoginChallenge_step u s : respects step (createLoginChallenge u s).
Proof. unfold createLoginChallenge. respects_step. Qed.
Lemma verifyLoginChallenge_step id code : respects step (verifyLoginChallenge id code).
Proof.
  unfold verifyLoginChallenge, verify_read, getActiveMethod. respects_step.
Qed.
Lemma disable_step u c : respects step (disable u c).
Proof. unfold disable, getActiveMethod. respects_step. Qed.
End evolution.
#[export] Hint Resolve beginEnroll_step confirmEnroll_step hasActiveMethod_step
  getEmailForUser_step createLoginChallenge_step verifyLoginChallenge_step disable_step : steps.

(** * The second factor *)

Section properties.
Context `{P : Platform, K : KeyManagementService, KL : !KmsLaws K}.
Context (ttl_positive : 0 < MFA_CHALLENGE_TTL cfg).

(** The store after an accepted code, after a refused one. *)
Definition accepted_code (key : string) (c : MfaChallengePayload) (m : MfaMethodRow) (w : World) : World :=
  on_db (λ d, d
    <| sessions ::= sql_update (λ s, s_id s = ch_sessionId c) (λ s, s <| s_mfa_passed := true |>) |>
    <| mfa_methods ::= sql_update (λ x, m_id x = m_id m)
         (λ x, x <| m_last_used_at := Some (w_now w) |>) |>) w <| w_redis ::= delete key |>.

Definition refused_code (key : string) (c : MfaChallengePayload) (w : World) : World :=
  redis_put key (mkEntry (VChallenge (one_more c))
    (Some (w_now w + MFA_CHALLENGE_TTL cfg * 1000))) w.

(** Everything [verifyLoginChallenge] can do with a challenge that has
    attempts left. *)
Inductive verdict (key code : string) (c : MfaChallengePayload) (w : World) :
    outcome Err string → World → Prop :=
  | v_accepted m secret w1 :
      method_with MActive (ch_userId c) (w_db w) = Some m →
      run (kms_decrypt (m_secret_encrypted m)) w = (Resolved secret, w1) → key_step w w1 →
      secret ≠ "" → totp_check code secret (w_now w) = true →
      verdict key code c w (Resolved (ch_sessionId c)) (accepted_code key c m w1)
  | v_refused w1 :
      key_step w w1 →
      (∀ m secret, method_with MActive (ch_userId c) (w_db w) = Some m →
         run (kms_decrypt (m_secret_encrypted m)) w = (Resolved secret, w1) →
         secret = "" ∨ totp_check code secret (w_now w) = false) →
      (∀ m secret, method_with MActive (ch_userId c) (w_db w) = Some m →
         sealed w (m_secret_encrypted m) secret → w1 = w) →
      verdict key code c w (Rejected INVALID_MFA_CODE) (refused_code key c w1)
  | v_broken msg w1 :
      key_step w w1 →
      (∀ m secret, method_with MActive (ch_userId c) (w_db w) = Some m →
         ¬ sealed w (m_secret_encrypted m) secret) →
      verdict key code c w (Rejected (KmsError msg)) w1.

Lemma key_step_now w w1 : key_step w w1 → w_now w1 = w_now w.
Proof. intros [E _]. unfold non_keys in E. by injection E. Qed.
Lemma key_step_db w w1 : key_step w w1 → w_db w1 = w_db w.
Proof. intros [E _]. unfold non_keys in E. by injection E. Qed.
Lemma key_step_redis w w1 : key_step w w1 → w_redis w1 = w_redis w.
Proof. intros [E _]. unfold non_keys in E. by injection E. Qed.

Lemma run_refuse {A} key c w :
  run (_ ← RedisService.setJson key (VChallenge (one_more c)) (Some (MFA_CHALLENGE_TTL cfg));
       Throw INVALID_MFA_CODE : M A) w = (Rejected INVALID_MFA_CODE, refused_code key c w).
Proof. unfold RedisService.setJson. by run_next_by (run_set_value key (VChallenge (one_more c)) _ w ttl_positive). Qed.

Lemma verify_read_verdict key code c w :
  ch_attempts c < 3 →
  verdict key code c w (run (verify_read key code (Some c)) w).1
    (run (verify_read key code (Some c)) w).2.
Proof.
  intros Hlt. unfold verify_read. rewrite (proj2 (Z.leb_gt _ _)) by done.
  run_next.
  destruct (method_with MActive (ch_userId c) (w_db w)) as [m|] eqn:Hm; cycle 1.
  { run_next. run_next. rewrite run_refuse. apply v_refused; [done|..]; intros m s Hm'; congruence. }
  pose proof (respects_run key_step _ w (kms_decrypt_frame (m_secret_encrypted m))) as Hk.
  destruct (run (kms_decrypt (m_secret_encrypted m)) w) as [[e|s] w1] eqn:Hd; simpl in Hk.
  { destruct (kms_unseal_error _ _ _ _ Hd) as [msg ->].
    erewrite run_bind_throw by (apply run_bind_throw; exact Hd).
    apply v_broken; [done|]. unfold sealed. intros m' s Hm' Hd'. assert (m' = m) as -> by congruence. congruence. }
  assert (Hs : run (s' ← decryptSecret (m_secret_encrypted m); mret (Some s')) w
    = (Resolved (Some s), w1)) by (by erewrite run_bind_eq by exact Hd).
  rewrite (run_bind_eq _ _ _ _ _ Hs).
  assert (Hc : run (match s with EmptyString => mret false | _ => check code s end) w1
    = (Resolved (match s with EmptyString => false | _ => totp_check code s (w_now w) end), w1)).
  { rewrite <- (key_step_now w w1) by done. by destruct s. }
  erewrite run_bind_eq by exact Hc. clear Hc Hs.
  assert (Hone : ∀ m' s', method_with MActive (ch_userId c) (w_db w) = Some m' →
    run (kms_decrypt (m_secret_encrypted m')) w = (Resolved s', w1) → s' = s).
  { intros m' s' Hm' Hd'. assert (m' = m) as -> by congruence. congruence. }
  assert (Hsame : ∀ m' s', method_with MActive (ch_userId c) (w_db w) = Some m' →
    sealed w (m_secret_encrypted m') s' → w1 = w).
  { unfold sealed. intros m' s' Hm' Hd'. assert (m' = m) as -> by congruence. congruence. }
  destruct s as [|a s].
  { rewrite run_refuse. apply v_refused; [done| |done]. intros m' s' Hm' Hd'. left. by apply (Hone m'). }
  destruct (totp_check code (String a s) (w_now w)) eqn:Ht.
  - cbn. by eapply (v_accepted _ _ _ _ m (String a s) w1).
  - rewrite run_refuse. apply v_refused; [done| |done]. intros m' s' Hm' Hd'. right.
    by rewrite (Hone m' s').
Qed.

(** The two answers given before the code is looked at. *)
Lemma verify_read_none key code w :
  run (verify_read key code None) w
  = (Rejected (AuthError "Invalid or expired MFA challenge" "INVALID_MFA_CHALLENGE"), w).
Proof. done. Qed.
Lemma verify_read_spent key code c w :
  3 ≤ ch_attempts c →
  run (verify_read key code (Some c)) w
  = (Rejected (AuthError "Too many MFA attempts" "MFA_ATTEMPTS_EXCEEDED"),
     w <| w_redis ::= delete key |>).
Proof. intros H. unfold verify_read. by rewrite (proj2 (Z.leb_le _ _)). Qed.

(** The challenge a lookup finds. *)
Definition live_challenge (id : string) (w : World) : option MfaChallengePayload :=
  match redis_value_at w (challengeKey id) with Some (VChallenge c) => Some c | _ => None end.

Lemma run_verify id code w :
  run (verifyLoginChallenge id code) w
  = run (verify_read (challengeKey id) code (live_challenge id w)) w.
Proof. unfold verifyLoginChallenge, RedisService.getChallenge. by run_next. Qed.

(** C30: A second factor passes only with a live challenge that has attempts left
    and with the code of the active method of the user it was issued for; it
    marks exactly the session of the challenge and consumes the challenge. A
    refusal changes no session. *)
Theorem mfa_verify_sound (id code : string) (w w' : World) (r : outcome Err string) :
  run (verifyLoginChallenge id code) w = (r, w') →
  match r with
  | Resolved sid =>
      ∃ c m secret w1, live_challenge id w = Some c ∧ ch_attempts c < 3 ∧
        m ∈ mfa_methods (w_db w) ∧ m_user_id m = ch_userId c ∧ m_status m = MActive ∧
        run (kms_decrypt (m_secret_encrypted m)) w = (Resolved secret, w1) ∧
        totp_check code secret (w_now w) = true ∧ sid = ch_sessionId c ∧
        sessions (w_db w') = sql_update (λ s, s_id s = sid) (λ s, s <| s_mfa_passed := true |>)
                               (sessions (w_db w)) ∧
        w_redis w' = delete (challengeKey id) (w_redis w)
  | Rejected _ => sessions (w_db w') = sessions (w_db w)
  end.
Proof.
  rewrite run_verify. destruct (live_challenge id w) as [c|] eqn:Hc; cycle 1.
  { rewrite verify_read_none. by intros [= <- <-]. }
  destruct (Z_lt_le_dec (ch_attempts c) 3) as [Hlt|Hge]; cycle 1.
  { rewrite verify_read_spent by done. by intros [= <- <-]. }
  intros Hrun. pose proof (verify_read_verdict (challengeKey id) code c w Hlt) as Hv.
  rewrite Hrun in Hv. cbn [fst snd] in Hv. destruct Hv as [m secret w1 Hm Hd Hk Hne Ht|w1 Hk Hno _|msg w1 Hk _].
  - exists c, m, secret, w1. apply sql_first_Some in Hm as [Hus Hin]. cbv beta in Hus. destruct Hus as [Hu Hs].
    split_and!; try done; simpl; by rewrite ?(key_step_db _ _ Hk), ?(key_step_redis _ _ Hk).
  - simpl. by rewrite (key_step_db _ _ Hk).
  - by rewrite (key_step_db _ _ Hk).
Qed.

(** ** The limit of three attempts *)

(** Codes presented one after the other, each at its time. *)
Fixpoint guess_all (id : string) (guesses : list (Z * string)) (w : World)
    : list (outcome Err string) :=
  match guesses with
  | [] => []
  | (t, code) :: guesses =>
      let '(r, w') := run (verifyLoginChallenge id code) (w <| w_now := t |>) in
      r :: guess_all id guesses w'
  end.

(** The code was compared with the secret. *)
Definition evaluated (r : outcome Err string) : Prop :=
  match r with Resolved _ => True | Rejected e => err_code e = Some "INVALID_MFA_CODE" end.
#[global] Instance evaluated_dec r : Decision (evaluated r).
Proof. destruct r; simpl; apply _. Defined.

(** What is left of the three attempts. *)
Definition budget (id : string) (w : World) : nat :=
  match re_value <$> w_redis w !! challengeKey id with
  | Some (VChallenge c) => Z.to_nat (3 - ch_attempts c)
  | _ => 0
  end.

Lemma live_challenge_entry id w c :
  live_challenge id w = Some c → re_value <$> w_redis w !! challengeKey id = Some (VChallenge c).
Proof.
  unfold live_challenge, redis_value_at. destruct (redis_live w _) as [e|] eqn:He; [|done].
  apply redis_live_Some in He as [-> _]. simpl. by destruct (re_value e); intros; simplify_eq.
Qed.

Lemma budget_delete id w w' : w_redis w' = delete (challengeKey id) (w_redis w) → budget id w' = 0%nat.
Proof. intros E. unfold budget. by rewrite E, lookup_delete_eq. Qed.

Lemma budget_step id code w :
  let r := (run (verifyLoginChallenge id code) w).1 in
  let w' := (run (verifyLoginChallenge id code) w).2 in
  ((if decide (evaluated r) then 1 else 0) + budget id w' ≤ budget id w)%nat ∧
  (∀ sid, r = Resolved sid → budget id w' = 0%nat).
Proof.
  rewrite run_verify. destruct (live_challenge id w) as [c|] eqn:Hc; cycle 1.
  { by rewrite verify_read_none. }
  assert (Hb : budget id w = Z.to_nat (3 - ch_attempts c)).
  { unfold budget. by rewrite (live_challenge_entry id w c). }
  destruct (Z_lt_le_dec (ch_attempts c) 3) as [Hlt|Hge]; cycle 1.
  { rewrite verify_read_spent by done. simpl. rewrite (budget_delete id w) by done. by split; [lia|]. }
  destruct (verify_read_verdict (challengeKey id) code c w Hlt)
    as [m secret w1 Hm Hd Hk Hne Ht|w1 Hk Hno _|msg w1 Hk]; cbn zeta.
  - rewrite (budget_delete id w1) by done. rewrite Hb. split; [|done]. by case_decide; lia.
  - split; [|done]. rewrite Hb. unfold budget at 1, refused_code, redis_put. simpl.
    rewrite lookup_insert_eq. simpl. lia.
  - split; [|done]. unfold budget at 1. rewrite (key_step_redis _ _ Hk), decide_False by done. done.
Qed.

Lemma budget_guesses id guesses w :
  (sql_count evaluated (guess_all id guesses w) ≤ budget id w)%nat.
Proof.
  revert w. induction guesses as [|[t code] guesses IH]; intros w; [unfold sql_count; simpl; lia|].
  simpl. destruct (budget_step id code (w <| w_now := t |>)) as [Hs _].
  destruct (run _ _) as [r w']. specialize (IH w'). rewrite sql_count_cons. simpl in Hs.
  change (budget id (w <| w_now := t |>)) with (budget id w) in Hs. lia.
Qed.

(** Codes presented one after the other, at any times: at most three of them
    are compared with the secret, and none after one has been accepted. *)
Theorem mfa_attempts_bounded (userId sessionId : string) (guesses : list (Z * string))
    (w : World) :
  ∃ id w1, run (createLoginChallenge userId sessionId) w = (Resolved id, w1) ∧
    (sql_count evaluated (guess_all id guesses w1) ≤ 3)%nat ∧
    ∀ before sid after, guess_all id guesses w1 = before ++ Resolved sid :: after →
      Forall (λ r, ¬ evaluated r) after.
Proof.
  eexists _, _. split.
  { unfold createLoginChallenge, RedisService.setJson. run_next.
    erewrite run_bind_eq by (by apply run_set_value). done. }
  split.
  - etrans; [apply budget_guesses|]. unfold budget. simpl. by rewrite lookup_insert_eq.
  - match goal with |- context [guess_all ?i _ ?v] => generalize i, v end. intros id.
    induction guesses as [|[t code] guesses IH]; intros v before sid after; simpl.
    { by destruct before. }
    destruct (budget_step id code (v <| w_now := t |>)) as [_ Hacc].
    destruct (run _ _) as [r v'] eqn:Hr. destruct before as [|r' before]; [|intros [= _ E]; by eapply IH].
    intros [= -> <-]. pose proof (budget_guesses id guesses v') as Hz.
    rewrite (Hacc sid eq_refl : budget id v' = 0%nat) in Hz.
    apply Forall_forall. intros x Hx Hev. unfold sql_count in Hz.
    assert (x ∈ sql_select evaluated (guess_all id guesses v')) as Hin by by apply elem_of_select.
    destruct (sql_select _ _); [by apply not_elem_of_nil in Hin | simpl in Hz; lia].
Qed.

(** ** The limit under concurrency *)

Lemma live_challenge_refused id c w : live_challenge id (refused_code (challengeKey id) c w) = Some (one_more c).
Proof.
  unfold live_challenge, redis_value_at, refused_code. rewrite redis_live_put_eq.
  unfold entry_live. simpl. rewrite (proj2 (Z.leb_le _ _)) by lia. done.
Qed.

(** The store lets the secret of the user be compared, and all the codes are
    wrong now. *)
Record wrong_codes (c : MfaChallengePayload) (m : MfaMethodRow) (secret : string)
    (codes : list string) (w : World) : Prop := mk_wrong_codes {
  wc_method : method_with MActive (ch_userId c) (w_db w) = Some m;
  wc_sealed : sealed w (m_secret_encrypted m) secret;
  wc_wrong : Forall (λ code, totp_check code secret (w_now w) = false) codes;
}.

Lemma run_wrong key code c m secret codes w :
  ch_attempts c < 3 → wrong_codes c m secret (code :: codes) w →
  run (verify_read key code (Some c)) w = (Rejected INVALID_MFA_CODE, refused_code key c w) ∧
  wrong_codes c m secret codes (refused_code key c w).
Proof.
  intros Hlt [Hm Hs Hwrong]. apply Forall_cons in Hwrong as [Hw Hwrong].
  pose proof (verify_read_verdict key code c w Hlt) as Hv.
  destruct (run _ w) as [r w'] eqn:Hr. cbn [fst snd] in Hv.
  assert (Hone : ∀ m', method_with MActive (ch_userId c) (w_db w) = Some m' → m' = m) by congruence.
  destruct Hv as [m' secret' w1 Hm' Hd Hk Hne Ht|w1 Hk Hno Hsame|msg w1 Hk Hno].
  - rewrite (Hone m' Hm') in Hd. unfold sealed in Hs. congruence.
  - rewrite (Hsame m secret Hm Hs). split; [done|].
    split; [done|by apply (kms_sealed_stable w)|done].
  - by destruct (Hno m secret).
Qed.

(** The limit does not hold of codes presented at the same time: any number
    of wrong codes can all be compared with the secret and cost a single
    attempt, because the counter is read before the comparison and written
    after it. *)
Theorem mfa_attempts_race (id : string) (codes : list string) (c : MfaChallengePayload)
    (m : MfaMethodRow) (secret : string) (w : World) :
  codes ≠ [] → live_challenge id w = Some c → ch_attempts c < 3 →
  wrong_codes c m secret codes w →
  ∃ w', rtc (pstep eq (λ _, False)) (verifyLoginChallenge id <$> codes, w)
      ((λ _, Throw INVALID_MFA_CODE) <$> codes, w') ∧
    live_challenge id w' = Some (one_more c).
Proof.
  intros Hne Hc Hlt Hwc. set (key := challengeKey id).
  assert (Hserve : ∀ codes w, codes ≠ [] → wrong_codes c m secret codes w →
    ∃ w', serve ((λ code, verify_read key code (Some c)) <$> codes) w
      = ((λ _, Throw INVALID_MFA_CODE) <$> codes, w') ∧ live_challenge id w' = Some (one_more c)).
  { clear -Hlt KL ttl_positive. intros codes. induction codes as [|code codes IH]; [done|].
    intros w _ Hwc. destruct (run_wrong key code c m secret codes w Hlt Hwc) as [Hr Hwc'].
    rewrite fmap_cons. cbn [serve]. rewrite Hr. cbn [fst snd].
    destruct (decide (codes = [])) as [->|Hne].
    - eexists. split; [done|]. apply live_challenge_refused.
    - destruct (IH _ Hne Hwc') as (w' & -> & Hlive). by exists w'. }
  destruct (Hserve codes w Hne Hwc) as (w' & Hs & Hlive). exists w'. split; [|done].
  etrans; [|rewrite <- Hs; apply pool_serve].
  set (op := λ v : World, (live_challenge id v, v)).
  assert (Hop : op w = (Some c, w)) by (unfold op; by rewrite Hc).
  pose proof (pool_first eq (λ _ : M string, False) op
    ((λ code, verify_read key code) <$> codes) [] w (Some c) Hop) as Hfirst.
  rewrite <- !list_fmap_compose in Hfirst. exact Hfirst.
Qed.

(** ** Enrolment *)

(** The method of a user: its state and its envelope. *)
Record enrolled (userId : string) (st : mfa_status) (e : EncryptedEnvelope) (w : World) : Prop :=
  mk_enrolled {
  en_some : userId ∈ m_user_id <$> mfa_methods (w_db w);
  en_all : ∀ m, m ∈ mfa_methods (w_db w) → m_user_id m = userId →
    m_secret_encrypted m = e ∧ m_status m = st;
}.

Lemma enrolled_first u st e w :
  enrolled u st e w → ∃ m, method_with st u (w_db w) = Some m ∧ m_secret_encrypted m = e.
Proof.
  intros [Hin Hall]. apply list_elem_of_fmap in Hin as (m0 & Hu & Hin).
  destruct (method_with st u (w_db w)) as [m|] eqn:Hm.
  - exists m. split; [done|]. apply sql_first_Some in Hm as [Hus Hm]. exact (proj1 (Hall m Hm (proj1 Hus))).
  - unfold method_with in Hm. rewrite sql_first_None in Hm. exfalso. apply (Hm m0 Hin).
    split; [done|]. by apply Hall.
Qed.

Lemma enrolled_other u st st' e w :
  enrolled u st e w → st ≠ st' → method_with st' u (w_db w) = None.
Proof.
  intros [_ Hall] Hne. apply sql_first_None. intros m Hm [Hu Hs].
  destruct (Hall m Hm Hu). congruence.
Qed.

Definition method_ids_drawn (w : World) : Prop :=
  Forall (λ m, ∃ n, (n < w_draws w)%N ∧ m_id m = random_uuid n) (mfa_methods (w_db w)).

Lemma run_upsert `{!PlatformLaws P} u e w :
  method_ids_drawn w →
  ∃ w', run (attempt (upsert u e)) w = (Resolved (), w') ∧ enrolled u MPending e w' ∧
    same_keys w w' ∧ users (w_db w') = users (w_db w).
Proof.
  intros Hd. rewrite run_attempt. unfold upsert.
  destruct (decide (u ∈ _)) as [Hin|Hnin].
  - eexists. split; [done|]. split; [|done]. split.
    + simpl. by rewrite sql_update_key.
    + simpl. intros m Hm Hu. apply elem_of_update in Hm as (m0 & Hm0 & ->).
      revert Hu. unfold sql_set. by case_decide.
  - rewrite decide_False.
    + eexists. split; [done|]. split; [|done]. split.
      * simpl. rewrite fmap_app. apply elem_of_app. right. by left.
      * simpl. intros m [Hm|Hm]%elem_of_app Hu; [|by apply list_elem_of_singleton in Hm as ->].
        destruct Hnin. rewrite <- Hu. by apply list_elem_of_fmap_2.
    + intros Hin. apply list_elem_of_fmap in Hin as (m & Hm & Hin).
      unfold method_ids_drawn in Hd. rewrite Forall_forall in Hd.
      destruct (Hd m Hin) as (n & Hn & Hn'). rewrite Hn' in Hm.
      pose proof random_uuid_inj. apply (inj random_uuid) in Hm. lia.
Qed.

Lemma run_hasActive u w :
  run (hasActiveMethod u) w = (Resolved (bool_decide (is_Some (method_with MActive u (w_db w)))), w).
Proof. done. Qed.

(** What [confirmEnroll] does of a pending method. *)
Lemma run_confirm u code e secret w :
  enrolled u MPending e w → sealed w e secret →
  ∃ w', run (confirmEnroll u code) w =
      (if totp_check code secret (w_now w) then (Resolved (), w')
       else (Rejected INVALID_MFA_CODE, w)) ∧
    enrolled u MActive e w' ∧ same_keys w w' ∧
    (∀ x, x ∈ users (w_db w') → u_id x = u → u_mfa_required x = true).
Proof.
  intros He Hs. destruct (enrolled_first _ _ _ _ He) as (m & Hm & Hme).
  eexists. split.
  { unfold confirmEnroll, getPendingMethod. run_next. rewrite Hm, Hme.
    run_next_by Hs. unfold check. run_next. destruct (totp_check _ _ _); [reflexivity|done]. }
  destruct He as [Hin Hall]. split; [|split; [done|]].
  - split; [simpl; by rewrite sql_update_key|]. intros x Hx Hu. simpl in Hx.
    apply elem_of_update in Hx as (x0 & Hx0 & ->). revert Hu. unfold sql_set.
    case_decide; [|done]. by destruct (Hall x0).
  - intros x Hx Hu. simpl in Hx. apply elem_of_update in Hx as (x0 & Hx0 & ->). revert Hu.
    unfold sql_set. by case_decide.
Qed.

Lemma run_verify_enrolled id code c u e secret w :
  live_challenge id w = Some c → ch_attempts c < 3 → ch_userId c = u →
  enrolled u MActive e w → sealed w e secret → secret ≠ "" →
  (run (verifyLoginChallenge id code) w).1 =
    if totp_check code secret (w_now w) then Resolved (ch_sessionId c)
    else Rejected INVALID_MFA_CODE.
Proof.
  intros Hc Hlt <- He Hs Hne. rewrite run_verify, Hc.
  destruct (enrolled_first _ _ _ _ He) as (m & Hm & Hme).
  pose proof Hs as Hrun. rewrite <- Hme in Hrun.
  destruct (verify_read_verdict (challengeKey id) code c w Hlt)
    as [m' s' w1 Hm' Hd Hk Hne' Ht|w1 Hk Hno Hsame|msg w1 Hk Hno].
  - assert (m' = m) as -> by congruence. unfold sealed in Hrun. rewrite Hrun in Hd.
    simplify_eq. by rewrite Ht.
  - rewrite (Hsame m secret Hm Hrun) in Hno. destruct (Hno m secret Hm Hrun) as [|Hf]; [done|].
    by rewrite Hf.
  - by destruct (Hno m secret).
Qed.

(** Enrolment and login fit together: whatever the state of the user's method
    before, [beginEnroll] leaves a pending one (an active method is disarmed
    without a code being asked for), a code of the new secret activates it and
    any other code does not, and from then on the code of that secret, and no
    other, passes a login challenge of the user. *)
Theorem mfa_enroll_login `{!PlatformLaws P} (u email : string) (w : World) :
  kms_wf w → method_ids_drawn w → (∀ n, totp_generateSecret n ≠ "") →
  let secret := totp_generateSecret (w_draws w) in
  ∃ url w1, run (beginEnroll u email) w = (Resolved (url, qr_toDataURL url), w1) ∧
    url = totp_keyuri email (MFA_ISSUER cfg) secret ∧
    run (hasActiveMethod u) w1 = (Resolved false, w1) ∧
    ∀ t code, ∃ w2,
      run (confirmEnroll u code) (w1 <| w_now := t |>) =
        (if totp_check code secret t then (Resolved (), w2)
         else (Rejected INVALID_MFA_CODE, w1 <| w_now := t |>)) ∧
      run (hasActiveMethod u) w2 = (Resolved true, w2) ∧
      ∀ w3 id c code', mfa_methods (w_db w3) = mfa_methods (w_db w2) → same_keys w2 w3 →
        live_challenge id w3 = Some c → ch_attempts c < 3 → ch_userId c = u →
        (run (verifyLoginChallenge id code') w3).1 =
          if totp_check code' secret (w_now w3) then Resolved (ch_sessionId c)
          else Rejected INVALID_MFA_CODE.
Proof.
  intros Hwf Hids Hne secret. set (w0 := w <| w_draws ::= N.succ |>).
  destruct (kms_seal w0 secret) as (e & wk & Henc & Hwfk & Hseal).
  { by apply (kms_wf_stable w). }
  pose proof (respects_run key_step _ w0 (kms_encrypt_frame secret)) as Hk.
  rewrite Henc in Hk. simpl in Hk.
  destruct (run_upsert u e wk) as (w1 & Hup & Hen & Hsame & _).
  { unfold method_ids_drawn. rewrite (key_step_db _ _ Hk). eapply Forall_impl; [exact Hids|].
    intros m (n & Hn & Hid). exists n. split; [|done]. destruct Hk as [_ Hd]. simpl in Hd. lia. }
  eexists _, w1. split.
  { unfold beginEnroll. run_next. fold secret w0. run_next_by Henc. by run_next_by Hup. }
  split; [done|]. split.
  { rewrite run_hasActive. by rewrite (enrolled_other u MPending MActive e). }
  intros t code. set (w1' := w1 <| w_now := t |>).
  assert (Hs1 : sealed w1' e secret) by (by apply (kms_sealed_stable wk)).
  destruct (run_confirm u code e secret w1') as (w2 & Hrun & Hen2 & Hsame2 & _); [by destruct Hen|done|].
  exists w2. split; [done|]. split.
  { rewrite run_hasActive. destruct (enrolled_first _ _ _ _ Hen2) as (m & -> & _). done. }
  intros w3 id c code' Hm3 Hk3 Hc Hlt Hu.
  apply (run_verify_enrolled id code' c u e); try done.
  - destruct Hen2 as [H1 H2]. split; by rewrite Hm3.
  - apply (kms_sealed_stable w2); [done|]. by apply (kms_sealed_stable w1').
  - apply Hne.
Qed.
End properties.

(** * Concrete runs *)

Section witnesses.
#[local] Existing Instances toy toy_crypto.

Lemma toy_ttl : 0 < MFA_CHALLENGE_TTL cfg.
Proof. done. Qed.

Definition mfa_enrolled : World :=
  (run (confirmEnroll "user-1" "totp-0") (run (beginEnroll "user-1" "a@b.c") sess_demo).2).2.
Definition mfa_challenged : World := (run (createLoginChallenge "user-1" "sess-1") mfa_enrolled).2.
Definition mfa_demo_id : string := random_uuid (w_draws mfa_enrolled).

Lemma mfa_verify_sound_witness :
  let r := run (verifyLoginChallenge mfa_demo_id "totp-0") mfa_challenged in
  r.1 = Resolved "sess-1" ∧ w_redis r.2 = delete (challengeKey mfa_demo_id) (w_redis mfa_challenged).
Proof.
  intros r. assert (E : r.1 = Resolved "sess-1") by by vm_compute. split; [exact E|].
  pose proof (mfa_verify_sound (KL := local_kms_laws) toy_ttl mfa_demo_id "totp-0" mfa_challenged
    r.2 (Resolved "sess-1")) as H.
  rewrite <- E in H at 1. specialize (H (surjective_pairing r)).
  by destruct H as (c & m & s & w1 & _ & _ & _ & _ & _ & _ & _ & _ & _ & Hr).
Defined.

(** Five guesses, the last one right, but too late. *)
Definition demo_guesses : list (Z * string) :=
  [(0, "a"); (0, "b"); (0, "c"); (0, "d"); (0, "totp-0")].

Lemma mfa_attempts_bounded_witness :
  ∃ id w1, run (createLoginChallenge "user-1" "sess-1") mfa_enrolled = (Resolved id, w1) ∧
    (sql_count evaluated (guess_all id demo_guesses w1) ≤ 3)%nat.
Proof.
  destruct (mfa_attempts_bounded (KL := local_kms_laws) toy_ttl "user-1" "sess-1"
    demo_guesses mfa_enrolled) as (id & w1 & H1 & H2 & _).
  by exists id, w1.
Defined.

Lemma mfa_attempts_race_witness :
  ∃ w', rtc (pstep eq (λ _, False))
      (verifyLoginChallenge mfa_demo_id <$> ["a"; "b"; "c"; "d"; "e"], mfa_challenged)
      ((λ _, Throw INVALID_MFA_CODE) <$> ["a"; "b"; "c"; "d"; "e"], w') ∧
    ch_attempts <$> live_challenge mfa_demo_id w' = Some 1.
Proof.
  destruct (method_with MActive "user-1" (w_db mfa_challenged)) as [m|] eqn:Hm; [|by vm_compute in Hm].
  destruct (mfa_attempts_race (KL := local_kms_laws) toy_ttl mfa_demo_id ["a"; "b"; "c"; "d"; "e"]
    (mkChallenge "user-1" "sess-1" 0) m "totp-0" mfa_challenged) as (w' & Hsteps & Hlive); try done.
  - split.
    + exact Hm.
    + vm_compute in Hm. injection Hm as <-. by vm_compute.
    + by repeat constructor.
  - exists w'. split; [exact Hsteps|]. by rewrite Hlive.
Defined.

Lemma mfa_enroll_login_witness :
  ∃ url w1, run (beginEnroll "user-1" "a@b.c") mfa_enrolled = (Resolved (url, qr_toDataURL url), w1) ∧
    run (hasActiveMethod "user-1") mfa_enrolled = (Resolved true, mfa_enrolled) ∧
    run (hasActiveMethod "user-1") w1 = (Resolved false, w1).
Proof.
  destruct (mfa_enroll_login (KL := local_kms_laws) toy_ttl "user-1" "a@b.c" mfa_enrolled)
    as (url & w1 & H1 & _ & H2 & _).
  - assert (E : w_keys mfa_enrolled = []) by by vm_compute.
    split; [done|]. rewrite E. split; [constructor|by left].
  - apply Forall_singleton. exists 3%N. by vm_compute.
  - done.
  - exists url, w1. split; [exact H1|]. split; [by vm_compute|exact H2].
Defined.
End witnesses.
