(* ===== verification/Risk.v ===== *)
(** src/modules/risk: the rules engine that scores a login, and the record of
    its evaluations. *)
From S2P Require Import Prelude Async JsString Errors Store Evolution Toy Redis.
From stdpp Require Import base gmap strings list pretty.
From Stdlib Require Import ZArith Ascii.
Local Open Scope string_scope.
Local Open Scope list_scope.
Local Open Scope Z_scope.

Record LoginRiskInput : Type := mkRiskInput {
  ri_userId : string;
  ri_ip : option string;
  ri_userAgent : option string;
  ri_knownDevice : bool;
}.

(** What the login pipeline asks of a risk engine. *)
Class RiskEngine : Type := { evaluateLogin : LoginRiskInput → M RiskEvaluation }.

Definition deviceFingerprint `{P : Platform} (userAgent : string) : string :=
  slice_to 16 (sha256_hex userAgent).

Definition level_of (score : Z) : RiskLevel :=
  if 50 <=? score then High else if 20 <=? score then Medium else Low.

Module RulesRiskEngine.
Section engine.
Context `{P : Platform}.

(** A running total: the score and the signals raised so far. *)
Definition tally : Type := Z * list (string * option string).
Definition raise (points : Z) (signal : string) (detail : option string) (t : tally) : tally :=
  (t.1 + points, t.2 ++ [(signal, detail)]).

Definition failed_key (userId : string) : string := RedisService.key ["risk"; "failed"; userId].
Definition ip_key (userId : string) : string := RedisService.key ["risk"; "ips"; userId].
Definition seen_key (userId userAgent : string) : string :=
  RedisService.key ["risk"; "geo"; userId; deviceFingerprint userAgent].

(** Signal 1. The counter is a decimal number; anything else compares as
    [NaN], which is below every threshold. *)
Definition failed_logins (userId : string) (t : tally) : M tally :=
  v ← RedisService.get (failed_key userId);
  match decimal (default "0" v) with
  | Some failedCount =>
      if RISK_FAILED_LOGINS_THRESHOLD cfg <=? failedCount
      then mret (raise 30 "failed_logins" (Some (pretty failedCount +:+ " recent failures")) t)
      else mret t
  | None => mret t
  end.

(** Signal 2. *)
Definition ip_frequency (userId : string) (ip : option string) (t : tally) : M tally :=
  match truthy ip with
  | None => mret t
  | Some ip =>
      _ ← RedisService.setAdd (ip_key userId) ip;
      _ ← RedisService.setExpire (ip_key userId) 3600;
      ipCount ← RedisService.setSize (ip_key userId);
      if 5 <=? ipCount
      then mret (raise 20 "ip_frequency" (Some (pretty ipCount +:+ " distinct IPs in 1h")) t)
      else mret t
  end.

(** Signal 3. *)
Definition new_device (known : bool) (t : tally) : tally :=
  if known then t else raise 15 "new_device" None t.

(** [ip.split('.').slice(0, 2).join('.')] *)
Definition ip_prefix (ip : string) : string := js_join "." (take 2 (split_on "."%char ip)).

(** Signal 4. *)
Definition travel (userId : string) (ip userAgent : option string) (t : tally) : M tally :=
  match truthy ip, truthy userAgent with
  | Some ip, Some ua =>
      lastPrefix ← RedisService.get (seen_key userId ua);
      let t' :=
        match truthy lastPrefix with
        | Some last =>
            if bool_decide (last = ip_prefix ip) then t
            else raise 25 "impossible_travel_placeholder"
                   (Some ("ip-prefix " +:+ last +:+ " -> " +:+ ip_prefix ip)) t
        | None => t
        end in
      _ ← RedisService.set (seen_key userId ua) (ip_prefix ip) (Some 300);
      mret t'
  | _, _ => mret t
  end.

Definition evaluateLogin (input : LoginRiskInput) : M RiskEvaluation :=
  t1 ← failed_logins (ri_userId input) (0, []);
  t2 ← ip_frequency (ri_userId input) (ri_ip input) t1;
  t4 ← travel (ri_userId input) (ri_ip input) (ri_userAgent input)
         (new_device (ri_knownDevice input) t2);
  mret (mkRiskEvaluation (level_of t4.1) t4.1 t4.2).
End engine.
End RulesRiskEngine.

#[export] Instance rules_engine `{P : Platform} : RiskEngine :=
  {| evaluateLogin := RulesRiskEngine.evaluateLogin |}.

(** src/modules/risk/risk-event.repository.ts *)
Module RiskEventRepository.
Definition record (row : RiskEventRow) : M () :=
  db_exec (λ _ d, d <| risk_events ::= λ t, t ++ [row] |>).
End RiskEventRepository.

(** * Steps of the store *)

Section evolution.
Context `{P : Platform}.

Lemma rules_keep input : keeps non_redis (RulesRiskEngine.evaluateLogin input).
Proof.
  assert (Hf : ∀ u t, keeps non_redis (RulesRiskEngine.failed_logins u t)).
  { intros. apply respects_bind; [apply redis_keeps_get|]. intros v. by repeat break_match. }
  assert (Hi : ∀ u ip t, keeps non_redis (RulesRiskEngine.ip_frequency u ip t)).
  { intros. unfold RulesRiskEngine.ip_frequency. destruct (truthy ip); [|done].
    apply respects_bind; [apply redis_keeps_setAdd|intros _].
    apply respects_bind; [apply redis_keeps_expire|intros _].
    apply respects_bind; [apply redis_keeps_setSize|intros n]. by destruct (5 <=? n). }
  assert (Ht : ∀ u ip ua t, keeps non_redis (RulesRiskEngine.travel u ip ua t)).
  { intros. unfold RulesRiskEngine.travel. destruct (truthy ip), (truthy ua); try done.
    apply respects_bind; [apply redis_keeps_get|intros v].
    apply respects_bind; [apply redis_keeps_set_value|done]. }
  apply respects_bind; [done|]. intros t1. apply respects_bind; [done|]. intros t2.
  by apply respects_bind.
Qed.

Lemma risk_record_step row : respects step (RiskEventRepository.record row).
Proof. apply respects_writes. intros w. by apply step_same. Qed.
End evolution.

(** What the login pipeline relies on: an engine keeps its state in Redis. *)
Class RiskLaws (R : RiskEngine) : Prop := {
  risk_keeps : ∀ input, keeps non_redis (evaluateLogin input);
}.
#[export] Instance rules_laws `{P : Platform} : RiskLaws rules_engine.
Proof. split. apply rules_keep. Qed.

Lemma evaluateLogin_step `{R : RiskEngine, !RiskLaws R} input : respects step (evaluateLogin input).
Proof. apply redis_step, risk_keeps. Qed.
#[export] Hint Resolve evaluateLogin_step risk_record_step : steps.

(** * The score *)

Section properties.
Context `{P : Platform}.

Definition points (signal : string) : Z :=
  if bool_decide (signal = "failed_logins") then 30
  else if bool_decide (signal = "ip_frequency") then 20
  else if bool_decide (signal = "new_device") then 15
  else if bool_decide (signal = "impossible_travel_placeholder") then 25 else 0.
Definition total (signals : list string) : Z := foldr (λ s, Z.add (points s)) 0 signals.

(** Either nothing happened or one signal was raised. *)
Definition may_raise (signal : string) (t t' : RulesRiskEngine.tally) : Prop :=
  t' = t ∨ ∃ detail, t' = RulesRiskEngine.raise (points signal) signal detail t.

Lemma failed_logins_raises u t w t' w' :
  run (RulesRiskEngine.failed_logins u t) w = (Resolved t', w') →
  may_raise "failed_logins" t t' ∧
  (redis_value_at w (RulesRiskEngine.failed_key u) = None → 0 < RISK_FAILED_LOGINS_THRESHOLD cfg → t' = t).
Proof.
  unfold RulesRiskEngine.failed_logins, RedisService.get. rewrite run_bind, run_attempt.
  destruct (redis_value_at w (RulesRiskEngine.failed_key u)) as [v|] eqn:Hv.
  - intros H. split; [|done]. revert H. unfold may_raise.
    destruct v; try done; cbn [default]; destruct (decimal _);
      repeat case_match; rewrite run_ret; intros [= <- _]; eauto.
  - cbn [default]. change (decimal "0") with (Some 0).
    cbv beta iota. match goal with |- context [if ?b then _ else _] => destruct b eqn:Hle end; rewrite run_ret;
      intros [= <- _]; unfold may_raise; (split; [eauto|intros _ Hpos]); [|done].
    apply Z.leb_le in Hle. lia.
Qed.

Lemma ip_frequency_raises u ip t w t' w' :
  run (RulesRiskEngine.ip_frequency u ip t) w = (Resolved t', w') → may_raise "ip_frequency" t t'.
Proof.
  unfold RulesRiskEngine.ip_frequency, may_raise. destruct (truthy ip); [|intros [= <- _]; by left].
  intros (? & ? & _ & (? & ? & _ & (n & ? & _ & H)%run_bind_resolved)%run_bind_resolved)%run_bind_resolved.
  destruct (5 <=? n); injection H as <- _; eauto.
Qed.

Lemma travel_raises u ip ua t w t' w' :
  run (RulesRiskEngine.travel u ip ua t) w = (Resolved t', w') → may_raise "impossible_travel_placeholder" t t'.
Proof.
  unfold RulesRiskEngine.travel, may_raise. destruct (truthy ip), (truthy ua); try (intros [= <- _]; by left).
  intros (v & ? & _ & (? & ? & _ & H)%run_bind_resolved)%run_bind_resolved. injection H as <- _.
  destruct (truthy v); [|by left]. case_bool_decide; eauto.
Qed.

Definition signal_names : list string :=
  ["failed_logins"; "ip_frequency"; "new_device"; "impossible_travel_placeholder"].

(** What an evaluation consists of. *)
Lemma evaluation_sound (input : LoginRiskInput) (w w' : World) (ev : RiskEvaluation) :
  run (evaluateLogin input) w = (Resolved ev, w') →
  (ev_signals ev).*1 `sublist_of` signal_names ∧
  ev_score ev = total (ev_signals ev).*1 ∧ ev_level ev = level_of (ev_score ev) ∧
  ("new_device" ∈ (ev_signals ev).*1 ↔ ri_knownDevice input = false) ∧
  (redis_value_at w (RulesRiskEngine.failed_key (ri_userId input)) = None →
   0 < RISK_FAILED_LOGINS_THRESHOLD cfg →
   (ev_level ev = High ↔ (ev_signals ev).*1 = tail signal_names)).
Proof.
  change (evaluateLogin input) with (RulesRiskEngine.evaluateLogin input).
  intros (t1 & w1 & H1 & (t2 & w2 & H2 & (t4 & w4 & H4 & H)%run_bind_resolved)%run_bind_resolved)%run_bind_resolved.
  injection H as <- _. cbn [ev_signals ev_score ev_level].
  apply failed_logins_raises in H1 as [H1 Hno]. apply ip_frequency_raises in H2.
  apply travel_raises in H4.
  destruct H1 as [->|[d1 ->]], H2 as [->|[d2 ->]], H4 as [->|[d4 ->]];
    unfold RulesRiskEngine.new_device; destruct (ri_knownDevice input); cbn; split_and!;
    try done; try (by repeat constructor); try set_solver;
    intros Habs Hpos; by specialize (Hno Habs Hpos).
Qed.

(** The evaluation is the sum of its signals, each raised at most once and in
    a fixed order; the unknown device is always noticed. As long as nothing
    has written the failure counter of the user, repeated failures weigh
    nothing, and a login is of high risk exactly when the three other signals
    coincide. *)
Theorem risk_evaluation_sound (input : LoginRiskInput) (w w' : World) (ev : RiskEvaluation) :
  run (evaluateLogin input) w = (Resolved ev, w') →
  (ev_signals ev).*1 `sublist_of` signal_names ∧
  ev_score ev = total (ev_signals ev).*1 ∧ ev_level ev = level_of (ev_score ev) ∧
  ("new_device" ∈ (ev_signals ev).*1 ↔ ri_knownDevice input = false) ∧
  (redis_value_at w (RulesRiskEngine.failed_key (ri_userId input)) = None →
   0 < RISK_FAILED_LOGINS_THRESHOLD cfg →
   (ev_level ev = High ↔ (ev_signals ev).*1 = tail signal_names)).
Proof. apply evaluation_sound. Qed.
End properties.

(** * A concrete run *)

(** The fifth address of a user within the hour, from a device seen in
    another network a minute ago, and not known: high risk. *)
Definition demo_risk : LoginRiskInput := mkRiskInput "user-1" (Some "10.5.0.1") (Some "agent") false.
Definition demo_risk_world : World :=
  empty_world 0 <| w_redis := list_to_map
    [(RulesRiskEngine.ip_key "user-1",
      mkEntry (VSet (list_to_set ["10.0.0.1"; "10.0.0.2"; "10.0.0.3"; "10.0.0.4"])) None);
     (RulesRiskEngine.seen_key (P := toy) "user-1" "agent", mkEntry (VStr "10.0") None)] |>.

Lemma risk_evaluation_sound_witness :
  ∃ ev, (run (evaluateLogin (RiskEngine := rules_engine (P := toy)) demo_risk) demo_risk_world).1
      = Resolved ev ∧ ev_level ev = High ∧ (ev_signals ev).*1 = tail signal_names.
Proof.
  destruct (run (evaluateLogin (RiskEngine := rules_engine (P := toy)) demo_risk) demo_risk_world)
    as [r w'] eqn:E.
  assert (Hl : match r with Resolved ev => bool_decide (ev_level ev = High) | _ => false end = true).
  { replace r with (run (evaluateLogin (RiskEngine := rules_engine (P := toy)) demo_risk)
      demo_risk_world).1 by by rewrite E. by vm_compute. }
  destruct r as [|ev]; [done|]. apply bool_decide_eq_true in Hl. exists ev.
  split; [done|]. split; [exact Hl|].
  destruct (risk_evaluation_sound (P := toy) demo_risk demo_risk_world w' ev E)
    as (_ & _ & _ & _ & Hhigh).
  apply Hhigh; [by vm_compute|done|exact Hl].
Defined.
