(* ===== verification/AuthService.v ===== *)
(** src/modules/auth/auth.service.ts: login, second factor, refresh, logout,
    password reset. *)
From S2P Require Import Prelude Async JsString Errors Store Evolution Toy Redis AuditLog RefreshTokens Sessions Users Password EmailTokens UserService Keys Jwt Mfa Risk.
From stdpp Require Import base gmap strings list pretty relations.
From Stdlib Require Import ZArith Ascii.
Local Open Scope string_scope.
Local Open Scope list_scope.
Local Open Scope Z_scope.

(** * Results *)

Record LoginUser : Type := mkLoginUser { lu_id : string; lu_email : string; lu_status : string }.

Record LoginResultSuccess : Type := mkLoginSuccess {
  lr_access_token : string;
  lr_expires_in : Z;
  lr_refresh_token : string;
  lr_refresh_expires_at : Z;
  lr_scope : string;
  lr_roles : list string;
  lr_user : LoginUser;
}.

Inductive LoginResult : Type :=
  | LoginSuccess (r : LoginResultSuccess)
  | LoginMfaRequired (mfa_challenge_id : string).

Record Profile : Type := mkProfile {
  pf_id : string; pf_email : string; pf_first_name : option string; pf_last_name : option string;
  pf_status : string; pf_roles : list string; pf_permissions : list string; pf_mfa_enabled : bool;
}.

Definition defaultScopeForRoles (roles : list string) : string :=
  js_join " " (["openid"; "profile"; "email"; "api.read"]
               ++ (if includes roles "admin" then ["api.write"] else [])).

(** [{ signal: .., detail?: .. }] *)
Definition signal_json (s : string * option string) : json :=
  JObj (("signal", JStr s.1) :: match s.2 with Some d => [("detail", JStr d)] | None => [] end).

Definition reset_mail (to token : string) (ttl : Z) : EmailMessage :=
  mkEmail to "Reset your password"
    ("Use this token to reset your password:" +:+ nl +:+ nl +:+ token +:+ nl +:+ nl +:+
     "Expires in " +:+ pretty (ttl / 60) +:+ " minutes.").

Module AuthService.
Section service.
Context `{P : Platform, K : KeyManagementService, J : Jose, R : RiskEngine}.

Definition device_key (userId userAgent : string) : string :=
  RedisService.key ["risk"; "device"; userId; deviceFingerprint userAgent].

Definition isKnownDevice (userId : string) (ctx : RequestContext) : M bool :=
  match truthy (ctx_userAgent ctx), truthy (ctx_ip ctx) with
  | Some ua, Some ip =>
      seen ← RedisService.get (device_key userId ua);
      match truthy seen with
      | Some _ => mret true
      | None =>
          _ ← RedisService.set (device_key userId ua) ip (Some (60 * 60 * 24 * 30));
          mret false
      end
  | _, _ => mret false
  end.

Definition new_session (userId : string) (ctx : RequestContext) (mfaPassed : bool) : M SessionRow :=
  SessionRepository.create
    (mkCreateSession userId None (ctx_ip ctx) (ctx_userAgent ctx)
       (Some (deviceFingerprint (default "" (ctx_userAgent ctx)))) mfaPassed (SESSION_TTL cfg)).

Definition issueSessionTokensForSession (sessionId userId : string) (amr : list string)
    (ctx : RequestContext) : M LoginResultSuccess :=
  user ← UserRepository.findById userId;
  match user with
  | None => Throw (AuthError "User not found" "USER_NOT_FOUND")
  | Some user =>
      roles ← UserRepository.rolesOf userId;
      permissions ← UserRepository.permissionsOf userId;
      let scope := defaultScopeForRoles roles in
      signed ← JwtService.signAccessToken app_jwt_options
        (mkTokenInput userId scope (Some roles) (Some permissions) (Some sessionId) None (Some amr)) None;
      refresh ← issue (mkIssue sessionId userId None scope None None);
      _ ← UserRepository.setLastLogin userId;
      _ ← UserRepository.clearLockAndFailures userId;
      _ ← audit_record (event AuditEventType.USER_LOGIN_SUCCESS (Some userId) None ctx true
            (Some [("session_id", JStr sessionId); ("amr", JArr (JStr <$> amr))]));
      _ ← audit_record (event AuditEventType.TOKEN_ISSUED (Some userId) None ctx false
            (Some [("kind", JStr "access+refresh"); ("session_id", JStr sessionId)]));
      now ← now_ms;
      mret (mkLoginSuccess (sg_token signed) ((sg_expiresAt signed - now) / 1000)
        refresh.1 refresh.2 scope roles
        (mkLoginUser (u_id user) (u_email user) (user_status_string (u_status user))))
  end.

Definition issueSessionTokens (userId : string) (ctx : RequestContext) (amr : list string)
    : M LoginResultSuccess :=
  session ← new_session userId ctx (includes amr "mfa");
  issueSessionTokensForSession (s_id session) userId amr ctx.

(** The branch of [login] for a wrong password. *)
Definition bad_password (user : UserRow) (ctx : RequestContext) : M LoginResult :=
  _ ← UserRepository.recordFailedLogin (u_id user);
  let failures := u_failed_login_count user + 1 in
  _ ← (if MAX_FAILED_LOGINS cfg <=? failures then
         now ← now_ms;
         _ ← UserRepository.lockUntil (u_id user) (now + LOCKOUT_MINUTES cfg * 60000);
         audit_record (event AuditEventType.USER_LOCKED (Some (u_id user)) None ctx true
           (Some [("failures", JNum failures)]))
       else mret ());
  _ ← audit_record (event AuditEventType.USER_LOGIN_FAILED (Some (u_id user)) None ctx true
        (Some [("reason", JStr "bad_password"); ("failures", JNum failures)]));
  Throw InvalidCredentialsError.

(** The risk evaluation of [login]: the action it asks for. *)
Definition assess (user : UserRow) (ctx : RequestContext) : M risk_action :=
  knownDevice ← isKnownDevice (u_id user) ctx;
  evaluation ← evaluateLogin (mkRiskInput (u_id user) (ctx_ip ctx) (ctx_userAgent ctx) knownDevice);
  action ←
    (if bool_decide (ev_level evaluation = High ∨ ev_level evaluation = Medium) then
       _ ← audit_record (event AuditEventType.SUSPICIOUS_LOGIN (Some (u_id user)) None ctx true
             (Some [("score", JNum (ev_score evaluation));
                    ("signals", JArr (signal_json <$> ev_signals evaluation))]));
       mret (if bool_decide (ev_level evaluation = High) then RISK_HIGH_SCORE_ACTION cfg else Allow)
     else mret Allow);
  _ ← RiskEventRepository.record (mkRiskEventRow (Some (u_id user)) None "login" evaluation action
        (ctx_ip ctx) (ctx_userAgent ctx) (Some (requestId ctx)));
  mret action.

(** The end of [login]: a challenge or tokens. *)
Definition grant_login (user : UserRow) (ctx : RequestContext) (action : risk_action) : M LoginResult :=
  hasMfa ← MfaService.hasActiveMethod (u_id user);
  if (hasMfa : bool) || bool_decide (action = MfaStepUp) then
    if negb hasMfa && bool_decide (action = MfaStepUp) then
      Throw (AppError 403 "MFA_ENROLLMENT_REQUIRED"
               "Additional verification is required. Enroll a second factor first.")
    else
      session ← new_session (u_id user) ctx false;
      challengeId ← MfaService.createLoginChallenge (u_id user) (s_id session);
      mret (LoginMfaRequired challengeId)
  else
    r ← issueSessionTokens (u_id user) ctx ["pwd"];
    mret (LoginSuccess r).

(** The second half of [login], for an account with the right password. *)
Definition admit_login (user : UserRow) (ctx : RequestContext) : M LoginResult :=
  action ← assess user ctx;
  if bool_decide (action = Deny) then
    _ ← audit_record (event AuditEventType.AUTHORIZATION_DENIED (Some (u_id user)) None ctx false
          (Some [("reason", JStr "high_risk_login")]));
    Throw (AppError 403 "RISK_DENIED" "Login denied due to suspicious activity")
  else grant_login user ctx action.

Definition login (email password : string) (ctx : RequestContext) : M LoginResult :=
  user ← UserRepository.findByEmail email;
  match user with
  | None =>
      _ ← audit_record (event AuditEventType.USER_LOGIN_FAILED None None ctx true
            (Some [("reason", JStr "unknown_email")]));
      Throw InvalidCredentialsError
  | Some user =>
      now ← now_ms;
      if bool_decide (u_status user = UDisabled)
      then Throw (ForbiddenError "Account is disabled" "ACCOUNT_DISABLED")
      else if (match u_locked_until user with Some t => now <? t | None => false end)
      then Throw (AppError 423 "ACCOUNT_LOCKED" "Account temporarily locked")
      else if negb (verifyPassword (u_password_hash user) password) then bad_password user ctx
      else if bool_decide (u_status user = UPendingVerification)
      then Throw (AuthError "Email address not verified" "EMAIL_NOT_VERIFIED")
      else admit_login user ctx
  end.

Definition completeMfaChallenge (challengeId mfaCode : string) (ctx : RequestContext)
    : M LoginResultSuccess :=
  sessionId ← MfaService.verifyLoginChallenge challengeId mfaCode;
  session ← SessionRepository.findById sessionId;
  match session with
  | Some s =>
      if bool_decide (s_status s = SActive) then
        _ ← audit_record (event AuditEventType.MFA_CHALLENGE_SUCCEEDED (Some (s_user_id s)) None
              ctx false None);
        issueSessionTokensForSession (s_id s) (s_user_id s) ["pwd"; "mfa"] ctx
      else Throw (AuthError "Session no longer valid" "SESSION_INVALID")
  | None => Throw (AuthError "Session no longer valid" "SESSION_INVALID")
  end.

(** The handler of [refresh]: reuse is audited, every error is passed on. *)
Definition refresh_failed {A} (ctx : RequestContext) (err : Err) : M A :=
  _ ← (if bool_decide (err_code err = Some "REFRESH_TOKEN_REUSE")
       then audit_record (event AuditEventType.REFRESH_TOKEN_REUSE_DETECTED None None ctx false None)
       else mret ());
  Throw err.

(** The tokens [refresh] gives for a consumed token. *)
Definition refreshed (c : Consumed) (session : SessionRow) (ctx : RequestContext)
    : M LoginResultSuccess :=
  let row := co_row c in
  roles ← UserRepository.rolesOf (rt_user_id row);
  permissions ← UserRepository.permissionsOf (rt_user_id row);
  let amr := if s_mfa_passed session then ["pwd"; "mfa"] else ["pwd"] in
  signed ← JwtService.signAccessToken app_jwt_options
    (mkTokenInput (rt_user_id row) (rt_scope row) (Some roles) (Some permissions)
       (Some (s_id session)) (rt_client_id row) (Some amr)) None;
  _ ← SessionRepository.touch (s_id session);
  _ ← audit_record (event AuditEventType.TOKEN_REFRESHED (Some (rt_user_id row)) (rt_client_id row)
        ctx false (Some [("session_id", JStr (s_id session))]));
  now ← now_ms;
  mret (mkLoginSuccess (sg_token signed) ((sg_expiresAt signed - now) / 1000) (co_nextToken c)
    (co_expiresAt c) (rt_scope row) roles (mkLoginUser (rt_user_id row) "" "")).

Definition refresh (refreshToken : string) (ctx : RequestContext) : M LoginResultSuccess :=
  catch (refresh_failed ctx)
    (c ← consume refreshToken;
     session ← SessionRepository.findById (rt_session_id (co_row c));
     match session with
     | Some s =>
         if bool_decide (s_status s = SActive) then refreshed c s ctx
         else _ ← revokeFamily (rt_family_id (co_row c));
              Throw (AuthError "Session revoked" "SESSION_REVOKED")
     | None => _ ← revokeFamily (rt_family_id (co_row c));
               Throw (AuthError "Session revoked" "SESSION_REVOKED")
     end).

Definition logout (userId : string) (sessionId : option string) (allSessions : bool)
    (refreshToken : option string) (ctx : RequestContext) : M Z :=
  if allSessions then
    count ← SessionRepository.revokeAllForUser userId "logout_all";
    _ ← audit_record (event AuditEventType.USER_LOGOUT (Some userId) None ctx false
          (Some [("scope", JStr "all_sessions"); ("revoked_sessions", JNum count)]));
    mret count
  else
    _ ← match truthy sessionId with
        | Some sid => SessionRepository.revoke sid "logout"
        | None => mret ()
        end;
    _ ← match truthy refreshToken with
        | Some t => _ ← revokeByToken t; mret ()
        | None => mret ()
        end;
    _ ← audit_record (event AuditEventType.USER_LOGOUT (Some userId) None ctx false
          (Some [("scope", JStr (match truthy sessionId with
                                 | Some _ => "current_session" | None => "token_only" end))]));
    mret (match truthy sessionId with Some _ => 1 | None => 0 end).

(** The three queries of [Promise.all] read, in some order; none of them
    depends on another. *)
Definition me (userId : string) : M Profile :=
  user ← UserRepository.findById userId;
  match user with
  | None => Throw (AuthError "User not found" "USER_NOT_FOUND")
  | Some u =>
      roles ← UserRepository.rolesOf userId;
      permissions ← UserRepository.permissionsOf userId;
      mfaEnabled ← MfaService.hasActiveMethod userId;
      mret (mkProfile (u_id u) (u_email u) (u_first_name u) (u_last_name u)
              (user_status_string (u_status u)) roles permissions mfaEnabled)
  end.

Definition forgotPassword (email : string) (ctx : RequestContext) : M () :=
  user ← UserRepository.findByEmail email;
  match user with
  | Some u =>
      if bool_decide (u_status u = UDisabled) then mret ()
      else
        token ← EmailTokenService.issuePasswordReset (u_id u);
        _ ← email_send (reset_mail (u_email u) token (PASSWORD_RESET_TTL cfg));
        audit_record (event AuditEventType.PASSWORD_RESET_REQUESTED (Some (u_id u)) None ctx true None)
  | None => mret ()
  end.

Definition resetPassword (token newPassword : string) (ctx : RequestContext) : M () :=
  _ ← check_policy newPassword;
  consumed ← EmailTokenService.consumePasswordReset token;
  match consumed with
  | None => Throw (AppError 400 "INVALID_RESET_TOKEN" "Invalid or expired reset token")
  | Some userId =>
      passwordHash ← hashPassword newPassword;
      _ ← UserRepository.updatePasswordHash userId passwordHash;
      _ ← SessionRepository.revokeAllForUser userId "password_reset";
      _ ← audit_record (event AuditEventType.PASSWORD_RESET_COMPLETED (Some userId) None ctx false None);
      audit_record (event AuditEventType.PASSWORD_CHANGED (Some userId) None ctx false
        (Some [("via", JStr "reset_token")]))
  end.
End service.
End AuthService.

(** * Steps of the store *)

Section evolution.
Context `{P : Platform, K : KeyManagementService, J : Jose, R : RiskEngine}.
Context `{KL : !KmsLaws K, RL : !RiskLaws R}.
Import AuthService.

Lemma isKnownDevice_step u ctx : respects step (isKnownDevice u ctx).
Proof. unfold isKnownDevice. respects_step. Qed.
Lemma new_session_step u ctx b : respects step (new_session u ctx b).
Proof. apply create_step. Qed.
#[local] Hint Resolve isKnownDevice_step new_session_step : steps.

Lemma issueForSession_step s u a ctx : respects step (issueSessionTokensForSession s u a ctx).
Proof. unfold issueSessionTokensForSession. respects_step. Qed.
#[local] Hint Resolve issueForSession_step : steps.
Lemma issueSessionTokens_step u ctx a : respects step (issueSessionTokens u ctx a).
Proof. unfold issueSessionTokens. respects_step. Qed.
#[local] Hint Resolve issueSessionTokens_step : steps.
Lemma bad_password_step u ctx : respects step (bad_password u ctx).
Proof. unfold bad_password. respects_step. Qed.
Lemma assess_step u ctx : respects step (assess u ctx).
Proof. unfold assess. respects_step. Qed.
Lemma grant_login_step u ctx a : respects step (grant_login u ctx a).
Proof. unfold grant_login. respects_step. Qed.
#[local] Hint Resolve bad_password_step assess_step grant_login_step : steps.

Lemma admit_login_step u ctx : respects step (admit_login u ctx).
Proof. unfold admit_login. respects_step. Qed.
#[local] Hint Resolve admit_login_step : steps.
Lemma login_step e p ctx : respects step (login e p ctx).
Proof. unfold login. respects_step. Qed.
Lemma completeMfa_step i c ctx : respects step (completeMfaChallenge i c ctx).
Proof. unfold completeMfaChallenge. respects_step. Qed.
Lemma refresh_failed_step {A} ctx e : respects step (refresh_failed ctx e : M A).
Proof. unfold refresh_failed. respects_step. Qed.
Lemma refreshed_step c s ctx : respects step (refreshed c s ctx).
Proof. unfold refreshed. respects_step. Qed.
#[local] Hint Resolve refresh_failed_step refreshed_step : steps.
Lemma refresh_step t ctx : respects step (refresh t ctx).
Proof. unfold refresh. respects_step. Qed.
Lemma logout_step u s a t ctx : respects step (logout u s a t ctx).
Proof. unfold logout. respects_step. Qed.
Lemma me_step u : respects step (me u).
Proof. unfold me. respects_step. Qed.
Lemma forgotPassword_step e ctx : respects step (forgotPassword e ctx).
Proof. unfold forgotPassword. respects_step. Qed.
Lemma resetPassword_step t p ctx : respects step (resetPassword t p ctx).
Proof. unfold resetPassword. respects_step. Qed.
End evolution.
#[export] Hint Resolve login_step completeMfa_step refresh_step logout_step me_step
  forgotPassword_step resetPassword_step : steps.

(** * Logging in *)

Section login.
Context `{P : Platform, K : KeyManagementService, J : Jose, R : RiskEngine}.
Context `{KL : !KmsLaws K, RL : !RiskLaws R}.
Import AuthService.

(** What a login decides on: everything but the logs and the keyspace. *)
Definition decision_view (w : World) :=
  (w_now w, w_draws w, w_db w <| audit_logs := [] |> <| risk_events := [] |>, w_keys w,
   w_masterFile w).

Lemma audit_decision e : keeps decision_view (audit_record e).
Proof. apply audit_record_respects. intros rows w. done. Qed.
Lemma redis_decision {A} (p : M A) : keeps non_redis p → keeps decision_view p.
Proof.
  apply respects_mono. intros w w'. unfold same, non_redis, decision_view.
  intros [= E1 E2 E3 _ E4 _ E5]. by rewrite E1, E2, E3, E4, E5.
Qed.

Lemma isKnownDevice_redis u ctx : keeps non_redis (isKnownDevice u ctx).
Proof.
  unfold isKnownDevice. destruct (truthy _); [|done]. destruct (truthy _); [|done].
  apply respects_bind; [apply redis_keeps_get|intros v]. destruct (truthy v); [done|].
  by apply respects_bind; [apply redis_keeps_set_value|].
Qed.

Lemma assess_decision u ctx : keeps decision_view (assess u ctx).
Proof.
  apply respects_bind; [apply redis_decision, isKnownDevice_redis|intros k].
  apply respects_bind; [apply redis_decision, risk_keeps|intros ev].
  apply respects_bind; [|intros a; apply respects_bind; [by apply respects_writes|done]].
  destruct (bool_decide _); [|done]. apply respects_bind; [apply audit_decision|done].
Qed.

(** The tokens of a new login: the access token is signed for the user and
    the session with the user's roles and permissions, the refresh token is
    the last row of its table. *)
Record tokens_for (sessionId userId : string) (amr : list string) (r : LoginResultSuccess)
    (d : Db) (w' : World) : Prop := mk_tokens_for {
  tf_access : ∃ kid priv iat jti,
    let roles := order_by_name (UserRepository.roles_joined userId d) in
    let permissions := order_by_name (remove_dups (UserRepository.permissions_joined userId d)) in
    lr_scope r = defaultScopeForRoles roles ∧
    lr_access_token r = SignJWT kid (JwtService.access_claims app_jwt_options
      (mkTokenInput userId (lr_scope r) (Some roles) (Some permissions) (Some sessionId) None (Some amr))
      iat (ACCESS_TOKEN_TTL cfg) jti) priv;
  tf_refresh : ∃ row, refresh_tokens (w_db w') = refresh_tokens d ++ [row] ∧
    rt_token_hash row = rt_hash (lr_refresh_token r) ∧ rt_status_ row = RActive ∧
    rt_session_id row = sessionId ∧ rt_user_id row = userId ∧ rt_scope row = lr_scope r ∧
    rt_expires_at row = lr_refresh_expires_at r;
}.

Lemma issueForSession_inv sid uid amr ctx w r w' :
  run (issueSessionTokensForSession sid uid amr ctx) w = (Resolved r, w') →
  tokens_for sid uid amr r (w_db w) w' ∧ sessions (w_db w') = sessions (w_db w).
Proof.
  unfold issueSessionTokensForSession, UserRepository.findById.
  erewrite run_bind_eq by reflexivity.
  destruct (sql_first _ _) as [u|]; [|done].
  erewrite run_bind_eq by reflexivity. erewrite run_bind_eq by reflexivity.
  intros (s & w1 & Hs & ([t e] & w2 & Hi & H)%run_bind_resolved)%run_bind_resolved.
  destruct (sign_inv _ _ _ _ _ _ Hs) as (kid & priv & Htok & Hexp & Hn).
  destruct (issue_inv _ _ _ _ _ Hi) as (row & Hdb & Hh & Hst & He & Hsid & Hu & Hc & Hsc & _ & _).
  erewrite run_bind_eq in H by reflexivity. erewrite run_bind_eq in H by reflexivity.
  erewrite run_bind_eq in H by apply run_audit_record.
  erewrite run_bind_eq in H by apply run_audit_record.
  erewrite run_bind_eq in H by reflexivity. injection H as <- <-.
  assert (Hdb1 : w_db w1 = w_db w) by (unfold non_keys in Hn; by injection Hn).
  rewrite Hdb1 in Hdb. split; [split|].
  - eexists kid, priv, (w_now w / 1000), (sg_jti s). split; [done|exact Htok].
  - exists row. simpl. rewrite Hdb. by split_and!.
  - simpl. by rewrite Hdb.
Qed.

Lemma new_session_inv u ctx b w s w' :
  run (new_session u ctx b) w = (Resolved s, w') →
  w_db w' = w_db w <| sessions := sessions (w_db w) ++ [s] |> ∧ w_redis w' = w_redis w ∧
  w_now w' = w_now w ∧ s_user_id s = u ∧ s_status s = SActive ∧ s_mfa_passed s = b.
Proof.
  unfold new_session, SessionRepository.create. rewrite run_attempt.
  unfold SessionRepository.insert. case_decide; [done|]. by intros [= <- <-].
Qed.

Lemma createLoginChallenge_inv u sid w id w' :
  run (MfaService.createLoginChallenge u sid) w = (Resolved id, w') →
  w_db w' = w_db w ∧ live_challenge id w' = Some (mkChallenge u sid 0).
Proof.
  unfold MfaService.createLoginChallenge, RedisService.setJson, RedisService.set_value, draw.
  run_simpl. unfold live_challenge, redis_value_at.
  destruct (MFA_CHALLENGE_TTL cfg) as [|t|t]; [| |done]; intros [= <- <-]; (split; [done|]);
    rewrite redis_live_put_eq; unfold entry_live; simpl; [done|].
  by rewrite (proj2 (Z.leb_le _ _)) by lia.
Qed.

(** The account may log in with the password. *)
Record login_allowed (u : UserRow) (password : string) (now : Z) : Prop := mk_login_allowed {
  la_enabled : u_status u ≠ UDisabled;
  la_verified : u_status u ≠ UPendingVerification;
  la_unlocked : ∀ t, u_locked_until u = Some t → t ≤ now;
  la_password : verifyPassword (u_password_hash u) password = true;
}.

(** The gates of [login]. *)
Lemma run_login email password ctx w u :
  find_user email w = Some u →
  run (login email password ctx) w =
    if bool_decide (u_status u = UDisabled)
    then (Rejected (ForbiddenError "Account is disabled" "ACCOUNT_DISABLED"), w)
    else if (match u_locked_until u with Some t => w_now w <? t | None => false end)
    then (Rejected (AppError 423 "ACCOUNT_LOCKED" "Account temporarily locked"), w)
    else if negb (verifyPassword (u_password_hash u) password) then run (bad_password u ctx) w
    else if bool_decide (u_status u = UPendingVerification)
    then (Rejected (AuthError "Email address not verified" "EMAIL_NOT_VERIFIED"), w)
    else run (admit_login u ctx) w.
Proof.
  intros Hu. unfold login, UserRepository.findByEmail. erewrite run_bind_eq by reflexivity. cbv beta.
  unfold find_user in Hu. rewrite to_lower_idem, Hu. run_next.
  by repeat case_match.
Qed.

Lemma run_login_unknown email password ctx w :
  find_user email w = None → ∃ rows,
  run (login email password ctx) w = (Rejected InvalidCredentialsError, with_audit rows w).
Proof.
  intros Hu. eexists. unfold login, UserRepository.findByEmail. erewrite run_bind_eq by reflexivity.
  cbv beta. unfold find_user in Hu. rewrite to_lower_idem, Hu.
  erewrite run_bind_eq by apply run_audit_record. reflexivity.
Qed.

Lemma run_login_allowed email password ctx w u :
  find_user email w = Some u → login_allowed u password (w_now w) →
  run (login email password ctx) w = run (admit_login u ctx) w.
Proof.
  intros Hu [He Hv Hl Hp]. rewrite (run_login _ _ _ _ u Hu), Hp, !bool_decide_eq_false_2 by done. simpl.
  destruct (u_locked_until u) as [t|]; [|done].
  rewrite (proj2 (Z.ltb_ge _ _)); [done|]. by apply Hl.
Qed.

Lemma login_gates email password ctx w res w' :
  run (login email password ctx) w = (Resolved res, w') →
  ∃ u, find_user email w = Some u ∧ login_allowed u password (w_now w) ∧
    run (admit_login u ctx) w = (Resolved res, w').
Proof.
  destruct (find_user email w) as [u|] eqn:Hu; cycle 1.
  { destruct (run_login_unknown email password ctx w Hu) as [rows ->]. done. }
  rewrite (run_login _ _ _ _ u Hu). case_bool_decide as He; [done|].
  destruct (match u_locked_until u with Some t => _ | None => _ end) eqn:Hl; [done|].
  destruct (verifyPassword _ _) eqn:Hp; cycle 1.
  { cbn [negb]. intros H. exfalso. revert H. unfold bad_password.
    erewrite run_bind_eq by reflexivity.
    intros (? & w1 & _ & (? & w2 & _ & H)%run_bind_resolved)%run_bind_resolved. done. }
  cbn [negb]. case_bool_decide as Hv; [done|]. intros H. exists u. split; [done|]. split; [|done].
  split; try done. intros t Ht. rewrite Ht in Hl. by apply Z.ltb_ge.
Qed.

(** C10: A login succeeds only for an account that is not disabled, not waiting
    for the verification of its address and not locked, and whose password was
    given. It opens one session for that user, not marked as having passed a
    second factor; tokens are issued at once only to a user without an active
    second factor, and the others get a challenge for that session and no
    token. *)
Theorem login_sound (email password : string) (ctx : RequestContext) (w w' : World)
    (res : LoginResult) :
  run (login email password ctx) w = (Resolved res, w') →
  ∃ u s, find_user email w = Some u ∧ login_allowed u password (w_now w) ∧
    sessions (w_db w') = sessions (w_db w) ++ [s] ∧
    s_user_id s = u_id u ∧ s_status s = SActive ∧ s_mfa_passed s = false ∧
    match res with
    | LoginSuccess r =>
        MfaService.method_with MActive (u_id u) (w_db w) = None ∧
        tokens_for (s_id s) (u_id u) ["pwd"] r (w_db w) w'
    | LoginMfaRequired id =>
        is_Some (MfaService.method_with MActive (u_id u) (w_db w)) ∧
        live_challenge id w' = Some (mkChallenge (u_id u) (s_id s) 0) ∧
        refresh_tokens (w_db w') = refresh_tokens (w_db w)
    end.
Proof.
  intros (u & Hu & Ha & H)%login_gates. exists u.
  apply run_bind_resolved in H as (action & w1 & Hassess & H).
  pose proof (keeps_run_eq decision_view _ _ _ _ (assess_decision u ctx) Hassess) as Hv.
  case_bool_decide as Hd.
  { apply run_bind_resolved in H as (? & ? & _ & H). done. }
  unfold grant_login in H. erewrite run_bind_eq in H by apply run_hasActive. cbv beta in H.
  assert (Hdb : w_db w1 <| audit_logs := [] |> <| risk_events := [] |>
    = w_db w <| audit_logs := [] |> <| risk_events := [] |>) by exact (f_equal (λ v, v.1.1.2) Hv).
  assert (Hm : MfaService.method_with MActive (u_id u) (w_db w1)
    = MfaService.method_with MActive (u_id u) (w_db w)).
  { unfold MfaService.method_with. f_equal. exact (f_equal mfa_methods Hdb). }
  assert (Hs : sessions (w_db w1) = sessions (w_db w)) by exact (f_equal sessions Hdb).
  assert (Hr : refresh_tokens (w_db w1) = refresh_tokens (w_db w)) by exact (f_equal refresh_tokens Hdb).
  rewrite Hm in H. case_bool_decide as Hmfa; cbn [orb negb andb] in H; cycle 1.
  - case_bool_decide as Hup; [done|].
    apply run_bind_resolved in H as (r & w2 & H & Hret). injection Hret as <- <-.
    apply run_bind_resolved in H as (s & w3 & Hnew & H).
    destruct (new_session_inv _ _ _ _ _ _ Hnew) as (Hdb3 & _ & _ & Hsu & Hst & Hp).
    destruct (issueForSession_inv _ _ _ _ _ _ _ H) as [[Hacc Href] Hsess].
    exists s. rewrite Hsess, Hdb3. simpl. rewrite Hs. split_and!; try done.
    + by destruct (MfaService.method_with _ _ _); [destruct Hmfa|].
    + rewrite Hdb3 in Hacc, Href. split.
      * revert Hacc. unfold UserRepository.roles_joined, UserRepository.permissions_joined. simpl.
        pose proof (f_equal roles Hdb) as E1. pose proof (f_equal user_roles Hdb) as E2.
        pose proof (f_equal permissions Hdb) as E3. pose proof (f_equal role_permissions Hdb) as E4.
        simpl in E1, E2, E3, E4. by rewrite E1, E2, E3, E4.
      * simpl in Href. by rewrite Hr in Href.
  - apply run_bind_resolved in H as (s & w3 & Hnew & H).
    destruct (new_session_inv _ _ _ _ _ _ Hnew) as (Hdb3 & _ & _ & Hsu & Hst & Hp).
    apply run_bind_resolved in H as (id & w4 & Hch & Hret). injection Hret as <- <-.
    destruct (createLoginChallenge_inv _ _ _ _ _ Hch) as [Hdb4 Hlive].
    exists s. rewrite Hdb4, Hdb3. simpl. rewrite Hs, Hr. by split_and!.
Qed.

(** ** Lockout *)

(** What one wrong password does to the row of the account. *)
Definition after_failure (now : Z) (u : UserRow) : UserRow :=
  let u' := u <| u_failed_login_count ::= Z.succ |> <| u_updated_at := now |> in
  let until := now + LOCKOUT_MINUTES cfg * 60000 in
  if MAX_FAILED_LOGINS cfg <=? u_failed_login_count u + 1
  then (if UserRepository.lock_shorter until u' then UserRepository.lock until now u' else u')
  else u'.

Lemma find_user_update email (w : World) (Q : UserRow → Prop) `{!∀ u, Decision (Q u)} f :
  (∀ u, Q u → u_email (f u) = u_email u) →
  sql_first (λ u, u_email_key u = to_lower email) (sql_update Q f (users (w_db w)))
  = sql_set Q f <$> find_user email w.
Proof.
  intros Hf. unfold find_user. apply sql_first_update. intros u. unfold sql_set, u_email_key.
  case_decide; [by rewrite Hf | done].
Qed.

Lemma run_bad_password u ctx email w :
  find_user email w = Some u →
  ∃ w', run (bad_password u ctx) w = (Rejected InvalidCredentialsError, w') ∧
    find_user email w' = Some (after_failure (w_now w) u) ∧
    sessions (w_db w') = sessions (w_db w) ∧ refresh_tokens (w_db w') = refresh_tokens (w_db w) ∧
    mfa_methods (w_db w') = mfa_methods (w_db w) ∧
    u_id <$> users (w_db w') = u_id <$> users (w_db w) ∧
    same_keys w w' ∧ w_draws w' = w_draws w.
Proof.
  intros Hu. set (now := w_now w).
  set (w1 := (run (UserRepository.recordFailedLogin (u_id u)) w).2).
  assert (Hu1 : find_user email w1
    = Some (u <| u_failed_login_count ::= Z.succ |> <| u_updated_at := now |>)).
  { unfold w1, find_user. simpl. rewrite (find_user_update email w) by done.
    rewrite Hu. simpl. by rewrite sql_set_true. }
  unfold bad_password, after_failure. destruct (MAX_FAILED_LOGINS cfg <=? _) eqn:Hmax.
  - eexists. split.
    { run_next. fold w1. erewrite run_bind_eq; cycle 1.
      { erewrite run_bind_eq by reflexivity. erewrite run_bind_eq by reflexivity.
        apply run_audit_record. }
      erewrite run_bind_eq by apply run_audit_record. reflexivity. }
    split; [|split_and!; try done; simpl; by rewrite !sql_update_key].
    unfold find_user. simpl. rewrite (find_user_update email w1) by done.
    rewrite Hu1. simpl. unfold sql_set. simpl.
    destruct (UserRepository.lock_shorter _ _); [by rewrite decide_True|].
    rewrite decide_False; [done|]. by intros [].
  - eexists. split.
    { run_next. fold w1. run_next. erewrite run_bind_eq by apply run_audit_record. reflexivity. }
    split_and!; try done. simpl. by rewrite sql_update_key.
Qed.

(** A login attempt with a wrong password at an account that is not locked. *)
Lemma run_login_wrong email password ctx w u :
  find_user email w = Some u → u_status u ≠ UDisabled →
  (∀ t, u_locked_until u = Some t → t ≤ w_now w) →
  verifyPassword (u_password_hash u) password = false →
  run (login email password ctx) w = run (bad_password u ctx) w.
Proof.
  intros Hu He Hl Hp. rewrite (run_login _ _ _ _ u Hu), Hp, bool_decide_eq_false_2 by done.
  destruct (u_locked_until u) as [t|]; [|done].
  rewrite (proj2 (Z.ltb_ge _ _)); [done|]. by apply Hl.
Qed.

(** Logins one after the other, each at its time. *)
Fixpoint login_all (email : string) (ctx : RequestContext) (tries : list (Z * string)) (w : World)
    : list (outcome Err LoginResult) * World :=
  match tries with
  | [] => ([], w)
  | (t, password) :: tries =>
      let '(r, w1) := run (login email password ctx) (w <| w_now := t |>) in
      let '(rs, w') := login_all email ctx tries w1 in (r :: rs, w')
  end.

(** C11: After [MAX_FAILED_LOGINS] wrong passwords in a row the account is locked:
    until the lockout has passed every login is refused, with the right
    password too, and changes nothing. *)
Theorem login_lockout (email : string) (ctx : RequestContext) (tries : list (Z * string))
    (last : Z * string) (u : UserRow) (w : World) :
  find_user email w = Some u → u_status u ≠ UDisabled → u_locked_until u = None →
  u_failed_login_count u + Z.of_nat (length tries) + 1 = MAX_FAILED_LOGINS cfg →
  Forall (λ a, verifyPassword (u_password_hash u) a.2 = false) (tries ++ [last]) →
  let '(rs, w') := login_all email ctx (tries ++ [last]) w in
  Forall (λ r, r = Rejected InvalidCredentialsError) rs ∧
  ∀ t password, t < last.1 + LOCKOUT_MINUTES cfg * 60000 →
    run (login email password ctx) (w' <| w_now := t |>)
    = (Rejected (AppError 423 "ACCOUNT_LOCKED" "Account temporarily locked"), w' <| w_now := t |>).
Proof.
  revert u w. induction tries as [|[t0 p0] tries IH]; intros u w Hu He Hl Hc Hw;
    (apply Forall_cons in Hw as [Hp Hw] || (apply Forall_app in Hw as [_ Hw];
       apply Forall_cons in Hw as [Hp _])); cbn [app login_all].
  - destruct last as [t0 p0]. simpl in Hp, Hc. set (w0 := w <| w_now := t0 |>).
    rewrite (run_login_wrong email p0 ctx w0 u) by (try done; intros t; by rewrite Hl).
    destruct (run_bad_password u ctx email w0 Hu) as (w1 & -> & Hu1 & _).
    split; [by constructor|]. intros t password Ht.
    unfold after_failure in Hu1. rewrite (proj2 (Z.leb_le _ _)) in Hu1 by lia.
    unfold UserRepository.lock_shorter in Hu1. simpl in Hu1. rewrite Hl in Hu1.
    erewrite (run_login email password ctx (w1 <| w_now := t |>)) by exact Hu1.
    rewrite bool_decide_eq_false_2 by done. simpl. simpl in Ht.
    by rewrite (proj2 (Z.ltb_lt _ _)) by lia.
  - set (w0 := w <| w_now := t0 |>). simpl in Hp, Hc.
    rewrite (run_login_wrong email p0 ctx w0 u) by (try done; intros t; by rewrite Hl).
    destruct (run_bad_password u ctx email w0 Hu) as (w1 & -> & Hu1 & _).
    unfold after_failure in Hu1. rewrite (proj2 (Z.leb_gt _ _)) in Hu1 by lia.
    specialize (IH _ w1 Hu1 He Hl). simpl in IH.
    destruct (login_all email ctx (tries ++ [last]) w1) as [rs w'] eqn:Ea.
    destruct IH as [Hrs Hlock]; [lia|done|]. split; [by constructor | done].
Qed.

(** ** Completeness *)

(** The ids of the stored sessions were all drawn from the random source. *)
Definition session_ids_drawn (w : World) : Prop :=
  Forall (λ s, ∃ n, (n < w_draws w)%N ∧ s_id s = random_uuid n) (sessions (w_db w)).

Context `{PL : !PlatformLaws P}.

Lemma run_new_session u ctx b w :
  session_ids_drawn w →
  ∃ s w', run (new_session u ctx b) w = (Resolved s, w') ∧ s_user_id s = u ∧
    w_db w' = w_db w <| sessions := sessions (w_db w) ++ [s] |> ∧ same_keys w w' ∧
    (w_draws w ≤ w_draws w')%N ∧ w_now w' = w_now w ∧ w_redis w' = w_redis w ∧
    (∃ n, s_id s = random_uuid n).
Proof.
  intros Hd. unfold new_session, SessionRepository.create. rewrite run_attempt.
  unfold SessionRepository.insert. rewrite decide_False.
  - eexists _, _. split; [done|]. split; [done|]. split; [done|]. split; [done|]. simpl. split; [lia|].
    split; [done|]. split; [done|]. by eexists.
  - intros Hin. apply list_elem_of_fmap in Hin as (s & Hs & Hin).
    unfold session_ids_drawn in Hd. rewrite Forall_forall in Hd.
    destruct (Hd s Hin) as (n & Hn & Hid). rewrite Hid in Hs.
    pose proof random_uuid_inj. apply (inj random_uuid) in Hs. lia.
Qed.

(** The roles and permissions of a user in the database. *)
Definition roles_at (uid : string) (d : Db) : list string := order_by_name (UserRepository.roles_joined uid d).
Definition permissions_at (uid : string) (d : Db) : list string :=
  order_by_name (remove_dups (UserRepository.permissions_joined uid d)).

(** The tables behind them, and the second factors. *)
Definition grants (d : Db) := (roles d, user_roles d, permissions d, role_permissions d, mfa_methods d).

(** The claims of the access token of a login. *)
Definition login_claims (uid sid : string) (amr : list string) (w : World) (jti : string) : Claims :=
  JwtService.access_claims app_jwt_options
    (mkTokenInput uid (defaultScopeForRoles (roles_at uid (w_db w))) (Some (roles_at uid (w_db w)))
       (Some (permissions_at uid (w_db w))) (Some sid) None (Some amr))
    (w_now w / 1000) (ACCESS_TOKEN_TTL cfg) jti.

(** The token of a session: signed with a published key under an identifier
    drawn after [w0]; with an active refresh token of the session. *)
Definition session_granted (uid sid : string) (amr : list string) (r : LoginResultSuccess) (w0 w w' : World) : Prop :=
  (∃ jti n, (w_draws w0 ≤ n)%N ∧ jti = random_uuid n ∧
     published_signature (lr_access_token r) (login_claims uid sid amr w jti) w') ∧
  (∃ next, next ∈ refresh_tokens (w_db w') ∧ rt_token_hash next = rt_hash (lr_refresh_token r) ∧
     rt_status_ next = RActive ∧ rt_session_id next = sid ∧ rt_user_id next = uid).

Lemma run_issueForSession sid u amr ctx w :
  u ∈ users (w_db w) → NoDup (u_id <$> users (w_db w)) → kms_wf w → rt_wf w →
  ∃ r w', run (issueSessionTokensForSession sid (u_id u) amr ctx) w = (Resolved r, w') ∧
    lr_user r = mkLoginUser (u_id u) (u_email u) (user_status_string (u_status u)) ∧
    users (w_db w') = sql_update (λ x, u_id x = u_id u)
      (λ x, UserRepository.unlocked x <| u_updated_at := w_now w |>)
      (sql_update (λ x, u_id x = u_id u)
         (λ x, x <| u_last_login_at := Some (w_now w) |> <| u_updated_at := w_now w |>)
         (users (w_db w))) ∧
    w_now w' = w_now w ∧ w_redis w' = w_redis w ∧ grants (w_db w') = grants (w_db w) ∧
    session_granted (u_id u) sid amr r w w w'.
Proof.
  intros Hu Hn Hk Hrt.
  assert (Hf : sql_first (λ x, u_id x = u_id u) (users (w_db w)) = Some u)
    by by apply (sql_first_unique _ u_id (u_id u)).
  set (scope := defaultScopeForRoles (roles_at (u_id u) (w_db w))).
  destruct (run_sign_published app_jwt_options (mkTokenInput (u_id u) scope (Some (roles_at (u_id u) (w_db w)))
    (Some (permissions_at (u_id u) (w_db w))) (Some sid) None (Some amr)) None w Hk)
    as (s & w1 & n & Hs & _ & Hkey & Hdr & Hjti & Hsig).
  set (p := mkIssue sid (u_id u) None scope None None).
  assert (Hfresh : rt_hash (random_b64url 32 (w_draws w1)) ∉ rt_token_hash <$> refresh_tokens (w_db w1)).
  { rewrite (key_step_db _ _ Hkey). apply rt_wf_fresh; [done|apply Hkey]. }
  eexists _, _. split.
  { unfold issueSessionTokensForSession, UserRepository.findById. erewrite run_bind_eq by reflexivity.
    cbv beta. rewrite Hf. do 2 (erewrite run_bind_eq by reflexivity). cbv beta zeta.
    change (order_by_name (UserRepository.roles_joined (u_id u) (w_db w))) with (roles_at (u_id u) (w_db w)).
    change (order_by_name (remove_dups (UserRepository.permissions_joined (u_id u) (w_db w))))
      with (permissions_at (u_id u) (w_db w)).
    rewrite (run_bind_eq _ _ _ _ _ Hs).
    erewrite run_bind_eq by (apply run_issue_new_family; [done|exact Hfresh]).
    do 2 (erewrite run_bind_eq by reflexivity).
    do 2 (erewrite run_bind_eq by apply run_audit_record).
    erewrite run_bind_eq by reflexivity. reflexivity. }
  pose proof (key_step_db _ _ Hkey) as Hdb. pose proof (key_step_now _ _ Hkey) as Hnow.
  split; [done|]. split; [simpl; by rewrite Hdb, Hnow|]. split; [exact Hnow|].
  split; [exact (key_step_redis _ _ Hkey)|].
  split; [unfold grants; simpl; by rewrite Hdb|]. split.
  - exists (sg_jti s), n. split; [done|]. split; [done|]. by apply (published_stable _ _ w1).
  - simpl. eexists. split; [apply elem_of_app; right; by left|]. by split_and!.
Qed.

(** The assessment of a login leaves everything alone that decides it. *)
Lemma assess_frame u ctx w action w1 :
  run (assess u ctx) w = (Resolved action, w1) →
  same_keys w w1 ∧ w_draws w1 = w_draws w ∧ w_now w1 = w_now w ∧ users (w_db w1) = users (w_db w) ∧
  sessions (w_db w1) = sessions (w_db w) ∧ refresh_tokens (w_db w1) = refresh_tokens (w_db w) ∧
  grants (w_db w1) = grants (w_db w).
Proof.
  intros Hassess. pose proof (keeps_run_eq decision_view _ _ _ _ (assess_decision u ctx) Hassess) as Hv.
  assert (Hdb : w_db w1 <| audit_logs := [] |> <| risk_events := [] |>
    = w_db w <| audit_logs := [] |> <| risk_events := [] |>) by exact (f_equal (λ v, v.1.1.2) Hv).
  split; [split; [exact (f_equal (λ v, v.1.2) Hv)|exact (f_equal (λ v, v.2) Hv)]|].
  split; [exact (f_equal (λ v, v.1.1.1.2) Hv)|]. split; [exact (f_equal (λ v, v.1.1.1.1) Hv)|].
  split; [exact (f_equal users Hdb)|]. split; [exact (f_equal sessions Hdb)|].
  split; [exact (f_equal refresh_tokens Hdb)|exact (f_equal grants Hdb)].
Qed.

(** The row of a user after the two UPDATEs of a login. *)
Definition logged_in (now : Z) (u : UserRow) : UserRow :=
  UserRepository.unlocked (u <| u_last_login_at := Some now |> <| u_updated_at := now |>) <| u_updated_at := now |>.

Lemma logged_in_found email w w' u :
  find_user email w = Some u → NoDup (u_id <$> users (w_db w)) →
  users (w_db w') = sql_update (λ x, u_id x = u_id u)
      (λ x, UserRepository.unlocked x <| u_updated_at := w_now w |>)
      (sql_update (λ x, u_id x = u_id u)
         (λ x, x <| u_last_login_at := Some (w_now w) |> <| u_updated_at := w_now w |>)
         (users (w_db w))) →
  find_user email w' = Some (logged_in (w_now w) u) ∧
  sql_first (λ x, u_id x = u_id u) (users (w_db w')) = Some (logged_in (w_now w) u).
Proof.
  intros Hu Hn Hus.
  assert (Hrow : sql_set (λ x, u_id x = u_id u)
      (λ x, UserRepository.unlocked x <| u_updated_at := w_now w |>)
      (sql_set (λ x, u_id x = u_id u)
         (λ x, x <| u_last_login_at := Some (w_now w) |> <| u_updated_at := w_now w |>) u)
      = logged_in (w_now w) u).
  { rewrite (sql_set_true _ _ u) by done. by rewrite sql_set_true by done. }
  split.
  - set (w2' := on_db (λ d, d <| users ::= sql_update (λ x, u_id x = u_id u)
      (λ x, x <| u_last_login_at := Some (w_now w) |> <| u_updated_at := w_now w |>) |>) w).
    unfold find_user. rewrite Hus.
    change (sql_update (λ x, u_id x = u_id u)
      (λ x, x <| u_last_login_at := Some (w_now w) |> <| u_updated_at := w_now w |>) (users (w_db w)))
      with (users (w_db w2')).
    rewrite (find_user_update email w2') by done. unfold find_user at 1. unfold w2'. simpl.
    rewrite (find_user_update email w) by done. rewrite Hu. cbn [fmap option_fmap option_map]. by f_equal.
  - rewrite Hus. apply (sql_first_unique _ u_id (u_id u)); [by rewrite !sql_update_key|by intros ? ?| |done].
    apply elem_of_update. eexists. split; [|by rewrite <- Hrow]. apply elem_of_update.
    exists u. split; [by apply sql_first_Some in Hu as [_ ?]|done].
Qed.

(** An allowed account without a second factor, whose login the risk engine
    lets pass, gets the tokens of a new session; its failure count and its lock
    are cleared, and nothing else about it changes. *)
Lemma run_login_granted email password ctx w w1 u :
  find_user email w = Some u → login_allowed u password (w_now w) →
  MfaService.method_with MActive (u_id u) (w_db w) = None →
  run (assess u ctx) w = (Resolved Allow, w1) →
  NoDup (u_id <$> users (w_db w)) → kms_wf w → rt_wf w → session_ids_drawn w →
  ∃ r w' sid, run (login email password ctx) w = (Resolved (LoginSuccess r), w') ∧
    lu_id (lr_user r) = u_id u ∧
    find_user email w' = Some (logged_in (w_now w) u) ∧
  sql_first (λ x, u_id x = u_id u) (users (w_db w')) = Some (logged_in (w_now w) u) ∧
  w_now w' = w_now w ∧ w_redis w' = w_redis w1 ∧ grants (w_db w') = grants (w_db w) ∧
    session_granted (u_id u) sid ["pwd"] r w w w' ∧ (∃ n, sid = random_uuid n).
Proof.
  intros Hu Ha Hm Hassess Hn Hk Hrt Hs.
  destruct (assess_frame _ _ _ _ _ Hassess) as (Hkeys & Hdraws & Hnow & Husers & Hsess & Hrts & Hg).
  pose proof (f_equal snd Hg) as Hmfa. simpl in Hmfa.
  assert (Hs1 : session_ids_drawn w1) by (unfold session_ids_drawn; by rewrite Hsess, Hdraws).
  destruct (run_new_session (u_id u) ctx false w1 Hs1) as (s & w2 & Hnew & Hsu & Hdb2 & Hk2 & Hd2 & Hnow2 & Hred2 & Hsid).
  assert (Hrt2 : rt_wf w2).
  { destruct Hrt as [Hun Hdr]. unfold rt_wf, rt_unique. rewrite Hdb2. simpl. rewrite Hrts.
    split; [done|]. eapply Forall_impl; [exact Hdr|]. intros r (n & Hlt & Hh). exists n.
    split; [lia|done]. }
  assert (Hg2 : grants (w_db w2) = grants (w_db w)) by by rewrite Hdb2.
  destruct (run_issueForSession (s_id s) u ["pwd"] ctx w2)
    as (r & w3 & Hiss & Hlu & Hus & Hnow3 & Hred3 & Hg3 & (jti & n & Hn3 & Hjti & Hsig) & Hnext); try done.
  { rewrite Hdb2. simpl. rewrite Husers. by apply sql_first_Some in Hu as [_ ?]. }
  { rewrite Hdb2. simpl. by rewrite Husers. }
  { apply (kms_wf_stable w1); [done|]. by apply (kms_wf_stable w). }
  exists r, w3, (s_id s). split.
  { rewrite (run_login_allowed _ _ _ _ u Hu Ha). unfold admit_login.
    rewrite (run_bind_eq _ _ _ _ _ Hassess). cbv beta. rewrite bool_decide_eq_false_2 by done.
    unfold grant_login. erewrite run_bind_eq by apply run_hasActive. cbv beta.
    unfold MfaService.method_with in Hm |- *. rewrite Hmfa, Hm. cbn [orb negb andb].
    rewrite (bool_decide_eq_false_2 (is_Some None)) by (by intros []).
    rewrite (bool_decide_eq_false_2 (Allow = MfaStepUp)) by done.
    cbn [orb negb andb]. rewrite (run_bind_eq _ _ _ r w3); [reflexivity|].
    unfold issueSessionTokens. change (includes ["pwd"] "mfa") with false.
    rewrite (run_bind_eq _ _ _ _ _ Hnew). exact Hiss. }
  split; [by rewrite Hlu|].
  assert (Husers2 : users (w_db w2) = users (w_db w)) by (rewrite Hdb2; exact Husers).
  assert (Hnow2' : w_now w2 = w_now w) by congruence.
  rewrite Husers2, Hnow2' in Hus.
  destruct (logged_in_found email w w3 u Hu Hn Hus) as [Hf1 Hf2].
  do 2 (split; [done|]). do 3 (split; [congruence|]). split; [|done]. split; [|done].
  exists jti, n. split; [lia|]. split; [done|].
    assert (login_claims (u_id u) (s_id s) ["pwd"] w jti = login_claims (u_id u) (s_id s) ["pwd"] w2 jti) as ->; [|done].
    unfold grants in Hg2. injection Hg2 as G1 G2 G3 G4 _.
    unfold login_claims, roles_at, permissions_at, UserRepository.roles_joined, UserRepository.permissions_joined.
    by rewrite G1, G2, G3, G4, Hnow2'.
Qed.

Lemma run_login_complete email password ctx w w1 u :
  find_user email w = Some u → login_allowed u password (w_now w) →
  MfaService.method_with MActive (u_id u) (w_db w) = None →
  run (assess u ctx) w = (Resolved Allow, w1) →
  NoDup (u_id <$> users (w_db w)) → kms_wf w → rt_wf w → session_ids_drawn w →
  ∃ r w', run (login email password ctx) w = (Resolved (LoginSuccess r), w') ∧
    lu_id (lr_user r) = u_id u ∧
    ∃ u', find_user email w' = Some u' ∧ u_failed_login_count u' = 0 ∧ u_locked_until u' = None ∧
      u_status u' = (if decide (u_status u = ULocked) then UActive else u_status u).
Proof.
  intros Hu Ha Hm Hassess Hn Hk Hrt Hs.
  destruct (run_login_granted email password ctx w w1 u Hu Ha Hm Hassess Hn Hk Hrt Hs)
    as (r & w' & sid & Hrun & Hid & Hu' & _).
  exists r, w'. split; [done|]. split; [done|]. eexists. split; [exact Hu'|]. by split_and!.
Qed.

(** An allowed account without a second factor, whose login the risk engine
    lets pass, gets its tokens, and its failures are forgotten. *)
Theorem login_complete (email password : string) (ctx : RequestContext) (w w1 : World) (u : UserRow) :
  find_user email w = Some u → login_allowed u password (w_now w) →
  MfaService.method_with MActive (u_id u) (w_db w) = None →
  run (assess u ctx) w = (Resolved Allow, w1) →
  NoDup (u_id <$> users (w_db w)) → kms_wf w → rt_wf w → session_ids_drawn w →
  ∃ r w', run (login email password ctx) w = (Resolved (LoginSuccess r), w') ∧
    lu_id (lr_user r) = u_id u ∧
    ∃ u', find_user email w' = Some u' ∧ u_failed_login_count u' = 0 ∧ u_locked_until u' = None ∧
      u_status u' = (if decide (u_status u = ULocked) then UActive else u_status u).
Proof. apply run_login_complete. Qed.

(** Lockout defeats e-mail verification. An account waiting for verification
    refuses its own password; but one more wrong password locks it, which
    overwrites its status, and once the lockout has passed the password is
    accepted and the account becomes active, without any token having been
    presented. *)
Theorem lockout_skips_verification (email wrong right : string) (ctx : RequestContext)
    (u : UserRow) (w : World) :
  find_user email w = Some u → u_status u = UPendingVerification → u_locked_until u = None →
  u_failed_login_count u + 1 = MAX_FAILED_LOGINS cfg →
  verifyPassword (u_password_hash u) wrong = false →
  verifyPassword (u_password_hash u) right = true →
  MfaService.method_with MActive (u_id u) (w_db w) = None →
  NoDup (u_id <$> users (w_db w)) → kms_wf w → rt_wf w → session_ids_drawn w →
  run (login email right ctx) w
    = (Rejected (AuthError "Email address not verified" "EMAIL_NOT_VERIFIED"), w) ∧
  ∃ w1, run (login email wrong ctx) w = (Rejected InvalidCredentialsError, w1) ∧
    ∀ t w2, w_now w + LOCKOUT_MINUTES cfg * 60000 ≤ t →
      run (assess u ctx) (w1 <| w_now := t |>) = (Resolved Allow, w2) →
      ∃ r w' u', run (login email right ctx) (w1 <| w_now := t |>) = (Resolved (LoginSuccess r), w') ∧
        find_user email w' = Some u' ∧ u_status u' = UActive.
Proof.
  intros Hu Hst Hl Hc Hwrong Hright Hm Hn Hk Hrt Hs. split.
  { rewrite (run_login _ _ _ _ u Hu), Hl, Hright, Hst. done. }
  rewrite (run_login_wrong _ _ _ _ u Hu) by (try done; first [by rewrite Hst | intros t; by rewrite Hl]).
  destruct (run_bad_password u ctx email w Hu)
    as (w1 & -> & Hu1 & Hs1 & Hr1 & Hm1 & Hid1 & Hk1 & Hd1).
  exists w1. split; [done|]. intros t w2 Ht Hassess.
  unfold after_failure in Hu1. rewrite (proj2 (Z.leb_le _ _)) in Hu1 by lia.
  unfold UserRepository.lock_shorter in Hu1. simpl in Hu1. rewrite Hl in Hu1.
  set (u1 := UserRepository.lock _ _ _) in Hu1.
  destruct (run_login_complete email right ctx (w1 <| w_now := t |>) w2 u1)
    as (r & w' & Hrun & _ & u' & Hu' & _ & _ & Hst'); try done.
  - split; try done. intros t' [= <-]. simpl. lia.
  - change (MfaService.method_with MActive (u_id u) (w_db w1) = None).
    unfold MfaService.method_with. by rewrite Hm1.
  - simpl. by rewrite Hid1.
  - by apply (kms_wf_stable w).
  - destruct Hrt as [Hun Hdr]. unfold rt_wf, rt_unique. simpl. rewrite Hr1. split; [done|].
    eapply Forall_impl; [exact Hdr|]. intros x (n & Hlt & Hh). exists n. simpl. by rewrite Hd1.
  - unfold session_ids_drawn in *. simpl. by rewrite Hs1, Hd1.
  - exists r, w', u'. split; [done|]. split; [done|]. by rewrite Hst'.
Qed.
End login.
