(* ===== verification/Recovery.v ===== *)
(** The life of a login after it was granted: refreshing it, completing its
    second factor, recovering the password
    (src/modules/auth/auth.service.ts). *)
From S2P Require Import Prelude Async JsString Errors Store Evolution Toy Redis AuditLog RefreshTokens Sessions Users Password EmailTokens UserService Keys Jwt Mfa Risk AuthService.
From stdpp Require Import base gmap strings list pretty relations.
From Stdlib Require Import ZArith Ascii.
Local Open Scope string_scope.
Local Open Scope list_scope.
Local Open Scope Z_scope.

Import AuthService.

(** * Refreshing *)

Section refresh.
Context `{P : Platform, K : KeyManagementService, J : Jose, R : RiskEngine}.
Context `{KL : !KmsLaws K, RL : !RiskLaws R}.

(** A refresh token of a revoked session. *)
Definition dead_token (token : string) (w : World) : Prop :=
  rt_unique w ∧ ∃ r, r ∈ refresh_tokens (w_db w) ∧ rt_token_hash r = rt_hash token ∧
    session_dead (rt_session_id r) w.

Lemma dead_token_step token w w' : step w w' → dead_token token w → dead_token token w'.
Proof.
  intros Hs (Hu & r & Hr & Hh & Hd). pose proof (step_rt _ _ Hs) as [Hg Hun]. split; [by apply Hun|].
  destruct (grows_elem _ _ _ _ Hg Hr) as (r' & Hr' & Hle). exists r'. split; [done|].
  split; [by rewrite (rt_le_hash r)|]. pose proof (rt_le_core _ _ Hle) as Hc. unfold rt_core in Hc.
  replace (rt_session_id r') with (rt_session_id r) by congruence.
  by eapply session_dead_step.
Qed.

(** [consume] gives back a row of the session of the token. *)
Lemma consume_dead_rg token w sid r :
  rt_unique w → r ∈ refresh_tokens (w_db w) → rt_token_hash r = rt_hash token →
  rt_session_id r = sid →
  rg step (λ c _, rt_session_id (co_row c) = sid) (consume token) w.
Proof.
  intros Hu Hr Hh Hsid. unfold consume.
  apply (rg_bind _ (λ o _, ∀ row, o = Some row → rt_session_id row = sid)).
  - apply rg_atomically. intros v Hv. split.
    { apply (respects_run step (atomically (rt_rotate_returning (rt_hash token)) : M _)), rt_rotate_step. }
    intros v' _ row. cbn [rt_rotate_returning fst]. rewrite sql_returning_head.
    destruct (sql_first _ _) as [r0|] eqn:Hf; intros [= <-]. apply sql_first_Some in Hf as [Hc Hin].
    pose proof (step_rt _ _ Hv) as [Hg Hun].
    destruct (grows_elem _ _ _ _ Hg Hr) as (r' & Hr' & Hle).
    assert (r0 = r') as ->.
    { apply (rt_unique_eq v); [by apply Hun|done|done|]. rewrite (rt_le_hash r r' Hle), Hh. apply Hc. }
    pose proof (rt_le_core _ _ Hle) as Hcore. unfold rt_core in Hcore. simpl. congruence.
  - intros [row|] v _ Hrow.
    + apply (rg_bind _ (λ _ _, True)); [apply rg_respects, issue_step|].
      intros next v' _ _ v'' _. simpl. by apply Hrow.
    + apply (rg_bind _ (λ _ _, True)); [apply rg_respects, handleReuse_step|]. done.
Qed.

Lemma refresh_dead_rg token ctx w :
  dead_token token w → rg step (λ _ _, False) (refresh token ctx) w.
Proof.
  intros Hd. unfold refresh. apply rg_catch; [apply _| |]; cycle 1.
  { intros e v _. unfold refresh_failed. apply (rg_bind _ (λ _ _, True)); [|done].
    apply rg_respects. destruct (bool_decide _); [apply audit_record_step|done]. }
  destruct Hd as (Hu & r & Hr & Hh & Hdead).
  apply (rg_bind _ (λ c _, rt_session_id (co_row c) = rt_session_id r)).
  { by apply (consume_dead_rg token w _ r). }
  intros c v Hv Hc. rewrite Hc.
  apply (rg_bind _ not_active).
  { apply findById_dead. by eapply session_dead_step. }
  intros o v' Hv' Hna.
  assert (Hthrow : ∀ e, rg step (λ (_ : LoginResultSuccess) _, False)
    (_ ← revokeFamily (rt_family_id (co_row c)); Throw e) v').
  { intros e. apply (rg_bind _ (λ _ _, True)); [apply rg_respects, revokeFamily_step|done]. }
  destruct o as [s|]; [|apply Hthrow]. rewrite bool_decide_eq_false_2; [apply Hthrow|].
  by rewrite (Hna s eq_refl).
Qed.

(** A revoked session cannot be refreshed: however requests with a refresh
    token of that session interleave with each other and with the rest of the
    system, none of them obtains tokens. *)
Theorem refresh_needs_live_session (token : string) (env : World → World → Prop)
    (ps ps' : list (M LoginResultSuccess)) (w w' : World) :
  (∀ v v', env v v' → step v v') → dead_token token w →
  Forall (λ p, ∃ ctx, p = refresh token ctx) ps →
  rtc (pstep env (λ p, ∃ ctx, p = refresh token ctx)) (ps, w) (ps', w') →
  ∀ r, Ret r ∉ ps'.
Proof.
  intros Henv Hd Hps Hsteps r Hr.
  apply (pool_rg_values step env (λ p, ∃ ctx, p = refresh token ctx) (dead_token token)
    (λ _ _, False) (ps, w) (ps', w') r); try done.
  - intros v v'. apply dead_token_step.
  - intros p v [ctx ->]. apply refresh_dead_rg.
Qed.

Context `{PL : !PlatformLaws P}.

(** Looking up an active session. *)
Lemma run_findById_active s w :
  sess_unique w → cache_ok w → s ∈ sessions (w_db w) → s_status s = SActive →
  ∃ w', run (SessionRepository.findById (s_id s)) w = (Resolved (Some s), w') ∧
    redis_at (session_key (s_id s)) w w'.
Proof.
  intros Hu Hc Hs Ha. destruct (run_findById (s_id s) w Hu Hc) as (o & w' & Hrun & Hv & Hin & _).
  exists w'. split; [|pose proof (respects_run _ _ w (findById_at (s_id s))) as Hat; by rewrite Hrun in Hat].
  rewrite (sess_first_unique w s Hu Hs) in Hv. destruct o as [s'|]; [|done].
  injection Hv as Hid _ _ _ _ _ _ Hst. rewrite Hrun. do 2 f_equal.
  assert (s' ∈ sessions (w_db w)) as Hs' by (apply Hin; [done|congruence]).
  f_equal. by apply (unique_row s_id (sessions (w_db w))).
Qed.

(** The tables of accounts, roles and second factors. *)
Definition accounts (d : Db) :=
  (users d, roles d, user_roles d, permissions d, role_permissions d, mfa_methods d).

(** What an exchange leaves behind: the presented token is rotated, the hashes
    are still unique, the accounts are what they were, and Redis has changed at
    the session's entry only. *)
Definition rotated_state (r : RefreshTokenRow) (s : SessionRow) (w w' : World) : Prop :=
  rt_unique w' ∧ rt_rotate (w_now w) r ∈ refresh_tokens (w_db w') ∧ w_now w' = w_now w ∧
  accounts (w_db w') = accounts (w_db w) ∧
  ∀ k, k ≠ session_key (s_id s) → w_redis w' !! k = w_redis w !! k.

(** The claims of the access token of an exchange. *)
Definition refreshed_claims (r : RefreshTokenRow) (s : SessionRow) (w : World) (jti : string) : Claims :=
  JwtService.access_claims app_jwt_options
    (mkTokenInput (rt_user_id r) (rt_scope r)
       (Some (order_by_name (UserRepository.roles_joined (rt_user_id r) (w_db w))))
       (Some (order_by_name (remove_dups (UserRepository.permissions_joined (rt_user_id r) (w_db w)))))
       (Some (s_id s)) (rt_client_id r) (Some (if s_mfa_passed s then ["pwd"; "mfa"] else ["pwd"])))
    (w_now w / 1000) (ACCESS_TOKEN_TTL cfg) jti.

(** An exchange of a live token of a live session succeeds. *)
Lemma run_refresh_live (token : string) (ctx : RequestContext) (w : World)
    (r : RefreshTokenRow) (s : SessionRow) :
  rt_wf w → r ∈ refresh_tokens (w_db w) → rt_consumable (rt_hash token) (w_now w) r →
  s ∈ sessions (w_db w) → s_id s = rt_session_id r → s_status s = SActive →
  sess_unique w → cache_ok w → kms_wf w →
  ∃ res w' kid priv jti, run (refresh token ctx) w = (Resolved res, w') ∧
    lr_scope res = rt_scope r ∧
    lr_access_token res = SignJWT kid (refreshed_claims r s w jti) priv ∧
    (∃ next, next ∈ refresh_tokens (w_db w') ∧ rt_token_hash next = rt_hash (lr_refresh_token res) ∧
       rt_status_ next = RActive ∧ rt_family_id next = rt_family_id r ∧
       rt_session_id next = rt_session_id r) ∧
    (∀ x, x ∈ refresh_tokens (w_db w') → rt_token_hash x = rt_hash token → rt_status_ x ≠ RActive) ∧
    rotated_state r s w w' ∧
    published_signature (lr_access_token res) (refreshed_claims r s w jti) w' ∧
    ∃ n, (w_draws w ≤ n)%N ∧ jti = random_uuid n.
Proof.
  intros Hrt Hr Hc Hs Hsid Ha Hu Hcache Hk.
  set (w1 := after_rotation token r w).
  destruct (run_findById_active s w1) as (w2 & Hfind & Hv & Hat); try done.
  assert (Hk2 : kms_wf w2).
  { apply (kms_wf_stable w1); [|by apply (kms_wf_stable w)]. split;
      [exact (f_equal (λ v, v.1.1.2) Hv)|exact (f_equal (λ v, v.2) Hv)]. }
  assert (Hdb2 : w_db w2 = w_db w1) by exact (f_equal (λ v, v.1.1.1.1.2) Hv).
  assert (Hnow2 : w_now w2 = w_now w) by exact (f_equal (λ v, v.1.1.1.1.1.1) Hv).
  set (amr := if s_mfa_passed s then ["pwd"; "mfa"] else ["pwd"]).
  set (input := mkTokenInput (rt_user_id r) (rt_scope r)
    (Some (order_by_name (UserRepository.roles_joined (rt_user_id r) (w_db w2))))
    (Some (order_by_name (remove_dups (UserRepository.permissions_joined (rt_user_id r) (w_db w2)))))
    (Some (s_id s)) (rt_client_id r) (Some amr)).
  destruct (run_sign_published app_jwt_options input None w2 Hk2)
    as (sg & w3 & n & Hsign & _ & Hkey & Hn & Hjti & Hsig).
  destruct (sign_inv _ _ _ _ _ _ Hsign) as (kid & priv & Htok & Hexp & _).
  eexists _, _, kid, priv, (sg_jti sg). split.
  { unfold refresh. rewrite run_catch. rewrite (run_bind_eq _ _ _ _ _ (run_consume_active token w r Hrt Hr Hc)).
    cbv beta. cbn [co_row rt_session_id rt_rotate]. fold w1.
    change (rt_session_id (rt_rotate (w_now w) r)) with (rt_session_id r). rewrite <- Hsid.
    rewrite (run_bind_eq _ _ _ _ _ Hfind). cbv beta iota. rewrite bool_decide_eq_true_2 by done.
    unfold refreshed. do 2 (erewrite run_bind_eq by reflexivity). cbv beta zeta.
    rewrite (run_bind_eq _ _ _ _ _ Hsign). erewrite run_bind_eq by reflexivity.
    erewrite run_bind_eq by apply run_audit_record. erewrite run_bind_eq by reflexivity. reflexivity. }
  split; [done|]. split.
  { cbn [lr_access_token]. rewrite Htok. unfold input. rewrite Hdb2, Hnow2. reflexivity. }
  pose proof (after_rotation_unique token r w Hrt Hr Hc) as Huniq. fold w1 in Huniq.
  pose proof (rotated_row token r w Hr Hc) as Hrow. fold w1 in Hrow.
  assert (Hdb3 : w_db w3 = w_db w1) by (rewrite <- Hdb2; by apply key_step_db).
  split; [|split; [|split; [|split]]].
  - simpl. rewrite Hdb3. unfold w1, after_rotation. simpl. eexists. split; [apply elem_of_app; right; by left|]. by split_and!.
  - simpl. rewrite Hdb3. unfold w1, after_rotation. simpl. intros x [Hx|Hx]%elem_of_app Hh Hact.
    + apply elem_of_update in Hx as (x0 & Hx0 & ->). unfold sql_set in *. case_decide as Hc0; [done|].
      apply Hc0. replace x0 with r; [done|].
      apply (rt_unique_eq w); [apply Hrt|done|done|]. destruct Hc as [Hhr _]. congruence.
    + apply list_elem_of_singleton in Hx as ->. simpl in Hh.
      apply (rt_wf_fresh w (w_draws w) Hrt); [lia|]. unfold issued_row in Hh. simpl in Hh.
      rewrite Hh. destruct Hc as [<- _]. by apply list_elem_of_fmap_2.
  - split_and!.
    + unfold rt_unique. simpl. by rewrite Hdb3.
    + simpl. by rewrite Hdb3.
    + transitivity (w_now w3); [done|]. by rewrite (key_step_now _ _ Hkey).
    + simpl. by rewrite Hdb3.
    + intros k Hne. transitivity (w_redis w3 !! k); [done|]. by rewrite (key_step_redis _ _ Hkey), Hat.
  - apply (published_stable _ _ w3); [done|]. cbn [lr_access_token]. unfold input in Hsig.
    rewrite Hdb2, Hnow2 in Hsig. exact Hsig.
  - exists n. split; [|exact Hjti]. etrans; [|exact Hn].
    rewrite (f_equal (λ v, v.1.1.1.1.1.2) Hv : w_draws w2 = w_draws w1). simpl. lia.
Qed.

(** C31: A live refresh token of a live session is exchanged for an access token
    of the same session, user and scope, carrying the user's roles and
    permissions of the moment, and for a successor of the same family; the
    presented token is no longer accepted. *)
Theorem refresh_complete (token : string) (ctx : RequestContext) (w : World)
    (r : RefreshTokenRow) (s : SessionRow) :
  rt_wf w → r ∈ refresh_tokens (w_db w) → rt_consumable (rt_hash token) (w_now w) r →
  s ∈ sessions (w_db w) → s_id s = rt_session_id r → s_status s = SActive →
  sess_unique w → cache_ok w → kms_wf w →
  ∃ res w' kid priv jti, run (refresh token ctx) w = (Resolved res, w') ∧
    lr_scope res = rt_scope r ∧
    lr_access_token res = SignJWT kid (JwtService.access_claims app_jwt_options
      (mkTokenInput (rt_user_id r) (rt_scope r)
         (Some (order_by_name (UserRepository.roles_joined (rt_user_id r) (w_db w))))
         (Some (order_by_name (remove_dups (UserRepository.permissions_joined (rt_user_id r) (w_db w)))))
         (Some (s_id s)) (rt_client_id r) (Some (if s_mfa_passed s then ["pwd"; "mfa"] else ["pwd"])))
      (w_now w / 1000) (ACCESS_TOKEN_TTL cfg) jti) priv ∧
    (∃ next, next ∈ refresh_tokens (w_db w') ∧ rt_token_hash next = rt_hash (lr_refresh_token res) ∧
       rt_status_ next = RActive ∧ rt_family_id next = rt_family_id r ∧
       rt_session_id next = rt_session_id r) ∧
    (∀ x, x ∈ refresh_tokens (w_db w') → rt_token_hash x = rt_hash token → rt_status_ x ≠ RActive).
Proof.
  intros Hrt Hr Hc Hs Hsid Ha Hu Hcache Hk.
  destruct (run_refresh_live token ctx w r s Hrt Hr Hc Hs Hsid Ha Hu Hcache Hk)
    as (res & w' & kid & priv & jti & H1 & H2 & H3 & H4 & H5 & _).
  by exists res, w', kid, priv, jti.
Qed.

(** A rejected token is passed on as an error, and a reused one is audited. *)
Theorem refresh_reuse_audited (token : string) (ctx : RequestContext) (w : World) (r : RefreshTokenRow) :
  rt_unique w → r ∈ refresh_tokens (w_db w) → rt_token_hash r = rt_hash token →
  ¬ rt_consumable (rt_hash token) (w_now w) r →
  ∃ msg w' row, run (refresh token ctx) w = (Rejected (AppError 401 "REFRESH_TOKEN_REUSE" msg), w') ∧
    audit_logs (w_db w') = audit_logs (w_db w) ++ [row] ∧
    al_event_type row = AuditEventType.REFRESH_TOKEN_REUSE_DETECTED ∧
    (∀ s, s ∈ sessions (w_db w') → s_id s = rt_session_id r → s_status s = SRevoked) ∧
    (∀ x, x ∈ refresh_tokens (w_db w') → rt_family_id x = rt_family_id r → rt_status_ x = RRevoked).
Proof.
  intros Hu Hr Hh Hc. eexists _, _, _. split.
  { unfold refresh. rewrite run_catch.
    rewrite (run_bind_throw _ _ _ _ _ (run_consume_dead token w r Hu Hr Hh Hc)).
    unfold refresh_failed. cbn [err_code AppError code]. rewrite bool_decide_eq_true_2 by done.
    erewrite run_bind_eq by apply run_audit_record. reflexivity. }
  split; [done|]. split; [done|]. exact (reuse_kills r (w_now w) (w_db w)).
Qed.
End refresh.

(** * Completing the second factor *)

Section second_factor.
Context `{P : Platform, K : KeyManagementService, J : Jose, R : RiskEngine}.
Context `{KL : !KmsLaws K}.
Context (ttl_positive : 0 < MFA_CHALLENGE_TTL cfg).

(** Tokens are issued for a challenge only when the code of the active second
    factor of its user is given in time and the session it was opened for is
    still alive; they belong to that session and that user, say that a second
    factor was passed, and the session remembers it. *)
Theorem complete_mfa_sound (id mfaCode : string) (ctx : RequestContext) (w w' : World)
    (r : LoginResultSuccess) :
  sess_unique w → cache_ok w →
  run (completeMfaChallenge id mfaCode ctx) w = (Resolved r, w') →
  ∃ c m secret w1 s, live_challenge id w = Some c ∧ ch_attempts c < 3 ∧
    m ∈ mfa_methods (w_db w) ∧ m_user_id m = ch_userId c ∧ m_status m = MActive ∧
    run (kms_decrypt (m_secret_encrypted m)) w = (Resolved secret, w1) ∧
    totp_check mfaCode secret (w_now w) = true ∧
    s ∈ sessions (w_db w) ∧ s_id s = ch_sessionId c ∧ s_status s = SActive ∧
    (∃ d, tokens_for (s_id s) (s_user_id s) ["pwd"; "mfa"] r d w' ∧
       refresh_tokens d = refresh_tokens (w_db w)) ∧
    (∀ x, x ∈ sessions (w_db w') → s_id x = s_id s → s_mfa_passed x = true).
Proof.
  intros Hu Hc H. apply run_bind_resolved in H as (sid & w2 & Hver & H).
  pose proof (respects_run step _ w (verifyLoginChallenge_step id mfaCode)) as Hstep.
  rewrite Hver in Hstep. simpl in Hstep.
  rewrite run_verify in Hver. destruct (live_challenge id w) as [c|] eqn:Hlive; [|done].
  destruct (Z_lt_le_dec (ch_attempts c) 3) as [Hlt|Hge]; cycle 1.
  { by rewrite verify_read_spent in Hver. }
  pose proof (verify_read_verdict ttl_positive (MfaService.challengeKey id) mfaCode c w Hlt) as Hv.
  rewrite Hver in Hv. cbn [fst snd] in Hv.
  inversion Hv as [m secret w1 Hm Hd Hk Hne Ht Hr Hw2| |]; subst; clear Hv Hver.
  set (w2 := accepted_code (MfaService.challengeKey id) c m w1) in *.
  assert (Hu2 : sess_unique w2) by (destruct Hstep as [_ [_ Hun] _ _ _ _ _ _]; by apply Hun).
  assert (Hc2 : cache_ok w2).
  { apply (cache_step_shrink w w2); [done| |done]. unfold w2, accepted_code. simpl.
    rewrite (key_step_redis _ _ Hk). apply delete_subseteq. }
  destruct (run_findById (ch_sessionId c) w2 Hu2 Hc2) as (o & w3 & Hfind & Hview & Hin & Hdb3 & _).
  rewrite (run_bind_eq _ _ _ _ _ Hfind) in H. destruct o as [s|]; [|done].
  case_bool_decide as Ha; [|done]. erewrite run_bind_eq in H by apply run_audit_record.
  apply issueForSession_inv in H as [Htok Hsess]. simpl in Htok, Hsess. rewrite Hdb3 in Htok, Hsess.
  assert (Hid : s_id s = ch_sessionId c).
  { destruct (sql_first _ (sessions (w_db w2))) as [s1|] eqn:Hf; [|done].
    apply sql_first_Some in Hf as [Hid _]. injection Hview as E _ _ _ _ _ _ _. by rewrite E. }
  assert (Hs := Hin s eq_refl Ha). unfold w2 in Hs. simpl in Hs. rewrite (key_step_db _ _ Hk) in Hs.
  apply elem_of_update in Hs as (s0 & Hs0 & Es).
  apply sql_first_Some in Hm as [Hus Hmin]. cbv beta in Hus. destruct Hus as [Hmu Hms].
  assert (Hsame : s_id s = s_id s0 ∧ s_user_id s = s_user_id s0 ∧ s_status s = s_status s0).
  { rewrite Es. unfold sql_set. by case_decide. }
  destruct Hsame as (E1 & E2 & E3). exists c, m, secret, w1, s0. rewrite <- E1, <- E2, <- E3.
  split_and!; try done.
  - eexists. split; [exact Htok|]. simpl. by rewrite (key_step_db _ _ Hk).
  - intros x Hx Hxid. rewrite Hsess in Hx. unfold w2 in Hx. simpl in Hx.
    apply elem_of_update in Hx as (x0 & _ & ->). revert Hxid. unfold sql_set.
    case_decide as Hd0; [done|]. intros E. by rewrite E, Hid in Hd0.
Qed.
End second_factor.

(** * Recovering the password *)

Section recovery.
Context `{P : Platform, !PlatformLaws P, K : KeyManagementService, J : Jose, R : RiskEngine}.

(** Asking for a reset never fails, whoever asks: an address without an
    enabled account is answered alike, and changes nothing. *)
Theorem forgot_password_silent (email : string) (ctx : RequestContext) (w : World) :
  et_drawn Resets w →
  (∃ w', run (forgotPassword email ctx) w = (Resolved (), w')) ∧
  (find_user email w = None ∨ (∃ u, find_user email w = Some u ∧ u_status u = UDisabled) →
   run (forgotPassword email ctx) w = (Resolved (), w)).
Proof.
  intros Hd. unfold forgotPassword, UserRepository.findByEmail.
  split.
  - erewrite run_bind_eq by reflexivity. cbv beta. destruct (sql_first _ _) as [u|]; [|by eexists].
    destruct (bool_decide _); [by eexists|].
    destruct (run_issue_for Resets (u_id u) "" w Hd) as (row & w1 & Hrun & _).
    eexists. rewrite (run_bind_eq _ _ _ _ _ Hrun). erewrite run_bind_eq by reflexivity.
    apply run_audit_record.
  - erewrite run_bind_eq by reflexivity. cbv beta. unfold find_user.
    intros [H|(u & H & Hst)]; rewrite to_lower_idem, H; [done|]. by rewrite bool_decide_eq_true_2.
Qed.

Lemma revokeAll_keeps u why w :
  users (w_db (run (SessionRepository.revokeAllForUser u why) w).2) = users (w_db w) ∧
  et_table Resets (run (SessionRepository.revokeAllForUser u why) w).2 = et_table Resets w.
Proof. by destruct (run_revokeAllForUser u why w) as (m & -> & _). Qed.

(** What a successful reset leaves behind. *)
Lemma run_reset_last token newPassword ctx t row w :
  (∀ e, e ∈ t → et_token_hash e ≠ EmailTokenService.hash token) →
  et_table Resets w = t ++ [row] →
  EmailTokenService.usable (EmailTokenService.hash token) (w_now w) row →
  acceptable newPassword →
  ∃ w' rows wr, run (resetPassword token newPassword ctx) w = (Resolved (), with_audit rows w') ∧
    w' = (run (SessionRepository.revokeAllForUser (et_user_id row) "password_reset") wr).2 ∧
    et_table Resets wr = t ++ [EmailTokenService.use (w_now w) row] ∧
    users (w_db wr) = sql_update (λ x, u_id x = et_user_id row)
      (λ x, x <| u_password_hash := argon2_hash newPassword (w_draws w) |>
              <| u_password_changed_at := w_now w |> <| u_failed_login_count := 0 |>
              <| u_locked_until := None |> <| u_updated_at := w_now w |>) (users (w_db w)).
Proof.
  intros Hno Ht Huse Hacc. pose proof (proj2 (password_policy_ok _) Hacc) as Hpol.
  pose proof (run_consume_last Resets token t row Hno w Ht) as Hc. rewrite decide_True in Hc by done.
  pose proof (taken_last Resets token t row Hno w Ht Huse) as Htk.
  set (wt := taken Resets token w) in *.
  set (w0 := wt <| w_draws ::= N.succ |>).
  set (wr := (run (UserRepository.updatePasswordHash (et_user_id row)
    (argon2_hash newPassword (w_draws w))) w0).2).
  eexists _, _, wr. split.
  { unfold resetPassword, check_policy. rewrite Hpol. run_next.
    rewrite (run_bind_eq _ _ _ _ _ Hc). cbv beta iota. run_next. run_next. fold wt w0.
    erewrite run_bind_eq; cycle 1.
    { rewrite (surjective_pairing (run (SessionRepository.revokeAllForUser _ _) _)).
      rewrite (proj1 (revoke_all_effect _ _ _)). reflexivity. }
    erewrite run_bind_eq by apply run_audit_record. rewrite run_audit_record, with_audit_app.
    reflexivity. }
  by split_and!.
Qed.

Lemma run_forgot email ctx u w :
  find_user email w = Some u → u_status u ≠ UDisabled → et_drawn Resets w →
  ∃ token row w1, run (forgotPassword email ctx) w = (Resolved (), w1) ∧
    w_mail w1 = w_mail w ++ [reset_mail (u_email u) token (PASSWORD_RESET_TTL cfg)] ∧
    users (w_db w1) = users (w_db w) ∧ et_table Resets w1 = et_table Resets w ++ [row] ∧
    (∀ e, e ∈ et_table Resets w → et_token_hash e ≠ EmailTokenService.hash token) ∧
    et_token_hash row = EmailTokenService.hash token ∧ et_user_id row = u_id u ∧
    et_used_at row = None ∧ et_expires_at row = w_now w + PASSWORD_RESET_TTL cfg * 1000.
Proof.
  intros Hu Hst Hd.
  destruct (run_issue_for Resets (u_id u) "" w Hd)
    as (row & w1 & Hrun & Hrows & Hh & Hru & Hl & He & Husers & Hmail).
  exists (random_b64url 32 (w_draws w)), row. eexists. split.
  { unfold forgotPassword, UserRepository.findByEmail. erewrite run_bind_eq by reflexivity. cbv beta.
    unfold find_user in Hu. rewrite to_lower_idem, Hu, bool_decide_eq_false_2 by done.
    rewrite (run_bind_eq _ _ _ _ _ Hrun). erewrite run_bind_eq by reflexivity.
    apply run_audit_record. }
  split; [simpl; by rewrite Hmail|]. split; [exact Husers|]. split; [exact Hrows|].
  split; [|done]. intros e. by apply (et_drawn_fresh Resets w).
Qed.

(** C32: A forgotten password is replaced: the mailed token, presented in time with
    an acceptable password, makes that password and no other the one of the
    account, ends every session and every refresh token of the user, and
    cannot be used again. *)
Theorem password_reset_roundtrip (email newPassword : string) (ctx ctx' : RequestContext)
    (later last : Z) (u : UserRow) (w : World) :
  find_user email w = Some u → u_status u ≠ UDisabled → NoDup (u_id <$> users (w_db w)) →
  et_drawn Resets w → acceptable newPassword →
  later < w_now w + PASSWORD_RESET_TTL cfg * 1000 →
  ∃ token w1 w2, run (forgotPassword email ctx) w = (Resolved (), w1) ∧
    w_mail w1 = w_mail w ++ [reset_mail (u_email u) token (PASSWORD_RESET_TTL cfg)] ∧
    run (resetPassword token newPassword ctx') (w1 <| w_now := later |>) = (Resolved (), w2) ∧
    (∃ u', sql_first (λ x, u_id x = u_id u) (users (w_db w2)) = Some u' ∧
       u_status u' = u_status u ∧
       ∀ pw, verifyPassword (u_password_hash u') pw = bool_decide (newPassword = pw)) ∧
    (∀ s, s ∈ sessions (w_db w2) → s_user_id s = u_id u → s_status s = SRevoked) ∧
    (∀ r, r ∈ refresh_tokens (w_db w2) → rt_user_id r = u_id u → rt_status_ r = RRevoked) ∧
    ∀ pw, acceptable pw → (run (resetPassword token pw ctx') (w2 <| w_now := last |>)).1
      = Rejected (AppError 400 "INVALID_RESET_TOKEN" "Invalid or expired reset token").
Proof.
  intros Hu Hst Hn Hd Hacc Hlater.
  destruct (run_forgot email ctx u w Hu Hst Hd)
    as (token & row & w1 & Hrun & Hmail & Husers & Hrows & Hno & Hh & Hru & Hl & He).
  set (w1' := w1 <| w_now := later |>).
  assert (Huse : EmailTokenService.usable (EmailTokenService.hash token) (w_now w1') row)
    by (split_and!; [done..|by rewrite He]).
  destruct (run_reset_last token newPassword ctx' _ row w1' Hno Hrows Huse Hacc)
    as (w' & rows & wr & Hreset & Hw' & Ht & Hus).
  destruct (revoke_all_effect (et_user_id row) "password_reset" wr) as (_ & Hs & _ & Hr & _).
  rewrite <- Hw' in Hs, Hr. rewrite Hru in Hs, Hr, Hus.
  exists token, w1, (with_audit rows w'). split; [done|]. split; [done|]. split; [done|].
  split; [|split; [exact Hs|split; [exact Hr|]]].
  - assert (Hf : sql_first (λ x, u_id x = u_id u) (users (w_db w)) = Some u).
    { apply (sql_first_unique _ u_id (u_id u)); try done. by apply sql_first_Some in Hu as [_ ?]. }
    eexists. split; [|split].
    + change (users (w_db (with_audit rows w'))) with (users (w_db w')). rewrite Hw'.
      rewrite (proj1 (revokeAll_keeps _ _ wr)), Hus. change (users (w_db w1')) with (users (w_db w1)).
      rewrite Husers, sql_first_update; [by rewrite Hf|].
      intros x. unfold sql_set. by case_decide.
    + by rewrite sql_set_true.
    + intros pw. rewrite sql_set_true by done. apply verify_hashed.
  - intros pw Hpw. pose proof (proj2 (password_policy_ok _) Hpw) as Hpol.
    unfold resetPassword, check_policy. rewrite Hpol. run_next.
    erewrite run_bind_eq; cycle 1.
    { apply (run_consume_last Resets token (et_table Resets w) (EmailTokenService.use later row) Hno).
      transitivity (et_table Resets wr); [rewrite Hw'; apply (revokeAll_keeps _ _ wr) | exact Ht]. }
    rewrite decide_False; [done|]. by intros (_ & ? & _).
Qed.
End recovery.

(** * Repeating a risky login *)

Section risk.
Context `{P : Platform}.

(** The risk signal of an unknown device is spent by the attempt that raises
    it: the device is remembered before the decision is taken, so the next
    attempt from it counts as known; and without a failure counter a login
    from a known device is never of high risk. A login that was denied is
    therefore not denied again. *)
Theorem risk_denial_not_repeated (u ua ip : string) (ctx : RequestContext) (w : World) :
  truthy (ctx_userAgent ctx) = Some ua → truthy (ctx_ip ctx) = Some ip →
  redis_value_at w (device_key u ua) = None →
  ∃ w1, run (isKnownDevice u ctx) w = (Resolved false, w1) ∧
    ∀ w2, w_redis w2 !! device_key u ua = w_redis w1 !! device_key u ua →
      w_now w ≤ w_now w2 ≤ w_now w + 60 * 60 * 24 * 30 * 1000 →
      run (isKnownDevice u ctx) w2 = (Resolved true, w2) ∧
      ∀ ev w3 w4,
        redis_value_at w3 (RulesRiskEngine.failed_key u) = None →
        0 < RISK_FAILED_LOGINS_THRESHOLD cfg →
        run (evaluateLogin (mkRiskInput u (ctx_ip ctx) (ctx_userAgent ctx) true)) w3
          = (Resolved ev, w4) →
        ev_level ev ≠ High.
Proof.
  intros Hua Hip Hnone. eexists. split.
  { unfold isKnownDevice. rewrite Hua, Hip.
    assert (Hg : run (RedisService.get (device_key u ua)) w = (Resolved None, w)).
    { unfold RedisService.get. by rewrite run_attempt, Hnone. }
    rewrite (run_bind_eq _ _ _ _ _ Hg). cbn [truthy].
    unfold RedisService.set. erewrite run_bind_eq by (by apply run_set_value). reflexivity. }
  intros w2 Hkey Hnow. split.
  - unfold isKnownDevice. rewrite Hua, Hip.
    assert (Hg : run (RedisService.get (device_key u ua)) w2 = (Resolved (Some ip), w2)).
    { unfold RedisService.get. rewrite run_attempt. unfold redis_value_at, redis_live.
      rewrite Hkey. simpl. rewrite lookup_insert_eq. simpl. unfold entry_live. simpl.
      by rewrite (proj2 (Z.leb_le _ _)) by lia. }
    rewrite (run_bind_eq _ _ _ _ _ Hg). destruct ip; [|done].
    by destruct (ctx_ip ctx) as [[]|].
  - intros ev w3 w4 Habs Hpos Hev Hhigh.
    destruct (evaluation_sound _ w3 w4 ev Hev) as (_ & _ & _ & Hnew & Hiff).
    apply Hiff in Hhigh; [|done..]. rewrite Hhigh in Hnew.
    assert ("new_device" ∈ tail signal_names) as Hin by (simpl; set_solver).
    by apply Hnew in Hin.
Qed.
End risk.
