(* ===== verification/AuthDemo.v ===== *)
(** The properties of the authentication service at concrete inputs. *)
From S2P Require Import Prelude Async JsString Errors Store Evolution Toy Redis AuditLog RefreshTokens Sessions Users Password EmailTokens UserService Keys Jwt ToyJose Mfa Risk AuthService Recovery.
From stdpp Require Import base gmap strings list pretty relations.
From Stdlib Require Import ZArith Ascii.
Local Open Scope string_scope.
Local Open Scope list_scope.
Local Open Scope Z_scope.

Section witnesses.
#[local] Existing Instances toy toy_crypto toy_jose.
Import AuthService.

(** A user in a given state, alone in the store. *)
Definition ada (st : user_status) (failures : Z) : UserRow :=
  mkUserRow "user-1" "ada@example.com" "argon2:Correct-Horse-42" (Some "Ada") None st failures
    None false None 0 0 0.
Definition ada_world (st : user_status) (failures : Z) : World :=
  empty_world 1000 <| w_draws := 4%N |> <| w_db := empty_db <| users := [ada st failures] |> |>.

Lemma ada_keys st n : keys_ok (ada_world st n).
Proof. split; [done|]. split; [constructor|by left]. Qed.
Lemma ada_tokens st n : rt_wf (ada_world st n).
Proof. split; constructor. Qed.
Lemma ada_unique st n : NoDup (u_id <$> users (w_db (ada_world st n))).
Proof. apply NoDup_singleton. Qed.

Lemma ada_allowed st n :
  st ≠ UDisabled → st ≠ UPendingVerification →
  login_allowed (ada st n) "Correct-Horse-42" (w_now (ada_world st n)).
Proof. by split. Qed.

(** The risk engine lets the first login of a device through. *)
Definition ada_assessed (w : World) : outcome Err risk_action * World :=
  run (assess (ada UActive 0) demo_ctx) w.
Lemma ada_assess st n :
  run (assess (ada st n) demo_ctx) (ada_world st n)
  = (Resolved Allow, (ada_assessed (ada_world st n)).2).
Proof. by vm_compute. Qed.

Lemma login_complete_witness :
  ∃ r w', run (login "Ada@Example.com" "Correct-Horse-42" demo_ctx) (ada_world UActive 3)
      = (Resolved (LoginSuccess r), w') ∧ lu_id (lr_user r) = "user-1" ∧
    ∃ u', find_user "Ada@Example.com" w' = Some u' ∧ u_failed_login_count u' = 0.
Proof.
  destruct (login_complete "Ada@Example.com" "Correct-Horse-42" demo_ctx (ada_world UActive 3)
    (ada_assessed (ada_world UActive 3)).2 (ada UActive 3)) as (r & w' & H1 & H2 & u' & H3 & H4 & _).
  - by vm_compute.
  - by apply ada_allowed.
  - done.
  - apply ada_assess.
  - apply ada_unique.
  - apply ada_keys.
  - apply ada_tokens.
  - constructor.
  - exists r, w'. split; [exact H1|]. split; [exact H2|]. exists u'. split; [exact H3|exact H4].
Defined.

Lemma login_sound_witness :
  ∃ r w' s, run (login "Ada@Example.com" "Correct-Horse-42" demo_ctx) (ada_world UActive 0)
      = (Resolved (LoginSuccess r), w') ∧ sessions (w_db w') = [s] ∧ s_user_id s = "user-1" ∧
    tokens_for (s_id s) "user-1" ["pwd"] r (w_db (ada_world UActive 0)) w'.
Proof.
  destruct (run_login_complete "Ada@Example.com" "Correct-Horse-42" demo_ctx (ada_world UActive 0)
    (ada_assessed (ada_world UActive 0)).2 (ada UActive 0)) as (r & w' & H1 & _).
  - by vm_compute.
  - by apply ada_allowed.
  - done.
  - apply ada_assess.
  - apply ada_unique.
  - apply ada_keys.
  - apply ada_tokens.
  - constructor.
  - destruct (login_sound "Ada@Example.com" "Correct-Horse-42" demo_ctx _ _ _ H1)
      as (u & s & Hu & _ & Hs & Hsu & _ & _ & _ & Htok).
    assert (find_user "Ada@Example.com" (ada_world UActive 0) = Some (ada UActive 0)) as E
      by by vm_compute.
    rewrite E in Hu. injection Hu as <-. exists r, w', s. split; [exact H1|]. split; [exact Hs|]. split; [exact Hsu|exact Htok].
Defined.

(** Five wrong passwords, a minute apart; then the right one. *)
Lemma login_lockout_witness :
  let tries := [(1000, "a"); (61000, "b"); (121000, "c"); (181000, "d")] in
  let '(rs, w') := login_all "ada@example.com" demo_ctx (tries ++ [(241000, "e")]) (ada_world UActive 0) in
  length rs = 5%nat ∧
  run (login "ada@example.com" "Correct-Horse-42" demo_ctx) (w' <| w_now := 300000 |>)
  = (Rejected (AppError 423 "ACCOUNT_LOCKED" "Account temporarily locked"), w' <| w_now := 300000 |>).
Proof.
  intros tries.
  pose proof (login_lockout "ada@example.com" demo_ctx tries (241000, "e") (ada UActive 0)
    (ada_world UActive 0) ltac:(by vm_compute) ltac:(done) ltac:(done) ltac:(by vm_compute)
    ltac:(by repeat constructor)) as H.
  assert (Hl : length (login_all "ada@example.com" demo_ctx (tries ++ [(241000, "e")])
    (ada_world UActive 0)).1 = 5%nat) by by vm_compute.
  destruct (login_all _ _ _ _) as [rs w']. destruct H as [_ H]. split; [exact Hl|]. by apply H.
Defined.

(** The fifth wrong password of an account that was never verified. *)
Lemma lockout_skips_verification_witness :
  let w := ada_world UPendingVerification 4 in
  ∃ w1 r w' u',
    run (login "ada@example.com" "wrong" demo_ctx) w = (Rejected InvalidCredentialsError, w1) ∧
    run (login "ada@example.com" "Correct-Horse-42" demo_ctx) (w1 <| w_now := 901000 |>)
      = (Resolved (LoginSuccess r), w') ∧
    find_user "ada@example.com" w' = Some u' ∧ u_status u' = UActive.
Proof.
  intros w.
  destruct (lockout_skips_verification "ada@example.com" "wrong" "Correct-Horse-42" demo_ctx
    (ada UPendingVerification 4) w) as (_ & w1 & H1 & H2); try done.
  - apply ada_unique.
  - apply ada_keys.
  - apply ada_tokens.
  - constructor.
  - assert (E : w1 = (run (login "ada@example.com" "wrong" demo_ctx) w).2) by by rewrite H1.
    destruct (H2 901000 (ada_assessed (w1 <| w_now := 901000 |>)).2) as (r & w' & u' & H3 & H4 & H5).
    + done.
    + rewrite E. by vm_compute.
    + exists w1, r, w', u'. split; [exact H1|]. split; [exact H3|]. split; [exact H4|exact H5].
Defined.

(** Refreshing after a logout. *)
Lemma refresh_needs_live_session_witness :
  let w := (run (SessionRepository.revoke "sess-1" "logout") (demo_world 1000)).2 in
  let ps := replicate 2 (refresh demo_token demo_ctx) in
  dead_token demo_token w ∧ ∀ r, Ret r ∉ (serve ps w).1.
Proof.
  intros w ps.
  assert (Hd : dead_token demo_token w).
  { split; [apply NoDup_singleton|].
    exists (rt_revoke 1000 demo_row). split; [apply list_elem_of_here|]. split; [done|].
    split; [apply NoDup_singleton|]. exists (session_revoke "logout" 1000 demo_session).
    split; [apply list_elem_of_here|done]. }
  split; [exact Hd|].
  apply (refresh_needs_live_session demo_token eq ps (serve ps w).1 w (serve ps w).2).
  - by intros v v' ->.
  - exact Hd.
  - repeat constructor; by eexists.
  - rewrite <- surjective_pairing. apply pool_serve.
Defined.

Lemma refresh_complete_witness :
  ∃ res w', run (refresh demo_token demo_ctx) (demo_world 1000) = (Resolved res, w') ∧
    lr_scope res = "openid" ∧
    ∀ x, x ∈ refresh_tokens (w_db w') → rt_token_hash x = rt_hash demo_token → rt_status_ x ≠ RActive.
Proof.
  destruct (refresh_complete demo_token demo_ctx (demo_world 1000) demo_row demo_session)
    as (res & w' & kid & priv & jti & H1 & H2 & _ & _ & H3).
  - apply demo_wf.
  - apply list_elem_of_here.
  - by split_and!.
  - apply list_elem_of_here.
  - done.
  - done.
  - apply NoDup_singleton.
  - intros id e c Hk. simpl in Hk. by rewrite lookup_empty in Hk.
  - split; [done|]. split; [constructor|by left].
  - exists res, w'. split; [exact H1|]. split; [exact H2|exact H3].
Defined.

(** The token presented after it has expired. *)
Lemma refresh_reuse_audited_witness :
  ∃ msg w', run (refresh demo_token demo_ctx) (demo_world 6000)
      = (Rejected (AppError 401 "REFRESH_TOKEN_REUSE" msg), w') ∧
    length (audit_logs (w_db w')) = 1%nat.
Proof.
  destruct (refresh_reuse_audited demo_token demo_ctx (demo_world 6000) demo_row)
    as (msg & w' & row & H1 & H2 & _).
  - apply NoDup_singleton.
  - apply list_elem_of_here.
  - done.
  - by intros (_ & _ & ?).
  - exists msg, w'. split; [exact H1|]. by rewrite H2.
Defined.

Lemma forgot_password_silent_witness :
  run (forgotPassword "nobody@example.com" demo_ctx) (ada_world UActive 0)
  = (Resolved (), ada_world UActive 0).
Proof.
  apply (forgot_password_silent "nobody@example.com" demo_ctx (ada_world UActive 0)).
  - constructor.
  - left. by vm_compute.
Defined.

Lemma password_reset_roundtrip_witness :
  ∃ token w1 w2, run (forgotPassword "ada@example.com" demo_ctx) (ada_world UActive 0) = (Resolved (), w1) ∧
    run (resetPassword token "Correct-Horse-42" demo_ctx) (w1 <| w_now := 1800999 |>) = (Resolved (), w2).
Proof.
  destruct (password_reset_roundtrip "ada@example.com" "Correct-Horse-42" demo_ctx demo_ctx
    1800999 1801000 (ada UActive 0) (ada_world UActive 0)) as (token & w1 & w2 & H1 & _ & H2 & _).
  - by vm_compute.
  - done.
  - apply ada_unique.
  - constructor.
  - apply demo_acceptable.
  - done.
  - exists token, w1, w2. split; [exact H1|exact H2].
Defined.

Lemma risk_denial_not_repeated_witness :
  let ctx := mkContext "req-1" (Some "10.5.0.1") (Some "agent") in
  ∃ w1, run (isKnownDevice "user-1" ctx) demo_risk_world = (Resolved false, w1) ∧
    run (isKnownDevice "user-1" ctx) (w1 <| w_now := 1000 |>) = (Resolved true, w1 <| w_now := 1000 |>).
Proof.
  intros ctx.
  destruct (risk_denial_not_repeated "user-1" "agent" "10.5.0.1" ctx demo_risk_world)
    as (w1 & H1 & H2); [done|done|by vm_compute|].
  exists w1. split; [exact H1|]. by apply (H2 (w1 <| w_now := 1000 |>)).
Defined.

(** A login with a second factor: the session waits for the code. *)
Definition waiting_world : World :=
  let w0 := on_db (λ d, d <| sessions := [demo_session] |>) (ada_world UActive 0) in
  let w1 := (run (MfaService.beginEnroll "user-1" "ada@example.com") w0).2 in
  let w2 := (run (MfaService.confirmEnroll "user-1" "totp-4") w1).2 in
  (run (MfaService.createLoginChallenge "user-1" "sess-1") w2).2.
Definition waiting_id : string := "uuid-8".
Definition passed_world : World :=
  (run (MfaService.verifyLoginChallenge waiting_id "totp-4") waiting_world).2.
Definition found_world : World := (run (SessionRepository.findById "sess-1") passed_world).2.
Definition mfa_audited : World :=
  (run (audit_record (event AuditEventType.MFA_CHALLENGE_SUCCEEDED (Some "user-1") None demo_ctx
     false None)) found_world).2.

Lemma run_mfa_audited :
  run (audit_record (event AuditEventType.MFA_CHALLENGE_SUCCEEDED (Some "user-1") None demo_ctx
     false None)) found_world = (Resolved (), mfa_audited).
Proof. unfold mfa_audited. by rewrite run_audit_record. Qed.

Lemma run_complete_mfa :
  ∃ r w', run (completeMfaChallenge waiting_id "totp-4" demo_ctx) waiting_world = (Resolved r, w').
Proof.
  set (u := ada UActive 0 <| u_mfa_required := true |>).
  assert (Hus : users (w_db mfa_audited) = [u]) by by vm_compute.
  destruct (run_issueForSession "sess-1" u ["pwd"; "mfa"] demo_ctx mfa_audited) as (r & w' & Hrun & _).
  - rewrite Hus. apply list_elem_of_here.
  - rewrite Hus. apply NoDup_singleton.
  - assert (E : w_keys mfa_audited = []) by by vm_compute.
    split; [done|]. rewrite E. split; [constructor|by left].
  - assert (E : refresh_tokens (w_db mfa_audited) = []) by by vm_compute.
    unfold rt_wf, rt_unique. rewrite E. split; constructor.
  - exists r, w'. unfold completeMfaChallenge.
    assert (Hv : run (MfaService.verifyLoginChallenge waiting_id "totp-4") waiting_world
      = (Resolved "sess-1", passed_world)) by by vm_compute.
    set (s := demo_session <| s_mfa_passed := true |>).
    assert (Hf : run (SessionRepository.findById "sess-1") passed_world = (Resolved (Some s), found_world))
      by by vm_compute.
    rewrite (run_bind_eq _ _ _ _ _ Hv), (run_bind_eq _ _ _ _ _ Hf). cbv beta iota.
    rewrite bool_decide_eq_true_2 by done.
    rewrite (run_bind_eq _ _ _ _ _ run_mfa_audited). exact Hrun.
Qed.

Lemma complete_mfa_sound_witness :
  ∃ r w' s, run (completeMfaChallenge waiting_id "totp-4" demo_ctx) waiting_world = (Resolved r, w') ∧
    s_id s = "sess-1" ∧ ∀ x, x ∈ sessions (w_db w') → s_id x = s_id s → s_mfa_passed x = true.
Proof.
  destruct run_complete_mfa as (r & w' & Hrun).
  destruct (complete_mfa_sound toy_ttl waiting_id "totp-4" demo_ctx waiting_world w' r)
    as (c & m & secret & w1 & s & Hc & _ & _ & _ & _ & _ & _ & _ & Hid & _ & _ & Hp).
  - assert (E : sessions (w_db waiting_world) = [demo_session]) by by vm_compute.
    unfold sess_unique. rewrite E. apply NoDup_singleton.
  - intros id e c Hk He.
    assert (Hall : map_Forall (λ _ e, match re_value e with VSession _ => false | _ => true end = true)
      (w_redis waiting_world)) by (apply (bool_decide_unpack _); by vm_compute).
    specialize (Hall _ _ Hk). cbv beta in Hall. by rewrite He in Hall.
  - exact Hrun.
  - assert (E : live_challenge waiting_id waiting_world = Some (mkChallenge "user-1" "sess-1" 0))
      by by vm_compute.
    rewrite E in Hc. injection Hc as <-. exists r, w', s.
    split; [exact Hrun|]. split; [exact Hid|exact Hp].
Defined.
End witnesses.
