(* ===== verification/AuthRoutes.v ===== *)
(** The routes of authentication and of the second factor:
    src/modules/auth/auth.routes.ts and src/modules/mfa/mfa.routes.ts with
    their schemas. *)
From S2P Require Import Prelude Async JsString Errors Store Evolution Toy Redis RateLimit Http AuditLog RefreshTokens Sessions Users UserService Keys Jwt Guards Mfa Risk AuthService.
From stdpp Require Import base gmap strings list relations.
From Stdlib Require Import ZArith Ascii.
Local Open Scope string_scope.
Local Open Scope list_scope.
Local Open Scope Z_scope.

(** * Schemas *)

Definition email_schema : Schema := ZString [CTrim; CToLowerCase; CEmail].
Definition registerSchema : Schema := ZObject false
  [("email", email_schema); ("password", ZString [CMin 1]);
   ("first_name", ZOptional (ZString [CTrim; CMin 1; CMax 100]));
   ("last_name", ZOptional (ZString [CTrim; CMin 1; CMax 100]))].
Definition loginSchema : Schema := ZObject false
  [("email", email_schema); ("password", ZString [CMin 1])].
Definition refreshSchema : Schema := ZObject false [("refresh_token", ZString [CMin 32])].
Definition logoutSchema : Schema := ZObject false
  [("refresh_token", ZOptional (ZString [CMin 32])); ("all_sessions", ZOptional ZBoolean)].
Definition verifyEmailSchema : Schema := ZObject false [("token", ZString [CMin 20])].
Definition forgotPasswordSchema : Schema := ZObject false [("email", email_schema)].
Definition resetPasswordSchema : Schema := ZObject false
  [("token", ZString [CMin 20]); ("password", ZString [CMin 1])].

(** [/^\d{6}$/] *)
Definition six_digits (s : string) : bool := all_chars is_digit s && (String.length s =? 6)%nat.

Definition mfaEnrollSchema : Schema := ZObject true [].
Definition mfaVerifyEnrollSchema : Schema := ZObject false [("code", ZString [CRegex six_digits])].
Definition mfaLoginVerifySchema : Schema := ZObject false
  [("mfa_challenge_id", ZString [CUuid]); ("code", ZString [CRegex six_digits])].
Definition mfaDisableSchema : Schema := ZObject false [("code", ZString [CRegex six_digits])].

(** * Responses *)

Definition public_user_json (u : PublicUser) : json :=
  JObj [("id", JStr (pu_id u)); ("email", JStr (pu_email u)); ("first_name", json_opt (pu_first_name u));
        ("last_name", json_opt (pu_last_name u)); ("status", JStr (user_status_string (pu_status u)));
        ("mfa_required", JBool (pu_mfa_required u)); ("created_at", JNum (pu_created_at u))].

Definition token_fields (r : LoginResultSuccess) : list (string * json) :=
  [("access_token", JStr (lr_access_token r)); ("token_type", JStr "Bearer");
   ("expires_in", JNum (lr_expires_in r)); ("refresh_token", JStr (lr_refresh_token r))].
Definition roles_json (r : LoginResultSuccess) : json := JArr (JStr <$> lr_roles r).

Definition login_json (r : LoginResult) : json :=
  match r with
  | LoginMfaRequired id =>
      JObj [("outcome", JStr "mfa_required"); ("mfa_required", JBool true); ("mfa_challenge_id", JStr id)]
  | LoginSuccess r =>
      JObj (token_fields r ++
        [("refresh_expires_at", JNum (lr_refresh_expires_at r)); ("scope", JStr (lr_scope r));
         ("roles", roles_json r);
         ("user", JObj [("id", JStr (lu_id (lr_user r))); ("email", JStr (lu_email (lr_user r)));
                        ("status", JStr (lu_status (lr_user r)))])])
  end.
Definition refresh_json (r : LoginResultSuccess) : json :=
  JObj (token_fields r ++ [("scope", JStr (lr_scope r))]).
Definition mfa_json (r : LoginResultSuccess) : json :=
  JObj (token_fields r ++ [("scope", JStr (lr_scope r)); ("roles", roles_json r)]).

Definition profile_json (p : Profile) : json :=
  JObj [("id", JStr (pf_id p)); ("email", JStr (pf_email p)); ("first_name", json_opt (pf_first_name p));
        ("last_name", json_opt (pf_last_name p)); ("status", JStr (pf_status p));
        ("roles", JArr (JStr <$> pf_roles p)); ("permissions", JArr (JStr <$> pf_permissions p));
        ("mfa_enabled", JBool (pf_mfa_enabled p))].

Definition status_json (s : string) : json := JObj [("status", JStr s)].

(** [req.user!.sub], [req.user!.sid] *)
Definition user_sub (rq : HttpRequest) : string :=
  match rq_user rq with Some u => au_sub u | None => "" end.
Definition user_sid (rq : HttpRequest) : option string :=
  match rq_user rq with Some u => au_sid u | None => None end.

Section routes.
Context `{P : Platform, K : KeyManagementService, J : Jose, R : RiskEngine, Z0 : Zod}.

(** [limit(bucket, n)], keyed by the client's address. *)
Definition limit (bucket : string) (n : Z) : RequestHandler :=
  ip_limit (mkRateLimit bucket n (RATE_LIMIT_WINDOW cfg)).

(** * /auth *)

Definition post_register : list RequestHandler :=
  [validate_body registerSchema; limit "register" (RATE_LIMIT_REGISTER cfg);
   asyncHandler (λ rq,
     user ← UserService.register
       (mkRegister (jstr (rq_body rq) "email") (jstr (rq_body rq) "password")
          (jstr_opt (rq_body rq) "first_name") (jstr_opt (rq_body rq) "last_name"))
       (requestContext rq);
     respond 201 (JObj [("user", public_user_json user)]) rq)].

Definition post_verify_email : list RequestHandler :=
  [validate_body verifyEmailSchema;
   asyncHandler (λ rq,
     _ ← UserService.verifyEmail (jstr (rq_body rq) "token") (requestContext rq);
     respond 200 (status_json "verified") rq)].

Definition post_login : list RequestHandler :=
  [validate_body loginSchema; limit "login" (RATE_LIMIT_LOGIN cfg);
   asyncHandler (λ rq,
     result ← AuthService.login (jstr (rq_body rq) "email") (jstr (rq_body rq) "password")
       (requestContext rq);
     respond 200 (login_json result) rq)].

Definition post_refresh : list RequestHandler :=
  [validate_body refreshSchema; limit "token" (RATE_LIMIT_TOKEN cfg);
   asyncHandler (λ rq,
     result ← AuthService.refresh (jstr (rq_body rq) "refresh_token") (requestContext rq);
     respond 200 (refresh_json result) rq)].

Definition post_logout : list RequestHandler :=
  [authenticate; validate_body logoutSchema;
   asyncHandler (λ rq,
     count ← AuthService.logout (user_sub rq) (user_sid rq)
       (match jget (rq_body rq) "all_sessions" with Some (JBool b) => b | _ => false end)
       (jstr_opt (rq_body rq) "refresh_token") (requestContext rq);
     respond 200 (JObj [("status", JStr "logged_out"); ("revoked_sessions", JNum count)]) rq)].

Definition post_forgot_password : list RequestHandler :=
  [validate_body forgotPasswordSchema; limit "forgot-password" (RATE_LIMIT_FORGOT_PASSWORD cfg);
   asyncHandler (λ rq,
     _ ← AuthService.forgotPassword (jstr (rq_body rq) "email") (requestContext rq);
     respond 202 (status_json "accepted") rq)].

Definition post_reset_password : list RequestHandler :=
  [validate_body resetPasswordSchema;
   asyncHandler (λ rq,
     _ ← AuthService.resetPassword (jstr (rq_body rq) "token") (jstr (rq_body rq) "password")
       (requestContext rq);
     respond 200 (status_json "password_reset") rq)].

Definition get_me : list RequestHandler :=
  [authenticate;
   asyncHandler (λ rq,
     profile ← AuthService.me (user_sub rq);
     respond 200 (profile_json profile) rq)].

(** * /mfa *)

Definition mfa_event (type : string) (rq : HttpRequest) : AuditEvent :=
  mkAuditEvent type (Some (user_sub rq)) None (rq_ip rq) None (Some (rq_requestId rq)) None.

Definition post_mfa_enroll : list RequestHandler :=
  [authenticate; validate_body mfaEnrollSchema;
   asyncHandler (λ rq,
     let userId := user_sub rq in
     email ← MfaService.getEmailForUser userId;
     enrollment ← MfaService.beginEnroll userId email;
     _ ← audit_record (mfa_event AuditEventType.MFA_ENROLL_STARTED rq);
     respond 201 (JObj [("otpauth_url", JStr enrollment.1); ("qr_data_url", JStr enrollment.2)]) rq)].

Definition post_mfa_verify : list RequestHandler :=
  [maybeAuthenticate; validate_body (ZOr mfaLoginVerifySchema mfaVerifyEnrollSchema);
   asyncHandler (λ rq,
     let code := jstr (rq_body rq) "code" in
     match jget (rq_body rq) "mfa_challenge_id" with
     | Some _ =>
         result ← AuthService.completeMfaChallenge (jstr (rq_body rq) "mfa_challenge_id") code
           (requestContext rq);
         respond 200 (mfa_json result) rq
     | None =>
         match rq_user rq with
         | None =>
             respond 401 (JObj [("error", JStr "AUTH_REQUIRED");
                                ("message", JStr "Authentication required")]) rq
         | Some user =>
             _ ← MfaService.confirmEnroll (au_sub user) code;
             _ ← audit_record (mfa_event AuditEventType.MFA_ENABLED rq);
             respond 200 (status_json "mfa_enabled") rq
         end
     end)].

Definition post_mfa_disable : list RequestHandler :=
  [authenticate; validate_body mfaDisableSchema;
   asyncHandler (λ rq,
     _ ← MfaService.disable (user_sub rq) (jstr (rq_body rq) "code");
     _ ← audit_record (mfa_event AuditEventType.MFA_DISABLED rq);
     respond 200 (status_json "mfa_disabled") rq)].

Definition authRoutes : list (string * string * list RequestHandler) :=
  [("POST", "/register", post_register); ("POST", "/verify-email", post_verify_email);
   ("POST", "/login", post_login); ("POST", "/refresh", post_refresh);
   ("POST", "/logout", post_logout); ("POST", "/forgot-password", post_forgot_password);
   ("POST", "/reset-password", post_reset_password); ("GET", "/me", get_me)].
Definition mfaRoutes : list (string * string * list RequestHandler) :=
  [("POST", "/enroll", post_mfa_enroll); ("POST", "/verify", post_mfa_verify);
   ("POST", "/disable", post_mfa_disable)].
End routes.
