(* ===== verification/Rbac.v ===== *)
(** src/modules/roles/rbac.repository.ts: the administration of roles,
    permissions and accounts, and the reading of the audit trail. *)
From S2P Require Import Prelude Async JsString Errors Store Evolution Toy Users.
From stdpp Require Import base gmap strings list sorting relations.
From Stdlib Require Import ZArith.
Local Open Scope string_scope.
Local Open Scope list_scope.
Local Open Scope Z_scope.

(** [ORDER BY name] on rows. *)
Definition by_name {R} (name : R → string) (a b : R) : Prop := name_le (name a) (name b).
#[export] Instance by_name_dec {R} (name : R → string) : RelDecision (by_name name) :=
  λ a b, decide (name_le (name a) (name b)).
#[export] Instance by_name_total {R} (name : R → string) : Total (by_name name).
Proof. intros a b. apply name_le_total. Qed.

Record ListedUser : Type := mkListedUser {
  li_id : string; li_email : string; li_status : user_status; li_created_at : Z;
  li_roles : list string;
}.

Module RbacRepository.

Definition listRoles : M (list RoleRow) :=
  db_select (λ d, merge_sort (by_name role_name) (roles d)).

Definition listPermissions : M (list string) :=
  db_select (λ d, order_by_name (map perm_name (permissions d))).

Definition listScopes : M (list ScopeRow) :=
  db_select (λ d, merge_sort (by_name scope_name) (scopes d)).

Definition role_permissions_joined (roleId : string) (d : Db) : list string :=
  p ← permissions d; rp ← role_permissions d;
  if decide (rp_permission_id rp = perm_id p ∧ rp_role_id rp = roleId) then [perm_name p] else [].

Definition rolePermissionNames (roleId : string) : M (list string) :=
  db_select (λ d, order_by_name (role_permissions_joined roleId d)).

(** [SELECT $1, id FROM permissions WHERE name = ANY($2)] *)
Definition named_permissions (roleId : string) (names : list string) (d : Db) : list RolePermissionRow :=
  map (λ p, mkRolePermissionRow roleId (perm_id p))
    (sql_select (λ p, perm_name p ∈ names) (permissions d)).

(** The transaction: the rows of the role are replaced; a statement that fails
    rolls the deletion back. *)
Definition set_role_permissions (roleId : string) (names : list string) (w : World)
    : outcome Err () * World :=
  let rows := named_permissions roleId names (w_db w) in
  if decide (rows ≠ [] ∧ roleId ∉ role_id <$> roles (w_db w))
  then (Rejected foreign_key_violation, w)
  else (Resolved (), on_db (λ d, d <| role_permissions ::= λ t,
          sql_delete (λ rp, rp_role_id rp = roleId) t ++ rows |>) w).

Definition setRolePermissions (roleId : string) (permissionNames : list string) : M () :=
  attempt (set_role_permissions roleId permissionNames).

Definition userRoleIds (userId : string) : M (list string) :=
  db_select (λ d, map ur_role_id (sql_select (λ ur, ur_user_id ur = userId) (user_roles d))).

(** [SELECT $1, id FROM roles WHERE name = ANY($2)] *)
Definition named_roles (userId : string) (names : list string) (d : Db) : list UserRoleRow :=
  map (λ r, mkUserRoleRow userId (role_id r)) (sql_select (λ r, role_name r ∈ names) (roles d)).

Definition set_user_roles (userId : string) (names : list string) (w : World)
    : outcome Err () * World :=
  let rows := named_roles userId names (w_db w) in
  if decide (rows ≠ [] ∧ userId ∉ u_id <$> users (w_db w))
  then (Rejected foreign_key_violation, w)
  else (Resolved (), on_db (λ d, d <| user_roles ::= λ t,
          sql_delete (λ ur, ur_user_id ur = userId) t ++ rows |>) w).

Definition setUserRoles (userId : string) (roleNames : list string) : M () :=
  attempt (set_user_roles userId roleNames).

(** [array_agg(r.name)] over the joined rows, in the order of [user_roles]. *)
Definition role_names_of (d : Db) (userId : string) : list string :=
  ur ← user_roles d; r ← roles d;
  if decide (ur_user_id ur = userId ∧ role_id r = ur_role_id ur) then [role_name r] else [].

Definition listUsers (limit offset : Z) : M (list ListedUser) :=
  db_select (λ d, map (λ u, mkListedUser (u_id u) (u_email u) (u_status u) (u_created_at u)
                              (role_names_of d (u_id u)))
    (sql_page limit offset (order_newest u_created_at (users d)))).

Definition setUserStatus (userId : string) (disabled : bool) : M () :=
  UserRepository.update_user userId
    (λ _ u, u <| u_status := if disabled then UDisabled else UActive |>).

Definition listAuditEvents (limit : Z) (eventType : option string) : M (list AuditLogRow) :=
  attempt (λ w,
    (if limit <? 0 then Rejected negative_limit
     else Resolved (sql_page limit 0 (order_newest al_created_at
       (match truthy eventType with
        | Some t => sql_select (λ a, al_event_type a = t) (audit_logs (w_db w))
        | None => audit_logs (w_db w)
        end))), w)).
End RbacRepository.
Import RbacRepository.

(** * Steps of the store *)

Lemma setRolePermissions_step r ns : respects step (setRolePermissions r ns).
Proof.
  apply respects_attempt. intros w. unfold set_role_permissions. case_decide; [done|]. by apply step_same.
Qed.
Lemma setUserRoles_step u ns : respects step (setUserRoles u ns).
Proof.
  apply respects_attempt. intros w. unfold set_user_roles. case_decide; [done|]. by apply step_same.
Qed.
Lemma setUserStatus_step u b : respects step (setUserStatus u b).
Proof. by apply update_user_step. Qed.
Lemma listRoles_step : respects step listRoles.
Proof. apply select_step. Qed.
Lemma listPermissions_step : respects step listPermissions.
Proof. apply select_step. Qed.
Lemma listScopes_step : respects step listScopes.
Proof. apply select_step. Qed.
Lemma rolePermissionNames_step r : respects step (rolePermissionNames r).
Proof. apply select_step. Qed.
Lemma listUsers_step l o : respects step (listUsers l o).
Proof. apply select_step. Qed.
Lemma listAuditEvents_step l t : respects step (listAuditEvents l t).
Proof. apply respects_attempt. intros w. done. Qed.
#[export] Hint Resolve setRolePermissions_step setUserRoles_step setUserStatus_step listRoles_step
  listPermissions_step listScopes_step rolePermissionNames_step listUsers_step
  listAuditEvents_step : steps.

(** * Assignments *)

Lemma elem_of_named_roles ur u ns d :
  ur ∈ named_roles u ns d ↔
  ur_user_id ur = u ∧ ∃ r, r ∈ roles d ∧ role_name r ∈ ns ∧ ur_role_id ur = role_id r.
Proof.
  unfold named_roles. rewrite list_elem_of_fmap. setoid_rewrite elem_of_select.
  destruct ur as [a b]. simpl. naive_solver.
Qed.

Lemma elem_of_named_permissions rp r ns d :
  rp ∈ named_permissions r ns d ↔
  rp_role_id rp = r ∧ ∃ p, p ∈ permissions d ∧ perm_name p ∈ ns ∧ rp_permission_id rp = perm_id p.
Proof.
  unfold named_permissions. rewrite list_elem_of_fmap. setoid_rewrite elem_of_select.
  destruct rp as [a b]. simpl. naive_solver.
Qed.

(** Role identifiers are keys. *)
Definition role_keys (d : Db) : Prop := NoDup (role_id <$> roles d).
Definition perm_keys (d : Db) : Prop := NoDup (perm_id <$> permissions d).

(** Assigning roles: afterwards the user has exactly the named roles that
    exist and, through them, exactly the permissions those roles grant; the
    roles and the permissions of every other user are what they were. An
    assignment to an unknown user is refused and changes nothing. *)
Theorem set_user_roles_exact (u : string) (names : list string) (w : World) :
  role_keys (w_db w) →
  (u ∈ u_id <$> users (w_db w) →
   ∃ w', run (setUserRoles u names) w = (Resolved (), w') ∧
     (∀ role, has_role (w_db w') u role ↔ role ∈ names ∧ ∃ r, r ∈ roles (w_db w) ∧ role_name r = role) ∧
     (∀ perm, granted (w_db w') u perm ↔
        ∃ r rp p, r ∈ roles (w_db w) ∧ role_name r ∈ names ∧
          rp ∈ role_permissions (w_db w) ∧ rp_role_id rp = role_id r ∧
          p ∈ permissions (w_db w) ∧ rp_permission_id rp = perm_id p ∧ perm_name p = perm) ∧
     (∀ u', u' ≠ u →
        (∀ role, has_role (w_db w') u' role ↔ has_role (w_db w) u' role) ∧
        (∀ perm, granted (w_db w') u' perm ↔ granted (w_db w) u' perm))) ∧
  (u ∉ u_id <$> users (w_db w) → named_roles u names (w_db w) ≠ [] →
   run (setUserRoles u names) w = (Rejected foreign_key_violation, w)).
Proof.
  intros Hkeys. unfold setUserRoles. rewrite run_attempt. unfold set_user_roles. split.
  - intros Hu. rewrite decide_False by tauto. eexists. split; [done|].
    unfold has_role, granted. cbn [on_db w_db set_field]. simpl.
    assert (Ht : ∀ ur, ur ∈ sql_delete (λ ur, ur_user_id ur = u) (user_roles (w_db w)) ++
        named_roles u names (w_db w) ↔
      (ur ∈ user_roles (w_db w) ∧ ur_user_id ur ≠ u) ∨
      (ur_user_id ur = u ∧ ∃ r, r ∈ roles (w_db w) ∧ role_name r ∈ names ∧ ur_role_id ur = role_id r)).
    { intros ur. rewrite elem_of_app, elem_of_named_roles. unfold sql_delete.
      rewrite list_elem_of_filter. tauto. }
    setoid_rewrite Ht. split; [|split].
    + intros role. split.
      * intros (r & ur & Hr & [[_ Hne]|[_ (r' & Hr' & Hn & Hi)]] & He & Hid & Hrole); [done|].
        assert (r = r') as -> by (apply (unique_row role_id (roles (w_db w))); congruence || done).
        subst role. eauto.
      * intros [Hn (r & Hr & Hname)]. exists r, (mkUserRoleRow u (role_id r)).
        split; [done|]. split; [|done]. right. split; [done|]. exists r. by subst role.
    + intros perm. split.
      * intros (p & rp & ur & Hp & Hrp & [[_ Hne]|[_ (r & Hr & Hn & Hi)]] & He & Hrole & Hid & Hperm); [done|].
        exists r, rp, p. split_and!; congruence || done.
      * intros (r & rp & p & Hr & Hn & Hrp & Hrole & Hp & Hid & Hperm).
        exists p, rp, (mkUserRoleRow u (role_id r)). split_and!; try done.
        right. split; [done|]. by exists r.
    + intros u' Hne. split; [intros role|intros perm]; naive_solver.
  - intros Hu Hrows. by rewrite decide_True.
Qed.

(** What a role grants after its permissions were set. *)
Lemma set_role_permissions_grants r names w :
  perm_keys (w_db w) → r ∈ role_id <$> roles (w_db w) →
  ∃ w', run (setRolePermissions r names) w = (Resolved (), w') ∧
    ∀ r' perm,
      (∃ rp p, rp ∈ role_permissions (w_db w') ∧ p ∈ permissions (w_db w') ∧ rp_role_id rp = r' ∧
         rp_permission_id rp = perm_id p ∧ perm_name p = perm) ↔
      if decide (r' = r) then perm ∈ names ∧ perm ∈ perm_name <$> permissions (w_db w)
      else ∃ rp p, rp ∈ role_permissions (w_db w) ∧ p ∈ permissions (w_db w) ∧ rp_role_id rp = r' ∧
         rp_permission_id rp = perm_id p ∧ perm_name p = perm.
Proof.
  intros Hkeys Hr. unfold setRolePermissions. rewrite run_attempt. unfold set_role_permissions.
  rewrite decide_False by tauto. eexists. split; [done|]. intros r' perm. simpl.
  setoid_rewrite elem_of_app. setoid_rewrite elem_of_named_permissions. unfold sql_delete.
  setoid_rewrite list_elem_of_filter. destruct (decide (r' = r)) as [->|Hne].
  - split.
    + intros (rp & p & [[Hn _]|[_ (p' & Hp' & Hn & Hid)]] & Hp & He & Hpid & Hname); [done|].
      assert (p = p') as -> by (apply (unique_row perm_id (permissions (w_db w))); congruence || done).
      subst perm. split; [done|]. by apply list_elem_of_fmap_2.
    + intros [Hn (p & -> & Hp)%list_elem_of_fmap].
      exists (mkRolePermissionRow r (perm_id p)), p. split_and!; try done. right. eauto.
  - naive_solver.
Qed.
