(* ===== verification/Clients.v ===== *)
(** src/modules/clients/client.repository.ts: OAuth clients and PKCE. *)
From S2P Require Import Prelude Async JsString Errors Store Evolution Toy.
From stdpp Require Import base gmap strings list sorting.
From Stdlib Require Import ZArith.
Local Open Scope string_scope.
Local Open Scope list_scope.
Local Open Scope Z_scope.

Record CreateClient : Type := mkCreateClient {
  cc_name : string;
  cc_clientType : client_type;
  cc_redirectUris : list string;
  cc_allowedScopes : list string;
  cc_grantTypes : list string;
  cc_requirePkce : bool;
  cc_tokenEndpointAuthMethod : auth_method;
}.

Module ClientRepository.
Section repository.
Context `{P : Platform}.

Definition newClientId : M string := draw (λ n, "cli_" +:+ random_hex 8 n).
Definition newClientSecret : M string := draw (λ n, "cst_" +:+ random_b64url 32 n).

Definition findByClientId (clientId : string) : M (option OAuthClientRow) :=
  db_select (λ d, sql_first (λ c, c_client_id c = clientId) (oauth_clients d)).

Definition insert (clientId : string) (secretHash : option string) (p : CreateClient) (w : World)
    : outcome Err OAuthClientRow * World :=
  let row := mkOAuthClientRow (random_uuid (w_draws w)) clientId secretHash (cc_name p)
    (cc_clientType p) (cc_redirectUris p) (cc_allowedScopes p) (cc_grantTypes p)
    (cc_tokenEndpointAuthMethod p) (cc_requirePkce p) CliActive (w_now w) in
  if decide (clientId ∈ c_client_id <$> oauth_clients (w_db w) ∨
             c_id row ∈ c_id <$> oauth_clients (w_db w))
  then (Rejected unique_violation, w)
  else (Resolved row,
        on_db (λ d, d <| oauth_clients ::= λ t, t ++ [row] |>) w <| w_draws ::= N.succ |>).

Definition create (p : CreateClient) : M (OAuthClientRow * option string) :=
  clientId ← newClientId;
  secret ← (if bool_decide (cc_clientType p = Confidential)
            then s ← newClientSecret; mret (Some s) else mret None);
  secretHash ← match secret with
               | Some s => h ← draw (argon2_hash s); mret (Some h)
               | None => mret None
               end;
  row ← attempt (insert clientId secretHash p);
  mret (row, secret).

Definition update_client (id : string) (f : OAuthClientRow → OAuthClientRow) : M () :=
  db_exec (λ _ d, d <| oauth_clients ::= sql_update (λ c, c_id c = id) f |>).

Definition rotateSecret (id : string) : M string :=
  secret ← newClientSecret;
  hash ← draw (argon2_hash secret);
  _ ← update_client id (λ c, c <| c_client_secret_hash := Some hash |>);
  mret secret.

Definition verifySecret (row : OAuthClientRow) (presentedSecret : string) : M bool :=
  match truthy (c_client_secret_hash row) with
  | None => mret false
  | Some h =>
      match argon2_verify h presentedSecret with
      | Some b => mret b
      | None => Throw (ELib None None "Invalid hashed password")
      end
  end.

(** The query does not select the secret's hash. *)
Definition without_hash (c : OAuthClientRow) : OAuthClientRow := c <| c_client_secret_hash := None |>.

Definition listClients : M (list OAuthClientRow) :=
  db_select (λ d, map without_hash (order_newest c_created_at (oauth_clients d))).

Definition setStatus (id : string) (status : client_status) : M () :=
  update_client id (λ c, c <| c_status := status |>).
End repository.
End ClientRepository.

Module PkceUtil.
Section pkce.
Context `{P : Platform}.
Definition generateVerifier : M string := draw (random_b64url 48).
Definition challengeFromVerifier (verifier : string) : string := sha256_b64url verifier.
Definition matches (verifier storedChallenge : string) (method : option string) : bool :=
  if bool_decide (method = Some "S256")
  then bool_decide (challengeFromVerifier verifier = storedChallenge)
  else if bool_decide (method = Some "plain") then bool_decide (verifier = storedChallenge)
  else false.
End pkce.
End PkceUtil.

(** * Steps of the store *)

Section evolution.
Context `{P : Platform}.

Lemma findByClientId_step id : respects step (ClientRepository.findByClientId id).
Proof. apply select_step. Qed.
Lemma update_client_step id f : respects step (ClientRepository.update_client id f).
Proof. apply respects_writes. intros w. by apply step_same. Qed.
Lemma client_insert_step i h p : respects step (attempt (ClientRepository.insert i h p)).
Proof.
  apply respects_attempt. intros w. unfold ClientRepository.insert. case_decide; [done|]. step_tables.
Qed.
#[local] Hint Resolve update_client_step client_insert_step : steps.
Lemma client_create_step p : respects step (ClientRepository.create p).
Proof. unfold ClientRepository.create, ClientRepository.newClientId, ClientRepository.newClientSecret. respects_step. Qed.
Lemma rotateSecret_step id : respects step (ClientRepository.rotateSecret id).
Proof. unfold ClientRepository.rotateSecret, ClientRepository.newClientSecret. respects_step. Qed.
Lemma verifySecret_step r s : respects step (ClientRepository.verifySecret r s).
Proof. unfold ClientRepository.verifySecret. respects_step. Qed.
Lemma client_setStatus_step id s : respects step (ClientRepository.setStatus id s).
Proof. apply update_client_step. Qed.
Lemma listClients_step : respects step ClientRepository.listClients.
Proof. apply select_step. Qed.
End evolution.
#[export] Hint Resolve findByClientId_step client_create_step rotateSecret_step verifySecret_step
  client_setStatus_step listClients_step : steps.

(** * Client authentication *)

Section properties.
Context `{P : Platform, !PlatformLaws P}.

Definition client_by_id (clientId : string) (w : World) : option OAuthClientRow :=
  sql_first (λ c, c_client_id c = clientId) (oauth_clients (w_db w)).

Lemma verifySecret_hashed row salt secret presented w :
  c_client_secret_hash row = Some (argon2_hash secret salt) → argon2_hash secret salt ≠ "" →
  run (ClientRepository.verifySecret row presented) w = (Resolved (bool_decide (secret = presented)), w).
Proof.
  intros Hh Hne. unfold ClientRepository.verifySecret. rewrite Hh.
  destruct (argon2_hash secret salt) as [|a h] eqn:E; [done|]. cbn [truthy].
  rewrite <- E. by rewrite argon2_verify_hash.
Qed.
End properties.
