(* ===== verification/AdminRoutes.v ===== *)
(** The administration API: src/modules/roles/admin.routes.ts with its schemas
    (rbac.schemas.ts) and src/modules/clients/clients.routes.ts. *)
From S2P Require Import Prelude Async JsString Errors Store Evolution Toy Redis RateLimit Http AuditLog RefreshTokens Sessions Users Keys Jwt Guards AuthService Recovery Rbac Clients.
From stdpp Require Import base gmap strings list sorting relations.
From Stdlib Require Import ZArith Ascii.
Local Open Scope string_scope.
Local Open Scope list_scope.
Local Open Scope Z_scope.

(** * Schemas *)

(** [/^[a-z_-]+$/], [/^[a-z_.:-]+$/] and [/^[\w.]+$/] *)
Definition role_name_ok (s : string) : bool :=
  all_chars (λ c, is_lower c || Ascii.eqb c "_" || Ascii.eqb c "-") s && negb (bool_decide (s = "")).
Definition permission_name_ok (s : string) : bool :=
  all_chars (λ c, is_lower c || Ascii.eqb c "_" || Ascii.eqb c "." || Ascii.eqb c ":"
                  || Ascii.eqb c "-") s && negb (bool_decide (s = "")).
Definition scope_name_ok (s : string) : bool :=
  all_chars (λ c, is_word c || Ascii.eqb c ".") s && negb (bool_decide (s = "")).

Definition idParamSchema : Schema := ZObject false [("id", ZString [CUuid])].
Definition listUsersQuerySchema : Schema := ZObject false
  [("limit", ZDefault (ZInteger 1 (Some 100)) (JNum 25));
   ("offset", ZDefault (ZInteger 0 None) (JNum 0))].
Definition setUserRolesSchema : Schema := ZObject false
  [("roles", ZArray (ZString [CRegex role_name_ok]) 0 (Some 10%nat))].
Definition setUserStatusSchema : Schema := ZObject false
  [("status", ZEnum ["active"; "disabled"])].
Definition setRolePermissionsSchema : Schema := ZObject false
  [("permissions", ZArray (ZString [CRegex permission_name_ok]) 0 (Some 50%nat))].

Definition createClientSchema : Schema := ZObject false
  [("name", ZString [CTrim; CMin 3; CMax 100]);
   ("client_type", ZEnum ["confidential"; "public"]);
   ("redirect_uris", ZArray (ZString [CUrl]) 0 (Some 10%nat));
   ("allowed_scopes", ZArray (ZString [CRegex scope_name_ok]) 1 (Some 20%nat));
   ("grant_types", ZArray (ZEnum ["authorization_code"; "client_credentials"]) 1 None);
   ("token_endpoint_auth_method", ZEnum ["client_secret_basic"; "client_secret_post"; "none"])].

(** * JSON *)

(** A [Date] is represented by its time value. *)
Definition json_date (t : Z) : json := JNum t.
Definition json_strs (xs : list string) : json := JArr (JStr <$> xs).

Definition role_json (r : RoleRow) (permissions : list string) : json :=
  JObj [("id", JStr (role_id r)); ("name", JStr (role_name r));
        ("description", json_opt (role_description r)); ("is_system", JBool (role_is_system r));
        ("permissions", json_strs permissions)].
Definition scope_json (s : ScopeRow) : json :=
  JObj [("name", JStr (scope_name s)); ("description", json_opt (scope_description s))].
Definition listed_user_json (u : ListedUser) : json :=
  JObj [("id", JStr (li_id u)); ("email", JStr (li_email u));
        ("status", JStr (user_status_string (li_status u))); ("created_at", json_date (li_created_at u));
        ("roles", json_strs (li_roles u))].
Definition audit_json (a : AuditLogRow) : json :=
  JObj [("event_type", JStr (al_event_type a)); ("user_id", json_opt (al_user_id a));
        ("client_id", json_opt (al_client_id a)); ("ip", json_opt (al_ip a));
        ("user_agent", json_opt (al_user_agent a)); ("request_id", json_opt (al_request_id a));
        ("metadata", JObj (al_metadata a)); ("created_at", json_date (al_created_at a))].

Definition client_type_string (t : client_type) : string :=
  match t with Confidential => "confidential" | Public => "public" end.
Definition auth_method_string (m : auth_method) : string :=
  match m with
  | ClientSecretBasic => "client_secret_basic" | ClientSecretPost => "client_secret_post"
  | NoAuth => "none"
  end.
Definition client_status_string (s : client_status) : string :=
  match s with CliActive => "active" | CliDisabled => "disabled" end.
Definition auth_method_of (s : string) : auth_method :=
  if bool_decide (s = "client_secret_basic") then ClientSecretBasic
  else if bool_decide (s = "client_secret_post") then ClientSecretPost else NoAuth.

(** The columns [list()] selects. *)
Definition client_columns (c : OAuthClientRow) : list (string * json) :=
  [("id", JStr (c_id c)); ("client_id", JStr (c_client_id c)); ("name", JStr (c_name c));
   ("client_type", JStr (client_type_string (c_client_type c)));
   ("redirect_uris", json_strs (c_redirect_uris c)); ("allowed_scopes", json_strs (c_allowed_scopes c));
   ("grant_types", json_strs (c_grant_types c));
   ("token_endpoint_auth_method", JStr (auth_method_string (c_token_endpoint_auth_method c)));
   ("require_pkce", JBool (c_require_pkce c)); ("status", JStr (client_status_string (c_status c)))].
(** [RETURNING *]: the hash of the secret is one of the columns. *)
Definition client_row_json (c : OAuthClientRow) : json :=
  JObj (client_columns c ++ [("client_secret_hash", json_opt (c_client_secret_hash c));
                             ("created_at", json_date (c_created_at c))]).

(** [Number(s)] on a decimal numeral with an optional minus sign ([None] is
    NaN; fractions, exponents and the other radixes are not modelled). *)
Definition js_number (s : string) : option Z :=
  match s with
  | EmptyString => Some 0
  | String "-" s' => match s' with EmptyString => None | _ => Z.opp <$> decimal s' end
  | _ => decimal s
  end.

(** [Math.min(Number(req.query.limit ?? 50) || 50, 200)] *)
Definition audit_limit (query : json) : Z :=
  let n := match jget query "limit" with
           | None => 50
           | Some (JStr s) => match js_number s with Some 0 => 50 | Some n => n | None => 50 end
           | Some _ => 50
           end in
  Z.min n 200.

(** * Handlers *)

(** [req.user!.sub] *)
Definition actor (rq : HttpRequest) : string :=
  match rq_user rq with Some u => au_sub u | None => "" end.

Definition admin_event (type : string) (rq : HttpRequest) (metadata : list (string * json)) : AuditEvent :=
  mkAuditEvent type (Some (actor rq)) None None None (Some (rq_requestId rq)) (Some metadata).

Definition updated : json := JObj [("status", JStr "updated")].

Section routes.
Context `{P : Platform, K : KeyManagementService, J : Jose, Z0 : Zod}.

(** [router.verb(path, auth, requirePermission(p), ..)] *)
Definition admin_route (permission : string) (rest : list RequestHandler) : list RequestHandler :=
  authenticate :: requirePermission [permission] :: rest.

Definition with_permissions (r : RoleRow) : M json :=
  ps ← RbacRepository.rolePermissionNames (role_id r); mret (role_json r ps).

Definition get_roles : list RequestHandler :=
  admin_route "roles:read" [asyncHandler (λ rq,
    rows ← RbacRepository.listRoles;
    rs ← mapM with_permissions rows;
    respond 200 (JObj [("roles", JArr rs)]) rq)].

Definition put_role_permissions : list RequestHandler :=
  admin_route "roles:write"
    [validate (Some setRolePermissionsSchema) None (Some idParamSchema);
     asyncHandler (λ rq,
       let id := jstr (rq_params rq) "id" in
       _ ← RbacRepository.setRolePermissions id (jstr_list (rq_body rq) "permissions");
       _ ← audit_record (admin_event "ROLE_PERMISSIONS_UPDATED" rq [("role_id", JStr id)]);
       respond 200 updated rq)].

Definition get_permissions : list RequestHandler :=
  admin_route "roles:read" [asyncHandler (λ rq,
    ps ← RbacRepository.listPermissions;
    respond 200 (JObj [("permissions", JArr ((λ p, JObj [("name", JStr p)]) <$> ps))]) rq)].

Definition get_scopes : list RequestHandler :=
  admin_route "roles:read" [asyncHandler (λ rq,
    ss ← RbacRepository.listScopes;
    respond 200 (JObj [("scopes", JArr (scope_json <$> ss))]) rq)].

Definition get_users : list RequestHandler :=
  admin_route "users:read"
    [validate None (Some listUsersQuerySchema) None;
     asyncHandler (λ rq,
       let limit := jnum (rq_query rq) "limit" in
       let offset := jnum (rq_query rq) "offset" in
       us ← RbacRepository.listUsers limit offset;
       respond 200 (JObj [("users", JArr (listed_user_json <$> us)); ("limit", JNum limit);
                          ("offset", JNum offset)]) rq)].

Definition put_user_roles : list RequestHandler :=
  admin_route "users:write"
    [validate (Some setUserRolesSchema) None (Some idParamSchema);
     asyncHandler (λ rq,
       let id := jstr (rq_params rq) "id" in
       let names := jstr_list (rq_body rq) "roles" in
       _ ← RbacRepository.setUserRoles id names;
       _ ← audit_record (admin_event "USER_ROLES_UPDATED" rq
             [("target_user_id", JStr id); ("roles", json_strs names)]);
       respond 200 updated rq)].

Definition put_user_status : list RequestHandler :=
  admin_route "users:write"
    [validate (Some setUserStatusSchema) None (Some idParamSchema);
     asyncHandler (λ rq,
       let id := jstr (rq_params rq) "id" in
       let disabled := bool_decide (jstr (rq_body rq) "status" = "disabled") in
       _ ← RbacRepository.setUserStatus id disabled;
       _ ← audit_record (admin_event (if disabled then "USER_DISABLED" else "USER_ENABLED") rq
             [("target_user_id", JStr id)]);
       respond 200 updated rq)].

Definition get_audit : list RequestHandler :=
  admin_route "audit:read" [asyncHandler (λ rq,
    let limit := audit_limit (rq_query rq) in
    events ← RbacRepository.listAuditEvents limit (jstr_opt (rq_query rq) "event_type");
    respond 200 (JObj [("events", JArr (audit_json <$> events)); ("limit", JNum limit)]) rq)].

(** * OAuth clients *)

Definition get_clients : list RequestHandler :=
  admin_route "clients:read" [asyncHandler (λ rq,
    cs ← ClientRepository.listClients;
    respond 200 (JObj [("clients", JArr ((λ c, JObj (client_columns c)) <$> cs))]) rq)].

Definition client_of_body (body : json) : CreateClient :=
  let type := if bool_decide (jstr body "client_type" = "public") then Public else Confidential in
  mkCreateClient (jstr body "name") type (jstr_list body "redirect_uris")
    (jstr_list body "allowed_scopes") (jstr_list body "grant_types") true
    (if bool_decide (type = Public) then NoAuth
     else auth_method_of (jstr body "token_endpoint_auth_method")).

(** A confidential client of the client_credentials grant may only have api
    scopes. *)
Definition scopes_refused (c : CreateClient) : bool :=
  bool_decide (cc_clientType c = Confidential) && includes (cc_grantTypes c) "client_credentials" &&
  negb (forallb (λ s, starts_with s "api.") (cc_allowedScopes c)).

Definition post_clients : list RequestHandler :=
  admin_route "clients:write"
    [validate (Some createClientSchema) None None;
     asyncHandler (λ rq,
       let params := client_of_body (rq_body rq) in
       if scopes_refused params then
         respond 400 (JObj [("error", JStr "VALIDATION_ERROR");
           ("message", JStr "client_credentials clients may only request api.* scopes")]) rq
       else
         created ← ClientRepository.create params;
         _ ← audit_record (admin_event AuditEventType.CLIENT_CREATED rq
               [("client_id", JStr (c_client_id created.1));
                ("client_type", JStr (client_type_string (cc_clientType params)))]);
         respond 201 (JObj (("client", client_row_json created.1) ::
                            jopt "client_secret" (JStr <$> created.2))) rq)].

Definition post_rotate_secret : list RequestHandler :=
  admin_route "clients:write"
    [validate None None (Some idParamSchema);
     asyncHandler (λ rq,
       let id := jstr (rq_params rq) "id" in
       secret ← ClientRepository.rotateSecret id;
       _ ← audit_record (admin_event AuditEventType.CLIENT_SECRET_ROTATED rq
             [("target_client_db_id", JStr id)]);
       respond 201 (JObj [("client_secret", JStr secret)]) rq)].

Definition put_client_status : list RequestHandler :=
  admin_route "clients:write"
    [validate None None (Some idParamSchema);
     asyncHandler (λ rq,
       let id := jstr (rq_params rq) "id" in
       let status := jstr (rq_body rq) "status" in
       if negb (includes ["active"; "disabled"] status) then
         respond 400 (JObj [("error", JStr "VALIDATION_ERROR");
                            ("message", JStr "status must be active|disabled")]) rq
       else
         let disabled := bool_decide (status = "disabled") in
         _ ← ClientRepository.setStatus id (if disabled then CliDisabled else CliActive);
         _ ← audit_record (admin_event
               (if disabled then AuditEventType.CLIENT_DISABLED else AuditEventType.CLIENT_UPDATED) rq
               [("target_client_db_id", JStr id); ("status", JStr status)]);
         respond 200 (JObj [("status", JStr status)]) rq)].

(** The routers, with the permission each route asks for. *)
Record AdminRoute : Type := mkAdminRoute {
  ar_method : string; ar_path : string; ar_permission : string; ar_handlers : list RequestHandler;
}.

Definition adminRoutes : list AdminRoute :=
  [mkAdminRoute "GET" "/roles" "roles:read" get_roles;
   mkAdminRoute "PUT" "/roles/:id/permissions" "roles:write" put_role_permissions;
   mkAdminRoute "GET" "/permissions" "roles:read" get_permissions;
   mkAdminRoute "GET" "/scopes" "roles:read" get_scopes;
   mkAdminRoute "GET" "/users" "users:read" get_users;
   mkAdminRoute "PUT" "/users/:id/roles" "users:write" put_user_roles;
   mkAdminRoute "PUT" "/users/:id/status" "users:write" put_user_status;
   mkAdminRoute "GET" "/audit" "audit:read" get_audit].

Definition clientsRoutes : list AdminRoute :=
  [mkAdminRoute "GET" "/" "clients:read" get_clients;
   mkAdminRoute "POST" "/" "clients:write" post_clients;
   mkAdminRoute "POST" "/:id/rotate-secret" "clients:write" post_rotate_secret;
   mkAdminRoute "PUT" "/:id/status" "clients:write" put_client_status].
End routes.
