(* ===== verification/AdminApi.v ===== *)
(** What the administration API guarantees: no route does anything for a
    request without a verified token that carries its permission; what
    disabling an account changes and what it does not. *)
From S2P Require Import Prelude Async JsString Errors Store Evolution Toy Redis RateLimit Http AuditLog RefreshTokens Sessions Users Keys Jwt ToyJose UserService Risk Guards AuthService Recovery AuthDemo Rbac Clients AdminRoutes.
From stdpp Require Import base gmap strings list sorting relations.
From Stdlib Require Import ZArith Ascii.
Local Open Scope string_scope.
Local Open Scope list_scope.
Local Open Scope Z_scope.

Section properties.
Context `{P : Platform, K : KeyManagementService, J : Jose, Z0 : Zod}.
Context `{KL : !KmsLaws K, JL : !JoseLaws J keypair}.

(** A request that carries a verified token with the permission. *)
Definition authorized (permission : string) (rq : HttpRequest) (w : World) : Prop :=
  ∃ token c, bearer rq = Some token ∧ run (verify_token token) w = (Resolved c, w) ∧
    permission ∈ Guards.granted (user_of_claims c).

Lemma run_admin_route permission rest rq w :
  (authorized permission rq w ∧
   ∃ rq1, run (chain (admin_route permission rest) rq) w = run (chain rest rq1) w) ∨
  (∃ rq1 e, run (chain (admin_route permission rest) rq) w = (Resolved (NextErr rq1 e), w) ∧ refusal e).
Proof.
  unfold admin_route.
  destruct (run_authenticate rq w) as [(token & c & Hb & Hv & Hr)|(e & Hr & He & _)].
  - rewrite (run_chain_cons _ _ _ _ _ _ Hr).
    destruct (run_requirePermission [permission] (rq <| rq_user := Some (user_of_claims c) |>) w)
      as [[Hp (user & Hu & Hall)]|(e & Hp & He)]; rewrite (run_chain_cons _ _ _ _ _ _ Hp).
    + left. split; [|by eexists]. exists token, c. split; [done|]. split; [done|].
      injection Hu as <-. apply Hall. by left.
    + right. by eexists _, _.
  - right. rewrite (run_chain_cons _ _ _ _ _ _ Hr). by eexists _, _.
Qed.

Lemma answer_refusal hs rq w rq1 e :
  run (chain hs rq) w = (Resolved (NextErr rq1 e), w) → refusal e →
  ∃ r, run (answer hs rq) w = (Resolved r, w) ∧ status r.2 ∈ [401; 403].
Proof.
  intros Hr He. unfold answer. rewrite (run_bind_eq _ _ _ _ _ Hr). eexists. split; [done|].
  destruct He as [(msg & c & ->)|(msg & c & ->)]; simpl; set_solver.
Qed.

Lemma admin_routes_guarded rt :
  rt ∈ adminRoutes ++ clientsRoutes → ∃ rest, ar_handlers rt = admin_route (ar_permission rt) rest.
Proof.
  intros Hin. unfold adminRoutes, clientsRoutes in Hin. simpl in Hin.
  repeat (apply elem_of_cons in Hin as [->|Hin]; [by eexists|]). by apply elem_of_nil in Hin.
Qed.

(** C25: Whatever the request and the state, a route of the administration API
    changes the state or answers anything but 401 and 403 only for a request
    whose bearer token was verified and carries the permission of the route. *)
Theorem admin_api_guarded (rt : AdminRoute) (rq : HttpRequest) (w : World) :
  rt ∈ adminRoutes ++ clientsRoutes →
  authorized (ar_permission rt) rq w ∨
  ∃ r, run (answer (ar_handlers rt) rq) w = (Resolved r, w) ∧ status r.2 ∈ [401; 403].
Proof.
  intros [rest ->]%admin_routes_guarded.
  destruct (run_admin_route (ar_permission rt) rest rq w) as [[Ha _]|(rq1 & e & Hr & He)].
  - by left.
  - right. by apply (answer_refusal _ _ _ rq1 e).
Qed.

(** An authorized request to change roles changes them: the route composed with
    the repository. *)
Lemma run_put_user_roles rq w c token id names :
  bearer rq = Some token → run (verify_token token) w = (Resolved c, w) →
  "users:write" ∈ Guards.granted (user_of_claims c) →
  safeParse setUserRolesSchema (rq_body rq) = inr (rq_body rq) →
  safeParse idParamSchema (rq_params rq) = inr (rq_params rq) →
  jstr (assign (rq_params rq) (rq_params rq)) "id" = id → jstr_list (rq_body rq) "roles" = names →
  ∃ rq1 e, run (chain put_user_roles rq) w =
    match run (RbacRepository.setUserRoles id names) w with
    | (Resolved _, w1) => (Resolved (Done rq1 (mkResponse 200 updated)), with_audit [recorded e w1] w1)
    | (Rejected err, w1) => (Resolved (NextErr rq1 err), w1)
    end.
Proof.
  intros Hb Hv Hp Hbody Hparams Hid Hnames. unfold put_user_roles, admin_route.
  assert (Hr : run (authenticate rq) w
    = (Resolved (Next (rq <| rq_user := Some (user_of_claims c) |>)), w)).
  { unfold authenticate. rewrite Hb, run_catch. by run_next_by Hv. }
  rewrite (run_chain_cons _ _ _ _ _ _ Hr).
  set (rq1 := rq <| rq_user := Some (user_of_claims c) |>).
  assert (Hg : run (requirePermission ["users:write"] rq1) w = (Resolved (Next rq1), w)).
  { unfold requirePermission. cbn [rq_user rq1]. simpl.
    by rewrite (proj2 (includes_spec _ _) Hp). }
  rewrite (run_chain_cons _ _ _ _ _ _ Hg).
  set (rq2 := rq1 <| rq_params := assign (rq_params rq) (rq_params rq) |>).
  assert (Hval : run (validate (Some setUserRolesSchema) None (Some idParamSchema) rq1) w
    = (Resolved (Next rq2), w)).
  { unfold validate, validate_part. cbn -[assign safeParse setUserRolesSchema idParamSchema].
    rewrite Hbody. cbn -[assign safeParse setUserRolesSchema idParamSchema]. rewrite Hparams.
    by destruct rq. }
  rewrite (run_chain_cons _ _ _ _ _ _ Hval).
  exists rq2. eexists. cbn [chain]. rewrite run_bind, run_asyncHandler, run_bind.
  change (jstr (rq_params rq2) "id") with (jstr (assign (rq_params rq) (rq_params rq)) "id").
  change (jstr_list (rq_body rq2) "roles") with (jstr_list (rq_body rq) "roles").
  rewrite Hid, Hnames.
  destruct (run (RbacRepository.setUserRoles id names) w) as [[err|[]] w1]; [done|].
  by rewrite (run_bind_eq _ _ _ _ _ (run_audit_record _ w1)).
Qed.
End properties.

(** * Disabling an account *)

Section disable.
Context `{P : Platform, PL : !PlatformLaws P, K : KeyManagementService, J : Jose, R : RiskEngine}.
Context `{KL : !KmsLaws K, JL : !JoseLaws J keypair, RL : !RiskLaws R}.

(** Disabling an account. From then on every login to it is refused,
    whatever the password, and changes nothing. Its sessions and tokens are
    left alone: a live refresh token of an active session is still exchanged
    for an access token with the roles and permissions of the account. *)
Theorem disable_user_effect (w : World) (u : UserRow) :
  ∃ w', run (RbacRepository.setUserStatus (u_id u) true) w = (Resolved (), w') ∧
    (∀ email password ctx, find_user email w = Some u →
       run (AuthService.login email password ctx) w'
       = (Rejected (ForbiddenError "Account is disabled" "ACCOUNT_DISABLED"), w')) ∧
    sessions (w_db w') = sessions (w_db w) ∧ refresh_tokens (w_db w') = refresh_tokens (w_db w) ∧
    (∀ token ctx r s, rt_user_id r = u_id u →
       rt_wf w → r ∈ refresh_tokens (w_db w) → rt_consumable (rt_hash token) (w_now w) r →
       s ∈ sessions (w_db w) → s_id s = rt_session_id r → s_status s = SActive →
       sess_unique w → cache_ok w → kms_wf w →
       ∃ res w'' kid priv jti, run (AuthService.refresh token ctx) w' = (Resolved res, w'') ∧
         lr_access_token res = SignJWT kid (JwtService.access_claims app_jwt_options
           (mkTokenInput (u_id u) (rt_scope r)
              (Some (order_by_name (UserRepository.roles_joined (u_id u) (w_db w))))
              (Some (order_by_name (remove_dups (UserRepository.permissions_joined (u_id u) (w_db w)))))
              (Some (s_id s)) (rt_client_id r) (Some (if s_mfa_passed s then ["pwd"; "mfa"] else ["pwd"])))
           (w_now w / 1000) (ACCESS_TOKEN_TTL cfg) jti) priv).
Proof.
  eexists. split; [apply run_writes|]. split; [|split; [done|split; [done|]]].
  - intros email password ctx Hf. set (w' := on_db _ w).
    assert (Hf' : find_user email w' = sql_set (λ x, u_id x = u_id u)
      (λ x, x <| u_status := UDisabled |> <| u_updated_at := w_now w |>) <$> find_user email w)
      by by apply find_user_update.
    rewrite Hf in Hf'. cbn in Hf'. rewrite sql_set_true in Hf' by done.
    by rewrite (AuthService.run_login _ _ _ _ _ Hf').
  - intros token ctx r s Hru Hrt Hr Hc Hs Hsid Ha Hsu Hcache Hk. set (w' := on_db _ w).
    destruct (run_refresh_live token ctx w' r s) as (res & w'' & kid & priv & jti & Hrun & _ & Htok & _);
      try done.
    { by apply (kms_wf_stable w). }
    exists res, w'', kid, priv, jti. split; [done|]. rewrite Htok. unfold refreshed_claims. rewrite Hru. done.
Qed.
End disable.

(** * The properties at concrete inputs *)

Section witnesses.
#[local] Existing Instances toy toy_crypto toy_jose toy_formats toy_zod.

Definition bare_request : HttpRequest :=
  mkRequest ∅ (Some "10.0.0.1") (JObj []) (JObj []) (JObj []) "req-1" None None [].

Lemma admin_api_guarded_witness :
  ∃ r, run (answer put_user_status bare_request) (empty_world 0) = (Resolved r, empty_world 0) ∧
    status r.2 ∈ [401; 403].
Proof.
  destruct (admin_api_guarded (mkAdminRoute "PUT" "/users/:id/status" "users:write" put_user_status)
    bare_request (empty_world 0)) as [(token & c & Hb & _)|H].
  - unfold adminRoutes. simpl. set_solver.
  - discriminate Hb.
  - exact H.
Defined.

(** A user of the role "user" becomes a supporter. *)
Definition rbac_world : World :=
  empty_world 0 <| w_db := empty_db
    <| users := [ada UActive 0] |>
    <| roles := [mkRoleRow "r-1" "user" None true; mkRoleRow "r-2" "support" None true] |>
    <| permissions := [mkPermissionRow "p-1" "users:read"] |>
    <| role_permissions := [mkRolePermissionRow "r-2" "p-1"] |>
    <| user_roles := [mkUserRoleRow "user-1" "r-1"] |> |>.

Lemma set_user_roles_exact_witness :
  ∃ w', run (RbacRepository.setUserRoles "user-1" ["support"; "nobody"]) rbac_world = (Resolved (), w') ∧
    has_role (w_db w') "user-1" "support" ∧ ¬ has_role (w_db w') "user-1" "user" ∧
    Users.granted (w_db w') "user-1" "users:read".
Proof.
  destruct (set_user_roles_exact "user-1" ["support"; "nobody"] rbac_world) as [Hok _].
  - unfold role_keys. simpl. repeat constructor; set_solver.
  - destruct Hok as (w' & Hrun & Hroles & Hperms & _); [simpl; by left|].
    exists w'. split; [exact Hrun|]. rewrite !Hroles, Hperms. split_and!.
    + by left.
    + exists (mkRoleRow "r-2" "support" None true). split; [right; by left|done].
    + intros [Hin _]. set_solver.
    + exists (mkRoleRow "r-2" "support" None true), (mkRolePermissionRow "r-2" "p-1"),
        (mkPermissionRow "p-1" "users:read"). split_and!; try done; [right; by left|by left..].
Defined.

(** The refresh token of a disabled account. *)
Definition disabled_world : World := on_db (λ d, d <| users := [ada UActive 0] |>) (demo_world 1000).

Lemma disable_user_effect_witness :
  ∃ w' res w'', run (RbacRepository.setUserStatus "user-1" true) disabled_world = (Resolved (), w') ∧
    run (AuthService.login "ada@example.com" "Correct-Horse-42" demo_ctx) w'
      = (Rejected (ForbiddenError "Account is disabled" "ACCOUNT_DISABLED"), w') ∧
    run (AuthService.refresh demo_token demo_ctx) w' = (Resolved res, w'').
Proof.
  destruct (disable_user_effect disabled_world (ada UActive 0)) as (w' & Hrun & Hlogin & _ & _ & Hrefresh).
  destruct (Hrefresh demo_token demo_ctx demo_row demo_session) as (res & w'' & kid & priv & jti & Hr & _).
  - done.
  - exact (demo_wf 1000).
  - apply list_elem_of_here.
  - by split_and!.
  - apply list_elem_of_here.
  - done.
  - done.
  - apply NoDup_singleton.
  - intros id e c Hk. simpl in Hk. by rewrite lookup_empty in Hk.
  - split; [done|]. split; [constructor|by left].
  - exists w', res, w''. split; [exact Hrun|]. split; [|exact Hr]. apply Hlogin. reflexivity.
Defined.
End witnesses.
