(* ===== verification/Codes.v ===== *)
(** src/modules/oauth/authorization-code.repository.ts: single-use
    authorization codes bound to a client and a redirect URI. *)
From S2P Require Import Prelude Async JsString Errors Store Evolution Toy RefreshTokens Clients.
From stdpp Require Import base gmap strings list relations.
From Stdlib Require Import ZArith.
Local Open Scope string_scope.
Local Open Scope list_scope.
Local Open Scope Z_scope.

Record IssueCode : Type := mkIssueCode {
  ic_clientId : string;
  ic_userId : string;
  ic_redirectUri : string;
  ic_scope : string;
  ic_nonce : option string;
  ic_codeChallenge : option string;
  ic_codeChallengeMethod : option string;
  ic_ttlSeconds : Z;
}.

(** The other two ways the INSERT can fail. *)
Definition not_null_violation : Err :=
  ELib None (Some "23502") "null value in column violates not-null constraint".
Definition check_violation : Err :=
  ELib None (Some "23514") "new row violates check constraint".

Module AuthorizationCodeRepository.
Section repository.
Context `{P : Platform}.

Definition hash (code : string) : string := sha256_hex code.
Definition newCode : M string := draw (random_b64url 32).

(** [code_challenge_method IN ('S256', 'plain')], satisfied by NULL. *)
Definition method_ok (m : option string) : bool :=
  match m with Some m => includes ["S256"; "plain"] m | None => true end.

Definition insert (codeHash : string) (p : IssueCode) (w : World) : outcome Err () * World :=
  match sql_first (λ c, c_client_id c = ic_clientId p) (oauth_clients (w_db w)) with
  | None => (Rejected not_null_violation, w)
  | Some client =>
      let row := mkAuthorizationCodeRow (random_uuid (w_draws w)) codeHash (c_id client)
        (ic_userId p) (ic_redirectUri p) (ic_scope p) (ic_nonce p) (ic_codeChallenge p)
        (ic_codeChallengeMethod p) (w_now w + ic_ttlSeconds p * 1000) None in
      if negb (method_ok (ic_codeChallengeMethod p)) then (Rejected check_violation, w)
      else if decide (codeHash ∈ ac_code_hash <$> authorization_codes (w_db w) ∨
                      ac_id row ∈ ac_id <$> authorization_codes (w_db w))
      then (Rejected unique_violation, w)
      else (Resolved (),
            on_db (λ d, d <| authorization_codes ::= λ t, t ++ [row] |>) w <| w_draws ::= N.succ |>)
  end.

Definition issue (p : IssueCode) : M string :=
  code ← newCode;
  _ ← attempt (insert (hash code) p);
  mret code.

(** [authorization_codes ac JOIN oauth_clients c ON c.id = ac.client_id WHERE
    ac.code_hash = $1]: the row and the public identifier of its client. *)
Definition joined (codeHash : string) (d : Db) : list (AuthorizationCodeRow * string) :=
  ac ← authorization_codes d; c ← oauth_clients d;
  if decide (c_id c = ac_client_id ac ∧ ac_code_hash ac = codeHash)
  then [(ac, c_client_id c)] else [].

(** The part [peek] and [consume] have in common: the bound, unused, unexpired
    row. *)
Definition present (code clientId redirectUri : string)
    : M (option (AuthorizationCodeRow * string)) :=
  existing ← db_select (λ d, head (joined (hash code) d));
  match existing with
  | None => mret None
  | Some (row, client_ref) =>
      if decide (client_ref ≠ clientId ∨ ac_redirect_uri row ≠ redirectUri) then mret None
      else
        match ac_consumed_at row with
        | Some _ => Throw (ECodeReplay (ac_user_id row) client_ref)
        | None =>
            now ← now_ms;
            mret (if ac_expires_at row <? now then None else Some (row, client_ref))
        end
  end.

Definition peek (code clientId redirectUri : string) : M (option AuthorizationCodeRow) :=
  found ← present code clientId redirectUri;
  match found with Some f => mret (Some f.1) | None => mret None end.

(** [WHERE id = $1 AND consumed_at IS NULL] *)
Definition unused (id : string) (r : AuthorizationCodeRow) : Prop :=
  ac_id r = id ∧ ac_consumed_at r = None.
#[global] Instance unused_dec id r : Decision (unused id r).
Proof. unfold unused. apply _. Defined.

Definition use (now : Z) (r : AuthorizationCodeRow) : AuthorizationCodeRow :=
  r <| ac_consumed_at := Some now |>.

(** The UPDATE .. RETURNING. *)
Definition take (id : string) (w : World) : option AuthorizationCodeRow * World :=
  (head (sql_returning (unused id) (use (w_now w)) (authorization_codes (w_db w))),
   on_db (λ d, d <| authorization_codes ::= sql_update (unused id) (use (w_now w)) |>) w).

Definition consume (code clientId redirectUri : string) : M (option AuthorizationCodeRow) :=
  found ← present code clientId redirectUri;
  match found with
  | None => mret None
  | Some (row, client_ref) =>
      updated ← atomically (take (ac_id row));
      match updated with
      | None => Throw (ECodeReplay (ac_user_id row) client_ref)
      | Some updated => mret (Some updated)
      end
  end.

(** [client_id IN (SELECT id FROM oauth_clients WHERE client_id = $2)], false
    on NULL. *)
Definition token_of_client (clientRef : string) (d : Db) (r : RefreshTokenRow) : Prop :=
  match rt_client_id r with
  | Some id => id ∈ c_id <$> sql_select (λ c, c_client_id c = clientRef) (oauth_clients d)
  | None => False
  end.
#[global] Instance token_of_client_dec ref d r : Decision (token_of_client ref d r).
Proof. unfold token_of_client. destruct (rt_client_id r); apply _. Defined.

Definition revokeTokensForReplay (userId clientRef : string) : M () :=
  db_exec (λ now d, d <| refresh_tokens ::=
    sql_update (λ r, rt_user_id r = userId ∧ token_of_client clientRef d r ∧ rt_not_revoked r)
      (rt_revoke now) |>).
End repository.
End AuthorizationCodeRepository.

(** * Steps of the store *)

Definition ac_live (r : AuthorizationCodeRow) : Prop := ac_consumed_at r = None.
#[export] Instance ac_live_dec r : Decision (ac_live r).
Proof. unfold ac_live. apply _. Defined.

Lemma ac_le_live r r' : ac_le r r' → ac_live r' → ac_live r.
Proof.
  unfold ac_live. intros [_ Hu] He. destruct (ac_consumed_at r); [|done].
  destruct Hu as [? Hu]; [done|]. congruence.
Qed.

Lemma ac_le_use id now r :
  AuthorizationCodeRepository.unused id r → ac_le r (AuthorizationCodeRepository.use now r).
Proof. intros [_ Hu]. split; [done|]. rewrite Hu. by intros []. Qed.

Lemma code_evolves_update (Q : AuthorizationCodeRow → Prop) `{!∀ r, Decision (Q r)} f t :
  (∀ r, Q r → ac_le r (f r)) → code_evolves t (sql_update Q f t).
Proof.
  intros Hf. split; apply evolves_update; try done; try apply _; [apply ac_le_hash|apply ac_le_id].
Qed.

Section evolution.
Context `{P : Platform}.
Import AuthorizationCodeRepository.

Lemma code_insert_step h p : respects step (attempt (insert h p)).
Proof.
  apply respects_attempt. intros w. unfold insert. destruct (sql_first _ _); [|done].
  destruct (negb _); [done|]. case_decide as Hd; [done|].
  step_tables. split; apply evolves_insert; try apply _; intros Hin; apply Hd; auto.
Qed.
#[local] Hint Resolve code_insert_step : steps.
Lemma code_issue_step p : respects step (issue p).
Proof. unfold issue, newCode. respects_step. Qed.

Lemma present_keeps c i u : keeps (λ w : World, w) (present c i u).
Proof.
  apply respects_bind; [by apply respects_reads, _|intros [[row ref]|]; [|done]].
  case_decide; [done|]. destruct (ac_consumed_at row); [done|].
  by apply respects_bind; [apply respects_reads, _|].
Qed.
Lemma present_step c i u : respects step (present c i u).
Proof. eapply respects_mono; [|apply present_keeps]. by intros w w' ->. Qed.

Lemma code_take_step id : respects step (atomically (take id) : M _).
Proof.
  apply respects_atomically. intros w. step_tables.
  apply code_evolves_update. intros r. apply ac_le_use.
Qed.
#[local] Hint Resolve present_step code_take_step : steps.
Lemma peek_step c i u : respects step (peek c i u).
Proof. unfold peek. respects_step. Qed.
Lemma code_consume_step c i u : respects step (consume c i u).
Proof. unfold consume. respects_step. Qed.
Lemma revokeForReplay_step u c : respects step (revokeTokensForReplay u c).
Proof.
  apply respects_writes. intros w. step_tables.
  apply evolves_update; [apply _|intros; apply rt_le_revoke|apply rt_le_hash].
Qed.
End evolution.
#[export] Hint Resolve code_issue_step peek_step code_consume_step revokeForReplay_step : steps.

(** * One code *)

Section code.
Context `{P : Platform}.
Import AuthorizationCodeRepository.

Definition code_table (w : World) : list AuthorizationCodeRow := authorization_codes (w_db w).

(** The keys of the schema. *)
Record codes_unique (w : World) : Prop := mk_codes_unique {
  codes_hash_unique : NoDup (ac_code_hash <$> code_table w);
  codes_id_unique : NoDup (ac_id <$> code_table w);
  codes_client_unique : NoDup (c_id <$> oauth_clients (w_db w));
}.

(** The row of a code and its client. *)
Record stored_code (code : string) (row : AuthorizationCodeRow) (client : OAuthClientRow)
    (w : World) : Prop := mk_stored_code {
  stored_row : row ∈ code_table w;
  stored_hash : ac_code_hash row = hash code;
  stored_client : client ∈ oauth_clients (w_db w);
  stored_ref : c_id client = ac_client_id row;
}.

Lemma elem_of_joined h d row ref :
  (row, ref) ∈ joined h d ↔
    ∃ c, row ∈ authorization_codes d ∧ c ∈ oauth_clients d ∧ c_id c = ac_client_id row ∧
      ac_code_hash row = h ∧ ref = c_client_id c.
Proof.
  unfold joined. repeat setoid_rewrite list_elem_of_bind. setoid_rewrite elem_of_if. naive_solver.
Qed.

Lemma joined_stored code row client w :
  codes_unique w → stored_code code row client w →
  head (joined (hash code) (w_db w)) = Some (row, c_client_id client).
Proof.
  intros [Hh _ Hc] [Hr Hhash Hcl Hid].
  assert (Hin : (row, c_client_id client) ∈ joined (hash code) (w_db w))
    by (apply elem_of_joined; by exists client).
  destruct (joined (hash code) (w_db w)) as [|[r ref] l] eqn:E; [by apply not_elem_of_nil in Hin|].
  assert ((r, ref) ∈ joined (hash code) (w_db w)) as (c & H1 & H2 & H3 & H4 & ->)%elem_of_joined
    by (rewrite E; apply list_elem_of_here).
  assert (r = row) as -> by (apply (unique_row ac_code_hash (code_table w)); try done; congruence).
  by rewrite (unique_row c_id (oauth_clients (w_db w)) c client) by (done || congruence).
Qed.

Lemma joined_none h d :
  h ∉ ac_code_hash <$> authorization_codes d → head (joined h d) = None.
Proof.
  intros Hn. destruct (joined h d) as [|[r ref] l] eqn:E; [done|]. destruct Hn.
  assert ((r, ref) ∈ joined h d) as (c & H1 & _ & _ & <- & _)%elem_of_joined
    by (rewrite E; apply list_elem_of_here).
  by apply list_elem_of_fmap_2.
Qed.

(** What presenting a stored code gives. *)
Lemma run_present code row client clientId uri w :
  codes_unique w → stored_code code row client w →
  run (present code clientId uri) w =
    (if decide (c_client_id client ≠ clientId ∨ ac_redirect_uri row ≠ uri) then Resolved None
     else match ac_consumed_at row with
          | Some _ => Rejected (ECodeReplay (ac_user_id row) (c_client_id client))
          | None => Resolved (if ac_expires_at row <? w_now w then None
                              else Some (row, c_client_id client))
          end, w).
Proof.
  intros Hu Hs. unfold present. erewrite run_bind_eq by reflexivity. cbv beta.
  rewrite (joined_stored code row client w Hu Hs). case_decide; [done|].
  by destruct (ac_consumed_at row).
Qed.

Lemma run_present_unknown code clientId uri w :
  hash code ∉ ac_code_hash <$> code_table w →
  run (present code clientId uri) w = (Resolved None, w).
Proof.
  intros Hn. unfold present. erewrite run_bind_eq by reflexivity. cbv beta.
  by rewrite joined_none.
Qed.

(** A presentation that is accepted. *)
Record presentable (row : AuthorizationCodeRow) (client : OAuthClientRow)
    (clientId uri : string) (now : Z) : Prop := mk_presentable {
  pr_client : c_client_id client = clientId;
  pr_uri : ac_redirect_uri row = uri;
  pr_fresh : ac_consumed_at row = None;
  pr_live : now ≤ ac_expires_at row;
}.

Lemma run_present_ok code row client clientId uri w :
  codes_unique w → stored_code code row client w → presentable row client clientId uri (w_now w) →
  run (present code clientId uri) w = (Resolved (Some (row, clientId)), w).
Proof.
  intros Hu Hs [<- <- Hc Hl]. rewrite (run_present code row client) by done.
  rewrite decide_False by (by intros []). by rewrite Hc, (proj2 (Z.ltb_ge _ _)).
Qed.

Definition used (row : AuthorizationCodeRow) (w : World) : World := (take (ac_id row) w).2.

Lemma run_take row w :
  codes_unique w → row ∈ code_table w → ac_consumed_at row = None →
  (take (ac_id row) w).1 = Some (use (w_now w) row).
Proof.
  intros [_ Hi _] Hr Hc. unfold take. cbn [fst]. rewrite sql_returning_head.
  rewrite (sql_first_unique (unused (ac_id row)) ac_id (ac_id row) _ row); try done. by intros r [].
Qed.

Lemma run_code_consume code row client clientId uri w :
  codes_unique w → stored_code code row client w → presentable row client clientId uri (w_now w) →
  run (consume code clientId uri) w = (Resolved (Some (use (w_now w) row)), used row w).
Proof.
  intros Hu Hs Hp. unfold consume. erewrite run_bind_eq by (by apply (run_present_ok code row client)). cbv beta iota.
  rewrite run_bind, run_atomically. rewrite run_take by (done || apply Hs || apply Hp). done.
Qed.

(** What an accepted presentation says of the store it was made in. *)
Lemma present_inv code clientId uri w row ref w' :
  run (present code clientId uri) w = (Resolved (Some (row, ref)), w') →
  w' = w ∧ ref = clientId ∧
  ∃ client, stored_code code row client w ∧ presentable row client clientId uri (w_now w).
Proof.
  unfold present. erewrite run_bind_eq by reflexivity. cbv beta.
  destruct (head _) as [[r c]|] eqn:E; [|done].
  assert ((r, c) ∈ joined (hash code) (w_db w)) as (cl & H1 & H2 & H3 & H4 & ->)%elem_of_joined.
  { destruct (joined (hash code) (w_db w)); [done|]. injection E as ->. apply list_elem_of_here. }
  case_decide as Hd; [done|]. destruct (ac_consumed_at r) eqn:Ec; [done|].
  erewrite run_bind_eq by reflexivity. cbv beta. destruct (Z.ltb_spec (ac_expires_at r) (w_now w)); [done|].
  intros [= <- <- <-]. split; [done|].
  destruct (decide (c_client_id cl = clientId)) as [Hc|]; [|destruct Hd; by left].
  destruct (decide (ac_redirect_uri r = uri)); [|destruct Hd; by right]. split; [exact Hc|].
  exists cl. split.
  - by split.
  - by split.
Qed.
End code.

(** * Single use

    Across any interleaving, a code is consumed once. The invariant [known]
    fixes which row a code designates. *)

Section races.
Context `{P : Platform}.
Import AuthorizationCodeRepository.

Record known (h id : string) (w : World) : Prop := mk_known {
  known_hash : NoDup (ac_code_hash <$> code_table w);
  known_id : NoDup (ac_id <$> code_table w);
  known_row : ∃ r, r ∈ code_table w ∧ ac_code_hash r = h ∧ ac_id r = id;
}.

Lemma known_step h id w w' : code_step w w' → known h id w → known h id w'.
Proof.
  intros [[Hg Hh] [_ Hi]] [Nh Ni (r & Hr & <- & <-)]. split; [by apply Hh|by apply Hi|].
  destruct (grows_elem _ _ _ _ Hg Hr) as (r' & Hr' & Hle). exists r'. split; [done|].
  split; [by apply ac_le_hash|by apply ac_le_id].
Qed.

Definition consumed_count : string → World → nat := spent_count code_table ac_id ac_live.

Lemma consumed_mono id w w' : code_step w w' → (consumed_count id w ≤ consumed_count id w')%nat.
Proof.
  intros [_ Hi]. exact (spent_count_mono code_table ac_le ac_id ac_live ac_le_id ac_le_live _ _ _ Hi).
Qed.

Lemma consumed_max h id w : known h id w → (consumed_count id w ≤ 1)%nat.
Proof. intros [_ Hi _]. by apply spent_count_max. Qed.

(** Computations that only move the table forward. *)
Lemma code_step_earns {A} h id (Q : nat → A → Prop) n (p : M A) :
  respects step p → (∀ m a, (n ≤ m)%nat → Q m a) →
  earns (known h id) (consumed_count id) Q n p.
Proof.
  intros Hp. apply earns_respects. eapply respects_mono; [|exact Hp].
  intros w w' Hs Hk. apply step_code in Hs. split; [by eapply known_step|by apply consumed_mono].
Qed.

(** Whoever is shown the code is shown the row it designates. *)
Lemma present_earns code id clientId uri n :
  earns (known (hash code) id) (consumed_count id)
    (λ m a, ∀ row ref, a = Some (row, ref) → ac_id row = id) n (present code clientId uri).
Proof.
  unfold present. apply earns_bind. intros w Hk. split; [done|]. split; [done|]. cbn [fst snd earns].
  destruct (head (joined (hash code) (w_db w))) as [[row ref]|] eqn:E; [|done].
  assert ((row, ref) ∈ joined (hash code) (w_db w)) as (c & Hr & _ & _ & Hh & _)%elem_of_joined.
  { destruct (joined (hash code) (w_db w)); [done|]. injection E as ->. apply list_elem_of_here. }
  destruct Hk as [Nh Ni (r & Hin & Hrh & Hri)].
  assert (row = r) as -> by (apply (unique_row ac_code_hash (code_table w)); [done..|congruence]).
  case_decide; [done|]. destruct (ac_consumed_at r); [done|]. intros w' Hk'.
  split; [done|]. split; [done|]. intros row ref' Ha. destruct (_ <? _); [done|].
  by injection Ha as <- _.
Qed.

Lemma consume_once code id clientId uri n :
  earns (known (hash code) id) (consumed_count id) (λ m a, is_Some a → (1 ≤ m)%nat) n
    (consume code clientId uri).
Proof.
  apply earns_bind. eapply earns_mono; [|apply present_earns].
  intros m [[row ref]|] _ Hrow; [|by intros []]. specialize (Hrow row ref eq_refl).
  apply earns_bind. subst id.
  intros w Hk. destruct (code_take_step (ac_id row) w) as [Hs _]. cbn [snd fst] in Hs |- *. apply step_code in Hs.
  split; [by eapply known_step|]. split; [by apply consumed_mono|].
  destruct (take (ac_id row) w).1 as [updated|] eqn:E; [|done]. intros _.
  enough (consumed_count (ac_id row) w < consumed_count (ac_id row) (take (ac_id row) w).2)%nat by lia.
  unfold take in E. cbn [fst] in E. rewrite sql_returning_head in E.
  destruct (sql_first _ _) as [r|] eqn:Hf; [|done]. apply sql_first_Some in Hf as [[Hid Hl] Hin].
  unfold consumed_count, spent_count. apply (sql_count_update_lt _ _ _ _ r); try done.
  - intros r' [_ Hn] [_ ?]. done.
  - by intros [_ []].
Qed.
End races.
