(* ===== verification/OAuth.v ===== *)
(** src/modules/oauth/oauth.service.ts: the authorization endpoint, the token
    endpoint and its three grants, introspection and revocation. *)
From S2P Require Import Prelude Async JsString Errors Store Evolution Toy Redis AuditLog RefreshTokens Sessions Users Keys Jwt Clients Codes.
From stdpp Require Import base gmap strings list relations.
From Stdlib Require Import ZArith Ascii.
Local Open Scope string_scope.
Local Open Scope list_scope.
Local Open Scope Z_scope.

(** [url = new URL(u); url.searchParams.set(k, v); ..; url.toString()]; [None]
    when the constructor throws. *)
Class UrlApi : Type := { url_with_params : string → list (string * string) → option string }.

Definition invalid_url : Err := ELib None (Some "ERR_INVALID_URL") "Invalid URL".

Record TokenResponse : Type := mkTokenResponse {
  tr_access_token : string;
  tr_expires_in : Z;
  tr_refresh_token : option string;
  tr_scope : string;
  tr_id_token : option string;
}.

Record AuthorizeInput : Type := mkAuthorizeInput {
  ai_client_id : string;
  ai_redirect_uri : string;
  ai_scope : string;
  ai_nonce : option string;
  ai_code_challenge : string;
  ai_code_challenge_method : string;
}.

Record TokenForm : Type := mkTokenForm {
  tf_grant_type : string;
  tf_code : option string;
  tf_redirect_uri : option string;
  tf_client_id : option string;
  tf_client_secret : option string;
  tf_code_verifier : option string;
  tf_scope : option string;
  tf_refresh_token : option string;
}.

Record Introspection : Type := mkIntrospection {
  in_sub : option string;
  in_scope : option string;
  in_exp : option Z;
  in_iat : option Z;
  in_aud : option string;
  in_iss : option string;
  in_jti : option string;
  in_client_id : option string;
}.

(** [/^[\w-]{43,128}$/] *)
Definition challenge_ok (s : string) : bool :=
  all_chars (λ c, is_word c || Ascii.eqb c "-") s &&
  (43 <=? String.length s)%nat && (String.length s <=? 128)%nat.

(** [/^[A-Za-z0-9\-_.~]{1,512}$/] *)
Definition state_ok (s : string) : bool :=
  all_chars (λ c, is_word c || Ascii.eqb c "-" || Ascii.eqb c "." || Ascii.eqb c "~") s &&
  (1 <=? String.length s)%nat && (String.length s <=? 512)%nat.

Module OAuthService.
Section service.
Context `{P : Platform, K : KeyManagementService, J : Jose, U : UrlApi}.

Definition fail {A} (code description : string) : M A := Throw (OAuthTokenError 400 code description).

Definition denied (user : option string) (reason client_id : string) (ctx : RequestContext) : M () :=
  audit_record (event AuditEventType.AUTHORIZATION_DENIED user None ctx false
    (Some [("reason", JStr reason); ("client_id", JStr client_id)])).

(** The checks of [authorize] that only read the request. *)
Definition request_error (input : AuthorizeInput) (client : OAuthClientRow)
    (authenticatedUserId : option string) : option Err :=
  if negb (forallb (includes (c_allowed_scopes client)) (scope_list (ai_scope input)))
  then Some (OAuthTokenError 400 "invalid_scope" "Requested scope exceeds what the client is allowed")
  else if bool_decide (ai_code_challenge_method input = "plain") && c_require_pkce client
  then Some (OAuthTokenError 400 "invalid_request" "Only S256 code_challenge_method is allowed")
  else if negb (challenge_ok (ai_code_challenge input))
  then Some (OAuthTokenError 400 "invalid_request" "Malformed code_challenge")
  else match truthy authenticatedUserId with
       | None => Some (OAuthTokenError 401 "login_required" "User authentication required")
       | Some _ => None
       end.

(** The rest of [authorize], for a valid request of an active user. *)
Definition issue_code (input : AuthorizeInput) (userId : string) (state : option string)
    (ctx : RequestContext) : M string :=
  code ← AuthorizationCodeRepository.issue
    (mkIssueCode (ai_client_id input) userId (ai_redirect_uri input) (ai_scope input)
       (ai_nonce input) (Some (ai_code_challenge input)) (Some (ai_code_challenge_method input))
       (AUTHORIZATION_CODE_TTL cfg));
  _ ← audit_record (event AuditEventType.AUTHORIZATION_GRANTED (Some userId) None ctx false
        (Some [("client_id", JStr (ai_client_id input)); ("scope", JStr (ai_scope input))]));
  let state_param := match state with
                     | Some s => if state_ok s then [("state", s)] else []
                     | None => []
                     end in
  match url_with_params (ai_redirect_uri input) (("code", code) :: state_param) with
  | Some url => mret url
  | None => Throw invalid_url
  end.

Definition authorize (input : AuthorizeInput) (authenticatedUserId state : option string)
    (ctx : RequestContext) : M string :=
  client ← ClientRepository.findByClientId (ai_client_id input);
  match client with
  | None => fail "invalid_client" "Unknown client"
  | Some client =>
      if negb (bool_decide (c_status client = CliActive)) then
        _ ← denied authenticatedUserId "client_disabled" (ai_client_id input) ctx;
        fail "unauthorized_client" "Client is disabled"
      else if negb (includes (c_redirect_uris client) (ai_redirect_uri input)) then
        _ ← denied authenticatedUserId "redirect_uri_mismatch" (ai_client_id input) ctx;
        fail "invalid_request" "redirect_uri is not registered for this client"
      else
        match request_error input client authenticatedUserId with
        | Some e => Throw e
        | None =>
            let userId := default "" authenticatedUserId in
            user ← UserRepository.findById userId;
            match user with
            | Some u =>
                if bool_decide (u_status u = UActive) then issue_code input userId state ctx
                else Throw (ForbiddenError "User account is not active" "USER_INACTIVE")
            | None => Throw (ForbiddenError "User account is not active" "USER_INACTIVE")
            end
        end
  end.

Definition recordClientAuthFailure (clientDbId : string) (ctx : RequestContext) : M () :=
  audit_record (event AuditEventType.USER_LOGIN_FAILED None (Some clientDbId) ctx false
    (Some [("reason", JStr "client_auth_failed"); ("grant", JStr "unknown")])).

Definition handleCodeReplay (userId clientRef : string) (ctx : RequestContext) : M () :=
  _ ← AuthorizationCodeRepository.revokeTokensForReplay userId clientRef;
  audit_record (event AuditEventType.REFRESH_TOKEN_REUSE_DETECTED (Some userId) (Some clientRef)
    ctx false (Some [("kind", JStr "authorization_code_replay")])).

Definition expires_in (signed : Signed) : M Z :=
  now ← now_ms; mret ((sg_expiresAt signed - now) / 1000).

(** The claims of the ID token beyond the registered ones; an [undefined]
    one is absent. *)
Definition opt_claim (name : string) (v : option string) : list (string * json) :=
  match v with Some s => [(name, JStr s)] | None => [] end.

Definition id_token_claims (scope : string) (nonce : option string) (user : option UserRow)
    : list (string * json) :=
  opt_claim "nonce" (truthy nonce)
  ++ (if str_includes scope "email" then opt_claim "email" (u_email <$> user) else [])
  ++ (if str_includes scope "profile"
      then opt_claim "given_name" (user ≫= u_first_name) ++ opt_claim "family_name" (user ≫= u_last_name)
      else []).

Definition id_token_for (userId : string) (client : OAuthClientRow) (scope : string)
    (nonce : option string) : M (option string) :=
  if str_includes scope "openid" then
    user ← UserRepository.findById userId;
    t ← JwtService.signIdToken app_jwt_options (id_token_claims scope nonce user)
          (c_client_id client) userId (ID_TOKEN_TTL cfg);
    mret (Some t)
  else mret None.

Definition issueUserTokens (userId : string) (client : OAuthClientRow) (scope : string)
    (nonce : option string) (ctx : RequestContext) : M TokenResponse :=
  roles ← UserRepository.rolesOf userId;
  permissions ← UserRepository.permissionsOf userId;
  session ← SessionRepository.create
    (mkCreateSession userId (Some (c_id client)) (ctx_ip ctx) (ctx_userAgent ctx) None true
       (SESSION_TTL cfg));
  signed ← JwtService.signAccessToken app_jwt_options
    (mkTokenInput userId scope (Some roles) (Some permissions) (Some (s_id session))
       (Some (c_client_id client)) (Some ["oauth"])) None;
  refresh ← issue (mkIssue (s_id session) userId (Some (c_id client)) scope None None);
  idToken ← id_token_for userId client scope nonce;
  _ ← audit_record (event AuditEventType.TOKEN_ISSUED (Some userId) (Some (c_id client)) ctx false
        (Some [("grant", JStr "authorization_code"); ("scope", JStr scope)]));
  exp ← expires_in signed;
  mret (mkTokenResponse (sg_token signed) exp (Some refresh.1) scope (truthy idToken)).

(** ** Client authentication *)

Definition invalid_credentials (client : OAuthClientRow) (ctx : RequestContext) : M () :=
  _ ← recordClientAuthFailure (c_id client) ctx;
  Throw (OAuthTokenError 401 "invalid_client" "Invalid client credentials").

(** [!presentedSecret || !(await verifySecret(client, presentedSecret))] *)
Definition require_secret (client : OAuthClientRow) (presentedSecret : option string)
    (ctx : RequestContext) : M () :=
  match truthy presentedSecret with
  | None => invalid_credentials client ctx
  | Some secret =>
      ok ← ClientRepository.verifySecret client secret;
      if (ok : bool) then mret () else invalid_credentials client ctx
  end.

(** The authentication of the code and refresh grants. *)
Definition authenticate_client (client : OAuthClientRow) (presentedSecret : option string)
    (ctx : RequestContext) : M () :=
  if bool_decide (c_client_type client = Confidential)
  then require_secret client presentedSecret ctx
  else match truthy presentedSecret with
       | Some _ => fail "invalid_request" "Public clients must not authenticate"
       | None => mret ()
       end.

(** ** The authorization code grant *)

(** The handler around [peek] and [consume]. *)
Definition on_replay {A} (ctx : RequestContext) (err : Err) : M A :=
  match err with
  | ECodeReplay userId clientRef =>
      _ ← handleCodeReplay userId clientRef ctx;
      fail "invalid_grant" "Authorization code replay detected - issued tokens revoked"
  | _ => Throw err
  end.

Definition invalid_code {A} : M A := fail "invalid_grant" "Invalid or expired authorization code".

(** The exchange of a code by an authenticated client. *)
Definition exchange (client : OAuthClientRow) (clientId code redirect_uri code_verifier : string)
    (ctx : RequestContext) : M TokenResponse :=
  peeked ← catch (on_replay ctx) (AuthorizationCodeRepository.peek code clientId redirect_uri);
  match peeked with
  | None => invalid_code
  | Some peeked =>
      match truthy (ac_code_challenge peeked) with
      | None => fail "invalid_grant" "Code was issued without PKCE"
      | Some challenge =>
          if negb (PkceUtil.matches code_verifier challenge (ac_code_challenge_method peeked))
          then fail "invalid_grant" "PKCE verification failed"
          else
            codeRow ← catch (on_replay ctx) (AuthorizationCodeRepository.consume code clientId redirect_uri);
            match codeRow with
            | None => invalid_code
            | Some row => issueUserTokens (ac_user_id row) client (ac_scope row) (ac_nonce row) ctx
            end
      end
  end.

Definition code_grant (form : TokenForm) (client : OAuthClientRow) (clientId : string)
    (presentedSecret : option string) (ctx : RequestContext) : M TokenResponse :=
  match truthy (tf_code form), truthy (tf_redirect_uri form), truthy (tf_code_verifier form) with
  | None, _, _ => fail "invalid_request" "code is required"
  | _, None, _ => fail "invalid_request" "redirect_uri is required"
  | _, _, None => fail "invalid_request" "PKCE code_verifier is required"
  | Some code, Some uri, Some verifier =>
      _ ← authenticate_client client presentedSecret ctx;
      exchange client clientId code uri verifier ctx
  end.

(** ** The refresh grant *)

(** The handler around [consume]. *)
Definition refresh_failed {A} (client : OAuthClientRow) (ctx : RequestContext) (err : Err) : M A :=
  if instanceof_AuthError err && bool_decide (err_code err = Some "REFRESH_TOKEN_REUSE") then
    _ ← audit_record (event AuditEventType.REFRESH_TOKEN_REUSE_DETECTED None None ctx false
          (Some [("kind", JStr "oauth_refresh_reuse"); ("client_id", JStr (c_client_id client))]));
    Throw (OAuthTokenError 401 "invalid_grant" "Refresh token reuse detected - chain revoked")
  else if instanceof_AuthError err && bool_decide (err_code err = Some "INVALID_REFRESH_TOKEN")
  then Throw (OAuthTokenError 401 "invalid_grant" "Invalid or expired refresh token")
  else Throw err.

(** The scope of the answer: the requested one when it narrows the grant. *)
Definition narrowed (form_scope : option string) (granted : string) : option string :=
  let requested := scope_list (default "" form_scope) in
  if existsb (λ s, negb (includes (scope_list granted) s)) requested then None
  else Some (match requested with [] => granted | _ => js_join " " requested end).

Definition refreshed (form : TokenForm) (client : OAuthClientRow) (c : Consumed)
    (ctx : RequestContext) : M TokenResponse :=
  let row := co_row c in
  match narrowed (tf_scope form) (rt_scope row) with
  | None => fail "invalid_scope" "Scope exceeds original grant"
  | Some scope =>
      roles ← UserRepository.rolesOf (rt_user_id row);
      permissions ← UserRepository.permissionsOf (rt_user_id row);
      signed ← JwtService.signAccessToken app_jwt_options
        (mkTokenInput (rt_user_id row) scope (Some roles) (Some permissions) (Some (rt_session_id row))
           (Some (c_client_id client)) (Some ["oauth"])) None;
      _ ← audit_record (event AuditEventType.TOKEN_ISSUED (Some (rt_user_id row)) (Some (c_id client))
            ctx false (Some [("grant", JStr "refresh_token"); ("scope", JStr scope)]));
      exp ← expires_in signed;
      mret (mkTokenResponse (sg_token signed) exp (Some (co_nextToken c)) scope None)
  end.

Definition refresh_grant (form : TokenForm) (client : OAuthClientRow)
    (presentedSecret : option string) (ctx : RequestContext) : M TokenResponse :=
  match truthy (tf_refresh_token form) with
  | None => fail "invalid_request" "refresh_token is required"
  | Some token =>
      _ ← authenticate_client client presentedSecret ctx;
      c ← catch (refresh_failed client ctx) (consume token);
      if negb (bool_decide (rt_client_id (co_row c) = Some (c_id client))) then
        _ ← revokeByToken token;
        _ ← audit_record (event AuditEventType.REFRESH_TOKEN_REUSE_DETECTED
              (Some (rt_user_id (co_row c))) None ctx false (Some [("kind", JStr "client_mismatch")]));
        Throw (OAuthTokenError 401 "invalid_grant" "Token was not issued to this client")
      else
        session ← SessionRepository.findById (rt_session_id (co_row c));
        if match session with Some s => bool_decide (s_status s = SActive) | None => false end
        then refreshed form client c ctx
        else
          _ ← revokeFamily (rt_family_id (co_row c));
          Throw (OAuthTokenError 401 "invalid_grant" "Session is no longer active")
  end.

(** ** The client credentials grant *)

(** The checks after authentication; the scope granted. *)
Definition client_scope (form : TokenForm) (client : OAuthClientRow) : outcome Err string :=
  let requested := scope_list (default "" (tf_scope form)) in
  if negb (includes (c_grant_types client) "client_credentials")
  then Rejected (OAuthTokenError 401 "unauthorized_client" "Grant type not allowed for this client")
  else if bool_decide (requested = [])
  then Rejected (OAuthTokenError 400 "invalid_scope" "scope is required")
  else if negb (forallb (includes (c_allowed_scopes client)) requested)
  then Rejected (OAuthTokenError 400 "invalid_scope" "Requested scope exceeds allowance")
  else Resolved (js_join " " requested).

Definition client_grant (form : TokenForm) (client : OAuthClientRow)
    (presentedSecret : option string) (ctx : RequestContext) : M TokenResponse :=
  if bool_decide (c_client_type client = Public)
  then Throw (OAuthTokenError 401 "unauthorized_client" "Public clients cannot use client_credentials")
  else if bool_decide (c_token_endpoint_auth_method client = NoAuth)
  then Throw (OAuthTokenError 401 "unauthorized_client"
                "This client is not configured for secret authentication")
  else
    _ ← require_secret client presentedSecret ctx;
    match client_scope form client with
    | Rejected e => Throw e
    | Resolved scope =>
        signed ← JwtService.signAccessToken app_jwt_options
          (mkTokenInput (c_client_id client) scope (Some ["service"]) None None
             (Some (c_client_id client)) (Some ["client_secret"])) None;
        _ ← audit_record (event AuditEventType.TOKEN_ISSUED None (Some (c_id client)) ctx false
              (Some [("grant", JStr "client_credentials"); ("scope", JStr scope)]));
        exp ← expires_in signed;
        mret (mkTokenResponse (sg_token signed) exp None scope None)
    end.

(** ** The token endpoint *)

Definition token (form : TokenForm) (basicAuth : option (string * string)) (ctx : RequestContext)
    : M TokenResponse :=
  let clientId := match basicAuth with Some (id, _) => Some id | None => tf_client_id form end in
  let presentedSecret :=
    match basicAuth with Some (_, secret) => Some secret | None => tf_client_secret form end in
  match truthy clientId with
  | None => Throw (OAuthTokenError 401 "invalid_client" "Client authentication required")
  | Some clientId =>
      client ← ClientRepository.findByClientId clientId;
      match client with
      | None => Throw (OAuthTokenError 401 "invalid_client" "Invalid client")
      | Some client =>
          if negb (bool_decide (c_status client = CliActive))
          then Throw (OAuthTokenError 401 "invalid_client" "Invalid client")
          else if bool_decide (tf_grant_type form = "authorization_code")
          then code_grant form client clientId presentedSecret ctx
          else if bool_decide (tf_grant_type form = "refresh_token")
          then refresh_grant form client presentedSecret ctx
          else if bool_decide (tf_grant_type form = "client_credentials")
          then client_grant form client presentedSecret ctx
          else fail "unsupported_grant_type" "Unsupported grant_type"
      end
  end.

(** ** Introspection and revocation *)

Definition verify (token : string) : M Claims :=
  JwtService.verifyAccessToken app_jwt_options app_checker token.

(** [None] stands for the answer [{ active: false }]. *)
Definition introspect (token : string) : M (option Introspection) :=
  catch (λ _, mret None)
    (payload ← verify token;
     mret (Some (mkIntrospection (cl_sub payload) (cl_scope payload) (cl_exp payload) (cl_iat payload)
                   (cl_aud payload ≫= head) (cl_iss payload) (cl_jti payload) (cl_client_id payload)))).

(** [payload.jti && payload.exp] *)
Definition denylist (payload : Claims) : M () :=
  match truthy (cl_jti payload), cl_exp payload with
  | Some jti, Some exp =>
      if bool_decide (exp = 0) then mret () else TokenRevocationService.revokeUntil jti exp
  | _, _ => mret ()
  end.

Definition revoke (token : string) (ctx : RequestContext) : M () :=
  wasRefresh ← revokeByToken token;
  if (wasRefresh : bool) then
    audit_record (event AuditEventType.TOKEN_REVOKED None None ctx false
      (Some [("kind", JStr "refresh_token")]))
  else
    catch (λ _, mret ())
      (payload ← verify token;
       _ ← match truthy (cl_sid payload) with
           | Some sid => SessionRepository.revoke sid "token_revocation"
           | None => mret ()
           end;
       _ ← denylist payload;
       audit_record (event AuditEventType.TOKEN_REVOKED (cl_sub payload) None ctx false
         (Some [("kind", JStr "access_token")]))).
End service.
End OAuthService.

(** * Steps of the store *)

Section evolution.
Context `{P : Platform, K : KeyManagementService, J : Jose, U : UrlApi, KL : !KmsLaws K}.
Import OAuthService.

Lemma issue_code_step i u s ctx : respects step (issue_code i u s ctx).
Proof. unfold issue_code. respects_step. Qed.
Lemma denied_step u r c ctx : respects step (denied u r c ctx).
Proof. apply audit_record_step. Qed.
#[local] Hint Resolve issue_code_step denied_step : steps.
Lemma authorize_step i u s ctx : respects step (authorize i u s ctx).
Proof.
  unfold authorize, fail. apply respects_bind; [respects_step|intros [client|]; [|done]].
  destruct (negb _); [respects_step|]. destruct (negb _); [respects_step|].
  destruct (request_error _ _ _); respects_step.
Qed.

Lemma id_token_step u c s n : respects step (id_token_for u c s n).
Proof. unfold id_token_for. respects_step. Qed.
#[local] Hint Resolve id_token_step : steps.
Lemma issueUserTokens_step u c s n ctx : respects step (issueUserTokens u c s n ctx).
Proof.
  unfold issueUserTokens, expires_in. respects_step.
Qed.
#[local] Hint Resolve issueUserTokens_step : steps.

Lemma require_secret_step c s ctx : respects step (require_secret c s ctx).
Proof. unfold require_secret, invalid_credentials, recordClientAuthFailure. respects_step. Qed.
#[local] Hint Resolve require_secret_step : steps.
Lemma authenticate_client_step c s ctx : respects step (authenticate_client c s ctx).
Proof. unfold authenticate_client, fail. respects_step. Qed.
Lemma on_replay_step {A} ctx e : respects step (on_replay ctx e : M A).
Proof. unfold on_replay, handleCodeReplay, fail. respects_step. Qed.
#[local] Hint Resolve authenticate_client_step on_replay_step : steps.
Lemma exchange_step c i code uri v ctx : respects step (exchange c i code uri v ctx).
Proof. unfold exchange, invalid_code, fail. respects_step. Qed.

Lemma oauth_refreshed_step f c co ctx : respects step (refreshed f c co ctx).
Proof. unfold refreshed, fail, expires_in. respects_step. Qed.
Lemma oauth_refresh_failed_step {A} c ctx e : respects step (refresh_failed c ctx e : M A).
Proof. unfold refresh_failed. destruct (_ && _); [respects_step|]. by destruct (_ && _). Qed.
#[local] Hint Resolve exchange_step oauth_refreshed_step oauth_refresh_failed_step : steps.

Lemma code_grant_step f c i s ctx : respects step (code_grant f c i s ctx).
Proof. unfold code_grant, fail. respects_step. Qed.
Lemma refresh_grant_step f c s ctx : respects step (refresh_grant f c s ctx).
Proof. unfold refresh_grant, fail. respects_step. Qed.
Lemma client_grant_step f c s ctx : respects step (client_grant f c s ctx).
Proof. unfold client_grant, expires_in. respects_step. Qed.
#[local] Hint Resolve code_grant_step refresh_grant_step client_grant_step : steps.
Lemma token_step f b ctx : respects step (token f b ctx).
Proof. unfold token, fail. respects_step. Qed.
Lemma introspect_step t : respects step (introspect t).
Proof. unfold introspect, verify. respects_step. Qed.
Lemma oauth_revoke_step t ctx : respects step (revoke t ctx).
Proof. unfold revoke, verify, denylist. respects_step. Qed.
End evolution.
#[export] Hint Resolve authorize_step token_step introspect_step oauth_revoke_step : steps.
