(* ===== verification/OAuthFlow.v ===== *)
(** What the OAuth endpoints of src/modules/oauth/oauth.service.ts guarantee:
    authorization requests, the exchange of codes, replays. *)
From S2P Require Import Prelude Async JsString Errors Store Evolution Toy Redis AuditLog RefreshTokens Sessions Users Keys Jwt Clients Codes OAuth.
From stdpp Require Import base gmap strings list relations.
From Stdlib Require Import ZArith Ascii.
Local Open Scope string_scope.
Local Open Scope list_scope.
Local Open Scope Z_scope.

Import OAuthService.

Section flow.
Context `{P : Platform, K : KeyManagementService, J : Jose, U : UrlApi, KL : !KmsLaws K}.

(** * Client authentication *)

(** The client proved who it is: a confidential one by its secret, a public
    one by sending none. *)
Definition authenticated (client : OAuthClientRow) (secret : option string) : Prop :=
  match c_client_type client with
  | Confidential => ∃ s h, truthy secret = Some s ∧ truthy (c_client_secret_hash client) = Some h ∧
                           argon2_verify h s = Some true
  | Public => truthy secret = None
  end.

Lemma invalid_credentials_throws client ctx w r w' :
  run (invalid_credentials client ctx) w ≠ (Resolved r, w').
Proof. unfold invalid_credentials, recordClientAuthFailure. by erewrite run_bind_eq by apply run_audit_record. Qed.

Lemma require_secret_inv client secret ctx w r w' :
  run (require_secret client secret ctx) w = (Resolved r, w') →
  w' = w ∧ ∃ s h, truthy secret = Some s ∧ truthy (c_client_secret_hash client) = Some h ∧
                  argon2_verify h s = Some true.
Proof.
  unfold require_secret. destruct (truthy secret) as [s|]; cycle 1.
  { intros H. by apply invalid_credentials_throws in H. }
  unfold ClientRepository.verifySecret. destruct (truthy (c_client_secret_hash client)) as [h|]; cycle 1.
  { cbn [mbind async_bind abind mret async_ret]. intros H. by apply invalid_credentials_throws in H. }
  destruct (argon2_verify h s) as [[]|] eqn:Hv; [| |done].
  - intros [= _ <-]. split; [done|]. by exists s, h.
  - intros H. by apply invalid_credentials_throws in H.
Qed.

Lemma authenticate_inv client secret ctx w r w' :
  run (authenticate_client client secret ctx) w = (Resolved r, w') →
  w' = w ∧ authenticated client secret.
Proof.
  unfold authenticate_client, authenticated. case_bool_decide as Hc.
  - rewrite Hc. apply require_secret_inv.
  - destruct (c_client_type client); [done|]. destruct (truthy secret); [done|]. by intros [= _ <-].
Qed.

Lemma run_authenticate_client client secret ctx w :
  authenticated client secret → run (authenticate_client client secret ctx) w = (Resolved (), w).
Proof.
  unfold authenticate_client, authenticated. destruct (c_client_type client).
  - intros (s & h & Hs & Hh & Hv). simpl. unfold require_secret. rewrite Hs.
    unfold ClientRepository.verifySecret. by rewrite Hh, Hv.
  - intros Hs. simpl. by rewrite Hs.
Qed.

(** * The token endpoint *)

(** Whom a request claims to come from, and its secret. *)
Definition claimed_client (form : TokenForm) (basic : option (string * string)) : option string :=
  truthy (match basic with Some (id, _) => Some id | None => tf_client_id form end).
Definition presented_secret (form : TokenForm) (basic : option (string * string)) : option string :=
  match basic with Some (_, secret) => Some secret | None => tf_client_secret form end.

(** The request names an active client. *)
Record names_client (form : TokenForm) (basic : option (string * string)) (client : OAuthClientRow)
    (w : World) : Prop := mk_names_client {
  nc_claimed : claimed_client form basic = Some (c_client_id client);
  nc_found : client_by_id (c_client_id client) w = Some client;
  nc_active : c_status client = CliActive;
}.

Definition grant_of (form : TokenForm) (client : OAuthClientRow) (secret : option string)
    (ctx : RequestContext) : M TokenResponse :=
  if bool_decide (tf_grant_type form = "authorization_code")
  then code_grant form client (c_client_id client) secret ctx
  else if bool_decide (tf_grant_type form = "refresh_token") then refresh_grant form client secret ctx
  else if bool_decide (tf_grant_type form = "client_credentials") then client_grant form client secret ctx
  else fail "unsupported_grant_type" "Unsupported grant_type".

Lemma run_token form basic ctx client w :
  names_client form basic client w →
  run (token form basic ctx) w = run (grant_of form client (presented_secret form basic) ctx) w.
Proof.
  intros [Hc Hf Ha]. unfold token. fold (claimed_client form basic). rewrite Hc.
  unfold ClientRepository.findByClientId. erewrite run_bind_eq by reflexivity. cbv beta.
  unfold client_by_id in Hf. rewrite Hf, bool_decide_eq_true_2 by done. done.
Qed.

Lemma token_inv form basic ctx w r w' :
  run (token form basic ctx) w = (Resolved r, w') →
  ∃ client, names_client form basic client w ∧
    run (grant_of form client (presented_secret form basic) ctx) w = (Resolved r, w').
Proof.
  intros H. unfold token in H. fold (claimed_client form basic) in H.
  destruct (claimed_client form basic) as [id|] eqn:Hc; [|done].
  unfold ClientRepository.findByClientId in H. erewrite run_bind_eq in H by reflexivity. cbv beta in H.
  destruct (sql_first _ _) as [client|] eqn:Hf; [|done].
  case_bool_decide as Ha; [|done]. cbn [negb] in H.
  apply sql_first_Some in Hf as Hid. cbv beta in Hid. destruct Hid as [Hid _].
  exists client. split; [|by rewrite <- Hid in H]. split; [by rewrite Hid|by rewrite Hid|done].
Qed.

(** * Tokens of a user *)

(** Roles and permissions at a moment. *)
Definition roles_at (userId : string) (d : Db) : list string :=
  order_by_name (UserRepository.roles_joined userId d).
Definition permissions_at (userId : string) (d : Db) : list string :=
  order_by_name (remove_dups (UserRepository.permissions_joined userId d)).

(** A signed access token of the client for the user. *)
Definition user_access_token (token userId scope sessionId : string) (client : OAuthClientRow)
    (d : Db) (now : Z) : Prop :=
  ∃ kid priv jti,
    token = SignJWT kid (JwtService.access_claims app_jwt_options
      (mkTokenInput userId scope (Some (roles_at userId d)) (Some (permissions_at userId d))
         (Some sessionId) (Some (c_client_id client)) (Some ["oauth"]))
      (now / 1000) (ACCESS_TOKEN_TTL cfg) jti) priv.

(** The answer of [issueUserTokens]: a new session of the user with the
    client, an access token for it and a refresh token bound to both. *)
Record granted_tokens (userId scope : string) (client : OAuthClientRow) (r : TokenResponse)
    (now : Z) (d d' : Db) : Prop := mk_granted {
  gt_scope : tr_scope r = scope;
  gt_codes : authorization_codes d' = authorization_codes d;
  gt_session : ∃ s, sessions d' = sessions d ++ [s] ∧ s_user_id s = userId ∧
    s_client_id s = Some (c_id client) ∧ s_status s = SActive ∧
    user_access_token (tr_access_token r) userId scope (s_id s) client d now ∧
    ∃ row t, tr_refresh_token r = Some t ∧ refresh_tokens d' = refresh_tokens d ++ [row] ∧
      rt_token_hash row = rt_hash t ∧ rt_status_ row = RActive ∧ rt_session_id row = s_id s ∧
      rt_user_id row = userId ∧ rt_client_id row = Some (c_id client) ∧ rt_scope row = scope;
}.

Lemma id_token_frame u c s n : respects key_step (id_token_for u c s n).
Proof.
  unfold id_token_for. destruct (str_includes _ _); [|done].
  apply respects_bind; [by apply respects_reads, _|intros user].
  apply respects_bind; [|done]. apply respects_bind; [apply kms_current_frame|intros sk].
  apply respects_bind; [apply now_key_step|done].
Qed.

Lemma issueUserTokens_inv userId client scope nonce ctx w r w' :
  run (issueUserTokens userId client scope nonce ctx) w = (Resolved r, w') →
  granted_tokens userId scope client r (w_now w) (w_db w) (w_db w').
Proof.
  unfold issueUserTokens. do 2 (erewrite run_bind_eq by reflexivity). cbv beta.
  intros (s & w1 & Hs & (sg & w2 & Hsg & ([t e] & w3 & Hi & (idt & w4 & Hid & H)%run_bind_resolved)
    %run_bind_resolved)%run_bind_resolved)%run_bind_resolved.
  unfold SessionRepository.create in Hs. rewrite run_attempt in Hs.
  unfold SessionRepository.insert in Hs. case_decide; [done|]. injection Hs as <- <-.
  destruct (sign_inv _ _ _ _ _ _ Hsg) as (kid & priv & Htok & _ & Hn2).
  destruct (issue_inv _ _ _ _ _ Hi) as (row & Hdb3 & Hh & Hst & _ & Hsid & Hu & Hc & Hsc & _ & _).
  pose proof (respects_run key_step _ w3 (id_token_frame userId client scope nonce)) as [Hn4 _].
  rewrite Hid in Hn4. cbn [snd] in Hn4.
  assert (Hdb4 : w_db w4 = w_db w3) by exact (f_equal (λ v, v.1.1.2) Hn4).
  assert (Hdb2 := f_equal (λ v, v.1.1.2) Hn2). cbn in Hdb2.
  erewrite run_bind_eq in H by apply run_audit_record.
  erewrite run_bind_eq in H by reflexivity. injection H as <- <-.
  split; [done|by simpl; rewrite Hdb4, Hdb3, Hdb2|].
  eexists. split; [by simpl; rewrite Hdb4, Hdb3, Hdb2|]. split; [done|]. split; [done|]. split; [done|].
  split; [by exists kid, priv, (sg_jti sg)|]. exists row, t. cbn [tr_refresh_token fst]. split; [done|].
  split; [by simpl; rewrite Hdb4, Hdb3, Hdb2|]. by split_and!.
Qed.

(** * The code grant *)

(** The verifier answers the challenge the code was issued for. *)
Definition pkce_ok (verifier : string) (row : AuthorizationCodeRow) : Prop :=
  ∃ challenge, truthy (ac_code_challenge row) = Some challenge ∧
    PkceUtil.matches verifier challenge (ac_code_challenge_method row) = true.

(** The fields of a code request. *)
Record code_request (form : TokenForm) (code uri verifier : string) : Prop := mk_code_request {
  cr_grant : tf_grant_type form = "authorization_code";
  cr_code : truthy (tf_code form) = Some code;
  cr_uri : truthy (tf_redirect_uri form) = Some uri;
  cr_verifier : truthy (tf_code_verifier form) = Some verifier;
}.

Lemma run_code_grant form code uri verifier client secret ctx w :
  code_request form code uri verifier → authenticated client secret →
  run (grant_of form client secret ctx) w
    = run (exchange client (c_client_id client) code uri verifier ctx) w.
Proof.
  intros [Hg Hc Hu Hv] Ha. unfold grant_of. rewrite Hg. unfold code_grant.
  rewrite bool_decide_eq_true_2, Hc, Hu, Hv by done.
  by rewrite (run_bind_eq _ _ _ _ _ (run_authenticate_client client secret ctx w Ha)).
Qed.

Lemma code_grant_inv form client secret ctx w r w' :
  tf_grant_type form = "authorization_code" →
  run (grant_of form client secret ctx) w = (Resolved r, w') →
  authenticated client secret ∧ ∃ code uri verifier, code_request form code uri verifier ∧
    run (exchange client (c_client_id client) code uri verifier ctx) w = (Resolved r, w').
Proof.
  intros Hg. unfold grant_of, code_grant. rewrite bool_decide_eq_true_2 by done.
  destruct (truthy (tf_code form)) as [code|] eqn:Hc; [|done].
  destruct (truthy (tf_redirect_uri form)) as [uri|] eqn:Hu; [|done].
  destruct (truthy (tf_code_verifier form)) as [verifier|] eqn:Hv; [|done].
  intros ([] & w1 & Ha & H)%run_bind_resolved. apply authenticate_inv in Ha as [-> Ha].
  split; [done|]. by exists code, uri, verifier.
Qed.

(** Exchanging a presentable code. *)
Lemma run_exchange_presentable client owner code uri verifier row ctx w :
  codes_unique w → stored_code code row owner w →
  presentable row owner (c_client_id client) uri (w_now w) →
  run (exchange client (c_client_id client) code uri verifier ctx) w =
    match truthy (ac_code_challenge row) with
    | None => (Rejected (OAuthTokenError 400 "invalid_grant" "Code was issued without PKCE"), w)
    | Some challenge =>
        if PkceUtil.matches verifier challenge (ac_code_challenge_method row)
        then run (issueUserTokens (ac_user_id row) client (ac_scope row) (ac_nonce row) ctx) (used row w)
        else (Rejected (OAuthTokenError 400 "invalid_grant" "PKCE verification failed"), w)
    end.
Proof.
  intros Hu Hs Hp. unfold exchange. erewrite run_bind_eq; cycle 1.
  { rewrite run_catch. unfold AuthorizationCodeRepository.peek.
    by rewrite (run_bind_eq _ _ _ _ _ (run_present_ok _ _ _ _ _ _ Hu Hs Hp)). }
  cbv beta iota. cbn [fst]. destruct (truthy _) as [challenge|]; [|done].
  destruct (PkceUtil.matches _ _ _); [|done]. cbn [negb].
  erewrite run_bind_eq; cycle 1.
  { rewrite run_catch. by rewrite (run_code_consume _ _ _ _ _ _ Hu Hs Hp). }
  done.
Qed.

Lemma exchange_inv client code uri verifier ctx w r w' :
  codes_unique w →
  run (exchange client (c_client_id client) code uri verifier ctx) w = (Resolved r, w') →
  ∃ row owner, stored_code code row owner w ∧ presentable row owner (c_client_id client) uri (w_now w) ∧
    pkce_ok verifier row ∧
    run (issueUserTokens (ac_user_id row) client (ac_scope row) (ac_nonce row) ctx) (used row w)
      = (Resolved r, w').
Proof.
  intros Hu H. pose proof H as H0. unfold exchange in H.
  apply run_bind_resolved in H as (peeked & w1 & Hp & H). rewrite run_catch in Hp.
  assert (∃ row ref, run (AuthorizationCodeRepository.present code (c_client_id client) uri) w
    = (Resolved (Some (row, ref)), w)) as (row & ref & Hpres).
  { unfold AuthorizationCodeRepository.peek in Hp. rewrite run_bind in Hp.
    pose proof (keeps_run (λ v : World, v) _ w (present_keeps code (c_client_id client) uri)) as Hk.
    destruct (run (AuthorizationCodeRepository.present _ _ _) w) as [[e|[[row ref]|]] w2] eqn:E.
    - exfalso. destruct e as [a|u c|m|a b c]; done.
    - exists row, ref. cbn [snd] in Hk. by subst.
    - injection Hp as <- <-. done. }
  destruct (present_inv _ _ _ _ _ _ _ Hpres) as (_ & _ & owner & Hs & Hpr).
  exists row, owner. split; [done|]. split; [done|].
  rewrite (run_exchange_presentable client owner code uri verifier row) in H0 by done.
  destruct (truthy (ac_code_challenge row)) as [challenge|] eqn:Hch; [|done].
  destruct (PkceUtil.matches verifier challenge _) eqn:Hm; [|done].
  split; [by exists challenge|done].
Qed.

(** C12: Tokens are issued for an authorization code only to the client it was
    issued to, authenticated, for the redirect URI it is bound to, within its
    life time, with the PKCE verifier of its challenge; they are for the user
    and the scope of the code, which cannot be used again. *)
Theorem code_grant_sound (form : TokenForm) (basic : option (string * string)) (ctx : RequestContext)
    (w w' : World) (r : TokenResponse) :
  codes_unique w → NoDup (c_client_id <$> oauth_clients (w_db w)) →
  tf_grant_type form = "authorization_code" → run (token form basic ctx) w = (Resolved r, w') →
  ∃ client code uri verifier row, names_client form basic client w ∧
    authenticated client (presented_secret form basic) ∧ code_request form code uri verifier ∧
    stored_code code row client w ∧ presentable row client (c_client_id client) uri (w_now w) ∧
    pkce_ok verifier row ∧
    granted_tokens (ac_user_id row) (ac_scope row) client r (w_now w) (w_db (used row w)) (w_db w') ∧
    ∀ x, x ∈ code_table w' → ac_code_hash x = AuthorizationCodeRepository.hash code →
         ac_consumed_at x ≠ None.
Proof.
  intros Hu Hcl Hg (client & Hn & H)%token_inv.
  destruct (code_grant_inv _ _ _ _ _ _ _ Hg H) as (Ha & code & uri & verifier & Hreq & Hx).
  destruct (exchange_inv _ _ _ _ _ _ _ _ Hu Hx) as (row & owner & Hs & Hp & Hpk & Hi).
  assert (owner = client) as ->.
  { apply (unique_row c_client_id (oauth_clients (w_db w))); [done|apply Hs| |apply Hp].
    destruct (sql_first_Some _ _ _ (nc_found _ _ _ _ Hn)) as [_ Hin]. exact Hin. }
  apply issueUserTokens_inv in Hi as Hgt.
  exists client, code, uri, verifier, row. do 7 (split; [done|]).
  intros x. unfold code_table. rewrite (gt_codes _ _ _ _ _ _ _ Hgt).
  intros (x0 & Hx0 & ->)%elem_of_update. unfold sql_set. case_decide as Hd; [done|].
  intros Hh Hnone. apply Hd. split; [|done]. f_equal.
  apply (unique_row ac_code_hash (code_table w)); [apply Hu|done|apply Hs|].
  by rewrite (stored_hash _ _ _ _ Hs).
Qed.

(** A wrong PKCE verifier obtains nothing and burns nothing: the code stays
    usable by its client. *)
Theorem pkce_protects_code (form : TokenForm) (basic : option (string * string)) (ctx : RequestContext)
    (client owner : OAuthClientRow) (code uri verifier challenge : string) (row : AuthorizationCodeRow)
    (w : World) :
  codes_unique w → names_client form basic client w →
  authenticated client (presented_secret form basic) → code_request form code uri verifier →
  stored_code code row owner w → presentable row owner (c_client_id client) uri (w_now w) →
  truthy (ac_code_challenge row) = Some challenge →
  PkceUtil.matches verifier challenge (ac_code_challenge_method row) = false →
  run (token form basic ctx) w
    = (Rejected (OAuthTokenError 400 "invalid_grant" "PKCE verification failed"), w).
Proof.
  intros Hu Hn Ha Hreq Hs Hp Hch Hm. rewrite (run_token _ _ _ client) by done.
  rewrite (run_code_grant _ code uri verifier) by done.
  by rewrite (run_exchange_presentable client owner code uri verifier row), Hch, Hm.
Qed.

(** ** Replays *)

(** The subquery names the tokens of one client. *)
Lemma token_of_client_iff client d r :
  NoDup (c_client_id <$> oauth_clients d) → client ∈ oauth_clients d →
  AuthorizationCodeRepository.token_of_client (c_client_id client) d r ↔ rt_client_id r = Some (c_id client).
Proof.
  intros Hu Hin. unfold AuthorizationCodeRepository.token_of_client. destruct (rt_client_id r) as [id|]; [|done].
  rewrite list_elem_of_fmap. setoid_rewrite elem_of_select. split.
  - intros (c & -> & Hc & Hcin). by rewrite (unique_row c_client_id (oauth_clients d) c client).
  - intros [= ->]. by exists client.
Qed.

(** C14: Presenting a used code again is refused, leaves a trace and revokes every
    refresh token its user has with its client. No other token changes, neither
    another user's nor one that the user has with another client or with none,
    and no session does. *)
Theorem code_replay_revokes (form : TokenForm) (basic : option (string * string)) (ctx : RequestContext)
    (client : OAuthClientRow) (code uri verifier : string) (row : AuthorizationCodeRow) (w : World) :
  codes_unique w → names_client form basic client w →
  authenticated client (presented_secret form basic) → code_request form code uri verifier →
  stored_code code row client w → ac_redirect_uri row = uri → is_Some (ac_consumed_at row) →
  NoDup (c_client_id <$> oauth_clients (w_db w)) →
  ∃ w' e, run (token form basic ctx) w
    = (Rejected (OAuthTokenError 400 "invalid_grant"
                   "Authorization code replay detected - issued tokens revoked"), w') ∧
    audit_logs (w_db w') = audit_logs (w_db w) ++ [e] ∧
    al_event_type e = AuditEventType.REFRESH_TOKEN_REUSE_DETECTED ∧
    al_user_id e = Some (ac_user_id row) ∧
    (∀ r, r ∈ refresh_tokens (w_db w') → rt_user_id r = ac_user_id row →
          rt_client_id r = Some (c_id client) → rt_status_ r = RRevoked) ∧
    (∀ r, rt_user_id r ≠ ac_user_id row ∨ rt_client_id r ≠ Some (c_id client) →
          (r ∈ refresh_tokens (w_db w') ↔ r ∈ refresh_tokens (w_db w))) ∧
    sessions (w_db w') = sessions (w_db w).
Proof.
  intros Hu Hn Ha Hreq Hs Huri [t Ht] Hcl.
  pose proof (token_of_client_iff client (w_db w)) as Hiff. eexists _, _. split.
  { rewrite (run_token _ _ _ client) by done. rewrite (run_code_grant _ code uri verifier) by done.
    unfold exchange. apply run_bind_throw. rewrite run_catch. unfold AuthorizationCodeRepository.peek.
    erewrite run_bind_throw; cycle 1.
    { rewrite (run_present code row client) by done. rewrite decide_False by (by intros []).
      by rewrite Ht. }
    cbv beta. cbn [on_replay]. unfold handleCodeReplay. erewrite run_bind_eq; cycle 1.
    { erewrite run_bind_eq by reflexivity. apply run_audit_record. }
    reflexivity. }
  split; [done|]. split; [done|]. split; [done|]. simpl. split.
  - intros r (r0 & Hr0 & ->)%elem_of_update. unfold sql_set. case_decide as Hd; [done|].
    intros Hru Hrc. destruct (rt_status_ r0) eqn:Est; [| |done]; destruct Hd; split; try done;
      (split; [by apply Hiff; [|apply Hs|]|unfold rt_not_revoked; rewrite Est; auto]).
  - split; [|done]. intros r Hr.
    apply (elem_of_update_other _ _ (λ x, rt_user_id x = ac_user_id row ∧ rt_client_id x = Some (c_id client)));
      [intros r0 (Hru & Hrc & _)..|tauto]; (split; [done|]); apply Hiff in Hrc; (done || apply Hs).
Qed.

(** ** One exchange *)

Lemma on_replay_earns {A} h id ctx n e (Q : nat → A → Prop) :
  earns (known h id) (consumed_count id) Q n (on_replay ctx e).
Proof.
  destruct e as [a|u c|m|a b c]; try done. apply earns_bind.
  apply code_step_earns; [|done]. unfold handleCodeReplay. respects_step.
Qed.

Lemma exchange_earns client clientId code uri verifier ctx id n :
  earns (known (AuthorizationCodeRepository.hash code) id) (consumed_count id) (λ m _, (1 ≤ m)%nat) n
    (exchange client clientId code uri verifier ctx).
Proof.
  unfold exchange. apply earns_bind.
  apply (earns_mono _ _ (λ _ _, True)); [|apply code_step_earns; [|done]; apply respects_catch;
    [apply peek_step|intros; apply on_replay_step]].
  intros m [peeked|] _ _; [|done]. destruct (truthy _); [|done]. destruct (negb _); [done|].
  apply earns_bind. eapply earns_mono; cycle 1.
  - apply earns_catch; [apply consume_once|]. intros m' e. apply on_replay_earns.
  - intros m' [row|] _ Hm; [|done]. apply code_step_earns; [apply issueUserTokens_step|].
    intros m2 _ Hle. specialize (Hm (mk_is_Some _ _ eq_refl)). lia.
Qed.

Lemma token_earns form basic ctx code id :
  tf_grant_type form = "authorization_code" → truthy (tf_code form) = Some code →
  earns (known (AuthorizationCodeRepository.hash code) id) (consumed_count id) (earned (λ _, true)) 0
    (token form basic ctx).
Proof.
  intros Hg Hc. unfold token. fold (claimed_client form basic).
  destruct (claimed_client form basic) as [clientId|] eqn:Hid; [|done].
  apply earns_bind. apply code_step_earns; [apply findByClientId_step|].
  intros m [client|] _; [|done]. destruct (negb _); [done|]. rewrite bool_decide_eq_true_2 by done.
  unfold code_grant. rewrite Hc. destruct (truthy (tf_redirect_uri form)) as [uri|]; [|done].
  destruct (truthy (tf_code_verifier form)) as [verifier|]; [|done]. apply earns_bind.
  apply code_step_earns; [apply authenticate_client_step|]. intros m' _ _.
  eapply earns_mono; [|apply exchange_earns]. by intros m2 r _ Hm _.
Qed.

(** C13: A code is exchanged once. However the requests presenting it interleave
    with each other and with the rest of the system, at most one of them is
    answered with tokens. *)
Theorem code_exchanged_once (code id : string) (env : World → World → Prop)
    (ps ps' : list (M TokenResponse)) (w w' : World) :
  let presents p := ∃ form basic ctx, tf_grant_type form = "authorization_code" ∧
    truthy (tf_code form) = Some code ∧ p = token form basic ctx in
  (∀ v v', env v v' → step v v') → known (AuthorizationCodeRepository.hash code) id w →
  Forall presents ps → rtc (pstep env presents) (ps, w) (ps', w') →
  (winners (λ _, true) ps' ≤ 1)%nat.
Proof.
  intros presents Henv Hk Hps Hsteps.
  assert (Hp : ∀ p, presents p → earns (known (AuthorizationCodeRepository.hash code) id)
    (consumed_count id) (earned (λ _, true)) 0 p).
  { intros p (form & basic & ctx & Hg & Hc & ->). by apply token_earns. }
  destruct (pool_winners (known (AuthorizationCodeRepository.hash code) id) (consumed_count id)
    (λ _, true) env presents (ps, w) (ps', w')) as [Hle Hk']; try done.
  - intros v v' Hv Hkv. apply Henv, step_code in Hv. split; [by eapply known_step|by apply consumed_mono].
  - by eapply Forall_impl.
  - simpl in Hle, Hk'. pose proof (consumed_max _ _ _ Hk'). lia.
Qed.
End flow.
