(* ===== verification/OAuthGrants.v ===== *)
(** What the OAuth endpoints guarantee, continued: authorization requests, the
    refresh and client credentials grants, introspection and revocation. *)
From S2P Require Import Prelude Async JsString Errors Store Evolution Toy Redis AuditLog RefreshTokens Sessions Users Keys Jwt Clients Codes OAuth OAuthFlow.
From stdpp Require Import base gmap strings list relations.
From Stdlib Require Import ZArith Ascii.
Local Open Scope string_scope.
Local Open Scope list_scope.
Local Open Scope Z_scope.

Import OAuthService.

Lemma forallb_includes xs ys : forallb (includes xs) ys = true → ∀ y, y ∈ ys → y ∈ xs.
Proof.
  intros Hall y Hy. apply includes_spec. apply forallb_forall with (x := y) in Hall; [done|].
  by apply list_elem_of_In.
Qed.

(** * The authorization endpoint *)

Section authorize.
Context `{P : Platform, K : KeyManagementService, J : Jose, U : UrlApi, KL : !KmsLaws K}.

(** The row an authorization request becomes. *)
Definition code_row (id code : string) (client : OAuthClientRow) (input : AuthorizeInput)
    (userId : string) (now : Z) : AuthorizationCodeRow :=
  mkAuthorizationCodeRow id (AuthorizationCodeRepository.hash code) (c_id client) userId
    (ai_redirect_uri input) (ai_scope input) (ai_nonce input) (Some (ai_code_challenge input))
    (Some (ai_code_challenge_method input)) (now + AUTHORIZATION_CODE_TTL cfg * 1000) None.

Definition redirect_params (code : string) (state : option string) : list (string * string) :=
  ("code", code) :: match state with Some s => if state_ok s then [("state", s)] else [] | None => [] end.

Lemma issue_code_inv input userId state ctx client w url w' :
  client_by_id (ai_client_id input) w = Some client →
  run (issue_code input userId state ctx) w = (Resolved url, w') →
  ∃ id code, code_table w' = code_table w ++ [code_row id code client input userId (w_now w)] ∧
    includes ["S256"; "plain"] (ai_code_challenge_method input) = true ∧
    url_with_params (ai_redirect_uri input) (redirect_params code state) = Some url.
Proof.
  intros Hc. unfold issue_code, AuthorizationCodeRepository.issue, AuthorizationCodeRepository.newCode, draw.
  intros (code & w1 & Hi & H)%run_bind_resolved.
  erewrite run_bind_eq in Hi by reflexivity. cbv beta in Hi.
  apply run_bind_resolved in Hi as (u & w2 & Hi & Hret). injection Hret as <- <-.
  rewrite run_attempt in Hi. unfold AuthorizationCodeRepository.insert in Hi. cbn [ic_clientId] in Hi.
  unfold client_by_id in Hc. simpl in Hi. rewrite Hc in Hi.
  destruct (includes _ _) eqn:Hm; [|done]. cbn [negb] in Hi. case_decide; [done|].
  injection Hi as _ <-. erewrite run_bind_eq in H by apply run_audit_record.
  change (("code", ?c) :: ?l) with (redirect_params c state) in H.
  destruct (url_with_params _ _) as [url'|] eqn:Hurl; [|done]. injection H as <- <-.
  by eexists _, _.
Qed.

Lemma denied_throws {A} u r c ctx code d w (a : A) w' :
  run (_ ← denied u r c ctx; fail code d) w ≠ (Resolved a, w').
Proof. unfold denied. by erewrite run_bind_eq by apply run_audit_record. Qed.

(** C33: The authorization endpoint gives a code only to an active client, for a
    redirect URI registered for it letter by letter, for scopes it may ask,
    with a well-formed PKCE challenge ([S256] where the client demands it),
    on behalf of an active user; the code is stored hashed, bound to all of
    them, and expires in time. *)
Theorem authorize_sound (input : AuthorizeInput) (user state : option string) (ctx : RequestContext)
    (w w' : World) (url : string) :
  run (authorize input user state ctx) w = (Resolved url, w') →
  ∃ client u id code, client_by_id (ai_client_id input) w = Some client ∧
    c_status client = CliActive ∧ ai_redirect_uri input ∈ c_redirect_uris client ∧
    (∀ s, s ∈ scope_list (ai_scope input) → s ∈ c_allowed_scopes client) ∧
    challenge_ok (ai_code_challenge input) = true ∧
    (ai_code_challenge_method input = "S256" ∨
     ai_code_challenge_method input = "plain" ∧ c_require_pkce client = false) ∧
    truthy user = Some (u_id u) ∧ u ∈ users (w_db w) ∧ u_status u = UActive ∧
    code_table w' = code_table w ++ [code_row id code client input (u_id u) (w_now w)] ∧
    url_with_params (ai_redirect_uri input) (redirect_params code state) = Some url.
Proof.
  unfold authorize, ClientRepository.findByClientId. erewrite run_bind_eq by reflexivity. cbv beta.
  destruct (sql_first _ _) as [client|] eqn:Hc; [|done].
  case_bool_decide as Ha; cbn [negb]; cycle 1.
  { intros H. by apply denied_throws in H. }
  destruct (includes (c_redirect_uris client) _) eqn:Hr; cbn [negb]; cycle 1.
  { intros H. by apply denied_throws in H. }
  unfold request_error. destruct (forallb _ _) eqn:Hs; [|done]. cbn [negb].
  destruct (bool_decide _ && _) eqn:Hp; [done|].
  destruct (challenge_ok _) eqn:Hch; [|done]. cbn [negb].
  destruct (truthy user) as [uid|] eqn:Hu; [|done]. cbv beta iota.
  unfold UserRepository.findById. erewrite run_bind_eq by reflexivity. cbv beta zeta.
  destruct (sql_first _ (users _)) as [u|] eqn:Hf; [|done]. destruct (bool_decide (u_status u = UActive)) eqn:Hst; [|done].
  apply bool_decide_eq_true in Hst. intros H. destruct (issue_code_inv _ _ _ _ client _ _ _ Hc H) as (id & code & Ht & Hm & Hurl).
  apply sql_first_Some in Hf as [Hid Hin]. cbv beta in Hid.
  assert (user = Some uid) as -> by (destruct user as [[]|]; simpl in Hu; congruence).
  simpl in Hid, Ht. exists client, u, id, code. rewrite Hid.
  apply includes_spec in Hr, Hm. split_and!; try done; [by apply forallb_includes|].
  apply andb_false_iff in Hp as [Hp|Hp].
  - apply bool_decide_eq_false in Hp. left. set_solver.
  - apply elem_of_cons in Hm as [->|Hm]; [by left|].
    apply list_elem_of_singleton in Hm as ->. by right.
Qed.
End authorize.

(** * The client credentials grant *)

Section client_credentials.
Context `{P : Platform, K : KeyManagementService, J : Jose, U : UrlApi, KL : !KmsLaws K}.

Lemma client_scope_inv form client scope :
  client_scope form client = Resolved scope →
  "client_credentials" ∈ c_grant_types client ∧ scope_list scope = scope_list (default "" (tf_scope form)) ∧
  scope_list scope ≠ [] ∧ ∀ s, s ∈ scope_list scope → s ∈ c_allowed_scopes client.
Proof.
  unfold client_scope. destruct (includes _ _) eqn:Hg; [|done]. cbn [negb].
  case_bool_decide as Hne; [done|]. destruct (forallb _ _) eqn:Hs; [|done]. cbn [negb].
  intros [= <-]. apply includes_spec in Hg.
  rewrite scope_list_join by apply Forall_plain_scope_list.
  split; [done|]. split; [done|]. split; [done|]. by apply forallb_includes.
Qed.

(** A client acts for itself only when it is a confidential client set up for
    it that presented its secret: it gets an access token for exactly the
    scopes it asked for, all of which it is allowed, as a service with no
    permission of a user, and neither a session nor a refresh token. *)
Theorem client_credentials_sound (form : TokenForm) (basic : option (string * string))
    (ctx : RequestContext) (w w' : World) (r : TokenResponse) :
  tf_grant_type form = "client_credentials" → run (token form basic ctx) w = (Resolved r, w') →
  ∃ client, names_client form basic client w ∧ c_client_type client = Confidential ∧
    c_token_endpoint_auth_method client ≠ NoAuth ∧
    authenticated client (presented_secret form basic) ∧
    "client_credentials" ∈ c_grant_types client ∧
    scope_list (tr_scope r) = scope_list (default "" (tf_scope form)) ∧ scope_list (tr_scope r) ≠ [] ∧
    (∀ s, s ∈ scope_list (tr_scope r) → s ∈ c_allowed_scopes client) ∧
    tr_refresh_token r = None ∧ sessions (w_db w') = sessions (w_db w) ∧
    refresh_tokens (w_db w') = refresh_tokens (w_db w) ∧
    ∃ kid priv jti, tr_access_token r = SignJWT kid (JwtService.access_claims app_jwt_options
      (mkTokenInput (c_client_id client) (tr_scope r) (Some ["service"]) None None
         (Some (c_client_id client)) (Some ["client_secret"]))
      (w_now w / 1000) (ACCESS_TOKEN_TTL cfg) jti) priv.
Proof.
  intros Hg (client & Hn & H)%token_inv. unfold grant_of in H. rewrite Hg in H.
  change (run (client_grant form client (presented_secret form basic) ctx) w = (Resolved r, w')) in H.
  unfold client_grant in H. case_bool_decide as Hpub; [done|]. case_bool_decide as Hna; [done|].
  apply run_bind_resolved in H as ([] & w1 & Hsec & H).
  apply require_secret_inv in Hsec as [-> Hsec].
  destruct (client_scope form client) as [e|scope] eqn:Hsc; [done|].
  apply run_bind_resolved in H as (sg & w2 & Hsg & H).
  destruct (sign_inv _ _ _ _ _ _ Hsg) as (kid & priv & Htok & _ & Hnk).
  assert (Hdb : w_db w2 = w_db w) by exact (f_equal (λ v, v.1.1.2) Hnk).
  erewrite run_bind_eq in H by apply run_audit_record.
  erewrite run_bind_eq in H by reflexivity. injection H as <- <-.
  destruct (client_scope_inv _ _ _ Hsc) as (Hgt & Hsl & Hne & Hall).
  exists client. cbn [tr_scope tr_refresh_token tr_access_token]. split; [done|].
  assert (c_client_type client = Confidential) as Hconf by by destruct (c_client_type client).
  split; [done|]. split; [done|]. split; [unfold authenticated; by rewrite Hconf|].
  do 5 (split; [done|]). split; [by simpl; rewrite Hdb|]. split; [by simpl; rewrite Hdb|].
  by exists kid, priv, (sg_jti sg).
Qed.
End client_credentials.

(** * The refresh grant *)

Section refresh.
Context `{P : Platform, K : KeyManagementService, J : Jose, U : UrlApi, KL : !KmsLaws K}.
Context `{PL : !PlatformLaws P}.

(** The fields of a refresh request. *)
Record refresh_request (form : TokenForm) (token : string) : Prop := mk_refresh_request {
  rr_grant : tf_grant_type form = "refresh_token";
  rr_token : truthy (tf_refresh_token form) = Some token;
}.

(** What follows the consumption of the token. *)
Definition after_consume (form : TokenForm) (client : OAuthClientRow) (token : string)
    (c : Consumed) (ctx : RequestContext) : M TokenResponse :=
  if negb (bool_decide (rt_client_id (co_row c) = Some (c_id client))) then
    _ ← revokeByToken token;
    _ ← audit_record (event AuditEventType.REFRESH_TOKEN_REUSE_DETECTED
          (Some (rt_user_id (co_row c))) None ctx false (Some [("kind", JStr "client_mismatch")]));
    Throw (OAuthTokenError 401 "invalid_grant" "Token was not issued to this client")
  else
    session ← SessionRepository.findById (rt_session_id (co_row c));
    if match session with Some s => bool_decide (s_status s = SActive) | None => false end
    then refreshed form client c ctx
    else
      _ ← revokeFamily (rt_family_id (co_row c));
      Throw (OAuthTokenError 401 "invalid_grant" "Session is no longer active").

Lemma run_refresh_grant form token client secret ctx w :
  refresh_request form token → authenticated client secret →
  run (grant_of form client secret ctx) w
    = run (c ← catch (refresh_failed client ctx) (consume token);
           after_consume form client token c ctx) w.
Proof.
  intros [Hg Ht] Ha. unfold grant_of. rewrite Hg.
  change (run (refresh_grant form client secret ctx) w = run (c ← catch (refresh_failed client ctx) (consume token);
           after_consume form client token c ctx) w).
  unfold refresh_grant. rewrite Ht.
  by rewrite (run_bind_eq _ _ _ _ _ (run_authenticate_client client secret ctx w Ha)).
Qed.

Lemma refresh_grant_inv form client secret ctx w r w' :
  tf_grant_type form = "refresh_token" →
  run (grant_of form client secret ctx) w = (Resolved r, w') →
  authenticated client secret ∧ ∃ token, refresh_request form token.
Proof.
  intros Hg. unfold grant_of. rewrite Hg.
  change (run (refresh_grant form client secret ctx) w = (Resolved r, w') →
    authenticated client secret ∧ ∃ token, refresh_request form token).
  unfold refresh_grant. destruct (truthy _) as [token|] eqn:Ht; [|done].
  intros ([] & w1 & Ha & _)%run_bind_resolved. apply authenticate_inv in Ha as [_ Ha].
  split; [done|]. by exists token.
Qed.

(** A known token that is not consumable. *)
Lemma run_refresh_reuse form basic ctx client token w row :
  names_client form basic client w → authenticated client (presented_secret form basic) →
  refresh_request form token → rt_unique w → row ∈ refresh_tokens (w_db w) →
  rt_token_hash row = rt_hash token → ¬ rt_consumable (rt_hash token) (w_now w) row →
  run (OAuthService.token form basic ctx) w
    = (Rejected (AppError 401 "REFRESH_TOKEN_REUSE" "Refresh token reuse detected - session revoked"),
       (run (consume token) w).2).
Proof.
  intros Hn Ha Hreq Hu Hr Hh Hc. rewrite (run_token _ _ _ client) by done.
  rewrite (run_refresh_grant _ token) by done.
  rewrite (run_consume_dead token w row) by done. apply run_bind_throw.
  by rewrite run_catch, (run_consume_dead token w row).
Qed.

Lemma refresh_failed_throws {A} client ctx e w (a : A) w' :
  run (refresh_failed client ctx e) w ≠ (Resolved a, w').
Proof.
  unfold refresh_failed. destruct (_ && _); [by erewrite run_bind_eq by apply run_audit_record|].
  by destruct (_ && _).
Qed.

(** What a successful rotation did. *)
Lemma consume_inv token w c w1 :
  rt_wf w → run (consume token) w = (Resolved c, w1) →
  ∃ row, row ∈ refresh_tokens (w_db w) ∧ rt_consumable (rt_hash token) (w_now w) row ∧
    c = mkConsumed (rt_rotate (w_now w) row) (random_b64url 32 (w_draws w))
          (w_now w + REFRESH_TOKEN_TTL cfg * 1000) ∧
    w1 = after_rotation token row w.
Proof.
  intros Hwf H.
  destruct (decide (rt_hash token ∈ rt_token_hash <$> refresh_tokens (w_db w))) as [Hin|Hn];
    [|by rewrite run_consume_unknown in H].
  apply list_elem_of_fmap in Hin as (row & Hh & Hr).
  destruct (decide (rt_consumable (rt_hash token) (w_now w) row)) as [Hc|Hc];
    [|by rewrite (run_consume_dead token w row) in H by (done || apply Hwf)].
  rewrite (run_consume_active token w row) in H by done. injection H as <- <-. by exists row.
Qed.

(** The scope of an answer is contained in the scope of the grant. *)
Lemma narrowed_subset form_scope granted scope :
  narrowed form_scope granted = Some scope →
  ∀ s, s ∈ scope_list scope → s ∈ scope_list granted.
Proof.
  unfold narrowed. destruct (existsb _ _) eqn:He; [done|]. intros [= <-] s.
  destruct (scope_list (default "" form_scope)) as [|x xs] eqn:Hl; [done|].
  rewrite <- Hl, scope_list_join by apply Forall_plain_scope_list. rewrite Hl. intros Hs.
  destruct (decide (s ∈ scope_list granted)) as [|Hno]; [done|]. exfalso.
  assert (existsb (λ s, negb (includes (scope_list granted) s)) (x :: xs) = true) as Ht; [|congruence].
  apply existsb_exists. exists s. split; [by apply list_elem_of_In|].
  apply negb_true_iff. destruct (includes _ s) eqn:E; [|done]. by apply includes_spec in E.
Qed.

(** C34: The refresh grant of POST /oauth/token gives tokens only to the client
    the refresh token was issued to, authenticated, while the token and its
    session are alive. The scope never grows: the access token has at most the
    scope of the grant, which the next refresh token inherits. *)
Theorem oauth_refresh_sound (form : TokenForm) (basic : option (string * string)) (ctx : RequestContext)
    (w w' : World) (r : TokenResponse) :
  rt_wf w → sess_unique w → cache_ok w → tf_grant_type form = "refresh_token" →
  run (OAuthService.token form basic ctx) w = (Resolved r, w') →
  ∃ client token row s, names_client form basic client w ∧
    authenticated client (presented_secret form basic) ∧ refresh_request form token ∧
    row ∈ refresh_tokens (w_db w) ∧ rt_consumable (rt_hash token) (w_now w) row ∧
    rt_client_id row = Some (c_id client) ∧
    s ∈ sessions (w_db w) ∧ s_id s = rt_session_id row ∧ s_status s = SActive ∧
    (∀ x, x ∈ scope_list (tr_scope r) → x ∈ scope_list (rt_scope row)) ∧
    user_access_token (tr_access_token r) (rt_user_id row) (tr_scope r) (s_id s) client (w_db w) (w_now w) ∧
    ∃ next n, tr_refresh_token r = Some next ∧ n ∈ refresh_tokens (w_db w') ∧
      rt_token_hash n = rt_hash next ∧ rt_status_ n = RActive ∧ rt_scope n = rt_scope row ∧
      rt_family_id n = rt_family_id row ∧ rt_client_id n = Some (c_id client).
Proof.
  intros Hwf Hsu Hco Hg (client & Hn & H)%token_inv.
  destruct (refresh_grant_inv _ _ _ _ _ _ _ Hg H) as (Ha & token & Hreq).
  rewrite (run_refresh_grant _ token) in H by done.
  apply run_bind_resolved in H as (c & w1 & Hc & H). rewrite run_catch in Hc.
  destruct (run (consume token) w) as [[e|c0] w0] eqn:Hcons.
  { by apply refresh_failed_throws in Hc. }
  injection Hc as -> ->.
  destruct (consume_inv _ _ _ _ Hwf Hcons) as (row & Hr & Hca & -> & ->).
  unfold after_consume in H. cbn [co_row] in H.
  change (rt_client_id (rt_rotate (w_now w) row)) with (rt_client_id row) in H.
  change (rt_session_id (rt_rotate (w_now w) row)) with (rt_session_id row) in H.
  case_bool_decide as Hcl; cbn [negb] in H; cycle 1.
  { apply run_bind_resolved in H as (? & ? & _ & H). apply run_bind_resolved in H as (? & ? & _ & H). done. }
  destruct (run_findById (rt_session_id row) (after_rotation token row w)) as (o & w2 & Hf & Hv & Hin & Hdb2 & _);
    [done|done|].
  pose proof (keeps_run_eq non_redis _ _ _ _ (findById_keeps (rt_session_id row)) Hf) as Hnr.
  assert (Hnow2 : w_now w2 = w_now w) by exact (f_equal (λ v, v.1.1.1.1.1.1) Hnr).
  rewrite (run_bind_eq _ _ _ _ _ Hf) in H. cbv beta in H.
  destruct o as [s|]; cycle 1.
  { apply run_bind_resolved in H as (? & ? & _ & H). done. }
  case_bool_decide as Hst; cycle 1.
  { apply run_bind_resolved in H as (? & ? & _ & H). done. }
  assert (Hs : s ∈ sessions (w_db w)) by by apply Hin.
  assert (Hsid : s_id s = rt_session_id row).
  { destruct (sql_first _ _) as [s0|] eqn:Hf0; [|done]. apply sql_first_Some in Hf0 as [Hid _].
    unfold session_view, sess_core in Hv. simpl in Hv. congruence. }
  unfold refreshed in H. cbn [co_row] in H.
  change (rt_scope (rt_rotate (w_now w) row)) with (rt_scope row) in H.
  change (rt_user_id (rt_rotate (w_now w) row)) with (rt_user_id row) in H.
  change (rt_session_id (rt_rotate (w_now w) row)) with (rt_session_id row) in H.
  destruct (narrowed _ _) as [scope|] eqn:Hnar; [|done].
  do 2 (erewrite run_bind_eq in H by reflexivity). cbv beta in H.
  apply run_bind_resolved in H as (sg & w3 & Hsg & H).
  destruct (sign_inv _ _ _ _ _ _ Hsg) as (kid & priv & Htok & _ & Hn3).
  assert (Hdb3 : w_db w3 = w_db w2) by exact (f_equal (λ v, v.1.1.2) Hn3).
  erewrite run_bind_eq in H by apply run_audit_record.
  erewrite run_bind_eq in H by reflexivity. injection H as <- <-.
  exists client, token, row, s. do 9 (split; [done|]). cbn [tr_scope tr_access_token tr_refresh_token].
  split; [by eapply narrowed_subset|]. split.
  { exists kid, priv, (sg_jti sg). rewrite Htok, Hnow2, Hsid.
    unfold roles_at, permissions_at. by rewrite Hdb2. }
  eexists _, (issued_row (rotated_from row) (rt_family_id row) (w_draws w) (N.succ (w_draws w)) (w_now w)).
  split; [done|]. split; [|by split_and!].
  simpl. rewrite Hdb3, Hdb2. simpl. apply elem_of_app. right. by left.
Qed.

(** Reuse is not reported. The token endpoint means to audit a reused token
    and to answer [invalid_grant]; the error thrown for reuse is not of the
    class it catches: no audit row is written and the error escapes with its
    own code. The family and the session are revoked all the same. *)
Theorem oauth_reuse_unaudited (form : TokenForm) (basic : option (string * string)) (ctx : RequestContext)
    (client : OAuthClientRow) (token : string) (row : RefreshTokenRow) (w : World) :
  names_client form basic client w → authenticated client (presented_secret form basic) →
  refresh_request form token → rt_unique w → row ∈ refresh_tokens (w_db w) →
  rt_token_hash row = rt_hash token → ¬ rt_consumable (rt_hash token) (w_now w) row →
  ∃ w' msg, run (OAuthService.token form basic ctx) w
      = (Rejected (AppError 401 "REFRESH_TOKEN_REUSE" msg), w') ∧
    audit_logs (w_db w') = audit_logs (w_db w) ∧
    (∀ s, s ∈ sessions (w_db w') → s_id s = rt_session_id row → s_status s = SRevoked) ∧
    (∀ x, x ∈ refresh_tokens (w_db w') → rt_family_id x = rt_family_id row → rt_status_ x = RRevoked).
Proof.
  intros Hn Ha Hreq Hu Hr Hh Hc. eexists _, _.
  split; [by apply (run_refresh_reuse _ _ _ client token w row)|].
  rewrite (run_consume_dead token w row) by done. split; [done|]. exact (reuse_kills row (w_now w) (w_db w)).
Qed.
End refresh.
