(* ===== verification/OAuthTokens.v ===== *)
(** What the OAuth endpoints guarantee, concluded: the life of the tokens they
    issued. *)
From S2P Require Import Prelude Async JsString Errors Store Evolution Toy Redis AuditLog RefreshTokens Sessions Users Keys Jwt Mfa AuthService Recovery Clients Codes OAuth OAuthFlow OAuthGrants.
From stdpp Require Import base gmap strings list relations.
From Stdlib Require Import ZArith Ascii.
Local Open Scope string_scope.
Local Open Scope list_scope.
Local Open Scope Z_scope.

Import OAuthService.

Section refused_scope.
Context `{P : Platform, K : KeyManagementService, J : Jose, U : UrlApi, KL : !KmsLaws K}.
Context `{PL : !PlatformLaws P}.

(** One request for too much ends the session. The refresh grant checks the
    requested scope after it has rotated the token, and throws the successor
    away; a client that repeats its request with a scope it may have presents
    a rotated token, which is taken for theft. *)
Theorem scope_denial_burns_token (form form' : TokenForm) (basic basic' : option (string * string))
    (ctx ctx' : RequestContext) (client : OAuthClientRow) (token : string) (row : RefreshTokenRow)
    (s : SessionRow) (w : World) :
  names_client form basic client w → authenticated client (presented_secret form basic) →
  refresh_request form token → narrowed (tf_scope form) (rt_scope row) = None →
  names_client form' basic' client w → authenticated client (presented_secret form' basic') →
  refresh_request form' token →
  rt_wf w → row ∈ refresh_tokens (w_db w) → rt_consumable (rt_hash token) (w_now w) row →
  rt_client_id row = Some (c_id client) → sess_unique w → cache_ok w →
  s ∈ sessions (w_db w) → s_id s = rt_session_id row → s_status s = SActive →
  ∃ w1 w2 msg,
    run (OAuthService.token form basic ctx) w
      = (Rejected (OAuthTokenError 400 "invalid_scope" "Scope exceeds original grant"), w1) ∧
    run (OAuthService.token form' basic' ctx') w1
      = (Rejected (AppError 401 "REFRESH_TOKEN_REUSE" msg), w2) ∧
    ∀ x, x ∈ sessions (w_db w2) → s_id x = s_id s → s_status x = SRevoked.
Proof.
  intros Hn Ha Hreq Hnar Hn' Ha' Hreq' Hwf Hr Hc Hcl Hsu Hco Hs Hsid Hst.
  destruct (run_findById_active s (after_rotation token row w)) as (w1 & Hf & [Hnr _]); try done.
  assert (Hdb1 : w_db w1 = w_db (after_rotation token row w)) by exact (f_equal (λ v, v.1.1.1.1.2) Hnr).
  assert (Hnow : w_now w1 = w_now w) by exact (f_equal (λ v, v.1.1.1.1.1.1) Hnr).
  assert (Hrot : rt_rotate (w_now w) row ∈ refresh_tokens (w_db w1)) by (rewrite Hdb1; by apply rotated_row).
  assert (Hu1 : rt_unique w1) by (unfold rt_unique; rewrite Hdb1; by apply after_rotation_unique).
  assert (Hn1 : names_client form' basic' client w1).
  { destruct Hn' as [H1 H2 H3]. split; [done| |done]. unfold client_by_id. by rewrite Hdb1. }
  assert (Hh1 : rt_token_hash (rt_rotate (w_now w) row) = rt_hash token) by apply Hc.
  assert (Hc1 : ¬ rt_consumable (rt_hash token) (w_now w1) (rt_rotate (w_now w) row)) by by intros (_ & ? & _).
  eexists w1, _, _. split; [|split; [by apply (run_refresh_reuse _ _ _ client token w1 (rt_rotate (w_now w) row))|]].
  - rewrite (run_token _ _ _ client), (run_refresh_grant _ token) by done.
    erewrite run_bind_eq by (rewrite run_catch; by rewrite (run_consume_active token w row)).
    unfold after_consume. cbn [co_row].
    change (rt_client_id (rt_rotate (w_now w) row)) with (rt_client_id row).
    change (rt_session_id (rt_rotate (w_now w) row)) with (rt_session_id row).
    rewrite bool_decide_eq_true_2 by done. cbn [negb]. rewrite <- Hsid, (run_bind_eq _ _ _ _ _ Hf).
    cbv beta iota. rewrite bool_decide_eq_true_2 by done. unfold refreshed. cbn [co_row].
    change (rt_scope (rt_rotate (w_now w) row)) with (rt_scope row). by rewrite Hnar.
  - rewrite (run_consume_dead token w1 (rt_rotate (w_now w) row)) by done. rewrite Hsid.
    exact (proj1 (reuse_kills (rt_rotate (w_now w) row) (w_now w1) (w_db w1))).
Qed.
End refused_scope.

(** * Completeness of the code grant *)

Section completeness.
Context `{P : Platform, K : KeyManagementService, J : Jose, U : UrlApi, KL : !KmsLaws K}.
Context `{PL : !PlatformLaws P}.

Lemma id_token_total u c s n w :
  kms_wf w → ∃ t w', run (id_token_for u c s n) w = (Resolved t, w').
Proof.
  intros Hk. unfold id_token_for. destruct (str_includes _ _); [|by eexists _, _].
  erewrite run_bind_eq by reflexivity. cbv beta.
  destruct (kms_current w Hk) as (sk & w1 & Hcur & _). eexists _, _.
  unfold JwtService.signIdToken. erewrite run_bind_eq; cycle 1.
  { rewrite (run_bind_eq _ _ _ _ _ Hcur). by erewrite run_bind_eq by reflexivity. }
  reflexivity.
Qed.

Lemma issueUserTokens_total userId client scope nonce ctx w :
  kms_wf w → rt_wf w → session_ids_drawn w →
  ∃ r w', run (issueUserTokens userId client scope nonce ctx) w = (Resolved r, w').
Proof.
  intros Hk Hrt Hs.
  set (p := mkCreateSession userId (Some (c_id client)) (ctx_ip ctx) (ctx_userAgent ctx) None true (SESSION_TTL cfg)).
  assert (∃ s w1, run (SessionRepository.create p) w = (Resolved s, w1) ∧ same_keys w w1 ∧ rt_wf w1)
    as (s & w1 & Hcreate & Hk1 & Hrt1).
  { unfold SessionRepository.create. rewrite run_attempt. unfold SessionRepository.insert.
    rewrite decide_False.
    - eexists _, _. split; [done|]. split; [done|]. destruct Hrt as [Hu Hd]. split; [done|].
      eapply Forall_impl; [exact Hd|]. intros r (n & Hn & Hh). exists n. simpl. split; [lia|done].
    - intros Hin. apply list_elem_of_fmap in Hin as (s & E & Hin).
      unfold session_ids_drawn in Hs. rewrite Forall_forall in Hs.
      destruct (Hs s Hin) as (n & Hn & Hid). rewrite Hid in E.
      pose proof random_uuid_inj. apply (inj random_uuid) in E. lia. }
  set (input := mkTokenInput userId scope (Some (roles_at userId (w_db w)))
    (Some (permissions_at userId (w_db w))) (Some (s_id s)) (Some (c_client_id client)) (Some ["oauth"])).
  destruct (sign_total app_jwt_options input None w1) as (sg & w2 & Hsg & Hk2 & Hstep);
    [by apply (kms_wf_stable w)|].
  set (q := mkIssue (s_id s) userId (Some (c_id client)) scope None None).
  assert (Hfresh : rt_hash (random_b64url 32 (w_draws w2)) ∉ rt_token_hash <$> refresh_tokens (w_db w2)).
  { rewrite (key_step_db _ _ Hstep). apply rt_wf_fresh; [done|apply Hstep]. }
  pose proof (run_issue_new_family q w2 eq_refl Hfresh) as Hissue.
  set (w3 := on_tokens _ w2 <| w_draws := _ |>) in Hissue.
  destruct (id_token_total userId client scope nonce w3) as (t & w4 & Hid); [by apply (kms_wf_stable w2)|].
  eexists _, _. unfold issueUserTokens. do 2 (erewrite run_bind_eq by reflexivity). cbv beta.
  rewrite (run_bind_eq _ _ _ _ _ Hcreate). cbv beta. fold (roles_at userId (w_db w)).
  rewrite (run_bind_eq _ _ _ _ _ Hsg). cbv beta. rewrite (run_bind_eq _ _ _ _ _ Hissue). cbv beta.
  rewrite (run_bind_eq _ _ _ _ _ Hid). cbv beta.
  erewrite run_bind_eq by apply run_audit_record. erewrite run_bind_eq by reflexivity. reflexivity.
Qed.

(** C15: The client a code was issued to obtains tokens for it: authenticated, in
    time, with the registered redirect URI and the verifier of its challenge,
    the exchange never fails. *)
Theorem code_grant_complete (form : TokenForm) (basic : option (string * string)) (ctx : RequestContext)
    (client : OAuthClientRow) (code uri verifier : string) (row : AuthorizationCodeRow) (w : World) :
  codes_unique w → names_client form basic client w →
  authenticated client (presented_secret form basic) → code_request form code uri verifier →
  stored_code code row client w → presentable row client (c_client_id client) uri (w_now w) →
  pkce_ok verifier row → kms_wf w → rt_wf w → session_ids_drawn w →
  ∃ r w', run (token form basic ctx) w = (Resolved r, w') ∧
    granted_tokens (ac_user_id row) (ac_scope row) client r (w_now w) (w_db (used row w)) (w_db w').
Proof.
  intros Hu Hn Ha Hreq Hs Hp (challenge & Hch & Hm) Hk Hrt Hsess.
  destruct (issueUserTokens_total (ac_user_id row) client (ac_scope row) (ac_nonce row) ctx (used row w))
    as (r & w' & Hrun); [by apply (kms_wf_stable w)|done|done|].
  exists r, w'. split.
  - rewrite (run_token _ _ _ client), (run_code_grant _ code uri verifier) by done.
    by rewrite (run_exchange_presentable client client code uri verifier row), Hch, Hm.
  - exact (issueUserTokens_inv _ _ _ _ _ _ _ _ Hrun).
Qed.
End completeness.

(** * Introspection and revocation *)

Section revocation.
Context `{P : Platform, K : KeyManagementService, J : Jose, U : UrlApi}.
Context `{KL : !KmsLaws K, JL : !JoseLaws J keypair}.

(** The answer for a payload. *)
Definition introspection (c : Claims) : Introspection :=
  mkIntrospection (cl_sub c) (cl_scope c) (cl_exp c) (cl_iat c) (cl_aud c ≫= head) (cl_iss c)
    (cl_jti c) (cl_client_id c).

Lemma run_introspect token w :
  (run (introspect token) w).1 =
    match (run (verify token) w).1 with
    | Resolved c => Resolved (Some (introspection c))
    | Rejected _ => Resolved None
    end.
Proof.
  unfold introspect. rewrite run_catch, run_bind. by destruct (run (verify token) w) as [[e|c] w1].
Qed.

Lemma run_revokeByToken_unknown token w :
  rt_hash token ∉ rt_token_hash <$> refresh_tokens (w_db w) →
  run (revokeByToken token) w = (Resolved false, w).
Proof.
  intros Hn. unfold revokeByToken. rewrite run_atomically. cbn [fst snd].
  assert (Hno : ∀ r, r ∈ refresh_tokens (w_db w) → ¬ (rt_token_hash r = rt_hash token ∧ rt_not_revoked r)).
  { intros r Hr [Hh _]. apply Hn. rewrite <- Hh. by apply list_elem_of_fmap_2. }
  fold (on_tokens (sql_update (λ r, rt_token_hash r = rt_hash token ∧ rt_not_revoked r)
    (rt_revoke (w_now w))) w). rewrite on_tokens_id by by apply sql_update_nothing.
  rewrite bool_decide_eq_false_2; [done|]. intros Hlt.
  destruct (sql_select _ _) as [|r l] eqn:E; [simpl in Hlt; lia|].
  assert (r ∈ sql_select (λ r, rt_token_hash r = rt_hash token ∧ rt_not_revoked r)
    (refresh_tokens (w_db w))) as [Hq Hr]%elem_of_select by (rewrite E; apply list_elem_of_here).
  by apply (Hno r).
Qed.

(** A revoked access token is dead. Revoking the access token of a session
    ends the session and its refresh tokens, and introspection, which answered
    [active] until then, answers [inactive] until the token expires. *)
Theorem access_revocation (sub scope sid kid pub priv jti : string) (roles permissions : list string)
    (client_id : string) (issued : Z) (ctx : RequestContext) (w : World) :
  let i := mkTokenInput sub scope (Some roles) (Some permissions) (Some sid) (Some client_id)
             (Some ["oauth"]) in
  let c := JwtService.access_claims app_jwt_options i issued (ACCESS_TOKEN_TTL cfg) jti in
  let t := SignJWT kid c priv in
  let exp := issued + ACCESS_TOKEN_TTL cfg in
  kid ≠ "" → jti ≠ "" → sid ≠ "" → publishes w kid pub → keypair pub priv →
  0 < issued → issued * 1000 ≤ w_now w → w_now w < exp * 1000 →
  rt_hash t ∉ rt_token_hash <$> refresh_tokens (w_db w) →
  redis_value_at w (TokenRevocationService.revoked_key jti) = None →
  (run (introspect t) w).1 = Resolved (Some (introspection c)) ∧
  ∃ w', run (revoke t ctx) w = (Resolved (), w') ∧
    (∀ s, s ∈ sessions (w_db w') → s_id s = sid → s_status s = SRevoked) ∧
    (∀ r, r ∈ refresh_tokens (w_db w') → rt_session_id r = sid → rt_status_ r ≠ RActive) ∧
    ∀ now, w_now w ≤ now → now ≤ exp * 1000 →
      (run (introspect t) (w' <| w_now := now |>)).1 = Resolved None.
Proof.
  intros i c t exp Hkid Hjti Hsid Hpub Hpair H0 Hfrom Hto Hrt Hden.
  assert (Hdiv : issued ≤ w_now w / 1000) by (apply Z.div_le_lower_bound; lia).
  assert (Hdiv' : w_now w / 1000 < exp) by (apply Z.div_lt_upper_bound; lia).
  assert (Hver : run (verify t) w = (Resolved c, w)).
  { unfold verify, t, c. rewrite (run_verify_signed _ _ _ _ pub) by done. rewrite access_verdict.
    fold exp. rewrite (proj2 (Z.ltb_ge _ _)), (proj2 (Z.leb_gt _ _)) by lia. rewrite run_catch.
    unfold JwtService.check_revoked, app_checker. cbn [cl_jti JwtService.access_claims].
    destruct jti as [|a j]; [done|]. cbn [truthy]. by run_next_by (run_isRevoked_no _ _ Hden). }
  split; [by rewrite run_introspect, Hver|].
  set (w1 := (run (SessionRepository.revoke sid "token_revocation") w).2).
  set (w2 := redis_put (TokenRevocationService.revoked_key jti)
    (mkEntry (VStr "1") (Some (denied_until exp (w_now w)))) w1).
  eexists. split.
  { unfold revoke. rewrite (run_bind_eq _ _ _ _ _ (run_revokeByToken_unknown t w Hrt)). cbv beta iota.
    rewrite run_catch, (run_bind_eq _ _ _ _ _ Hver). cbv beta.
    rewrite (run_bind_eq _ _ _ () w1); cycle 1.
    { unfold c, i. cbn [cl_sid JwtService.access_claims ti_sid]. destruct sid as [|a l]; [done|].
      cbn [truthy]. reflexivity. }
    cbv beta. rewrite (run_bind_eq _ _ _ () w2); cycle 1.
    { unfold denylist, c. cbn [cl_jti cl_exp JwtService.access_claims]. destruct jti as [|a l]; [done|].
      cbn [truthy]. fold exp. rewrite bool_decide_eq_false_2 by lia. apply run_revokeUntil. }
    rewrite run_audit_record. reflexivity. }
  split; [|split].
  - exact (proj1 (proj2 (revoke_effect sid "token_revocation" w))).
  - exact (proj1 (proj2 (proj2 (proj2 (revoke_effect sid "token_revocation" w))))).
  - intros now Hnow Hexp. rewrite run_introspect. unfold verify, t, c.
    pose proof (denied_until_bounds exp (w_now w) Hto) as Hb.
    erewrite (verify_denylisted app_jwt_options i issued (ACCESS_TOKEN_TTL cfg) jti kid pub priv
      (denied_until exp (w_now w)) _ now); try done.
    + rewrite (proj2 (Z.leb_le _ _)) by lia. done.
    + by apply (kms_publishes_stable w).
    + simpl. by rewrite lookup_insert_eq.
    + apply Z.div_le_lower_bound; lia.
    + intros _. fold exp. assert (now / 1000 < exp + 1) by (apply Z.div_lt_upper_bound; lia). lia.
Qed.
End revocation.
