(* ===== verification/OAuthDemo.v ===== *)
(** The properties of the OAuth endpoints at concrete inputs. *)
From S2P Require Import Prelude Async JsString Errors Store Evolution Toy Redis AuditLog RefreshTokens Sessions Users Keys Jwt ToyJose Mfa AuthService Recovery Clients Codes OAuth OAuthFlow OAuthGrants OAuthTokens.
From stdpp Require Import base gmap strings list pretty relations.
From Stdlib Require Import ZArith Ascii.
Local Open Scope string_scope.
Local Open Scope list_scope.
Local Open Scope Z_scope.

Import OAuthService.

(** A URL builder that escapes nothing. *)
Definition toy_url : UrlApi := {|
  url_with_params u ps :=
    Some (u +:+ "?" +:+ js_join "&" ((λ p : string * string, p.1 +:+ "=" +:+ p.2) <$> ps));
|}.

Section witnesses.
#[local] Existing Instances toy toy_crypto toy_jose toy_url.

(** A confidential client, a user, and a code of theirs. *)
Definition shop : OAuthClientRow :=
  mkOAuthClientRow "cid-1" "cli_1" (Some "argon2:s3cret") "Shop" Confidential ["https://shop/cb"]
    ["openid"; "email"; "api.read"] ["authorization_code"; "client_credentials"] ClientSecretBasic
    true CliActive 0.
Definition shop_user : UserRow :=
  mkUserRow "user-1" "ada@example.com" "argon2:pw" (Some "Ada") None UActive 0 None false None 0 0 0.
Definition shop_code (consumed : option Z) : AuthorizationCodeRow :=
  mkAuthorizationCodeRow "ac-1" (hex_encode "code-1") "cid-1" "user-1" "https://shop/cb" "openid email"
    (Some "n-0") (Some "s256:verifier") (Some "S256") 61000 consumed.
Definition shop_token : RefreshTokenRow :=
  mkRefreshTokenRow "rt-1" "sess-1" "user-1" (Some "cid-1") (hex_encode "random-value-of-24-or-32-bytes-0") "fam-1" None
    "openid email" RActive 90000 None None.
Definition shop_session : SessionRow :=
  mkSessionRow "sess-1" "user-1" (Some "cid-1") None None None true SActive 90000 0 None None.

Definition shop_world (codes : list AuthorizationCodeRow) (tokens : list RefreshTokenRow)
    (ss : list SessionRow) : World :=
  empty_world 1000 <| w_draws := 4%N |>
    <| w_db := empty_db <| users := [shop_user] |> <| oauth_clients := [shop] |>
         <| authorization_codes := codes |> <| refresh_tokens := tokens |> <| sessions := ss |> |>.

Definition shop_ctx : RequestContext := mkContext "req-1" (Some "10.0.0.1") (Some "agent").
Definition shop_basic : option (string * string) := Some ("cli_1", "s3cret").

Definition code_form (verifier : string) : TokenForm :=
  mkTokenForm "authorization_code" (Some "code-1") (Some "https://shop/cb") None None (Some verifier)
    None None.
Definition refresh_form (scope : option string) : TokenForm :=
  mkTokenForm "refresh_token" None None None None None scope (Some "random-value-of-24-or-32-bytes-0").
Definition client_form : TokenForm :=
  mkTokenForm "client_credentials" None None None None None (Some "api.read") None.

Lemma shop_named form codes tokens ss : names_client form shop_basic shop (shop_world codes tokens ss).
Proof. by split. Qed.
Lemma shop_authenticated form : authenticated shop (presented_secret form shop_basic).
Proof. by exists "s3cret", "argon2:s3cret". Qed.
Lemma shop_request v : v ≠ "" → code_request (code_form v) "code-1" "https://shop/cb" v.
Proof. intros Hv. split; try done. by destruct v. Qed.
Lemma shop_unique c tokens ss : codes_unique (shop_world [shop_code c] tokens ss).
Proof. split; apply NoDup_singleton. Qed.
Lemma shop_stored c tokens ss :
  stored_code "code-1" (shop_code c) shop (shop_world [shop_code c] tokens ss).
Proof. split; try done; apply list_elem_of_here. Qed.
Lemma shop_keys codes tokens ss : keys_ok (shop_world codes tokens ss).
Proof. split; [done|]. split; [constructor|by left]. Qed.
Lemma shop_kms codes tokens ss : kms_wf (K := local_kms) (shop_world codes tokens ss).
Proof. exact (shop_keys codes tokens ss). Qed.
Lemma shop_tokens codes ss : rt_wf (shop_world codes [shop_token] ss).
Proof. split; [apply NoDup_singleton|]. constructor; [by exists 0%N|constructor]. Qed.
Lemma shop_consumable : rt_consumable (rt_hash "random-value-of-24-or-32-bytes-0") 1000 shop_token.
Proof. by split_and!. Qed.
Lemma shop_cache codes tokens ss : cache_ok (shop_world codes tokens ss).
Proof. done. Qed.

Lemma authorize_sound_witness :
  let input := mkAuthorizeInput "cli_1" "https://shop/cb" "openid email" None
    "0123456789012345678901234567890123456789012" "S256" in
  ∃ url w' code id, run (authorize input (Some "user-1") (Some "xyz") shop_ctx) (shop_world [] [] [])
      = (Resolved url, w') ∧
    code_table w' = [code_row id code shop input "user-1" 1000] ∧
    url = "https://shop/cb?" +:+ js_join "&" ["code=" +:+ code; "state=xyz"].
Proof.
  intros input. set (res := run (authorize input (Some "user-1") (Some "xyz") shop_ctx) (shop_world [] [] [])).
  assert (Hres : res = (Resolved "https://shop/cb?code=random-value-of-24-or-32-bytes-4&state=xyz", res.2)) by by vm_compute.
  destruct (authorize_sound input (Some "user-1") (Some "xyz") shop_ctx (shop_world [] [] []) res.2
    "https://shop/cb?code=random-value-of-24-or-32-bytes-4&state=xyz" Hres)
    as (client & u & id & code & Hc & _ & _ & _ & _ & _ & Hu & _ & _ & Ht & Hurl).
  assert (E : client_by_id "cli_1" (shop_world [] [] []) = Some shop) by by vm_compute.
  cbn [ai_client_id input] in Hc. rewrite E in Hc. injection Hc as <-. injection Hu as Hid. rewrite <- Hid in Ht.
  eexists _, res.2, code, id. split; [exact Hres|]. split; [exact Ht|].
  cbn [url_with_params toy_url] in Hurl. injection Hurl as Hurl. rewrite <- Hurl. reflexivity.
Defined.

Lemma code_grant_complete_witness :
  ∃ r w', run (token (code_form "verifier") shop_basic shop_ctx) (shop_world [shop_code None] [] [])
      = (Resolved r, w') ∧ tr_scope r = "openid email".
Proof.
  destruct (code_grant_complete (code_form "verifier") shop_basic shop_ctx shop "code-1" "https://shop/cb"
    "verifier" (shop_code None) (shop_world [shop_code None] [] [])) as (r & w' & Hrun & Hg).
  - apply shop_unique.
  - apply shop_named.
  - apply shop_authenticated.
  - by apply shop_request.
  - apply shop_stored.
  - by split.
  - by exists "s256:verifier".
  - apply shop_keys.
  - split; constructor.
  - constructor.
  - exists r, w'. split; [exact Hrun|]. exact (gt_scope _ _ _ _ _ _ _ Hg).
Defined.

Lemma code_grant_sound_witness :
  ∃ r w', run (token (code_form "verifier") shop_basic shop_ctx) (shop_world [shop_code None] [] [])
      = (Resolved r, w') ∧
    ∀ x, x ∈ code_table w' → ac_code_hash x = hex_encode "code-1" → ac_consumed_at x ≠ None.
Proof.
  set (w := shop_world [shop_code None] [] []).
  assert (Hok : is_resolved (run (token (code_form "verifier") shop_basic shop_ctx) w).1 = true)
    by by vm_compute.
  destruct (run (token (code_form "verifier") shop_basic shop_ctx) w) as [[e|r] w'] eqn:Hrun; [done|].
  destruct (code_grant_sound (code_form "verifier") shop_basic shop_ctx w w' r)
    as (client & code & uri & v & row & _ & _ & Hreq & _ & _ & _ & _ & Hused).
  - apply shop_unique.
  - apply NoDup_singleton.
  - reflexivity.
  - exact Hrun.
  - exists r, w'. split; [reflexivity|]. intros x Hx Hh. apply Hused; [exact Hx|].
    destruct Hreq as [_ Hc _ _]. injection Hc as <-. exact Hh.
Defined.

Lemma pkce_protects_code_witness :
  let w := shop_world [shop_code None] [] [] in
  run (token (code_form "guess") shop_basic shop_ctx) w
  = (Rejected (OAuthTokenError 400 "invalid_grant" "PKCE verification failed"), w).
Proof.
  intros w. apply (pkce_protects_code (code_form "guess") shop_basic shop_ctx shop shop "code-1"
    "https://shop/cb" "guess" "s256:verifier" (shop_code None)).
  - apply shop_unique.
  - apply shop_named.
  - apply shop_authenticated.
  - by apply shop_request.
  - apply shop_stored.
  - by split.
  - done.
  - by vm_compute.
Defined.

Lemma code_replay_revokes_witness :
  ∃ w' e, run (token (code_form "verifier") shop_basic shop_ctx)
      (shop_world [shop_code (Some 900)] [shop_token] [])
    = (Rejected e, w') ∧ ∀ r, r ∈ refresh_tokens (w_db w') → rt_user_id r = "user-1" →
        rt_client_id r = Some "cid-1" → rt_status_ r = RRevoked.
Proof.
  destruct (code_replay_revokes (code_form "verifier") shop_basic shop_ctx shop "code-1" "https://shop/cb"
    "verifier" (shop_code (Some 900)) (shop_world [shop_code (Some 900)] [shop_token] []))
    as (w' & e & Hrun & _ & _ & _ & Hrev & _).
  - apply shop_unique.
  - apply shop_named.
  - apply shop_authenticated.
  - by apply shop_request.
  - apply shop_stored.
  - done.
  - by exists 900.
  - apply NoDup_singleton.
  - eexists w', _. split; [exact Hrun|exact Hrev].
Defined.

(** The same request twice: one of them obtains tokens. *)
Lemma code_exchanged_once_witness :
  let w := shop_world [shop_code None] [] [] in
  let ps := replicate 2 (token (code_form "verifier") shop_basic shop_ctx) in
  winners (λ _, true) (serve ps w).1 = 1%nat ∧ (winners (λ _, true) (serve ps w).1 ≤ 1)%nat.
Proof.
  intros w ps. split; [by vm_compute|].
  apply (code_exchanged_once "code-1" "ac-1" eq ps (serve ps w).1 w (serve ps w).2).
  - by intros v v' ->.
  - split; [apply NoDup_singleton..|]. exists (shop_code None). split; [apply list_elem_of_here|done].
  - repeat (constructor; [by exists (code_form "verifier"), shop_basic, shop_ctx|]). constructor.
  - rewrite <- surjective_pairing. apply pool_serve.
Defined.

Lemma client_credentials_sound_witness :
  ∃ r w', run (token client_form shop_basic shop_ctx) (shop_world [] [] []) = (Resolved r, w') ∧
    scope_list (tr_scope r) = ["api.read"] ∧ tr_refresh_token r = None.
Proof.
  assert (Hok : is_resolved (run (token client_form shop_basic shop_ctx) (shop_world [] [] [])).1 = true)
    by by vm_compute.
  destruct (run (token client_form shop_basic shop_ctx) (shop_world [] [] [])) as [[e|r] w'] eqn:Hrun;
    [done|].
  destruct (client_credentials_sound client_form shop_basic shop_ctx _ w' r eq_refl Hrun)
    as (client & _ & _ & _ & _ & _ & Hs & _ & _ & Hr & _).
  exists r, w'. split; [reflexivity|]. split; [exact Hs|exact Hr].
Defined.

Lemma oauth_refresh_sound_witness :
  ∃ r w', run (token (refresh_form (Some "email")) shop_basic shop_ctx)
      (shop_world [] [shop_token] [shop_session]) = (Resolved r, w') ∧
    ∀ x, x ∈ scope_list (tr_scope r) → x ∈ ["openid"; "email"].
Proof.
  set (w := shop_world [] [shop_token] [shop_session]).
  assert (Hok : is_resolved (run (token (refresh_form (Some "email")) shop_basic shop_ctx) w).1 = true)
    by by vm_compute.
  destruct (run (token (refresh_form (Some "email")) shop_basic shop_ctx) w) as [[e|r] w'] eqn:Hrun; [done|].
  destruct (oauth_refresh_sound (refresh_form (Some "email")) shop_basic shop_ctx w w' r)
    as (client & tok & row & s & _ & _ & _ & Hrow & _ & _ & _ & _ & _ & Hsub & _).
  - apply shop_tokens.
  - apply NoDup_singleton.
  - apply shop_cache.
  - reflexivity.
  - exact Hrun.
  - exists r, w'. split; [reflexivity|]. apply list_elem_of_singleton in Hrow as ->. exact Hsub.
Defined.

(** The token of the previous client, expired. *)
Lemma oauth_reuse_unaudited_witness :
  let w := shop_world [] [shop_token] [shop_session] <| w_now := 90000 |> in
  ∃ w' e, run (token (refresh_form None) shop_basic shop_ctx) w = (Rejected e, w') ∧
    err_code e = Some "REFRESH_TOKEN_REUSE" ∧ audit_logs (w_db w') = [].
Proof.
  intros w. destruct (oauth_reuse_unaudited (refresh_form None) shop_basic shop_ctx shop "random-value-of-24-or-32-bytes-0" shop_token w)
    as (w' & msg & Hrun & Haudit & _).
  - by split.
  - apply shop_authenticated.
  - by split.
  - apply NoDup_singleton.
  - apply list_elem_of_here.
  - reflexivity.
  - by intros (_ & _ & ?).
  - eexists w', _. split; [exact Hrun|]. split; [done|exact Haudit].
Defined.

Lemma scope_denial_burns_token_witness :
  let w := shop_world [] [shop_token] [shop_session] in
  ∃ w1 w2 e, run (token (refresh_form (Some "admin")) shop_basic shop_ctx) w
      = (Rejected (OAuthTokenError 400 "invalid_scope" "Scope exceeds original grant"), w1) ∧
    run (token (refresh_form None) shop_basic shop_ctx) w1 = (Rejected e, w2) ∧
    ∀ x, x ∈ sessions (w_db w2) → s_id x = "sess-1" → s_status x = SRevoked.
Proof.
  intros w. destruct (scope_denial_burns_token (refresh_form (Some "admin")) (refresh_form None) shop_basic
    shop_basic shop_ctx shop_ctx shop "random-value-of-24-or-32-bytes-0" shop_token shop_session w) as (w1 & w2 & msg & H1 & H2 & H3).
  - apply shop_named.
  - apply shop_authenticated.
  - by split.
  - by vm_compute.
  - apply shop_named.
  - apply shop_authenticated.
  - by split.
  - apply shop_tokens.
  - apply list_elem_of_here.
  - apply shop_consumable.
  - reflexivity.
  - apply NoDup_singleton.
  - apply shop_cache.
  - apply list_elem_of_here.
  - reflexivity.
  - reflexivity.
  - eexists w1, w2, _. split; [exact H1|]. split; [exact H2|exact H3].
Defined.

Lemma access_revocation_witness :
  ∃ t w w', is_Some (match (run (introspect t) w).1 with Resolved o => o | Rejected _ => None end) ∧
    run (revoke t shop_ctx) w = (Resolved (), w') ∧
    (run (introspect t) (w' <| w_now := 500000 |>)).1 = Resolved None.
Proof.
  destruct (kms_current (K := local_kms) (shop_world [] [] []) (shop_kms [] [] []))
    as (sk & w0 & _ & _ & Hkid & Hpair & Hpub).
  destruct (access_revocation "user-1" "openid" "sess-1" (sk_kid sk) (sk_publicKeyPem sk)
    (sk_privateKeyPem sk) "uuid-7" [] [] "cli_1" 1 shop_ctx
    (w0 <| w_now := 2000 |> <| w_redis := ∅ |> <| w_db := empty_db |>)) as (H1 & w' & H2 & _ & _ & H3).
  - exact Hkid.
  - done.
  - done.
  - by apply (kms_publishes_stable w0).
  - exact Hpair.
  - done.
  - done.
  - done.
  - by apply not_elem_of_nil.
  - by apply nothing_stored.
  - eexists _, _, w'. split; [rewrite H1; by eexists|]. split; [exact H2|]. by apply H3.
Defined.
End witnesses.
