(* ===== verification/OAuthRoutes.v ===== *)
(** The OAuth, OpenID Connect, key and health routes:
    src/modules/oauth/oauth.routes.ts with oauth.schemas.ts, oidc.routes.ts,
    discovery.routes.ts, src/modules/keys/keys.routes.ts and
    src/modules/health/health.routes.ts. *)
From S2P Require Import Prelude Async JsString Encoding Errors Store Evolution Toy Redis RateLimit Http AuditLog Users Keys Jwt Guards Clients Codes OAuth.
From stdpp Require Import base gmap strings list relations.
From Stdlib Require Import ZArith Ascii.
Local Open Scope string_scope.
Local Open Scope list_scope.
Local Open Scope Z_scope.

(** * Schemas *)

Definition authorizeQuerySchema : Schema := ZObject false
  [("response_type", ZEnum ["code"]);
   ("client_id", ZString [CMin 4]);
   ("redirect_uri", ZString [CUrl]);
   ("scope", ZDefault (ZString []) (JStr "openid"));
   ("state", ZOptional (ZString [CMax 512]));
   ("nonce", ZOptional (ZString [CMax 512]));
   ("code_challenge", ZOptional (ZString [CMin 43; CMax 128]));
   ("code_challenge_method", ZDefault (ZEnum ["S256"; "plain"]) (JStr "S256"))].

Definition tokenFormSchema : Schema := ZObject false
  [("grant_type", ZEnum ["authorization_code"; "client_credentials"; "refresh_token"]);
   ("code", ZOptional (ZString []));
   ("redirect_uri", ZOptional (ZString []));
   ("client_id", ZOptional (ZString []));
   ("client_secret", ZOptional (ZString []));
   ("code_verifier", ZOptional (ZString [CMin 43; CMax 128]));
   ("scope", ZOptional (ZString []));
   ("refresh_token", ZOptional (ZString [CMin 10]))].

Definition introspectFormSchema : Schema := ZObject false [("token", ZString [CMin 10])].
Definition revokeFormSchema : Schema := ZObject false [("token", ZString [CMin 10])].

(** * Requests *)

Definition parseBasicAuth (rq : HttpRequest) : option (string * string) :=
  match header rq "authorization" with
  | Some h =>
      if starts_with h "Basic " then
        match split_first ":" (from_base64 (slice_from 6 h)) with
        | Some (EmptyString, _) => None
        | Some (id, secret) =>
            match decodeURIComponent id, decodeURIComponent secret with
            | Some i, Some s => Some (i, s)
            | _, _ => None
            end
        | None => None
        end
      else None
  | None => None
  end.

(** The body is the object the urlencoded parser or [URLSearchParams] made of
    the form. *)
Definition parseFormBody (rq : HttpRequest) : json :=
  match rq_body rq with
  | JObj fs => JObj fs
  | JArr vs => JArr vs
  | _ => JObj []
  end.

Definition form_of_json (v : json) : TokenForm :=
  mkTokenForm (jstr v "grant_type") (jstr_opt v "code") (jstr_opt v "redirect_uri")
    (jstr_opt v "client_id") (jstr_opt v "client_secret") (jstr_opt v "code_verifier")
    (jstr_opt v "scope") (jstr_opt v "refresh_token").

(** * Responses *)

Definition token_response_json (r : TokenResponse) : json :=
  JObj ([("access_token", JStr (tr_access_token r)); ("token_type", JStr "Bearer");
         ("expires_in", JNum (tr_expires_in r))]
        ++ jopt "refresh_token" (JStr <$> tr_refresh_token r)
        ++ [("scope", JStr (tr_scope r))]
        ++ jopt "id_token" (JStr <$> tr_id_token r)).

Definition introspection_json (r : option Introspection) : json :=
  match r with
  | None => JObj [("active", JBool false)]
  | Some i =>
      JObj ([("active", JBool true)]
            ++ jopt "sub" (JStr <$> in_sub i) ++ jopt "scope" (JStr <$> in_scope i)
            ++ jopt "exp" (JNum <$> in_exp i) ++ jopt "iat" (JNum <$> in_iat i)
            ++ jopt "aud" (JStr <$> in_aud i) ++ jopt "iss" (JStr <$> in_iss i)
            ++ jopt "jti" (JStr <$> in_jti i) ++ [("token_type", JStr "access_token")]
            ++ jopt "client_id" (JStr <$> in_client_id i))
  end.

Definition oauth_error (error description : string) : json :=
  JObj [("error", JStr error); ("error_description", JStr description)].

(** The claims of [/userinfo]: the subject, and what the scopes allow. *)
Definition userinfo_claims (row : UserRow) (granted_scopes : list string) : json :=
  JObj ([("sub", JStr (u_id row))]
        ++ (if includes granted_scopes "email"
            then [("email", JStr (u_email row));
                  ("email_verified", JBool (bool_decide (u_status row = UActive)))]
            else [])
        ++ (if includes granted_scopes "profile"
            then jopt "given_name" (JStr <$> u_first_name row)
                 ++ jopt "family_name" (JStr <$> u_last_name row)
                 ++ [("preferred_username", JStr (hd "" (split_on "@" (u_email row))))]
            else [])).

(** [JWT_ISSUER.replace(/\/$/, '')] *)
Definition strip_slash (s : string) : string :=
  match String.length s with
  | O => s
  | S n => if bool_decide (String.get n s = Some "/"%char) then String.substring 0 n s else s
  end.

Definition discovery_json (issuer : string) : json :=
  JObj [("issuer", JStr issuer);
        ("authorization_endpoint", JStr (issuer +:+ "/oauth/authorize"));
        ("token_endpoint", JStr (issuer +:+ "/oauth/token"));
        ("userinfo_endpoint", JStr (issuer +:+ "/userinfo"));
        ("jwks_uri", JStr (issuer +:+ "/.well-known/jwks.json"));
        ("introspection_endpoint", JStr (issuer +:+ "/oauth/introspect"));
        ("revocation_endpoint", JStr (issuer +:+ "/oauth/revoke"));
        ("response_types_supported", JArr [JStr "code"]);
        ("grant_types_supported", JArr [JStr "authorization_code"; JStr "client_credentials"; JStr "refresh_token"]);
        ("subject_types_supported", JArr [JStr "public"]);
        ("id_token_signing_alg_values_supported", JArr [JStr "EdDSA"]);
        ("scopes_supported", JArr [JStr "openid"; JStr "profile"; JStr "email"; JStr "offline_access";
                                   JStr "api.read"; JStr "api.write"]);
        ("token_endpoint_auth_methods_supported",
           JArr [JStr "client_secret_basic"; JStr "client_secret_post"; JStr "none"]);
        ("code_challenge_methods_supported", JArr [JStr "S256"]);
        ("claims_supported", JArr [JStr "sub"; JStr "iss"; JStr "aud"; JStr "exp"; JStr "iat"; JStr "email";
                                   JStr "given_name"; JStr "family_name"])].

(** [exportJWK(importSPKI(pem, 'EdDSA'))]: the fields of the key, or the error
    of the library. *)
Class Jwk : Type := { jwk_of_pem : string → outcome Err (list (string * json)) }.

Section routes.
Context `{P : Platform, K : KeyManagementService, J : Jose, U : UrlApi, Z0 : Zod, W : Jwk}.

(** Malformed input of the token endpoint is a 400. *)
Definition parseForm (schema : Schema) (rq : HttpRequest) : M json :=
  match safeParse schema (parseFormBody rq) with
  | inl _ => Throw (AppError 400 "INVALID_REQUEST" "Malformed form body")
  | inr data => mret data
  end.

Definition get_authorize : list RequestHandler :=
  [ip_limit (mkRateLimit "authorize" (RATE_LIMIT_AUTHORIZE cfg) (RATE_LIMIT_WINDOW cfg));
   maybeAuthenticate; validate_query authorizeQuerySchema;
   asyncHandler (λ rq,
     let q := rq_query rq in
     match truthy (jstr_opt q "code_challenge") with
     | Some challenge =>
         if negb (bool_decide (jstr q "response_type" = "code")) then
           respond 400 (oauth_error "invalid_request"
             "response_type=code and PKCE code_challenge are required") rq
         else
           redirect ← OAuthService.authorize
             (mkAuthorizeInput (jstr q "client_id") (jstr q "redirect_uri") (jstr q "scope")
                (jstr_opt q "nonce") challenge (jstr q "code_challenge_method"))
             (au_sub <$> rq_user rq) (jstr_opt q "state") (requestContext rq);
           respond 200 (JObj (("code_url", JStr redirect) ::
             jopt "state" (JStr <$> truthy (jstr_opt q "state")))) rq
     | None =>
         respond 400 (oauth_error "invalid_request"
           "response_type=code and PKCE code_challenge are required") rq
     end)].

(** [parseBasicAuth(req)?.clientId ?? req.ip ?? 'unknown'] *)
Definition token_identity (rq : HttpRequest) : string :=
  match parseBasicAuth rq with Some (id, _) => id | None => client_ip rq end.

Definition post_token : list RequestHandler :=
  [(λ rq, rate_limit (mkRateLimit "token-client" (RATE_LIMIT_TOKEN cfg) (RATE_LIMIT_WINDOW cfg))
            (token_identity rq) rq);
   asyncHandler (λ rq,
     form ← parseForm tokenFormSchema rq;
     result ← OAuthService.token (form_of_json form) (parseBasicAuth rq) (requestContext rq);
     respond 200 (token_response_json result)
       (set_header "Pragma" "no-cache" (set_header "Cache-Control" "no-store" rq)))].

Definition introspection_denied (rq : HttpRequest) : AuditEvent :=
  mkAuditEvent "INTROSPECTION_DENIED" None None (rq_ip rq) None (Some (rq_requestId rq))
    (Some [("reason", JStr "client_auth_failed")]).

(** [!client || !(await verifySecret(client, secret))] *)
Definition client_verified (clientId secret : string) : M bool :=
  client ← ClientRepository.findByClientId clientId;
  match client with
  | None => mret false
  | Some c => ClientRepository.verifySecret c secret
  end.

Definition post_introspect : list RequestHandler :=
  [asyncHandler (λ rq,
     form ← parseForm introspectFormSchema rq;
     match parseBasicAuth rq with
     | None => respond 401 (oauth_error "invalid_client" "Client authentication required") rq
     | Some (clientId, secret) =>
         ok ← client_verified clientId secret;
         if negb ok then
           _ ← audit_record (introspection_denied rq);
           respond 401 (oauth_error "invalid_client" "Invalid client credentials") rq
         else
           r ← OAuthService.introspect (jstr form "token");
           respond 200 (introspection_json r) rq
     end)].

Definition post_revoke : list RequestHandler :=
  [asyncHandler (λ rq,
     form ← parseForm revokeFormSchema rq;
     _ ← OAuthService.revoke (jstr form "token") (requestContext rq);
     respond 200 (JObj [("revoked", JBool true)]) rq)].

Definition oauthRoutes : list (string * string * list RequestHandler) :=
  [("GET", "/authorize", get_authorize); ("POST", "/token", post_token);
   ("POST", "/introspect", post_introspect); ("POST", "/revoke", post_revoke)].

(** * OpenID Connect *)

Definition get_userinfo : list RequestHandler :=
  [authenticate;
   asyncHandler (λ rq,
     let user := default (mkAuthUser "" "" None None None None "") (rq_user rq) in
     if negb (includes (split_ws (au_scope user)) "openid") then
       respond 403 (oauth_error "insufficient_scope" "openid scope required") rq
     else
       row ← UserRepository.findById (au_sub user);
       match row with
       | None => respond 404 (JObj [("error", JStr "not_found")]) rq
       | Some row => respond 200 (userinfo_claims row (split_ws (au_scope user))) rq
       end)].

Definition get_discovery : list RequestHandler :=
  [asyncHandler (λ rq,
     respond 200 (discovery_json (strip_slash (JWT_ISSUER cfg)))
       (set_header "Cache-Control" "public, max-age=300" rq))].

(** * The published keys *)

Definition jwk_entry (k : SigningPublicKey) : M json :=
  match jwk_of_pem (pk_publicKeyPem k) with
  | Rejected e => Throw e
  | Resolved fields =>
      mret (JObj (fields ++ [("kid", JStr (pk_kid k)); ("alg", JStr "EdDSA"); ("use", JStr "sig")]))
  end.

Definition get_jwks : list RequestHandler :=
  [asyncHandler (λ rq,
     publicKeys ← listPublicKeys;
     keys ← mapM jwk_entry publicKeys;
     respond 200 (JObj [("keys", JArr keys)]) (set_header "Cache-Control" "public, max-age=300" rq))].

(** * Health *)

(** The named readiness checks, in order; a failing one does not stop the
    others. *)
Definition run_check (name : string) (check : M ()) : M (string * bool) :=
  catch (λ _, mret (name, false)) (_ ← check; mret (name, true)).

Definition get_ready (checks : list (string * M ())) : list RequestHandler :=
  [asyncHandler (λ rq,
     results ← mapM (λ c, run_check c.1 c.2) checks;
     let failed := existsb (λ r : string * bool, negb r.2) results in
     respond (if failed then 503 else 200)
       (JObj [("status", JStr (if failed then "degraded" else "ok"));
              ("dependencies", JObj (map (λ r : string * bool,
                 (r.1, JStr (if r.2 then "ok" else "unavailable"))) results))]) rq)].

Definition get_live : list RequestHandler := [respond 200 (JObj [("status", JStr "ok")])].
End routes.

(** * The Basic scheme *)

(** The header of a client that follows RFC 6749, section 2.3.1. *)
Definition basic_header (id secret : string) : string :=
  "Basic " +:+ to_base64 (encodeURIComponent id +:+ ":" +:+ encodeURIComponent secret).

(** A client that sends its credentials as the specification asks, each
    percent-encoded, is understood, whatever characters they contain; a colon
    in them does not move the boundary. *)
Theorem basic_auth_roundtrip (rq : HttpRequest) (id secret : string) :
  header rq "authorization" = Some (basic_header id secret) → id ≠ "" →
  parseBasicAuth rq = Some (id, secret).
Proof.
  intros Hh Hid. unfold parseBasicAuth. rewrite Hh. unfold basic_header.
  rewrite starts_with_app, (slice_from_app "Basic "), base64_roundtrip.
  change (":" +:+ encodeURIComponent secret) with (String ":" (encodeURIComponent secret)).
  rewrite split_first_app by by apply encode_avoids.
  destruct (encodeURIComponent id) as [|c e] eqn:He; [by apply encode_nonempty in Hid|].
  by rewrite <- He, !uri_roundtrip.
Qed.

Lemma basic_auth_roundtrip_witness :
  parseBasicAuth (mkRequest (<["authorization" := basic_header "shop:1" "p%ss w0rd"]> ∅) None (JObj []) (JObj [])
    (JObj []) "" None None []) = Some ("shop:1", "p%ss w0rd").
Proof. apply basic_auth_roundtrip; [by vm_compute|discriminate]. Defined.
