(* ===== verification/Gateway.v ===== *)
(** src/modules/gateway: remote verification of access tokens, the scope
    check, and the proxy that replaces the identity headers. *)
From S2P Require Import Prelude Async JsString Errors Store Evolution Toy Redis RateLimit Http Keys Jwt Guards.
From stdpp Require Import base gmap strings list.
From Stdlib Require Import ZArith Ascii.
Local Open Scope string_scope.
Local Open Scope list_scope.
Local Open Scope Z_scope.

(** [createRemoteJWKSet] and [jwtVerify] with it: the verdict on a token given
    the keys the library holds, and which keys it holds. *)
Class RemoteJose : Type := {
  remoteJwtVerify : string → VerifyOptions → World → outcome Err Claims;
  remote_knows : World → string → string → Prop;
}.

(** The behaviour relied on: a token is accepted only with a key of the set
    the library holds, and the keys it holds were published by the server when
    it fetched them. It keeps them for a minute ([cacheMaxAge]); the law says
    that they still are published, which rotation guarantees, since no key
    leaves the published set ([Keys.key_rotation]). *)
Class RemoteLaws `{K : KeyManagementService} (J : Jose) (Q : RemoteJose) (kp : string → string → Prop)
    : Prop := {
  remote_sound : ∀ t o w c, remoteJwtVerify t o w = Resolved c →
    claims_verdict o (w_now w / 1000) c = None ∧
    ∃ kid pub priv, remote_knows w kid pub ∧ kp pub priv ∧ t = SignJWT kid c priv;
  remote_complete : ∀ kid pub priv c o w, remote_knows w kid pub → kp pub priv →
    claims_verdict o (w_now w / 1000) c = None →
    remoteJwtVerify (SignJWT kid c priv) o w = Resolved c;
  remote_throws : ∀ t o w e, remoteJwtVerify t o w = Rejected e → ∃ code msg, e = ELib None code msg;
  remote_published : ∀ w kid pub, remote_knows w kid pub → publishes w kid pub;
}.

Module RemoteTokenVerifier.
Section verifier.
Context `{P : Platform, Q : RemoteJose}.

Definition options : VerifyOptions :=
  mkVerifyOptions (JWT_ISSUER cfg) (JWT_AUDIENCE cfg) 5
    ["iss"; "sub"; "aud"; "exp"; "iat"; "jti"; "scope"].

(** The handler of [verify]. *)
Definition map_error (err : Err) : Err :=
  if instanceof_AuthError err then err
  else
    let code := default "" (err_code err) in
    if bool_decide (code = "ERR_JWT_EXPIRED") then AuthError "Token expired" "TOKEN_EXPIRED"
    else if bool_decide (code = "ERR_JWKS_NO_MATCHING_KEY" ∨ code = "ERR_JWKS_MULTIPLE_MATCHING_KEYS")
    then AuthError "Unknown signing key" "UNKNOWN_SIGNING_KEY"
    else AuthError "Invalid access token" "INVALID_TOKEN".

Definition verify (token : string) : M Claims :=
  catch (λ err, Throw (map_error err))
    (payload ← attempt (λ w, (remoteJwtVerify token options w, w));
     revoked ← (match truthy (cl_jti payload) with
                | Some jti => TokenRevocationService.isRevoked jti
                | None => mret false
                end);
     if (revoked : bool) then Throw (AuthError "Token has been revoked" "TOKEN_REVOKED")
     else mret payload).
End verifier.
End RemoteTokenVerifier.

(** * Middlewares *)

Definition bearerToken (rq : HttpRequest) : option string :=
  match bearer rq with
  | Some t => truthy (Some (js_trim t))
  | None => None
  end.

Definition edge_user (payload : Claims) : AuthenticatedUser :=
  mkAuthUser (default "undefined" (cl_sub payload)) (default "" (cl_scope payload))
    (Some (default [] (cl_roles payload))) (Some (default [] (cl_permissions payload)))
    (cl_sid payload) (cl_client_id payload) (default "undefined" (cl_jti payload)).

Definition requireScopes (anyOf : list string) : RequestHandler := λ rq,
  match rq_user rq with
  | None => mret (NextErr rq (AppError 401 "MISSING_TOKEN" "Authentication required"))
  | Some user =>
      if existsb (includes (scope_list (au_scope user))) anyOf then mret (Next rq)
      else mret (NextErr rq (AppError 403 "INSUFFICIENT_SCOPE"
             ("Requires one of scopes: " +:+ js_join ", " anyOf)))
  end.

Definition PROTECTED_HEADERS : list string :=
  ["x-user-id"; "x-user-scopes"; "x-user-roles"; "x-client-id"; "x-token-sid"].

(** [for (const h of PROTECTED_HEADERS) delete req.headers[h]] *)
Definition strip_identity : RequestHandler := λ rq,
  mret (Next (rq <| rq_headers ::= λ hs, foldr delete hs PROTECTED_HEADERS |>)).

(** [proxyReq.setHeader(name, value)]: [None] when the value holds a character
    a header cannot carry and the call throws. *)
Definition header_char (c : ascii) : bool :=
  let n := nat_of_ascii c in (n =? 9)%nat || ((32 <=? n)%nat && (n <=? 126)%nat) || (128 <=? n)%nat.

Definition put_header (name : string) (value : option string) (hs : option (gmap string string))
    : option (gmap string string) :=
  match hs, value with
  | Some hs, Some v => if all_chars header_char v then Some (<[name := v]> hs) else None
  | hs, None => hs
  | None, _ => None
  end.

(** The handler of [proxyReq]: the headers of the forwarded request. *)
Definition forwarded_headers `{P : Platform} (rq : HttpRequest) : option (gmap string string) :=
  let with_user :=
    match rq_user rq with
    | Some user =>
        put_header "x-client-id" (truthy (au_client_id user))
          (put_header "x-token-sid" (truthy (au_sid user))
             (put_header "x-user-roles" (Some (js_join "," (default [] (au_roles user))))
                (put_header "x-user-scopes" (Some (au_scope user))
                   (put_header "x-user-id" (Some (au_sub user)) (Some (rq_headers rq))))))
    | None => Some (rq_headers rq)
    end in
  put_header "x-internal-secret" (truthy (GATEWAY_SHARED_SECRET cfg)) with_user.

(** A header value on the wire loses the blanks around it. *)
Definition transmitted (hs : gmap string string) : gmap string string := js_trim <$> hs.

Definition bad_gateway : Response :=
  mkResponse 502 (JObj [("error", JStr "BAD_GATEWAY"); ("message", JStr "Upstream service unavailable")]).

Section gateway.
Context `{P : Platform, Q : RemoteJose}.

Definition authenticateRemote : RequestHandler := λ rq,
  match bearerToken rq with
  | None => mret (NextErr rq (AppError 401 "MISSING_TOKEN" "Authorization header required"))
  | Some token =>
      catch (λ e, mret (NextErr rq e))
        (payload ← RemoteTokenVerifier.verify token;
         mret (Next (rq <| rq_user := Some (edge_user payload) |>)))
  end.

(** What the upstream service answers; a rejection is an unreachable service. *)
Context (upstream : HttpRequest → M (list (string * string) * Response)).

(** The exception of [setHeader] escapes the event handler of the proxy: no
    response is sent. *)
Definition proxy_crash : Err := ELib None (Some "ERR_INVALID_CHAR") "Invalid character in header content".

Definition upstream_request (rq : HttpRequest) (hs : gmap string string) : HttpRequest :=
  mkRequest (transmitted hs) (rq_ip rq) (rq_query rq) (rq_params rq) (rq_body rq) "" None None [].

Definition proxy : RequestHandler := λ rq,
  match forwarded_headers rq with
  | None => Throw proxy_crash
  | Some hs =>
      catch (λ _, mret (Done rq bad_gateway))
        (r ← upstream (upstream_request rq hs);
         mret (Done (rq <| rq_sent ::= λ sent, sent ++ r.1 |>) r.2))
  end.

(** The chain in front of /api/v1. *)
Definition gateway_api : list RequestHandler :=
  [requestIdMiddleware "x-request-id";
   ip_limit (mkRateLimit "gw" (RATE_LIMIT_API cfg) (RATE_LIMIT_WINDOW cfg));
   strip_identity; authenticateRemote; requireScopes ["api.read"]; proxy].
End gateway.
