(* ===== verification/Resource.v ===== *)
(** src/modules/resources: the resource API behind the gateway, its identity
    headers and its documents. *)
From S2P Require Import Prelude Async JsString Errors Store Evolution Toy Redis RateLimit Http Gateway.
From stdpp Require Import base gmap strings list sorting.
From Stdlib Require Import ZArith Ascii.
Local Open Scope string_scope.
Local Open Scope list_scope.
Local Open Scope Z_scope.

(** * Identity *)

(** [/^[0-9a-f]{8}-[0-9a-f]{4}-[0-9a-f]{4}-[0-9a-f]{4}-[0-9a-f]{12}$/i] *)
Definition uuid_ok (s : string) : bool :=
  let parts := split_on "-" s in
  bool_decide (map String.length parts = [8; 4; 4; 4; 12]%nat) && forallb (all_chars is_hex) parts.

(** [value.split(/[\s,]+/).filter(Boolean)]: a comma counts as a blank. *)
Fixpoint commas_to_blanks (s : string) : string :=
  match s with
  | EmptyString => EmptyString
  | String c rest => String (if Ascii.eqb c "," then " "%char else c) (commas_to_blanks rest)
  end.
Definition splitCsvOrSpace (value : option string) : list string :=
  match truthy value with Some v => scope_list (commas_to_blanks v) | None => [] end.

(** [asString(req.headers[name])] *)
Definition header_string (rq : HttpRequest) (name : string) : option string := truthy (header rq name).

Definition requireGatewaySecret `{P : Platform} : RequestHandler := λ rq,
  match truthy (GATEWAY_SHARED_SECRET cfg) with
  | None => mret (Next rq)
  | Some secret =>
      if bool_decide (header rq "x-internal-secret" = Some secret) then mret (Next rq)
      else mret (NextErr rq
             (AppError 403 "FORBIDDEN_ORIGIN" "Direct access to resource API is not allowed"))
  end.

Definition NO_IDENTITY : Err := AppError 401 "NO_IDENTITY" "Request must traverse the gateway".

(** The identity the headers carry. *)
Definition identity_of (rq : HttpRequest) : ResourceIdentity :=
  let userId := match header_string rq "x-user-id" with
                | Some u => if uuid_ok u then Some u else None
                | None => None
                end in
  mkIdentity userId (header_string rq "x-client-id")
    (splitCsvOrSpace (header_string rq "x-user-scopes"))
    (splitCsvOrSpace (header_string rq "x-user-roles"))
    (header_string rq "x-request-id").

Definition requireIdentity : RequestHandler := λ rq,
  let i := identity_of rq in
  match id_userId i, id_clientId i with
  | None, None => mret (NextErr rq NO_IDENTITY)
  | _, _ => mret (Next (rq <| rq_identity := Some i |>))
  end.

Definition requireResourceScope (anyOf : list string) : RequestHandler := λ rq,
  match rq_identity rq with
  | None => mret (NextErr rq NO_IDENTITY)
  | Some i =>
      if existsb (includes (id_scopes i)) anyOf then mret (Next rq)
      else mret (NextErr rq (AppError 403 "INSUFFICIENT_SCOPE"
             ("Requires one of scopes: " +:+ js_join ", " anyOf)))
  end.

(** * Documents *)

Module DocumentRepository.

Definition title_violation : Err :=
  ELib None (Some "23514") "new row violates check constraint documents_title_check".

(** Identifiers are of type uuid: compared without regard to case. *)
Definition create_row `{P : Platform} (ownerId title content : string) (w : World)
    : outcome Err DocumentRow * World :=
  let row := mkDocumentRow (random_uuid (w_draws w)) (to_lower ownerId) title content (w_now w) (w_now w) in
  if decide (¬ (1 ≤ String.length title ≤ 200)%nat) then (Rejected title_violation, w)
  else if decide (to_lower ownerId ∉ u_id <$> users (w_db w)) then (Rejected foreign_key_violation, w)
  else (Resolved row, on_db (λ d, d <| documents ::= λ t, t ++ [row] |>) w <| w_draws ::= N.succ |>).

Definition create `{P : Platform} (ownerId title : string) (content : option string) : M DocumentRow :=
  attempt (create_row ownerId title (default "" content)).

Definition listByOwner (ownerId : string) (limit offset : Z) : M (list DocumentRow) :=
  db_select (λ d, sql_page limit offset (order_newest d_created_at
    (sql_select (λ r, d_owner_id r = to_lower ownerId) (documents d)))).

Definition listAll (limit offset : Z) : M (list DocumentRow) :=
  db_select (λ d, sql_page limit offset (order_newest d_created_at (documents d))).

Definition findById (id : string) : M (option DocumentRow) :=
  db_select (λ d, sql_first (λ r, d_id r = to_lower id) (documents d)).

Definition remove (id : string) : M bool :=
  atomically (λ w,
    (bool_decide (sql_select (λ r, d_id r = to_lower id) (documents (w_db w)) ≠ []),
     on_db (λ d, d <| documents ::= sql_delete (λ r, d_id r = to_lower id) |>) w)).
End DocumentRepository.

(** * Routes *)

Definition createSchema : Schema := ZObject false
  [("title", ZString [CMin 1; CMax 200]); ("content", ZOptional (ZString [CMax 50000]))].

Definition identity_json (i : ResourceIdentity) : json :=
  JObj (jopt "userId" (JStr <$> id_userId i) ++ jopt "clientId" (JStr <$> id_clientId i)
        ++ [("scopes", JArr (JStr <$> id_scopes i)); ("roles", JArr (JStr <$> id_roles i))]
        ++ jopt "requestId" (JStr <$> id_requestId i)).

Definition document_json (r : DocumentRow) : json :=
  JObj [("id", JStr (d_id r)); ("owner_id", JStr (d_owner_id r)); ("title", JStr (d_title r));
        ("content", JStr (d_content r)); ("created_at", JNum (d_created_at r));
        ("updated_at", JNum (d_updated_at r))].

Definition no_identity : ResourceIdentity := mkIdentity None None [] [] None.

Section routes.
Context `{P : Platform, Z0 : Zod}.

(** [identity(req)] *)
Definition identity (rq : HttpRequest) : ResourceIdentity := default no_identity (rq_identity rq).

Definition get_identity : list RequestHandler := [λ rq, respond 200 (identity_json (identity rq)) rq].

Definition get_documents : list RequestHandler :=
  [requireResourceScope ["api.read"];
   asyncHandler (λ rq,
     rows ← match id_userId (identity rq) with
            | Some u => DocumentRepository.listByOwner u 50 0
            | None => DocumentRepository.listAll 50 0
            end;
     respond 200 (JObj [("data", JArr (document_json <$> rows))]) rq)].

Definition post_documents : list RequestHandler :=
  [requireResourceScope ["api.write"]; validate_body createSchema;
   asyncHandler (λ rq,
     match id_userId (identity rq) with
     | None => Throw (AppError 403 "SERVICE_FORBIDDEN" "Service clients cannot create documents")
     | Some u =>
         row ← DocumentRepository.create u (jstr (rq_body rq) "title") (jstr_opt (rq_body rq) "content");
         respond 201 (JObj [("id", JStr (d_id row)); ("title", JStr (d_title row));
                            ("created_at", JNum (d_created_at row))]) rq
     end)].

(** [!row || (me.userId && row.owner_id !== me.userId)] *)
Definition foreign (me : ResourceIdentity) (row : option DocumentRow) : bool :=
  match row with
  | None => true
  | Some r => match id_userId me with Some u => negb (bool_decide (d_owner_id r = u)) | None => false end
  end.

Definition delete_document : list RequestHandler :=
  [requireResourceScope ["api.write"];
   asyncHandler (λ rq,
     let me := identity rq in
     let id := jstr (rq_params rq) "id" in
     if negb (uuid_ok id) then Throw (AppError 400 "VALIDATION_ERROR" "Invalid document id")
     else
       row ← DocumentRepository.findById id;
       if foreign me row then Throw (AppError 404 "NOT_FOUND" "Document not found")
       else if bool_decide (is_Some (id_userId me)) && negb (includes (id_roles me) "admin")
       then Throw (AppError 403 "FORBIDDEN" "Only the owner or an admin can delete")
       else
         _ ← DocumentRepository.remove id;
         respond 204 JNull rq)].

Definition documentsRoutes : list (string * string * list RequestHandler) :=
  [("GET", "/me", get_identity); ("GET", "/documents", get_documents);
   ("POST", "/documents", post_documents); ("DELETE", "/documents/:id", delete_document)].

(** The application: the checks in front of a route of /api/v1. *)
Definition resource_api (route : list RequestHandler) : list RequestHandler :=
  requestIdMiddleware "x-request-id" :: requireGatewaySecret :: requireIdentity :: route.
End routes.
