(* ===== verification/Documents.v ===== *)
(** Ownership of documents: what a user, and a service, can do through the
    routes of the resource API. *)
From S2P Require Import Prelude Async JsString Errors Store Evolution Toy Redis RateLimit Http Gateway Resource.
From stdpp Require Import base gmap strings list sorting.
From Stdlib Require Import ZArith Ascii.
Local Open Scope string_scope.
Local Open Scope list_scope.
Local Open Scope Z_scope.

Section properties.
Context `{P : Platform, Z0 : Zod}.

Lemma run_requireResourceScope anyOf rq w :
  ∃ r, run (requireResourceScope anyOf rq) w = (Resolved r, w) ∧
    (∀ rq', r = Next rq' → rq' = rq ∧ ∃ i s, rq_identity rq = Some i ∧ s ∈ anyOf ∧ s ∈ id_scopes i) ∧
    (∀ rq' res, r = Done rq' res → False) ∧
    (∀ i s, rq_identity rq = Some i → s ∈ anyOf → s ∈ id_scopes i → r = Next rq).
Proof.
  unfold requireResourceScope. destruct (rq_identity rq) as [i|].
  - destruct (existsb _ _) eqn:He; eexists; (split; [done|]).
    + apply existsb_exists in He as (s & Hs & Hi). split_and!; try done. intros rq' [= <-].
      split; [done|]. exists i, s. split; [done|]. split; [by apply list_elem_of_In|]. by apply includes_spec.
    + split_and!; try done. intros i' s [= <-] Hs Hi. exfalso. apply (not_true_iff_false _) in He.
      apply He, existsb_exists. exists s. split; [by apply list_elem_of_In|]. by apply includes_spec.
  - eexists. by split_and!.
Qed.

(** The scope guard and what comes after it. *)
Lemma run_scoped anyOf rest rq w r w' :
  run (chain (requireResourceScope anyOf :: rest) rq) w = (r, w') →
  (w' = w ∧ ∃ e, r = Resolved (NextErr rq e)) ∨
  ((∃ i s, rq_identity rq = Some i ∧ s ∈ anyOf ∧ s ∈ id_scopes i) ∧ run (chain rest rq) w = (r, w')).
Proof.
  destruct (run_requireResourceScope anyOf rq w) as (r0 & Hr & Hn & Hd & _).
  rewrite (run_chain_cons _ _ _ _ _ _ Hr). destruct r0 as [rq'|rq' e|rq' res].
  - destruct (Hn rq' eq_refl) as [-> Hs]. by right.
  - intros [= <- <-]. left. split; [done|]. exists e.
    assert (rq' = rq) as ->; [|done]. unfold requireResourceScope in Hr.
    destruct (rq_identity rq); [destruct (existsb _ _)|]; by simplify_eq/=.
  - by destruct (Hd rq' res).
Qed.

Definition id_keys (w : World) : Prop := NoDup (d_id <$> documents (w_db w)).

Lemma remove_only id row w d :
  id_keys w → row ∈ documents (w_db w) → d_id row = to_lower id →
  d ∈ documents (w_db (run (DocumentRepository.remove id) w).2) ↔ d ∈ documents (w_db w) ∧ d ≠ row.
Proof.
  intros Hk Hrow Hid. simpl. unfold sql_delete. rewrite list_elem_of_filter. split.
  - intros [Hne Hd]. split; [done|]. by intros ->.
  - intros [Hd Hne]. split; [|done]. intros He. apply Hne.
    apply (unique_row d_id (documents (w_db w))); congruence || done.
Qed.

(** A listing: the newest rows first, at most fifty of them. *)
Lemma page_spec rows :
  Sorted (newest_first d_created_at) (sql_page 50 0 (order_newest d_created_at rows)) ∧
  (∀ d, d ∈ sql_page 50 0 (order_newest d_created_at rows) → d ∈ rows) ∧
  length (sql_page 50 0 (order_newest d_created_at rows)) = (50 `min` length rows)%nat.
Proof.
  unfold sql_page, order_newest. rewrite drop_0. change (Z.to_nat 50) with 50%nat. split_and!.
  - pose proof (Sorted_merge_sort (newest_first d_created_at) rows) as Hs.
    apply StronglySorted_Sorted. apply Sorted_StronglySorted in Hs; [|apply _].
    rewrite <- (take_drop 50 (merge_sort _ rows)) in Hs. by apply StronglySorted_app_1_l in Hs.
  - intros d Hd. rewrite <- (merge_sort_Permutation (newest_first d_created_at) rows).
    apply elem_of_take in Hd as (n & Hn & _). by eapply list_elem_of_lookup_2.
  - rewrite length_take. by rewrite (Permutation_length (merge_sort_Permutation (newest_first d_created_at) rows)).
Qed.

(** The three routes, for a user. *)
Lemma get_documents_user rq i u w r w' :
  rq_identity rq = Some i → id_userId i = Some u → to_lower u = u →
  run (chain get_documents rq) w = (r, w') →
  w' = w ∧ ("api.read" ∈ id_scopes i →
   ∃ rows, r = Resolved (Done rq (mkResponse 200 (JObj [("data", JArr (document_json <$> rows))]))) ∧
     Sorted (newest_first d_created_at) rows ∧
     (∀ d, d ∈ rows → d ∈ documents (w_db w) ∧ d_owner_id d = u)).
Proof.
  intros Hi Hu Hl Hr. unfold get_documents in Hr.
  destruct (run_requireResourceScope ["api.read"] rq w) as (r0 & Hr0 & Hn & Hd & Hok).
  rewrite (run_chain_cons _ _ _ _ _ _ Hr0) in Hr. destruct r0 as [rq'|rq' e|rq' res].
  - destruct (Hn rq' eq_refl) as [-> _]. cbn [chain] in Hr.
    assert (Hi1 : identity rq = i) by (unfold identity; by rewrite Hi).
    rewrite run_bind, run_asyncHandler, Hi1, Hu in Hr. injection Hr as <- <-. split; [done|].
    intros _. eexists. split; [reflexivity|].
    destruct (page_spec (sql_select (λ r, d_owner_id r = to_lower u) (documents (w_db w))))
      as (Hsorted & Hin & _).
    split; [exact Hsorted|]. intros d Hd'. apply Hin, elem_of_select in Hd' as [Ho Hd'].
    split; [done|]. by rewrite Ho.
  - injection Hr as <- <-. split; [done|]. intros Hs.
    by specialize (Hok i "api.read" Hi ltac:(by left) Hs).
  - by destruct (Hd rq' res).
Qed.

Lemma post_documents_user rq i u w r w' :
  rq_identity rq = Some i → id_userId i = Some u → to_lower u = u →
  run (chain post_documents rq) w = (r, w') →
  documents (w_db w') = documents (w_db w) ∨
  ∃ row, documents (w_db w') = documents (w_db w) ++ [row] ∧ d_owner_id row = u.
Proof.
  intros Hi Hu Hl Hr. unfold post_documents in Hr.
  apply run_scoped in Hr as [[-> _]|[_ Hr]]; [by left|].
  rewrite (run_chain_cons _ _ _ _ _ _ (run_validate_body createSchema rq w)) in Hr.
  destruct (safeParse createSchema (rq_body rq)) as [issues|data]; [injection Hr as _ <-; by left|].
  set (rq1 := rq <| rq_body := data |>) in *.
  assert (Hi1 : identity rq1 = i) by (unfold identity; change (rq_identity rq1) with (rq_identity rq); by rewrite Hi).
  cbn [chain] in Hr. rewrite run_bind, run_asyncHandler, Hi1, Hu in Hr.
  rewrite run_bind in Hr. unfold DocumentRepository.create in Hr. rewrite run_attempt in Hr.
  unfold DocumentRepository.create_row in Hr.
  case_decide; [injection Hr as _ <-; by left|]. case_decide; [injection Hr as _ <-; by left|].
  injection Hr as _ <-. right. by eexists.
Qed.

Lemma delete_document_user rq i u w r w' :
  rq_identity rq = Some i → id_userId i = Some u → id_keys w →
  run (chain delete_document rq) w = (r, w') →
  documents (w_db w') = documents (w_db w) ∨
  ("admin" ∈ id_roles i ∧ ∃ row, row ∈ documents (w_db w) ∧ d_owner_id row = u ∧
     ∀ d, d ∈ documents (w_db w') ↔ d ∈ documents (w_db w) ∧ d ≠ row).
Proof.
  intros Hi Hu Hk Hr. unfold delete_document in Hr.
  apply run_scoped in Hr as [[-> _]|[_ Hr]]; [by left|].
  assert (Hi1 : identity rq = i) by (unfold identity; by rewrite Hi).
  cbn [chain] in Hr. rewrite run_bind, run_asyncHandler, Hi1 in Hr. cbv zeta in Hr.
  set (id := jstr (rq_params rq) "id") in *.
  destruct (negb (uuid_ok id)); [injection Hr as _ <-; by left|].
  unfold DocumentRepository.findById in Hr. erewrite run_bind_eq in Hr by reflexivity. cbv beta in Hr.
  destruct (sql_first (λ x, d_id x = to_lower id) (documents (w_db w))) as [row|] eqn:Hrow.
  2: { injection Hr as _ <-. by left. }
  unfold foreign in Hr. rewrite Hu in Hr. case_bool_decide as Ho; [|injection Hr as _ <-; by left].
  cbn [negb] in Hr. rewrite bool_decide_eq_true_2 in Hr by by eexists. cbn [andb] in Hr.
  destruct (includes (id_roles i) "admin") eqn:Ha; [|injection Hr as _ <-; by left].
  apply sql_first_Some in Hrow as [Hid Hin]. cbv beta in Hid.
  right. split; [by apply includes_spec|]. exists row. split; [done|]. split; [done|].
  intros d. rewrite <- (remove_only id row w d) by done.
  cbn [negb] in Hr. erewrite run_bind_eq in Hr by reflexivity. injection Hr as _ <-. done.
Qed.

Lemma run_documents_route (route : string * string * list RequestHandler) (rq : HttpRequest)
    (i : ResourceIdentity) (u : string) (w w' : World) r :
  route ∈ documentsRoutes → rq_identity rq = Some i → id_userId i = Some u → to_lower u = u →
  id_keys w → run (chain route.2 rq) w = (r, w') →
  (∀ d, d_owner_id d ≠ u → d ∈ documents (w_db w') ↔ d ∈ documents (w_db w)) ∧
  (∀ d, d ∈ documents (w_db w) → d ∉ documents (w_db w') → "admin" ∈ id_roles i) ∧
  (route.1 = ("GET", "/documents") → "api.read" ∈ id_scopes i →
   ∃ rows, r = Resolved (Done rq (mkResponse 200 (JObj [("data", JArr (document_json <$> rows))]))) ∧
     Sorted (newest_first d_created_at) rows ∧
     (∀ d, d ∈ rows → d ∈ documents (w_db w) ∧ d_owner_id d = u)).
Proof.
  intros Hroute Hi Hu Hl Hk Hr. unfold documentsRoutes in Hroute.
  repeat (apply elem_of_cons in Hroute as [->|Hroute]); [..|by apply elem_of_nil in Hroute];
    cbn [snd] in *.
  - injection Hr as _ <-. done.
  - destruct (get_documents_user _ _ _ _ _ _ Hi Hu Hl Hr) as [-> Hlist]. done.
  - apply (post_documents_user _ _ _ _ _ _ Hi Hu Hl) in Hr as [->|(row & -> & Ho)];
      (split; [|split; [|done]]); intros d; rewrite ?elem_of_app, ?list_elem_of_singleton; naive_solver.
  - apply (delete_document_user _ _ _ _ _ _ Hi Hu Hk) in Hr as [->|(Ha & row & Hrow & Ho & Hd)];
      (split; [|split; [|done]]); intros d; rewrite ?Hd; naive_solver.
Qed.

(** Documents are isolated. Whatever route of the resource API a user
    calls, the documents of every other owner are afterwards the same; a
    document disappears only when the user has the admin role; and a listing
    holds documents of the user only, newest first. *)
Theorem documents_isolated (route : string * string * list RequestHandler) (rq : HttpRequest)
    (i : ResourceIdentity) (u : string) (w w' : World) r :
  route ∈ documentsRoutes → rq_identity rq = Some i → id_userId i = Some u → to_lower u = u →
  id_keys w → run (chain route.2 rq) w = (r, w') →
  (∀ d, d_owner_id d ≠ u → d ∈ documents (w_db w') ↔ d ∈ documents (w_db w)) ∧
  (∀ d, d ∈ documents (w_db w) → d ∉ documents (w_db w') → "admin" ∈ id_roles i) ∧
  (route.1 = ("GET", "/documents") → "api.read" ∈ id_scopes i →
   ∃ rows, r = Resolved (Done rq (mkResponse 200 (JObj [("data", JArr (document_json <$> rows))]))) ∧
     Sorted (newest_first d_created_at) rows ∧
     (∀ d, d ∈ rows → d ∈ documents (w_db w) ∧ d_owner_id d = u)).
Proof. apply run_documents_route. Qed.

(** Deleting asks for both: the owner who is not an admin is refused, and so is
    the admin who is not the owner. *)
Lemma delete_document_exact rq i u w row :
  let id := jstr (rq_params rq) "id" in
  rq_identity rq = Some i → id_userId i = Some u → "api.write" ∈ id_scopes i → uuid_ok id = true →
  sql_first (λ r, d_id r = to_lower id) (documents (w_db w)) = Some row →
  run (chain delete_document rq) w =
    if bool_decide (d_owner_id row = u) then
      if includes (id_roles i) "admin"
      then (Resolved (Done rq (mkResponse 204 JNull)), (run (DocumentRepository.remove id) w).2)
      else (Resolved (NextErr rq (AppError 403 "FORBIDDEN" "Only the owner or an admin can delete")), w)
    else (Resolved (NextErr rq (AppError 404 "NOT_FOUND" "Document not found")), w).
Proof.
  intros id Hi Hu Hs Hid Hrow.
  destruct (run_requireResourceScope ["api.write"] rq w) as (r0 & Hr0 & _ & _ & Hok).
  rewrite (Hok i "api.write" Hi ltac:(by left) Hs) in Hr0.
  unfold delete_document. rewrite (run_chain_cons _ _ _ _ _ _ Hr0).
  assert (Hi1 : identity rq = i) by (unfold identity; by rewrite Hi).
  cbn [chain]. rewrite run_bind, run_asyncHandler, Hi1. cbv zeta. fold id. rewrite Hid. cbn [negb].
  unfold DocumentRepository.findById. erewrite run_bind_eq by reflexivity. cbv beta. rewrite Hrow.
  unfold foreign. rewrite Hu. case_bool_decide; [|done]. cbn [negb].
  rewrite (bool_decide_eq_true_2 (is_Some (Some u))) by by eexists. cbn [andb].
  by destruct (includes (id_roles i) "admin").
Qed.
End properties.

(** * The property at concrete inputs *)

Section witnesses.
#[local] Existing Instances toy toy_formats toy_zod.

Definition doc_id : string := "00000000-0000-0000-0000-00000000000d".
Definition ada_id : string := "00000000-0000-0000-0000-00000000000a".
Definition bob_id : string := "00000000-0000-0000-0000-00000000000b".
Definition doc_world : World :=
  empty_world 0 <| w_db := empty_db <| documents :=
    [mkDocumentRow doc_id ada_id "Plan" "" 0 0; mkDocumentRow "other" bob_id "Memo" "" 5 5] |> |>.
Definition ada_identity (roles : list string) : ResourceIdentity :=
  mkIdentity (Some ada_id) None ["api.read"; "api.write"] roles None.
Definition doc_request (i : ResourceIdentity) : HttpRequest :=
  mkRequest ∅ None (JObj []) (JObj [("id", JStr doc_id)]) (JObj []) "req-1" None (Some i) [].

(** An admin deletes her document; the other one stays. *)
Lemma documents_isolated_witness :
  let rq := doc_request (ada_identity ["admin"]) in
  ∃ w', run (chain delete_document rq) doc_world = (Resolved (Done rq (mkResponse 204 JNull)), w') ∧
    (∀ d, d_owner_id d ≠ ada_id → d ∈ documents (w_db w') ↔ d ∈ documents (w_db doc_world)) ∧
    documents (w_db w') = [mkDocumentRow "other" bob_id "Memo" "" 5 5].
Proof.
  intros rq. eexists. split; [by vm_compute|]. split; [|done].
  apply (documents_isolated ("DELETE", "/documents/:id", delete_document) rq
    (ada_identity ["admin"]) ada_id doc_world _ (Resolved (Done rq (mkResponse 204 JNull)))).
  - unfold documentsRoutes. set_solver.
  - done.
  - done.
  - by vm_compute.
  - unfold id_keys. simpl. apply NoDup_cons. split; [|apply NoDup_singleton].
    rewrite list_elem_of_singleton. by vm_compute.
  - by vm_compute.
Defined.
End witnesses.
