(* ===== verification/Edge.v ===== *)
(** What the edge guarantees: the identity the resource API sees is the one of
    the verified token, whatever headers the client sent, and documents are
    isolated from each other's owners. *)
From S2P Require Import Prelude Async JsString Errors Store Evolution Toy Redis RateLimit Http AuditLog Keys Jwt Guards Gateway Resource.
From stdpp Require Import base gmap strings list sorting.
From Stdlib Require Import ZArith Ascii.
Local Open Scope string_scope.
Local Open Scope list_scope.
Local Open Scope Z_scope.

(** * Blanks *)

Lemma scope_list_space c s : is_space c = true → scope_list (String c s) = scope_list s.
Proof.
  intros Hc. unfold scope_list. cbn [split_ws]. rewrite Hc. destruct s as [|c' s]; [done|].
  by destruct (is_space c').
Qed.

(** The same words: the same first piece, and the same words after it. *)
Definition same_words (a b : string) : Prop :=
  head (split_ws a) = head (split_ws b) ∧
  filter (λ w, w ≠ "") (tail (split_ws a)) = filter (λ w, w ≠ "") (tail (split_ws b)).

Lemma same_words_scopes a b : same_words a b → scope_list a = scope_list b.
Proof.
  unfold same_words, scope_list. pose proof (split_ws_nonempty a). pose proof (split_ws_nonempty b).
  destruct (split_ws a) as [|x xs], (split_ws b) as [|y ys]; try done. simpl.
  intros [[= ->] Ht]. by rewrite !filter_cons, Ht.
Qed.

Lemma head_split_space c s : is_space c = true → head (split_ws (String c s)) = Some "".
Proof.
  revert c. induction s as [|c' s IH]; intros c Hc; cbn [split_ws]; rewrite Hc; [done|].
  specialize (IH c'). cbn [split_ws] in IH. destruct (is_space c'); [by apply IH|done].
Qed.

Lemma head_split_word c s : is_space c = false → head (split_ws (String c s)) ≠ Some "".
Proof. intros Hc. cbn [split_ws]. rewrite Hc. by destruct (split_ws s). Qed.

Lemma split_ws_blank c s :
  is_space c = true →
  filter (λ w, w ≠ "") (tail (split_ws (String c s))) =
    match s with
    | String c' _ => if is_space c' then filter (λ w, w ≠ "") (tail (split_ws s)) else scope_list s
    | "" => []
    end.
Proof. intros Hc. cbn [split_ws]. rewrite Hc. destruct s as [|c' s]; [done|]. by destruct (is_space c'). Qed.

Lemma same_words_cons d a b : same_words a b → same_words (String d a) (String d b).
Proof.
  intros Hs. pose proof (same_words_scopes a b Hs) as Hscopes. destruct Hs as [Hh Ht].
  destruct (is_space d) eqn:Hd.
  - split; [by rewrite !head_split_space|]. rewrite !split_ws_blank by done.
    destruct a as [|c a], b as [|c' b]; [done|..].
    + destruct (is_space c') eqn:Hc'; [done|]. by destruct (head_split_word c' b Hc').
    + destruct (is_space c) eqn:Hc; [done|]. by destruct (head_split_word c a Hc).
    + destruct (is_space c) eqn:Hc, (is_space c') eqn:Hc'; try done.
      * destruct (head_split_word c' b Hc'). by rewrite <- Hh, head_split_space.
      * destruct (head_split_word c a Hc). by rewrite Hh, head_split_space.
  - pose proof (split_ws_nonempty a). pose proof (split_ws_nonempty b). unfold same_words in *.
    cbn [split_ws]. rewrite Hd. destruct (split_ws a), (split_ws b); simplify_eq/=; done.
Qed.

Lemma same_words_trim_end s : same_words (commas_to_blanks s) (commas_to_blanks (trim_end s)).
Proof.
  induction s as [|c s IH]; [done|]. cbn [trim_end]. destruct (trim_end s) as [|c' t] eqn:Ht.
  - destruct (is_space c) eqn:Hc; [|by apply (same_words_cons _ _ "")].
    cbn [commas_to_blanks]. destruct (Ascii.eqb c ",") eqn:He; [by apply Ascii.eqb_eq in He as ->|].
    destruct IH as [Hh Hf]. cbn [commas_to_blanks] in Hh, Hf. split; [by rewrite head_split_space|].
    rewrite split_ws_blank by done. destruct (commas_to_blanks s) as [|d r] eqn:Hr; [done|].
    destruct (is_space d) eqn:Hd; [done|]. by destruct (head_split_word d r Hd).
  - by apply (same_words_cons _ _ (commas_to_blanks (String c' t))).
Qed.

(** Blanks around a list of words do not matter. *)
Lemma splitCsv_trim s :
  scope_list (commas_to_blanks (js_trim s)) = scope_list (commas_to_blanks s).
Proof.
  unfold js_trim. rewrite <- (same_words_scopes _ _ (same_words_trim_end (trim_start s))).
  induction s as [|c s IH]; [done|]. cbn [trim_start]. destruct (is_space c) eqn:Hc; [|done].
  rewrite IH. cbn [commas_to_blanks]. destruct (Ascii.eqb c ",") eqn:He; by rewrite scope_list_space.
Qed.

Lemma splitCsvOrSpace_some s :
  splitCsvOrSpace (Some s) = scope_list (commas_to_blanks s).
Proof. unfold splitCsvOrSpace. by destruct s. Qed.

(** * The identity headers *)

Lemma put_header_inv name value hs hs' :
  put_header name value hs = Some hs' →
  ∃ hs0, hs = Some hs0 ∧
    hs' = match value with Some v => <[name := v]> hs0 | None => hs0 end ∧
    (∀ v, value = Some v → all_chars header_char v = true).
Proof.
  unfold put_header. destruct hs as [hs0|]; [|by destruct value].
  destruct value as [v|].
  - destruct (all_chars header_char v) eqn:Hv; [|done]. intros [= <-]. exists hs0.
    split; [done|]. split; [done|]. by intros ? [= <-].
  - intros [= <-]. by exists hs0.
Qed.

(** What a value becomes on the way to the resource API. *)
Definition received (v : option string) : option string :=
  match v with Some v => truthy (Some (js_trim v)) | None => None end.

(** The identity of a user of the gateway, as the resource API sees it. *)
Definition edge_identity (user : AuthenticatedUser) (requestId : option string) : ResourceIdentity :=
  mkIdentity
    (match received (Some (au_sub user)) with
     | Some u => if uuid_ok u then Some u else None
     | None => None
     end)
    (received (truthy (au_client_id user)))
    (scope_list (commas_to_blanks (au_scope user)))
    (scope_list (commas_to_blanks (js_join "," (default [] (au_roles user)))))
    requestId.

Definition stripped (rq : HttpRequest) : Prop :=
  ∀ h, h ∈ PROTECTED_HEADERS → rq_headers rq !! h = None.

Section headers.
Context `{P : Platform}.

Lemma forwarded_user rq user hs :
  rq_user rq = Some user → stripped rq → forwarded_headers rq = Some hs →
  hs !! "x-user-id" = Some (au_sub user) ∧ hs !! "x-user-scopes" = Some (au_scope user) ∧
  hs !! "x-user-roles" = Some (js_join "," (default [] (au_roles user))) ∧
  hs !! "x-client-id" = truthy (au_client_id user) ∧
  hs !! "x-token-sid" = truthy (au_sid user) ∧
  hs !! "x-request-id" = rq_headers rq !! "x-request-id" ∧
  (∀ s, truthy (GATEWAY_SHARED_SECRET cfg) = Some s → hs !! "x-internal-secret" = Some s).
Proof.
  intros Hu Hs. unfold forwarded_headers. rewrite Hu.
  intros (h6 & Hhs & -> & _)%put_header_inv.
  apply put_header_inv in Hhs as (h5 & Hhs & -> & _).
  apply put_header_inv in Hhs as (h4 & Hhs & -> & _).
  apply put_header_inv in Hhs as (h3 & Hhs & -> & _).
  apply put_header_inv in Hhs as (h2 & Hhs & -> & _).
  apply put_header_inv in Hhs as (h1 & [= <-] & -> & _).
  assert (Hclient : rq_headers rq !! "x-client-id" = None) by (apply Hs; unfold PROTECTED_HEADERS; set_solver).
  assert (Hsid : rq_headers rq !! "x-token-sid" = None) by (apply Hs; unfold PROTECTED_HEADERS; set_solver).
  destruct (truthy (GATEWAY_SHARED_SECRET cfg)) as [s|], (truthy (au_client_id user)) as [c|],
    (truthy (au_sid user)) as [sid|]; split_and!; intros; simplify_map_eq; try done;
    repeat (rewrite lookup_insert_ne by done); done.
Qed.

Lemma header_transmitted rq hs name :
  header (upstream_request rq hs) name = js_trim <$> hs !! name.
Proof. unfold header, upstream_request, transmitted. simpl. apply lookup_fmap. Qed.

Lemma header_received rq hs name v :
  hs !! name = v → header_string (upstream_request rq hs) name = received v.
Proof.
  intros Hv. unfold header_string. rewrite header_transmitted, Hv. by destruct v.
Qed.

(** Whatever headers came in, the resource API reads the identity of the user. *)
Lemma identity_of_forwarded rq user hs :
  rq_user rq = Some user → stripped rq → forwarded_headers rq = Some hs →
  identity_of (upstream_request rq hs)
  = edge_identity user (received (rq_headers rq !! "x-request-id")).
Proof.
  intros Hu Hs Hf. destruct (forwarded_user _ _ _ Hu Hs Hf) as (H1 & H2 & H3 & H4 & _ & H5 & _).
  unfold identity_of, edge_identity. rewrite !(header_received _ _ _ _ H1), (header_received _ _ _ _ H2),
    (header_received _ _ _ _ H3), (header_received _ _ _ _ H4), (header_received _ _ _ _ H5).
  f_equal.
  - rewrite <- splitCsv_trim, <- splitCsvOrSpace_some. unfold received. by destruct (js_trim _).
  - rewrite <- splitCsv_trim, <- splitCsvOrSpace_some. unfold received. by destruct (js_trim _).
Qed.
End headers.

(** Roles without blanks or commas survive the trip. *)
Definition no_comma (s : string) : Prop := all_chars (λ c, negb (Ascii.eqb c ",")) s = true.

Lemma commas_none s : no_comma s → commas_to_blanks s = s.
Proof.
  unfold no_comma. induction s as [|c s IH]; simpl; [done|]. destruct (Ascii.eqb c ","); [done|].
  intros Hs. by rewrite IH.
Qed.

Lemma commas_app a b : commas_to_blanks (a +:+ b) = commas_to_blanks a +:+ commas_to_blanks b.
Proof.
  induction a as [|c a IH]; [done|]. change (String c a +:+ b) with (String c (a +:+ b)).
  cbn [commas_to_blanks]. by rewrite IH.
Qed.

Lemma roles_roundtrip roles :
  Forall plain roles → Forall no_comma roles →
  scope_list (commas_to_blanks (js_join "," roles)) = roles.
Proof.
  intros Hp Hc. rewrite <- (scope_list_join roles Hp) at 2. f_equal. clear Hp.
  induction Hc as [|r rs Hr Hrs IH]; [done|]. destruct rs as [|r' rs].
  - unfold js_join. simpl. by apply commas_none.
  - rewrite !join_cons2, !commas_app, IH, commas_none by done. done.
Qed.

(** * The chain of the gateway *)

Section gateway.
Context `{P : Platform, K : KeyManagementService, J : Jose, Q : RemoteJose}.
Context `{KL : !KmsLaws K, QL : !RemoteLaws J Q keypair}.

(** What verification depends on, and the database, are the same. *)
Definition same_edge (w w1 : World) : Prop :=
  w_db w1 = w_db w ∧ w_now w1 = w_now w ∧ same_keys w w1 ∧
  ∀ j, w_redis w1 !! TokenRevocationService.revoked_key j = w_redis w !! TokenRevocationService.revoked_key j.

Lemma same_edge_limited o id w w1 : redis_at (rl_key o id) w w1 → same_edge w w1.
Proof.
  intros [Hn Hr]. unfold non_redis in Hn. injection Hn as Hnow Hdraws Hdb Hmail Hkeys Hseq Hfile.
  split; [done|]. split; [done|]. split; [by split|]. intros j. apply Hr.
  unfold rl_key, TokenRevocationService.revoked_key, RedisService.key. simpl. discriminate.
Qed.

Lemma same_edge_trans w w1 w2 : same_edge w w1 → same_edge w1 w2 → same_edge w w2.
Proof.
  intros (H1 & H2 & [H3 H4] & H5) (H6 & H7 & [H8 H9] & H10). split_and!; [congruence..|split; congruence|].
  intros j. by rewrite H10.
Qed.

Lemma same_edge_denylisted j w w1 : same_edge w w1 → denylisted j w1 ↔ denylisted j w.
Proof.
  intros (_ & Hnow & _ & Hr). unfold denylisted, redis_value_at, redis_live. by rewrite Hr, Hnow.
Qed.

Lemma run_requestId name rq w :
  ∃ rq1 w1, run (requestIdMiddleware name rq) w = (Resolved (Next rq1), w1) ∧
    rq_headers rq1 = rq_headers rq ∧ rq_user rq1 = rq_user rq ∧ same_edge w w1.
Proof.
  unfold requestIdMiddleware. destruct (truthy _) as [s|]; [destruct (request_id_ok s)|];
    (eexists _, _; split; [reflexivity|split_and!; done]).
Qed.

Lemma run_ip_limit o rq w :
  (∃ rq1 w1, run (ip_limit o rq) w = (Resolved (Next rq1), w1) ∧
     rq_headers rq1 = rq_headers rq ∧ rq_user rq1 = rq_user rq ∧ same_edge w w1) ∨
  (∃ rq1 e w1, run (ip_limit o rq) w = (Resolved (NextErr rq1 e), w1) ∧ same_edge w w1).
Proof.
  pose proof (respects_run _ _ w (rl_redis_at o (client_ip rq))) as Hk. apply same_edge_limited in Hk.
  unfold ip_limit, rate_limit. rewrite run_catch, run_bind.
  destruct (run (rateLimitMiddleware o (client_ip rq)) w) as [[e|res] w1]; simpl in Hk.
  - right. eexists _, _, _. by split; [reflexivity|].
  - destruct (rl_error res) as [[a| | |]|];
      [right; eexists _, _, _; by split..|left; eexists _, _; by split_and!].
Qed.

Lemma run_isRevoked_cases j w :
  (run (TokenRevocationService.isRevoked j) w).2 = w ∧
  match (run (TokenRevocationService.isRevoked j) w).1 with
  | Rejected e => ∃ st co m, e = ELib st co m
  | Resolved b => b = false → ¬ denylisted j w
  end.
Proof.
  unfold TokenRevocationService.isRevoked, RedisService.get, denylisted. rewrite run_bind, run_attempt.
  destruct (redis_value_at w (TokenRevocationService.revoked_key j)) as [v|]; [|done].
  destruct v as [s|n|m|row|ch]; (split; [done|]); simpl; try (by eexists _, _, _); [|done].
  case_bool_decide as Hs; [done|]. intros _ [= ->]. done.
Qed.

(** Remote verification reads the store, accepts what a published key signed
    and refuses with a 401. *)
Lemma run_remote_verify token w :
  (run (RemoteTokenVerifier.verify token) w).2 = w ∧
  match (run (RemoteTokenVerifier.verify token) w).1 with
  | Rejected e => ∃ msg code, e = AuthError msg code
  | Resolved c =>
      claims_verdict RemoteTokenVerifier.options (w_now w / 1000) c = None ∧
      (∃ kid pub priv, token = SignJWT kid c priv ∧ keypair pub priv ∧ publishes w kid pub) ∧
      (∀ j, cl_jti c = Some j → j ≠ "" → ¬ denylisted j w)
  end.
Proof.
  unfold RemoteTokenVerifier.verify. rewrite run_catch, run_bind, run_attempt.
  destruct (remoteJwtVerify token RemoteTokenVerifier.options w) as [e|c] eqn:Hv.
  { destruct (remote_throws _ _ _ _ Hv) as (code & msg & ->). rewrite run_throw. split; [done|].
    unfold RemoteTokenVerifier.map_error. simpl. repeat case_bool_decide; by eexists _, _. }
  destruct (remote_sound _ _ _ _ Hv) as (Hc & kid & pub & priv & Hk & Hp & ->).
  assert (Hok : ∃ kid' pub' priv', SignJWT kid c priv = SignJWT kid' c priv' ∧ keypair pub' priv' ∧
    publishes w kid' pub').
  { exists kid, pub, priv. split; [done|]. split; [done|]. by apply remote_published. }
  rewrite run_bind. destruct (truthy (cl_jti c)) as [j|] eqn:Hj.
  - destruct (run_isRevoked_cases j w) as [Hw Hr].
    destruct (run (TokenRevocationService.isRevoked j) w) as [[e|[]] w1]; simpl in Hw, Hr; subst w1.
    + destruct Hr as (st & co & m & ->). split; [done|]. simpl.
      unfold RemoteTokenVerifier.map_error. simpl. repeat case_bool_decide; by eexists _, _.
    + split; [done|]. by eexists _, _.
    + split; [done|]. split; [done|]. split; [done|]. intros j' Hj' Hne.
      rewrite Hj' in Hj. destruct j'; [done|]. injection Hj as <-. by apply Hr.
  - split; [done|]. split; [done|]. split; [done|]. intros j' Hj' Hne.
    rewrite Hj' in Hj. by destruct j'.
Qed.

Lemma run_authenticateRemote rq w :
  (∃ token c, bearerToken rq = Some token ∧ run (RemoteTokenVerifier.verify token) w = (Resolved c, w) ∧
     run (authenticateRemote rq) w = (Resolved (Next (rq <| rq_user := Some (edge_user c) |>)), w)) ∨
  (∃ e, run (authenticateRemote rq) w = (Resolved (NextErr rq e), w) ∧
     ∀ id, status (errorHandler e id) = 401).
Proof.
  unfold authenticateRemote. destruct (bearerToken rq) as [token|]; [|right; by eexists].
  rewrite run_catch, run_bind. destruct (run_remote_verify token w) as [Hw Hres].
  destruct (run (RemoteTokenVerifier.verify token) w) as [[e|c] w1] eqn:Hv; simpl in Hw, Hres; subst w1.
  - right. exists e. split; [done|]. by destruct Hres as (msg & code & ->).
  - left. exists token, c. by split_and!.
Qed.

Lemma run_requireScopes anyOf rq w :
  (run (requireScopes anyOf rq) w = (Resolved (Next rq), w) ∧
   ∃ user s, rq_user rq = Some user ∧ s ∈ anyOf ∧ s ∈ scope_list (au_scope user)) ∨
  (∃ e, run (requireScopes anyOf rq) w = (Resolved (NextErr rq e), w)).
Proof.
  unfold requireScopes. destruct (rq_user rq) as [user|]; [|right; by eexists].
  destruct (existsb _ _) eqn:He; [left; split; [done|]|right; by eexists].
  apply existsb_exists in He as (s & Hs & Hi). exists user, s. split; [done|].
  split; [by apply list_elem_of_In|by apply includes_spec].
Qed.

Lemma bearerToken_headers rq rq1 :
  rq_headers rq1 !! "authorization" = rq_headers rq !! "authorization" → bearerToken rq1 = bearerToken rq.
Proof. intros H. unfold bearerToken, bearer, header. by rewrite H. Qed.

(** A request refused before the proxy. *)
Definition refused_at_gateway (out : outcome Err handled * World) (w : World) : Prop :=
  ∃ rq1 e w1, out = (Resolved (NextErr rq1 e), w1) ∧ w_db w1 = w_db w.

(** Every request is refused, or handed to the proxy for a user whose token was
    verified and has the read scope, without any identity header of its own. *)
Lemma run_gateway upstream rq w :
  refused_at_gateway (run (chain (gateway_api upstream) rq) w) w ∨
  ∃ token c w1 rq1, bearerToken rq = Some token ∧
    run (RemoteTokenVerifier.verify token) w1 = (Resolved c, w1) ∧ same_edge w w1 ∧
    "api.read" ∈ scope_list (default "" (cl_scope c)) ∧ rq_user rq1 = Some (edge_user c) ∧
    stripped rq1 ∧ rq_headers rq1 !! "x-request-id" = rq_headers rq !! "x-request-id" ∧
    run (chain (gateway_api upstream) rq) w = run (proxy upstream rq1) w1.
Proof.
  unfold gateway_api.
  destruct (run_requestId "x-request-id" rq w) as (rq1 & w1 & Hr1 & Hh1 & _ & Hw1).
  rewrite (run_chain_cons _ _ _ _ _ _ Hr1).
  destruct (run_ip_limit (mkRateLimit "gw" (RATE_LIMIT_API cfg) (RATE_LIMIT_WINDOW cfg)) rq1 w1) as [(rq2 & w2 & Hr2 & Hh2 & _ & Hw2)|(rq2 & e & w2 & Hr2 & Hw2)];
    rewrite (run_chain_cons _ _ _ _ _ _ Hr2); [|left; eexists _, _, _; split; [done|apply (same_edge_trans _ _ _ Hw1 Hw2)]].
  pose proof (same_edge_trans _ _ _ Hw1 Hw2) as Hw12. set (rq3 := rq2 <| rq_headers ::= λ hs, foldr delete hs PROTECTED_HEADERS |>).
  assert (Hr3 : run (strip_identity rq2) w2 = (Resolved (Next rq3), w2)) by done.
  rewrite (run_chain_cons _ _ _ _ _ _ Hr3).
  assert (Hh3 : ∀ h, h ∉ PROTECTED_HEADERS → rq_headers rq3 !! h = rq_headers rq !! h).
  { intros h Hne. unfold rq3. cbn [rq_headers set_field]. simpl. rewrite Hh2, Hh1.
    unfold PROTECTED_HEADERS in Hne. rewrite !lookup_delete_ne by set_solver. done. }
  assert (Hs3 : stripped rq3).
  { intros h Hin. unfold rq3. cbn [rq_headers set_field]. simpl. unfold PROTECTED_HEADERS in Hin.
    repeat (apply elem_of_cons in Hin as [->|Hin]; [by rewrite ?lookup_delete_ne, ?lookup_delete_eq by done|]).
    by apply elem_of_nil in Hin. }
  destruct (run_authenticateRemote rq3 w2) as [(token & c & Hb & Hv & Hr4)|(e & Hr4 & _)];
    rewrite (run_chain_cons _ _ _ _ _ _ Hr4); [|left; eexists _, _, _; split; [done|apply Hw12]].
  destruct (run_requireScopes ["api.read"] (rq3 <| rq_user := Some (edge_user c) |>) w2)
    as [[Hr5 (user & s & [= <-] & ->%list_elem_of_singleton & Hscope)]|(e & Hr5)];
    rewrite (run_chain_cons _ _ _ _ _ _ Hr5); [|left; eexists _, _, _; split; [done|apply Hw12]].
  right. exists token, c, w2, (rq3 <| rq_user := Some (edge_user c) |>). split_and!; try done.
  - rewrite <- Hb. symmetry. apply bearerToken_headers, Hh3. unfold PROTECTED_HEADERS. set_solver.
  - apply (Hh3 "x-request-id"). unfold PROTECTED_HEADERS. set_solver.
  - cbn [chain]. rewrite run_bind. by destruct (run (proxy upstream _) w2) as [[e|[]] w3].
Qed.

Lemma run_gateway_identity (upstream : HttpRequest → M (list (string * string) * Response))
    (rq : HttpRequest) (w : World) :
  let out := run (chain (gateway_api upstream) rq) w in
  refused_at_gateway out w ∨ (∃ w1, out = (Rejected proxy_crash, w1) ∧ w_db w1 = w_db w) ∨
  ∃ token c kid pub priv w1 rq1 rq2, bearerToken rq = Some token ∧
    token = SignJWT kid c priv ∧ keypair pub priv ∧ publishes w1 kid pub ∧
    claims_verdict RemoteTokenVerifier.options (w_now w1 / 1000) c = None ∧
    (∀ j, cl_jti c = Some j → j ≠ "" → ¬ denylisted j w1) ∧
    "api.read" ∈ scope_list (default "" (cl_scope c)) ∧ same_edge w w1 ∧
    identity_of rq2 = edge_identity (edge_user c) (received (header rq "x-request-id")) ∧
    (∀ s, truthy (GATEWAY_SHARED_SECRET cfg) = Some s → header rq2 "x-internal-secret" = Some (js_trim s)) ∧
    out = match run (upstream rq2) w1 with
          | (Resolved r, w2) => (Resolved (Done (rq1 <| rq_sent ::= λ sent, sent ++ r.1 |>) r.2), w2)
          | (Rejected _, w2) => (Resolved (Done rq1 bad_gateway), w2)
          end.
Proof.
  intros out. destruct (run_gateway upstream rq w) as [H|H]; [by left|right].
  destruct H as (token & c & w1 & rq1 & Hb & Hv & Hw1 & Hscope & Hu & Hs & Hid & Hout).
  fold out in Hout. destruct (run_remote_verify token w1) as [_ Hver]. rewrite Hv in Hver.
  destruct Hver as (Hverdict & (kid & pub & priv & Htok & Hpair & Hpub) & Hden).
  unfold proxy in Hout. destruct (forwarded_headers rq1) as [hs|] eqn:Hf.
  - right. exists token, c, kid, pub, priv, w1, rq1, (upstream_request rq1 hs). split_and!; try done.
    + rewrite (identity_of_forwarded _ _ _ Hu Hs Hf). by rewrite Hid.
    + intros s Hsec. rewrite header_transmitted.
      destruct (forwarded_user _ _ _ Hu Hs Hf) as (_ & _ & _ & _ & _ & _ & Hsecret).
      by rewrite (Hsecret s Hsec).
    + rewrite Hout, run_catch, run_bind. by destruct (run (upstream _) w1) as [[e|r] w2].
  - left. exists w1. split; [done|apply Hw1].
Qed.

(** C16: The identity cannot be forged. Whatever headers a request carries, the
    gateway refuses it, or fails to forward it, or hands the resource API a
    request in which it reads exactly the identity of the verified token:
    signed with a published key, carrying the read scope, not revoked. *)
Theorem gateway_identity (upstream : HttpRequest → M (list (string * string) * Response))
    (rq : HttpRequest) (w : World) :
  let out := run (chain (gateway_api upstream) rq) w in
  refused_at_gateway out w ∨ (∃ w1, out = (Rejected proxy_crash, w1) ∧ w_db w1 = w_db w) ∨
  ∃ token c kid pub priv w1 rq1 rq2, bearerToken rq = Some token ∧
    token = SignJWT kid c priv ∧ keypair pub priv ∧ publishes w1 kid pub ∧
    (∀ j, cl_jti c = Some j → j ≠ "" → ¬ denylisted j w1) ∧
    "api.read" ∈ scope_list (default "" (cl_scope c)) ∧ w_db w1 = w_db w ∧
    identity_of rq2 = edge_identity (edge_user c) (received (header rq "x-request-id")) ∧
    (∀ s, truthy (GATEWAY_SHARED_SECRET cfg) = Some s → header rq2 "x-internal-secret" = Some (js_trim s)) ∧
    out = match run (upstream rq2) w1 with
          | (Resolved r, w2) => (Resolved (Done (rq1 <| rq_sent ::= λ sent, sent ++ r.1 |>) r.2), w2)
          | (Rejected _, w2) => (Resolved (Done rq1 bad_gateway), w2)
          end.
Proof.
  intros out. destruct (run_gateway_identity upstream rq w) as [H|[H|H]]; [by left|by right; left|right; right].
  destruct H as (token & c & kid & pub & priv & w1 & rq1 & rq2 & ? & ? & ? & ? & _ & ? & ? & [Hdb _] & ? & ? & ?).
  by exists token, c, kid, pub, priv, w1, rq1, rq2.
Qed.

(** A scope that holds a character no header can carry (a line break between
    two scopes, say) passes the scope check and makes the forwarding throw. *)
Lemma gateway_crash upstream rq user w :
  rq_user rq = Some user → "api.read" ∈ scope_list (au_scope user) →
  all_chars header_char (au_scope user) = false →
  run (chain [requireScopes ["api.read"]; proxy upstream] rq) w = (Rejected proxy_crash, w).
Proof.
  intros Hu Hscope Hbad.
  assert (Hr : run (requireScopes ["api.read"] rq) w = (Resolved (Next rq), w)).
  { unfold requireScopes. rewrite Hu. simpl. by rewrite (proj2 (includes_spec _ _) Hscope). }
  rewrite (run_chain_cons _ _ _ _ _ _ Hr). cbn [chain]. rewrite run_bind. unfold proxy.
  assert (forwarded_headers rq = None) as ->; [|done].
  unfold forwarded_headers. rewrite Hu. unfold put_header.
  destruct (all_chars header_char (au_sub user)); rewrite ?Hbad;
    destruct (truthy (au_sid user)), (truthy (au_client_id user)), (truthy (GATEWAY_SHARED_SECRET cfg)); done.
Qed.
End gateway.
