(* ===== verification/EdgeApi.v ===== *)
(** The gateway and the resource API together, and the properties of the edge
    at concrete inputs. *)
From S2P Require Import Prelude Async JsString Errors Store Evolution Toy Redis RateLimit Http AuditLog Keys Jwt ToyJose Guards Gateway Resource Documents Edge.
From stdpp Require Import base gmap strings list sorting.
From Stdlib Require Import ZArith Ascii.
Local Open Scope string_scope.
Local Open Scope list_scope.
Local Open Scope Z_scope.

Section edge.
Context `{P : Platform, K : KeyManagementService, J : Jose, Q : RemoteJose, Z0 : Zod}.
Context `{KL : !KmsLaws K, QL : !RemoteLaws J Q keypair}.

(** A route of the resource API behind its own checks. *)
Lemma run_resource_api route rq w :
  (∃ rq1 e w1, run (chain (resource_api route) rq) w = (Resolved (NextErr rq1 e), w1) ∧
     w_db w1 = w_db w) ∨
  ∃ rq1 w1, w_db w1 = w_db w ∧ rq_identity rq1 = Some (identity_of rq) ∧
    run (chain (resource_api route) rq) w = run (chain route rq1) w1.
Proof.
  unfold resource_api.
  destruct (run_requestId "x-request-id" rq w) as (rq1 & w1 & Hr1 & Hh1 & _ & Hw1 & _).
  rewrite (run_chain_cons _ _ _ _ _ _ Hr1).
  assert (Hid : identity_of rq1 = identity_of rq).
  { unfold identity_of, header_string, header. by rewrite Hh1. }
  assert (Hsec : run (requireGatewaySecret rq1) w1 = (Resolved (Next rq1), w1) ∨
    ∃ e, run (requireGatewaySecret rq1) w1 = (Resolved (NextErr rq1 e), w1)).
  { unfold requireGatewaySecret. destruct (truthy _); [|by left].
    case_bool_decide; [by left|right; by eexists]. }
  destruct Hsec as [Hr2|[e Hr2]]; rewrite (run_chain_cons _ _ _ _ _ _ Hr2); [|left; by eexists _, _, _].
  assert (Hreq : run (requireIdentity rq1) w1
      = (Resolved (Next (rq1 <| rq_identity := Some (identity_of rq1) |>)), w1) ∨
    run (requireIdentity rq1) w1 = (Resolved (NextErr rq1 NO_IDENTITY), w1)).
  { unfold requireIdentity.
    destruct (id_userId (identity_of rq1)); [by left|]. destruct (id_clientId (identity_of rq1)); [by left|by right]. }
  destruct Hreq as [Hr3|Hr3]; rewrite (run_chain_cons _ _ _ _ _ _ Hr3); [|left; by eexists _, _, _].
  right. eexists _, w1. split; [done|]. split; [|reflexivity]. by rewrite <- Hid.
Qed.

(** A request to a route of the resource API through the gateway. *)
Definition edge (route : list RequestHandler) : list RequestHandler :=
  gateway_api (λ rq, answer (resource_api route) rq).

Lemma hex_unblank c : is_hex c || Ascii.eqb c "-" = true → no_blank c = true.
Proof. by destruct c as [[] [] [] [] [] [] [] []]. Qed.

Lemma uuid_trim u : uuid_ok u = true → js_trim u = u ∧ u ≠ "".
Proof.
  unfold uuid_ok. intros [Hl%bool_decide_eq_true Hh]%andb_true_iff. split; [|by intros ->].
  apply split_on_chars in Hh. apply js_trim_word. revert Hh. apply all_chars_impl. exact hex_unblank.
Qed.

(** C17: Isolation from end to end. A request through the gateway, with whatever
    headers, changes the documents only under a token that is good when the
    request arrives: signed with a published key, for the issuer and the
    audience of the system, within its time window (five seconds of tolerance),
    with every required claim, not revoked and with the read scope. When the subject of that token is the identifier of a user, a
    UUID in lower case as the database writes it, the documents of all other
    owners stay as they are. *)
Theorem edge_documents_isolated (route : string * string * list RequestHandler) (rq : HttpRequest)
    (w w' : World) r :
  route ∈ documentsRoutes → id_keys w → run (chain (edge route.2) rq) w = (r, w') →
  documents (w_db w') = documents (w_db w) ∨
  ∃ token c kid pub priv, bearerToken rq = Some token ∧
    token = SignJWT kid c priv ∧ keypair pub priv ∧ publishes w kid pub ∧
    cl_iss c = Some (JWT_ISSUER cfg) ∧ JWT_AUDIENCE cfg ∈ default [] (cl_aud c) ∧
    (∀ nbf, cl_nbf c = Some nbf → nbf ≤ w_now w / 1000 + 5) ∧
    (∀ e, cl_exp c = Some e → w_now w / 1000 - 5 < e) ∧
    forallb (has_claim c) ["iss"; "sub"; "aud"; "exp"; "iat"; "jti"; "scope"] = true ∧
    (∀ j, cl_jti c = Some j → j ≠ "" → ¬ denylisted j w) ∧
    "api.read" ∈ scope_list (default "" (cl_scope c)) ∧
    ∀ u, cl_sub c = Some u → uuid_ok u = true → to_lower u = u →
      ∀ d, d_owner_id d ≠ u → d ∈ documents (w_db w') ↔ d ∈ documents (w_db w).
Proof.
  intros Hroute Hk Hr. unfold edge in Hr.
  destruct (run_gateway_identity (λ rq, answer (resource_api route.2) rq) rq w)
    as [(rq1 & e & w1 & Hout & Hdb)|[(w1 & Hout & Hdb)|H]].
  - rewrite Hr in Hout. left. injection Hout as _ ->. by rewrite Hdb.
  - rewrite Hr in Hout. left. injection Hout as _ ->. by rewrite Hdb.
  - destruct H as (token & c & kid & pub & priv & w1 & rq1 & rq2 & Hb & Htok & Hpair & Hpub & Hv & Hden & Hscope &
      Hsame & Hid & _ & Hout). pose proof Hsame as (Hdb & Hnow & Hkeys & _).
    rewrite Hr in Hout. unfold answer in Hout. rewrite run_bind in Hout.
    destruct (run_resource_api route.2 rq2 w1) as [(rq3 & e & w3 & Hres & Hdb3)|
      (rq3 & w3 & Hdb3 & Hi & Hres)]; rewrite Hres in Hout.
    { left. injection Hout as _ ->. by rewrite Hdb3, Hdb. }
    apply verdict_none in Hv. rewrite Hnow in Hv. destruct Hv as (? & ? & ? & ? & ?).
    right. exists token, c, kid, pub, priv. split_and!; try done.
    { apply (kms_publishes_stable w1); [|done]. destruct Hkeys. by split. }
    { intros j Hj Hne. rewrite <- (same_edge_denylisted j w w1) by done. by apply Hden. }
    intros u Hsub Huuid Hlow d Hd. destruct (uuid_trim u Huuid) as [Htrim _].
    assert (Hw' : w' = (run (chain route.2 rq3) w3).2).
    { by destruct (run (chain route.2 rq3) w3) as [[e|h] w4]; injection Hout as _ ->. }
    destruct (run (chain route.2 rq3) w3) as [r3 w4] eqn:Hroute3. simpl in Hw'. subst w4.
    replace (documents (w_db w)) with (documents (w_db w3)) by by rewrite Hdb3, Hdb.
    apply (run_documents_route route rq3 (identity_of rq2) u w3 w' r3); try done.
    + rewrite Hid. unfold edge_identity, edge_user. cbn [id_userId au_sub]. rewrite Hsub.
      change (default "undefined" (Some u)) with u. unfold received. rewrite Htrim. destruct u as [|a u]; [done|]. cbn [truthy].
      by rewrite Huuid.
    + unfold id_keys in *. by rewrite Hdb3, Hdb.
Qed.
End edge.

(** * A concrete key set *)

Section witnesses.
#[local] Existing Instances toy toy_crypto toy_jose toy_formats toy_zod.

(** The gateway knows the keys the server publishes. *)
Definition toy_remote : RemoteJose := {|
  remoteJwtVerify t o w :=
    match toy_read t with
    | Some (kid, _, _) =>
        match (run (getPublicKey kid) w).1 with
        | Resolved pk => jwtVerify t (pk_publicKeyPem pk) o (w_now w)
        | Rejected _ => Rejected (ELib None (Some "ERR_JWKS_NO_MATCHING_KEY") "")
        end
    | None => Rejected (ELib None (Some "ERR_JWS_INVALID") "")
    end;
  remote_knows w kid pub := publishes w kid pub;
|}.
#[local] Existing Instance toy_remote.

#[local] Instance toy_remote_laws : RemoteLaws toy_jose toy_remote (local_keypair (C := toy_crypto)).
Proof.
  split; unfold remoteJwtVerify, remote_knows, toy_remote.
  - intros t o w c. destruct (toy_read t) as [[[kid c'] priv]|] eqn:Ht; [|done].
    destruct (run (getPublicKey kid) w) as [[e|pk] w1] eqn:Hpk; cbn [fst]; [done|]. intros Hv.
    destruct (jose_verify_sound _ _ _ _ _ Hv) as (Hc & kid2 & priv2 & Hp & ->).
    split; [done|]. cbn [SignJWT toy_jose] in Ht. rewrite toy_read_sign in Ht. injection Ht as -> -> ->.
    exists kid, (pk_publicKeyPem pk), priv. split; [|done].
    destruct (kms_lookup _ _ _ _ Hpk) as [-> Hkid]. exists (pk_createdAt pk). rewrite Hpk.
    destruct pk. cbn in Hkid. by subst.
  - intros kid pub priv c o w [t Hpub] Hp Hc. cbn [SignJWT toy_jose]. rewrite toy_read_sign, Hpub.
    pose proof (jose_verify_signed kid c pub priv o (w_now w) Hp) as Hv. rewrite Hc in Hv. exact Hv.
  - intros t o w e. destruct (toy_read t) as [[[kid c'] priv]|]; [|intros [= <-]; by eexists _, _].
    destruct (run (getPublicKey kid) w).1 as [e'|pk]; [intros [= <-]; by eexists _, _|].
    intros Hv. by eapply jose_verify_throws.
  - done.
Qed.

(** Ada's token, in a request that claims to be Bob's. *)
Definition edge_input : AccessTokenInput :=
  mkTokenInput ada_id "openid api.read api.write" (Some ["user"; "admin"]) None (Some "sess-1") None None.
Definition edge_signed : outcome Err Signed * World :=
  run (JwtService.signAccessToken app_jwt_options edge_input None) doc_world.
Definition edge_token : string :=
  match edge_signed.1 with Resolved s => sg_token s | Rejected _ => "" end.
Definition forged_request : HttpRequest :=
  mkRequest (<["authorization" := "Bearer " +:+ edge_token]>
               (<["x-user-id" := bob_id]> (<["x-user-roles" := "root"]> ∅)))
    (Some "10.0.0.1") (JObj []) (JObj [("id", JStr doc_id)]) (JObj []) "" None None [].

(** The status and the body of an answer. *)
Definition answered (r : outcome Err handled) : option (Z * json) :=
  match r with Resolved (Done _ res) => Some (status res, body res) | _ => None end.

Lemma edge_me_run :
  answered (run (chain (edge get_identity) forged_request) edge_signed.2).1 =
  Some (200, identity_json (mkIdentity (Some ada_id) None ["openid"; "api.read"; "api.write"]
                              ["user"; "admin"] None)).
Proof. vm_compute. reflexivity. Qed.

Lemma gateway_identity_witness :
  ∃ c rq2, bearerToken forged_request = Some edge_token ∧
    "api.read" ∈ scope_list (default "" (cl_scope c)) ∧
    identity_of rq2 = edge_identity (edge_user c) None.
Proof.
  pose proof edge_me_run as Hrun. unfold edge in Hrun.
  destruct (gateway_identity (λ rq, answer (resource_api get_identity) rq) forged_request edge_signed.2)
    as [(rq1 & e & w1 & Hout & _)|[(w1 & Hout & _)|H]].
  - exfalso. revert Hrun. rewrite Hout. cbn [fst answered]. discriminate.
  - exfalso. revert Hrun. rewrite Hout. cbn [fst answered]. discriminate.
  - destruct H as (token & c & kid & pub & priv & w1 & rq1 & rq2 & Hb & _ & _ & _ & _ & Hs & _ & Hid & _).
    exists c, rq2. split; [by vm_compute|]. split; [exact Hs|exact Hid].
Defined.

(** Ada deletes her document through the gateway; Bob's stays. *)
Lemma edge_documents_isolated_witness :
  let w' := (run (chain (edge delete_document) forged_request) edge_signed.2).2 in
  documents (w_db w') = [mkDocumentRow "other" bob_id "Memo" "" 5 5] ∧
  ∃ c, "api.read" ∈ scope_list (default "" (cl_scope c)) ∧
    ∃ kid priv, bearerToken forged_request = Some (SignJWT kid c priv).
Proof.
  intros w'. assert (Hdocs : documents (w_db w') = [mkDocumentRow "other" bob_id "Memo" "" 5 5])
    by (vm_compute; reflexivity).
  assert (Hbefore : documents (w_db edge_signed.2) = documents (w_db doc_world))
    by (vm_compute; reflexivity).
  split; [exact Hdocs|].
  destruct (edge_documents_isolated ("DELETE", "/documents/:id", delete_document) forged_request
    edge_signed.2 w' (run (chain (edge delete_document) forged_request) edge_signed.2).1)
    as [Hsame|(token & c & kid & pub & priv & Hb & Htok & _ & _ & _ & _ & _ & _ & _ & _ & Hs & _)].
  - do 3 apply list_elem_of_further. apply list_elem_of_here.
  - unfold id_keys. rewrite Hbefore. apply NoDup_cons. split; [|apply NoDup_singleton].
    rewrite list_elem_of_singleton. discriminate.
  - apply surjective_pairing.
  - exfalso. clearbody w'. rewrite Hdocs, Hbefore in Hsame. discriminate Hsame.
  - exists c. split; [exact Hs|]. exists kid, priv. rewrite <- Htok. exact Hb.
Defined.
End witnesses.
