(* ===== verification/Client.v ===== *)
(** The browser side: src/apps/frontend/client/config.ts, tokens.ts and api.ts.
    The network is the function [network] from a request and the state of what
    is behind it to an answer. *)
From S2P Require Import Prelude Async JsString Errors Store Evolution Http.
From stdpp Require Import base gmap strings list relations.
From Stdlib Require Import ZArith Ascii.
Local Open Scope string_scope.
Local Open Scope list_scope.
Local Open Scope Z_scope.

(** * The browser *)

(** What the page can change: localStorage, the location's hash, the messages
    shown; and the state [N] of what is behind the network. *)
Record Browser (N : Type) : Type := mkBrowser {
  br_storage : gmap string string;
  br_hash : string;
  br_toasts : list (string * string);
  br_net : N;
}.
Global Arguments mkBrowser {N} _ _ _ _.
Global Arguments br_storage {N} _.
Global Arguments br_hash {N} _.
Global Arguments br_toasts {N} _.
Global Arguments br_net {N} _.
#[export] Instance eta_Browser {N} : Settable (Browser N) := λ b,
  mkBrowser (br_storage b) (br_hash b) (br_toasts b) (br_net b).

(** Thrown values: [ApiError], the engine's TypeError, a failed fetch. *)
Inductive JsErr : Type :=
  | ApiError (status : Z) (code : option json) (message : string)
  | TypeError
  | NetworkError.

Notation B N := (Async (Browser N) JsErr).

(** * Configuration *)

(** [s.replace(/\/+$/, '')] *)
Fixpoint strip_slashes (s : string) : string :=
  match s with
  | EmptyString => EmptyString
  | String c rest =>
      match strip_slashes rest with
      | EmptyString => if Ascii.eqb c "/" then EmptyString else String c EmptyString
      | rest' => String c rest'
      end
  end.

Record ClientConfig : Type := mkClientConfig { authBase : string; apiBase : string; version : string }.

(** [window.__APP_CONFIG__], whose fields may be missing. *)
Record RawConfig : Type := mkRawConfig {
  raw_authBase : option string; raw_apiBase : option string; raw_version : option string;
}.

Definition readConfig (raw : option RawConfig) : ClientConfig :=
  let raw := default (mkRawConfig None None None) raw in
  mkClientConfig (strip_slashes (default "" (raw_authBase raw)))
    (strip_slashes (default "" (raw_apiBase raw))) (default "dev" (raw_version raw)).

(** * Tokens *)

Section tokens.
Context {N : Type}.

Definition ACCESS_KEY : string := "identity.access_token".
Definition REFRESH_KEY : string := "identity.refresh_token".

Definition getAccessToken : B N (option string) := reads (λ b, br_storage b !! ACCESS_KEY).
Definition getRefreshToken : B N (option string) := reads (λ b, br_storage b !! REFRESH_KEY).

Definition with_tokens (access refresh : string) (b : Browser N) : Browser N :=
  b <| br_storage ::= λ s, <[REFRESH_KEY := refresh]> (<[ACCESS_KEY := access]> s) |>.
Definition without_tokens (b : Browser N) : Browser N :=
  b <| br_storage ::= λ s, delete REFRESH_KEY (delete ACCESS_KEY s) |>.

Definition setTokens (access refresh : string) : B N () := writes (with_tokens access refresh).
Definition clearTokens : B N () := writes without_tokens.
Definition hasAccessToken : B N bool := t ← getAccessToken; mret (bool_decide (is_Some t)).
End tokens.

(** * Requests *)

Inductive Api := AuthApi | ResourceApi.

Record FetchRequest : Type := mkFetch {
  fq_url : string; fq_method : string; fq_bearer : option string; fq_body : option json;
}.

(** The text of an answer: empty, JSON, something else, or unreadable. *)
Inductive BodyText : Type := BEmpty | BJson (v : json) | BText (s : string) | BUnreadable.

Record FetchResponse : Type := mkFetched { fs_status : Z; fs_body : BodyText }.

Definition fs_ok (r : FetchResponse) : bool := (200 <=? fs_status r) && (fs_status r <=? 299).

Record RequestOptions : Type := mkOptions {
  op_api : Api; op_method : string; op_body : option json; op_bearer : bool; op_allowRefresh : bool;
}.
#[export] Instance eta_RequestOptions : Settable RequestOptions := λ o,
  mkOptions (op_api o) (op_method o) (op_body o) (op_bearer o) (op_allowRefresh o).

(** The defaults. *)
Definition default_options : RequestOptions := mkOptions AuthApi "GET" None true true.
Definition post_options (body : json) : RequestOptions := mkOptions AuthApi "POST" (Some body) true true.

(** [await parseBody(res)]: [None] is [undefined]. *)
Definition parseBody (r : FetchResponse) : outcome JsErr (option json) :=
  match fs_body r with
  | BEmpty => Resolved None
  | BJson v => Resolved (Some v)
  | BText s => Resolved (Some (JStr s))
  | BUnreadable => Rejected NetworkError
  end.

(** A value that is a non-empty string. *)
Definition truthy_str (v : option json) : option string :=
  match v with Some (JStr s) => truthy (Some s) | _ => None end.

Definition request_failed (status : Z) : string := "Request failed (" +:+ decimal_of status +:+ ")".

(** [new ApiError(status, body)]: reading a property of [undefined] or [null]
    throws. *)
Definition api_error (status : Z) (body : option json) : JsErr :=
  match body with
  | None | Some JNull => TypeError
  | Some v =>
      ApiError status (jget v "error")
        (match truthy_str (jget v "message"), truthy_str (jget v "error") with
         | Some m, _ => m
         | None, Some e => e
         | None, None => request_failed status
         end)
  end.

Definition error_body (error message : string) : json :=
  JObj [("error", JStr error); ("message", JStr message)].

(** [localStorage.setItem(k, v)] stores a string. *)
Definition stored_text (v : option json) : string :=
  match v with
  | None => "undefined"
  | Some (JStr s) => s
  | Some JNull => "null"
  | Some (JBool b) => if b then "true" else "false"
  | Some (JNum n) => decimal_of n
  | Some _ => "[object Object]"
  end.

Section client.
Context (cfg : ClientConfig).
Context {N : Type} (network : FetchRequest → N → outcome JsErr FetchResponse * N).

Definition fetch (q : FetchRequest) : B N FetchResponse :=
  attempt (λ b, let '(r, w) := network q (br_net b) in (r, b <| br_net := w |>)).

Definition baseFor (api : Api) : string :=
  match api with ResourceApi => apiBase cfg | AuthApi => authBase cfg end.

(** [(await res.json()) as TokenResponse], then [setTokens]. *)
Definition store_tokens (r : FetchResponse) : B N bool :=
  match fs_body r with
  | BJson JNull => mret false
  | BJson v => _ ← setTokens (stored_text (jget v "access_token")) (stored_text (jget v "refresh_token"));
               mret true
  | _ => mret false
  end.

Definition refresh_request (refresh : string) : FetchRequest :=
  mkFetch (baseFor AuthApi +:+ "/auth/refresh") "POST" None
    (Some (JObj [("refresh_token", JStr refresh)])).

Definition refresh_with (refresh : option string) : B N bool :=
  match truthy refresh with
  | None => mret false
  | Some refresh =>
      catch (λ _, mret false)
        (res ← fetch (refresh_request refresh);
         if fs_ok res then store_tokens res else mret false)
  end.
Definition tryRefresh : B N bool := refresh ← getRefreshToken; refresh_with refresh.

(** The end of [apiRequest]. *)
Definition settle (r : FetchResponse) : B N (option json) :=
  let payload := match parseBody r with Resolved p => p | Rejected _ => None end in
  if fs_ok r then mret payload
  else Throw (api_error (fs_status r)
    (match payload with
     | None | Some JNull => Some (error_body "REQUEST_FAILED" (request_failed (fs_status r)))
     | p => p
     end)).

(** The error of a request whose session could not be refreshed. *)
Definition expired_error (r : FetchResponse) : JsErr :=
  api_error (fs_status r)
    (match parseBody r with
     | Resolved p => p
     | Rejected _ => Some (error_body "UNAUTHENTICATED" "Session expired")
     end).

Definition send_request (path : string) (o : RequestOptions) : B N FetchResponse :=
  token ← (if op_bearer o then getAccessToken else mret None);
  fetch (mkFetch (baseFor (op_api o) +:+ path) (op_method o) (truthy token) (op_body o)).

(** What [apiRequest] does with the response; [retry] is the second call. *)
Definition on_response (retry : B N (option json)) (o : RequestOptions) (res : FetchResponse)
    : B N (option json) :=
  if (fs_status res =? 401) && op_allowRefresh o then
    refreshed ← tryRefresh;
    if (refreshed : bool) then retry
    else
      _ ← clearTokens;
      Throw (expired_error res)
  else settle res.

(** [apiRequest] calls itself after a refresh; [fuel] bounds the calls. *)
Fixpoint apiRequest_rec (fuel : nat) (path : string) (o : RequestOptions) : B N (option json) :=
  match fuel with
  | O => Throw TypeError
  | S fuel =>
      res ← send_request path o;
      on_response (apiRequest_rec fuel path (o <| op_allowRefresh := false |>)) o res
  end.

(** The second call does not refresh: two calls are enough. *)
Definition apiRequest (path : string) (o : RequestOptions) : B N (option json) := apiRequest_rec 2 path o.

(** * The calls of the views *)

(** A form field that was left empty is [undefined], and disappears from the
    body. *)
Definition field (k : string) (v : option string) : list (string * json) := jopt k (JStr <$> v).

Definition api_login (email password : option string) : B N (option json) :=
  apiRequest "/auth/login"
    (post_options (JObj (field "email" email ++ field "password" password)) <| op_bearer := false |>).
Definition verifyMfa (challengeId code : string) : B N (option json) :=
  apiRequest "/mfa/verify"
    (post_options (JObj [("mfa_challenge_id", JStr challengeId); ("code", JStr code)]) <| op_bearer := false |>).
Definition api_register (email password first last : option string) : B N (option json) :=
  apiRequest "/auth/register"
    (post_options (JObj (field "email" email ++ field "password" password
       ++ field "first_name" first ++ field "last_name" last)) <| op_bearer := false |>).
Definition api_verifyEmail (token : string) : B N (option json) :=
  apiRequest "/auth/verify-email" (post_options (JObj [("token", JStr token)]) <| op_bearer := false |>).
Definition api_forgotPassword (email : option string) : B N (option json) :=
  apiRequest "/auth/forgot-password" (post_options (JObj (field "email" email)) <| op_bearer := false |>).
Definition api_resetPassword (token password : option string) : B N (option json) :=
  apiRequest "/auth/reset-password"
    (post_options (JObj (field "token" token ++ field "password" password)) <| op_bearer := false |>).
Definition api_logout (refreshToken : string) : B N (option json) :=
  apiRequest "/auth/logout" (post_options (JObj [("refresh_token", JStr refreshToken)])).
Definition fetchMe : B N (option json) := apiRequest "/auth/me" default_options.
Definition fetchGatewayIdentity : B N (option json) :=
  apiRequest "/api/v1/me" (default_options <| op_api := ResourceApi |>).
Definition enrollTotp : B N (option json) := apiRequest "/mfa/enroll" (post_options (JObj [])).
Definition confirmTotp (code : string) : B N (option json) :=
  apiRequest "/mfa/verify" (post_options (JObj [("code", JStr code)]) <| op_allowRefresh := false |>).
Definition disableTotp (code : string) : B N (option json) :=
  apiRequest "/mfa/disable" (post_options (JObj [("code", JStr code)]) <| op_allowRefresh := false |>).

(** * What the requests do *)

(** The request [apiRequest] sends with these tokens stored. *)
Definition request_of (path : string) (o : RequestOptions) (storage : gmap string string) : FetchRequest :=
  mkFetch (baseFor (op_api o) +:+ path) (op_method o)
    (truthy (if op_bearer o then storage !! ACCESS_KEY else None)) (op_body o).

(** The tokens a refresh response carries. *)
Definition new_tokens (r : FetchResponse) : option (string * string) :=
  match fs_body r with
  | BJson JNull => None
  | BJson v => Some (stored_text (jget v "access_token"), stored_text (jget v "refresh_token"))
  | _ => None
  end.

Lemma run_fetch q b :
  run (fetch q) b = ((network q (br_net b)).1, b <| br_net := (network q (br_net b)).2 |>).
Proof. unfold fetch. rewrite run_attempt. by destruct (network q (br_net b)). Qed.

Lemma run_send path o b :
  run (send_request path o) b =
    ((network (request_of path o (br_storage b)) (br_net b)).1,
     b <| br_net := (network (request_of path o (br_storage b)) (br_net b)).2 |>).
Proof. unfold send_request, request_of. destruct (op_bearer o); apply run_fetch. Qed.

Lemma run_refresh_with t b :
  t ≠ "" →
  run (refresh_with (Some t)) b =
    let '(r, n) := network (refresh_request t) (br_net b) in
    let b' := b <| br_net := n |> in
    match r with
    | Resolved res =>
        match (if fs_ok res then new_tokens res else None) with
        | Some (access, refresh) => (Resolved true, with_tokens access refresh b')
        | None => (Resolved false, b')
        end
    | Rejected _ => (Resolved false, b')
    end.
Proof.
  intros Ht. unfold refresh_with. destruct t as [|c t]; [done|]. cbn [truthy].
  rewrite run_catch, run_bind, run_fetch.
  destruct (network (refresh_request (String c t)) (br_net b)) as [[e|res] n]; [done|]. cbn [fst snd].
  destruct (fs_ok res); [|done]. unfold store_tokens, new_tokens.
  destruct (fs_body res) as [|[]| |]; done.
Qed.

(** A call that may not refresh: one request, the stored tokens untouched. *)
Lemma run_no_refresh fuel path o b :
  op_allowRefresh o = false →
  run (apiRequest_rec (S fuel) path o) b =
    let '(r, n) := network (request_of path o (br_storage b)) (br_net b) in
    match r with
    | Resolved res => run (settle res) (b <| br_net := n |>)
    | Rejected e => (Rejected e, b <| br_net := n |>)
    end.
Proof.
  intros Ho. cbn [apiRequest_rec]. rewrite run_bind, run_send. unfold on_response.
  destruct (network _ _) as [[e|res] n]; [done|]. cbn [fst snd]. by rewrite Ho, andb_false_r.
Qed.

Lemma run_settle res b : (run (settle res) b).2 = b.
Proof. unfold settle. by destruct (fs_ok res). Qed.

(** A request that is refused, refreshes and is sent again. *)
Lemma run_recovers path o t b res1 n1 res2 n2 x y res3 n3 :
  op_allowRefresh o = true → br_storage b !! REFRESH_KEY = Some t → t ≠ "" →
  network (request_of path o (br_storage b)) (br_net b) = (Resolved res1, n1) → fs_status res1 = 401 →
  network (refresh_request t) n1 = (Resolved res2, n2) → fs_ok res2 = true → new_tokens res2 = Some (x, y) →
  network (request_of path o (<[REFRESH_KEY := y]> (<[ACCESS_KEY := x]> (br_storage b)))) n2 = (Resolved res3, n3) →
  run (apiRequest path o) b = run (settle res3) (with_tokens x y (b <| br_net := n3 |>)).
Proof.
  intros Ho Ht Hne H1 Hs1 H2 Hok2 Hnew H3. unfold apiRequest.
  change (apiRequest_rec 2 path o) with (res ← send_request path o;
    on_response (apiRequest_rec 1 path (o <| op_allowRefresh := false |>)) o res).
  rewrite run_bind, run_send, H1. cbn [fst snd]. unfold on_response. rewrite Hs1, Ho.
  change ((401 =? 401) && true) with true. cbv iota. unfold tryRefresh, getRefreshToken.
  rewrite run_bind, (run_bind_eq _ _ _ (Some t) (b <| br_net := n1 |>))
    by exact (f_equal (λ v, (Resolved v, b <| br_net := n1 |>)) Ht).
  rewrite run_refresh_with by done. change (br_net (b <| br_net := n1 |>)) with n1.
  rewrite H2, Hok2, Hnew. cbv beta iota zeta. rewrite run_no_refresh by done.
  change (network _ _) with
    (network (request_of path o (<[REFRESH_KEY := y]> (<[ACCESS_KEY := x]> (br_storage b)))) n2).
  by rewrite H3.
Qed.

Lemma without_with_tokens x y (b : Browser N) : without_tokens (with_tokens x y b) = without_tokens b.
Proof.
  destruct b as [s h l n].
  change (mkBrowser (delete REFRESH_KEY (delete ACCESS_KEY (<[REFRESH_KEY := y]> (<[ACCESS_KEY := x]> s)))) h l n
    = mkBrowser (delete REFRESH_KEY (delete ACCESS_KEY s)) h l n).
  apply (f_equal (λ s, mkBrowser s h l n)), map_eq. intros k.
  destruct (decide (k = REFRESH_KEY)) as [->|Hr]; [by rewrite !lookup_delete_eq|].
  rewrite !(lookup_delete_ne _ REFRESH_KEY) by done.
  destruct (decide (k = ACCESS_KEY)) as [->|Ha]; [by rewrite !lookup_delete_eq|].
  by rewrite !lookup_delete_ne, !lookup_insert_ne by done.
Qed.

(** Two requests that both wait for the answer to a refused one: the first
    refreshes; the second refreshes with the same token and fails, which
    clears the tokens the first has stored; the first asks again without a
    token. *)
Lemma run_race path1 path2 o1 o2 t b res1 n1 res2 n2 res3 n3 x y res4 n4 res5 n5 :
  op_allowRefresh o1 = true → op_allowRefresh o2 = true →
  br_storage b !! REFRESH_KEY = Some t → t ≠ "" →
  network (request_of path1 o1 (br_storage b)) (br_net b) = (Resolved res1, n1) → fs_status res1 = 401 →
  network (request_of path2 o2 (br_storage b)) n1 = (Resolved res2, n2) → fs_status res2 = 401 →
  network (refresh_request t) n2 = (Resolved res3, n3) → fs_ok res3 = true → new_tokens res3 = Some (x, y) →
  network (refresh_request t) n3 = (Resolved res4, n4) → fs_ok res4 = false →
  network (request_of path1 o1 (delete REFRESH_KEY (delete ACCESS_KEY (br_storage b)))) n4 = (Resolved res5, n5) →
  fs_ok res5 = false →
  ∃ e1 e2, rtc (pstep eq (λ _, False)) ([apiRequest path1 o1; apiRequest path2 o2], b)
    ([Throw e1; Throw e2], without_tokens (b <| br_net := n5 |>)).
Proof.
  intros Ho1 Ho2 Ht Hne H1 Hs1 H2 Hs2 H3 Hok3 Hnew H4 Hok4 H5 Hok5.
  set (retry path o := apiRequest_rec 1 path (o <| op_allowRefresh := false |>)).
  set (k path o res (refreshed : bool) :=
    if refreshed then retry path o else _ ← clearTokens; (Throw (expired_error res) : B N (option json))).
  assert (Hk1 : on_response (retry path1 o1) o1 res1 = tryRefresh ≫= k path1 o1 res1)
    by (unfold on_response; by rewrite Hs1, Ho1).
  assert (Hk2 : on_response (retry path2 o2) o2 res2 = tryRefresh ≫= k path2 o2 res2)
    by (unfold on_response; by rewrite Hs2, Ho2).
  assert (Hclear : run (k path2 o2 res2 false) (with_tokens x y (b <| br_net := n4 |>))
      = (Rejected (expired_error res2), without_tokens (b <| br_net := n4 |>)))
    by by rewrite <- (without_with_tokens x y).
  assert (∃ e, run (retry path1 o1) (without_tokens (b <| br_net := n4 |>))
      = (Rejected e, without_tokens (b <| br_net := n5 |>))) as [e Hretry].
  { eexists. unfold retry. rewrite run_no_refresh by done.
    change (network _ _) with
      (network (request_of path1 o1 (delete REFRESH_KEY (delete ACCESS_KEY (br_storage b)))) n4).
    rewrite H5. unfold settle. rewrite Hok5. reflexivity. }
  exists e, (expired_error res2).
  (* the two requests *)
  etrans; [apply (pool_bind _ _ _ _ 0 (send_request path1 o1) (on_response (retry path1 o1) o1) res1 (b <| br_net := n1 |>)); [reflexivity|];
    rewrite run_send; exact (f_equal (λ r, (r.1, b <| br_net := r.2 |>)) H1)|].
  etrans; [apply (pool_bind _ _ _ _ 1 (send_request path2 o2) (on_response (retry path2 o2) o2) res2 (b <| br_net := n2 |>)); [reflexivity|];
    rewrite run_send; exact (f_equal (λ r, (r.1, b <| br_net := r.2 |>)) H2)|].
  cbn [list_insert insert]. rewrite Hk1, Hk2.
  (* both read the refresh token *)
  etrans; [apply (pool_bind _ _ _ _ 0 getRefreshToken (λ r, refresh_with r ≫= k path1 o1 res1) (Some t) (b <| br_net := n2 |>)); [reflexivity|];
    exact (f_equal (λ v, (Resolved v, b <| br_net := n2 |>)) Ht)|].
  etrans; [apply (pool_bind _ _ _ _ 1 getRefreshToken (λ r, refresh_with r ≫= k path2 o2 res2) (Some t) (b <| br_net := n2 |>)); [reflexivity|];
    exact (f_equal (λ v, (Resolved v, b <| br_net := n2 |>)) Ht)|].
  (* the first refresh succeeds, the second does not *)
  etrans; [apply (pool_bind _ _ _ _ 0 (refresh_with (Some t)) (k path1 o1 res1) true (with_tokens x y (b <| br_net := n3 |>))); [reflexivity|];
    rewrite run_refresh_with by done; change (br_net (b <| br_net := n2 |>)) with n2; by rewrite H3, Hok3, Hnew|].
  etrans; [apply (pool_bind _ _ _ _ 1 (refresh_with (Some t)) (k path2 o2 res2) false (with_tokens x y (b <| br_net := n4 |>))); [reflexivity|];
    rewrite run_refresh_with by done; change (br_net (with_tokens x y (b <| br_net := n3 |>))) with n3; by rewrite H4, Hok4|].
  (* the second clears the tokens, the first asks again *)
  etrans; [by apply (pool_complete _ _ _ _ 1 (k path2 o2 res2 false))|].
  etrans; [by apply (pool_complete _ _ _ _ 0 (retry path1 o1))|].
  rewrite Hclear. cbn [fst snd]. rewrite Hretry. reflexivity.
Qed.

(** ** Two requests that are both answered *)

Section both.
Context (path1 path2 : string) (o1 o2 : RequestOptions) (b : Browser N).
Context (v1 v2 : json) (n1 n2 n12 n21 : N).

(** A request with the token, before and after the token is read, and answered. *)
Definition asking (path : string) (o : RequestOptions) : B N (option json) :=
  fetch (request_of path o (br_storage b))
    ≫= on_response (apiRequest_rec 1 path (o <| op_allowRefresh := false |>)) o.

Definition progress (path : string) (o : RequestOptions) (v : json) (stage : nat) : B N (option json) :=
  match stage with O => apiRequest path o | 1%nat => asking path o | _ => mret (Some v) end.

Lemma next_progress path o v stage n q b' :
  op_bearer o = true → await_next (progress path o v stage) (b <| br_net := n |>) = Some (q, b') →
  (stage = 0%nat ∧ q = progress path o v 1 ∧ b' = b <| br_net := n |>) ∨
  (stage = 1%nat ∧ ∀ n', network (request_of path o (br_storage b)) n = (Resolved (mkFetched 200 (BJson v)), n') →
     q = progress path o v 2 ∧ b' = b <| br_net := n' |>).
Proof.
  intros Ho. destruct stage as [|[|stage]]; cbn [progress]; [| |done].
  - unfold apiRequest, asking, request_of. cbn [apiRequest_rec]. unfold send_request. rewrite Ho.
    intros [= <- <-]. left. by split_and!.
  - intros [= <- <-]. right. split; [done|]. intros n' ->. by split.
Qed.

(** What is behind the network, by the requests that have been answered. *)
Definition behind (i j : nat) (n : N) : Prop :=
  if (i =? 2)%nat then (if (j =? 2)%nat then n = n12 ∨ n = n21 else n = n1)
  else if (j =? 2)%nat then n = n2 else n = br_net b.

Definition under_way (c : list (B N (option json)) * Browser N) : Prop :=
  ∃ i j n, (i ≤ 2)%nat ∧ (j ≤ 2)%nat ∧ behind i j n ∧
    c = ([progress path1 o1 v1 i; progress path2 o2 v2 j], b <| br_net := n |>).

Context (Ho1 : op_bearer o1 = true) (Ho2 : op_bearer o2 = true).
Context (H1 : network (request_of path1 o1 (br_storage b)) (br_net b) = (Resolved (mkFetched 200 (BJson v1)), n1)).
Context (H2 : network (request_of path2 o2 (br_storage b)) (br_net b) = (Resolved (mkFetched 200 (BJson v2)), n2)).
Context (H12 : network (request_of path2 o2 (br_storage b)) n1 = (Resolved (mkFetched 200 (BJson v2)), n12)).
Context (H21 : network (request_of path1 o1 (br_storage b)) n2 = (Resolved (mkFetched 200 (BJson v1)), n21)).

Lemma under_way_step c c' : pstep eq (λ _, False) c c' → under_way c → under_way c'.
Proof.
  intros Hs (i & j & n & Hi & Hj & Hn & ->). apply pstep_next in Hs.
  destruct Hs as [(k & p & q & b' & Hk & Hnext & ->)|[(b' & <- & ->)|(? & [] & _)]]; [|by exists i, j, n].
  destruct k as [|[|k]]; [injection Hk as <-|injection Hk as <-|done].
  - destruct (next_progress _ _ _ _ _ _ _ Ho1 Hnext) as [(-> & -> & ->)|[-> Hq]].
    + exists 1%nat, j, n. split_and!; [lia|done|exact Hn|done].
    + destruct j as [|[|j]]; [| |assert (j = 0%nat) as -> by lia]; cbn in Hn; subst n.
      * destruct (Hq _ H1) as [-> ->]. exists 2%nat, 0%nat, n1. split_and!; [lia..|done|done].
      * destruct (Hq _ H1) as [-> ->]. exists 2%nat, 1%nat, n1. split_and!; [lia..|done|done].
      * destruct (Hq _ H21) as [-> ->]. exists 2%nat, 2%nat, n21. split_and!; [lia..|by right|done].
  - destruct (next_progress _ _ _ _ _ _ _ Ho2 Hnext) as [(-> & -> & ->)|[-> Hq]].
    + exists i, 1%nat, n. split_and!; [done|lia|by destruct i as [|[|[]]]|done].
    + destruct i as [|[|i]]; [| |assert (i = 0%nat) as -> by lia]; cbn in Hn; subst n.
      * destruct (Hq _ H2) as [-> ->]. exists 0%nat, 2%nat, n2. split_and!; [lia..|done|done].
      * destruct (Hq _ H2) as [-> ->]. exists 1%nat, 2%nat, n2. split_and!; [lia..|done|done].
      * destruct (Hq _ H12) as [-> ->]. exists 2%nat, 2%nat, n12. split_and!; [lia..|by left|done].
Qed.

Lemma progress_settled path o v stage r :
  op_bearer o = true → (stage ≤ 2)%nat → progress path o v stage = settled r → stage = 2%nat ∧ r = Resolved (Some v).
Proof.
  intros Ho Hs. destruct stage as [|[|stage]]; cbn [progress].
  - unfold apiRequest. cbn [apiRequest_rec]. unfold send_request. rewrite Ho. by destruct r.
  - by destruct r.
  - destruct r; [done|]. intros [= <-]. split; [lia|done].
Qed.

(** However the two requests interleave, none of them is answered otherwise,
    and from wherever they are both come to their answers. *)
Lemma both_answered ps b' :
  rtc (pstep eq (λ _, False)) ([apiRequest path1 o1; apiRequest path2 o2], b) (ps, b') →
  (∀ r, ps !! 0%nat = Some (settled r) → r = Resolved (Some v1)) ∧
  (∀ r, ps !! 1%nat = Some (settled r) → r = Resolved (Some v2)) ∧
  ∃ n, rtc (pstep eq (λ _, False)) (ps, b') ([mret (Some v1); mret (Some v2)], b <| br_net := n |>).
Proof.
  intros Hsteps.
  assert (Hinv : ∀ c c', rtc (pstep eq (λ _, False)) c c' → under_way c → under_way c').
  { induction 1 as [|c c1 c2 Hs _ IH]; [done|]. intros Hc. by apply IH, (under_way_step c). }
  assert (Hnow : under_way (ps, b')).
  { apply (Hinv _ _ Hsteps). exists 0%nat, 0%nat, (br_net b). split_and!; [lia..|done|]. by destruct b. }
  pose proof Hnow as (i & j & n & Hi & Hj & _ & [= -> ->]).
  split_and!; [intros r [= Hr]; by eapply progress_settled, Hr|intros r [= Hr]; by eapply progress_settled, Hr|].
  set (p1 := progress path1 o1 v1 i) in *. set (p2 := progress path2 o2 v2 j) in *.
  destruct (run p1 (b <| br_net := n |>)) as [r1 b1] eqn:Hr1, (run p2 b1) as [r2 b2] eqn:Hr2.
  assert (Hend : rtc (pstep eq (λ _, False)) ([p1; p2], b <| br_net := n |>) ([settled r1; settled r2], b2)).
  { etrans; [apply (pool_complete _ _ [p1; p2] _ 0%nat p1 eq_refl)|]. rewrite Hr1.
    etrans; [apply (pool_complete _ _ [settled r1; p2] _ 1%nat p2 eq_refl)|]. cbn [fst snd]. rewrite Hr2. reflexivity. }
  destruct (Hinv _ _ Hend Hnow) as (i' & j' & n' & Hi' & Hj' & _ & [= E1 E2 Hb]). exists n'. rewrite Hend, Hb.
  destruct (progress_settled _ _ _ _ _ Ho1 Hi' (eq_sym E1)) as [_ ->].
  by destruct (progress_settled _ _ _ _ _ Ho2 Hj' (eq_sym E2)) as [_ ->].
Qed.
End both.

Lemma apiRequest_unfold fuel path o :
  apiRequest_rec (S fuel) path o =
    (res ← send_request path o; on_response (apiRequest_rec fuel path (o <| op_allowRefresh := false |>)) o res).
Proof. reflexivity. Qed.

(** More fuel changes nothing: the second call does not refresh. *)
Lemma apiRequest_fuel fuel path o b :
  run (apiRequest_rec (S (S fuel)) path o) b = run (apiRequest path o) b.
Proof.
  unfold apiRequest. rewrite (apiRequest_unfold (S fuel)), (apiRequest_unfold 1), !run_bind.
  destruct (run (send_request path o) b) as [[e|res] b1]; [done|]. unfold on_response.
  destruct ((fs_status res =? 401) && op_allowRefresh o); [|done]. rewrite !run_bind.
  destruct (run tryRefresh b1) as [[e|[]] b2]; [done| |done].
  by rewrite !run_no_refresh.
Qed.

(** A refresh leaves the page alone, or stores the tokens of the answer. *)
Lemma run_tryRefresh b :
  (truthy (br_storage b !! REFRESH_KEY) = None ∧ run tryRefresh b = (Resolved false, b)) ∨
  ∃ t, br_storage b !! REFRESH_KEY = Some t ∧
    let n := (network (refresh_request t) (br_net b)).2 in
    run tryRefresh b = (Resolved false, b <| br_net := n |>) ∨
    ∃ x y, run tryRefresh b = (Resolved true, with_tokens x y (b <| br_net := n |>)).
Proof.
  unfold tryRefresh, getRefreshToken.
  assert (Hr : run (refresh ← reads (λ b, br_storage b !! REFRESH_KEY); refresh_with refresh) b
    = run (refresh_with (br_storage b !! REFRESH_KEY)) b) by reflexivity.
  rewrite Hr. clear Hr. destruct (br_storage b !! REFRESH_KEY) as [t|]; [|by left].
  destruct (decide (t = "")) as [->|Ht]; [by left|]. right. exists t. split; [done|].
  rewrite run_refresh_with by done. destruct (network _ _) as [[e|res] n]; [by left|]. simpl.
  destruct (if fs_ok res then _ else None) as [[x y]|]; [|by left]. right. by exists x, y.
Qed.
End client.

(** * The requests of a call *)

(** A network that remembers what it was asked. *)
Definition logged {N} (network : FetchRequest → N → outcome JsErr FetchResponse * N)
    (q : FetchRequest) (n : N * list FetchRequest) : outcome JsErr FetchResponse * (N * list FetchRequest) :=
  ((network q n.1).1, ((network q n.1).2, n.2 ++ [q])).

(** The requests of a call, what it leaves in the storage, and whether it
    succeeds. *)
Inductive api_trace (cfg : ClientConfig) (path : string) (o : RequestOptions) (st : gmap string string) :
    list FetchRequest → gmap string string → bool → Prop :=
  | trace_answered ok : api_trace cfg path o st [request_of cfg path o st] st ok
  | trace_expired :
      api_trace cfg path o st [request_of cfg path o st] (delete REFRESH_KEY (delete ACCESS_KEY st)) false
  | trace_refused t : st !! REFRESH_KEY = Some t →
      api_trace cfg path o st [request_of cfg path o st; refresh_request cfg t]
        (delete REFRESH_KEY (delete ACCESS_KEY st)) false
  | trace_refreshed t x y ok : st !! REFRESH_KEY = Some t →
      let st' := <[REFRESH_KEY := y]> (<[ACCESS_KEY := x]> st) in
      api_trace cfg path o st
        [request_of cfg path o st; refresh_request cfg t; request_of cfg path o st'] st' ok.

Section bounded.
Context {N : Type} (cfg : ClientConfig) (network : FetchRequest → N → outcome JsErr FetchResponse * N).

(** What a computation from [b] to [b'] adds to the log. *)
Definition sends (qs : list FetchRequest) (b b' : Browser (N * list FetchRequest)) : Prop :=
  (br_net b').2 = (br_net b).2 ++ qs ∧ br_hash b' = br_hash b ∧ br_toasts b' = br_toasts b.

Lemma sends_fetch q st (b : Browser (N * list FetchRequest)) :
  sends [q] b (b <| br_net := (logged network q (br_net b)).2 |> <| br_storage := st |>).
Proof. done. Qed.

Lemma sends_trans qs qs' b b1 b2 : sends qs b b1 → sends qs' b1 b2 → sends (qs ++ qs') b b2.
Proof. intros (H1 & H2 & H3) (H4 & H5 & H6). split; [by rewrite H4, H1, app_assoc|split; congruence]. Qed.

Lemma traced path o b :
  let '(r, b') := run (apiRequest cfg (logged network) path o) b in
  ∃ qs, sends qs b b' ∧ api_trace cfg path o (br_storage b) qs (br_storage b') (is_resolved r).
Proof.
  unfold apiRequest. rewrite apiRequest_unfold, run_bind, run_send.
  set (q := request_of cfg path o (br_storage b)). unfold logged at 1 2. cbn [fst snd].
  destruct (network q (br_net b).1).1 as [e|res] eqn:Hq.
  { exists [q]. split; [by split|constructor]. }
  set (b1 := b <| br_net := _ |>). unfold on_response.
  destruct ((fs_status res =? 401) && op_allowRefresh o).
  2: { pose proof (run_settle res b1) as Hs. destruct (run (settle res) b1) as [r b2]. simpl in Hs. subst b2.
       exists [q]. split; [by split|constructor]. }
  rewrite run_bind.
  destruct (run_tryRefresh cfg (logged network) b1) as [[_ ->]|(t & Ht & Href)].
  { exists [q]. split; [by split|apply trace_expired]. }
  cbv zeta in Href. set (b2 := b1 <| br_net := (logged network (refresh_request cfg t) (br_net b1)).2 |>) in Href.
  destruct Href as [->|(x & y & ->)].
  { exists [q; refresh_request cfg t]. split; [|by apply (trace_refused cfg path o (br_storage b) t)].
    apply (sends_trans [q] [refresh_request cfg t] b b1); by split. }
  rewrite run_no_refresh by done.
  set (b3 := with_tokens x y b2). set (q' := request_of _ _ _ _).
  destruct (logged network q' (br_net b3)) as [r n] eqn:Hl.
  assert (Hn : n = (logged network q' (br_net b3)).2) by by rewrite Hl.
  assert (Hsends : sends [q; refresh_request cfg t; q'] b (b3 <| br_net := n |>)).
  { apply (sends_trans [q] [refresh_request cfg t; q'] b b1); [by split|].
    apply (sends_trans [refresh_request cfg t] [q'] b1 b3); [by split|]. subst n. by split. }
  assert (Htrace : ∀ ok, api_trace cfg path o (br_storage b) [q; refresh_request cfg t; q']
    (br_storage (b3 <| br_net := n |>)) ok)
    by (intros ok; exact (trace_refreshed cfg path o (br_storage b) t x y ok Ht)).
  destruct r as [e|res']; [by eexists|].
  pose proof (run_settle res' (b3 <| br_net := n |>)) as Hs.
  destruct (run (settle res') _) as [r' b4]. simpl in Hs. subst b4. by eexists.
Qed.

(** C9: A call of the client ends. It sends the request, at most one refresh
    and, after a refresh, the request once more; the stored tokens end up
    unchanged, replaced together or removed together, and they are removed
    only when the call fails. Bounding the recursion of the source by two
    calls loses nothing. *)
Theorem apiRequest_bounded (path : string) (o : RequestOptions) (b : Browser (N * list FetchRequest)) :
  let '(r, b') := run (apiRequest cfg (logged network) path o) b in
  (∃ qs, sends qs b b' ∧ api_trace cfg path o (br_storage b) qs (br_storage b') (is_resolved r)) ∧
  ∀ fuel, run (apiRequest_rec cfg (logged network) (S (S fuel)) path o) b = (r, b').
Proof.
  pose proof (traced path o b) as Ht. destruct (run _ b) as [r b'] eqn:Hrun. split; [exact Ht|].
  intros fuel. by rewrite apiRequest_fuel.
Qed.
End bounded.
