(* ===== verification/Router.v ===== *)
(** The page: the hash router of src/apps/frontend/client/router.ts with the
    routes src/apps/frontend/client/main.ts registers. Setting the location's
    hash makes the browser render again when the hash has changed. *)
From S2P Require Import Prelude Async JsString Encoding Errors Store Evolution Http Client.
From stdpp Require Import base gmap strings list relations.
From Stdlib Require Import ZArith Ascii.
Local Open Scope string_scope.
Local Open Scope list_scope.
Local Open Scope Z_scope.

(** * The location *)

(** [s.replace(/^\/+/, '')] *)
Fixpoint strip_leading (s : string) : string :=
  match s with
  | String c rest => if Ascii.eqb c "/" then strip_leading rest else s
  | EmptyString => EmptyString
  end.

Definition defaultRoute : string := "/login".

(** [location.hash = s] then [location.hash]: the fragment with its "#", or
    nothing. The strings the program sets need no escape in a fragment. *)
Definition hash_of (s : string) : string :=
  match s with
  | EmptyString | String "#" EmptyString => ""
  | String "#" _ => s
  | _ => "#" +:+ s
  end.

(** [Router.parse] *)
Definition parse (hash : string) : string * list (string * string) :=
  let hash := match strip_leading (slice_from 1 hash) with EmptyString => defaultRoute | h => h end in
  match split_on "?" hash with
  | pathPart :: rest => ("/" +:+ strip_slashes pathPart, search_params (default "" (head rest)))
  | [] => ("/", [])
  end.

(** * The views *)

Inductive View := LoginView | RegisterView | MfaView | ResetView | AccountView.

(** The routes of src/apps/frontend/client/main.ts. *)
Definition routes : list (string * View) :=
  [("/login", LoginView); ("/register", RegisterView); ("/mfa", MfaView); ("/reset", ResetView);
   ("/account", AccountView)].

(** What a view shows. *)
Inductive Page :=
  | LoginPage | RegisterPage | MfaPage (challenge : string) | ForgotPage | ResetPage (token : string)
  | AccountPage.
#[export] Instance Page_eq_dec : EqDecision Page.
Proof. solve_decision. Defined.

Definition route_of (path : string) : option View := snd <$> sql_first (λ r, r.1 = path) routes.

Definition publicOnly (path : string) : bool := includes ["/login"; "/register"] path.

(** A view, or the path it navigates to instead: [makeMfa], [makeReset] and
    [makeAccount] read the parameters and the stored token. *)
Definition view_page (v : View) (params : list (string * string)) (has_token : bool) : string + Page :=
  match v with
  | LoginView => inr LoginPage
  | RegisterView => inr RegisterPage
  | MfaView => inr (MfaPage (default "" (param_of params "challenge")))
  | ResetView =>
      match truthy (param_of params "token") with
      | Some token => inr (ResetPage token)
      | None => inr ForgotPage
      end
  | AccountView => if has_token then inr AccountPage else inl "/login"
  end.

(** [Router.render]: a new location or a page. *)
Definition render (storage : gmap string string) (hash : string) : string + Page :=
  let '(path, params) := parse hash in
  let has_token := bool_decide (is_Some (storage !! ACCESS_KEY)) in
  match route_of path with
  | None => inl defaultRoute
  | Some v => if publicOnly path && has_token then inl "/account" else view_page v params has_token
  end.

(** The events a location sets off: a hash that changes is rendered again.
    [None] when the fuel runs out. *)
Fixpoint settle_at (fuel : nat) (storage : gmap string string) (hash : string) (shown : option Page)
    : option (option Page * string) :=
  match render storage hash with
  | inr p => Some (Some p, hash)
  | inl path =>
      if bool_decide (hash_of path = hash) then Some (shown, hash)
      else match fuel with
           | O => None
           | S fuel => settle_at fuel storage (hash_of path) shown
           end
  end.

Section page.
Context {N : Type}.

(** [Router.navigate], and what follows. *)
Definition navigate (path : string) : B N () :=
  writes (λ b,
    if bool_decide (br_hash b = "#" +:+ path) then
      match render (br_storage b) (br_hash b) with
      | inl p => b <| br_hash := hash_of p |>
      | inr _ => b
      end
    else b <| br_hash := hash_of path |>).

(** The start of src/apps/frontend/client/main.ts. *)
Definition boot : B N () :=
  has ← hasAccessToken;
  writes (λ b,
    if (has : bool) && includes [""; "#"; "#/login"] (br_hash b)
    then b <| br_hash := hash_of "/account" |> else b).
End page.

(** * The router settles *)

Lemma hash_of_path s : hash_of (String "/" s) = "#" +:+ String "/" s.
Proof. done. Qed.

Lemma render_login storage :
  render storage "#/login" = if bool_decide (is_Some (storage !! ACCESS_KEY)) then inl "/account" else inr LoginPage.
Proof. done. Qed.

Lemma render_account storage :
  render storage "#/account" =
    if bool_decide (is_Some (storage !! ACCESS_KEY)) then inr AccountPage else inl "/login".
Proof. done. Qed.

(** A redirect goes to the login or to the account, and to the account only
    with a token. *)
Lemma render_redirect storage hash path :
  render storage hash = inl path → path = "/login" ∨ (path = "/account" ∧ is_Some (storage !! ACCESS_KEY)).
Proof.
  unfold render. destruct (parse hash) as [p params].
  destruct (route_of p) as [v|]; [|intros [= <-]; by left]. case_bool_decide as Ht.
  - destruct (publicOnly p); [intros [= <-]; by right|].
    unfold view_page. destruct v; try done. by destruct (truthy _).
  - rewrite andb_false_r. destruct v; try done; [|intros [= <-]; by left].
    unfold view_page. by destruct (truthy _).
Qed.

(** The page fits the token. *)
Definition page_allowed (storage : gmap string string) (p : Page) : Prop :=
  match p with
  | LoginPage | RegisterPage => storage !! ACCESS_KEY = None
  | AccountPage => is_Some (storage !! ACCESS_KEY)
  | _ => True
  end.

Lemma route_public path v :
  route_of path = Some v → publicOnly path = match v with LoginView | RegisterView => true | _ => false end.
Proof.
  unfold route_of. destruct (sql_first _ routes) as [r|] eqn:Hr; [|done]. intros [= <-].
  apply sql_first_Some in Hr as [<- Hin]. revert r Hin. apply Forall_forall. repeat constructor.
Qed.

Lemma render_allowed storage hash p : render storage hash = inr p → page_allowed storage p.
Proof.
  unfold render. destruct (parse hash) as [path params]. destruct (route_of path) as [v|] eqn:Hv; [|done].
  rewrite (route_public _ _ Hv). case_bool_decide as Ht; [|apply eq_None_not_Some in Ht];
    destruct v; simpl; try destruct (truthy _); intros; by simplify_eq.
Qed.

(** The page that is shown in the end. *)
Lemma settles storage hash shown :
  ∃ p h, settle_at 2 storage hash shown = Some (Some p, h) ∧ render storage h = inr p.
Proof.
  cbn [settle_at]. destruct (render storage hash) as [path|p] eqn:Hr; [|by eexists _, _].
  destruct (render_redirect _ _ _ Hr) as [->|[-> Ht]].
  - change (hash_of "/login") with "#/login". rewrite render_login.
    destruct (bool_decide ("#/login" = hash)) eqn:Heq;
      [apply bool_decide_eq_true in Heq|clear Heq; case_bool_decide as Ht].
    + subst hash. rewrite render_login in Hr. destruct (bool_decide _); by inversion Hr.
    + change (hash_of "/account") with "#/account". cbn [settle_at].
      change (bool_decide ("#/account" = "#/login")) with false. cbv iota.
      rewrite render_account, (bool_decide_eq_true_2 (is_Some _)) by done. eexists _, _. split; [reflexivity|]. by rewrite render_account, (bool_decide_eq_true_2 (is_Some _)).
    + eexists _, _. split; [reflexivity|]. by rewrite render_login, bool_decide_eq_false_2.
  - change (hash_of "/account") with "#/account". cbn [settle_at]. rewrite render_account, (bool_decide_eq_true_2 (is_Some _)) by done.
    destruct (bool_decide ("#/account" = hash)) eqn:Heq.
    + apply bool_decide_eq_true in Heq. subst hash. rewrite render_account, (bool_decide_eq_true_2 (is_Some _)) in Hr by done. discriminate.
    + eexists _, _. split; [reflexivity|]. by rewrite render_account, (bool_decide_eq_true_2 (is_Some _)).
Qed.

Lemma settle_more fuel more storage hash shown r :
  settle_at fuel storage hash shown = Some r → settle_at (fuel + more) storage hash shown = Some r.
Proof.
  revert hash. induction fuel as [|fuel IH]; intros hash; simpl.
  - destruct more as [|more]; [done|]. simpl. destruct (render storage hash); [|done].
    by destruct (bool_decide _).
  - destruct (render storage hash); [|done]. destruct (bool_decide _); [done|]. apply IH.
Qed.

(** C18: The router always settles. Whatever the location says and whatever is
    stored, after at most two redirects a page is shown that renders from its
    location without any further redirect: the login and the registration
    only without a token, the account only with one. *)
Theorem router_settles (storage : gmap string string) (hash : string) (shown : option Page) :
  ∃ p h, (∀ fuel, settle_at (S (S fuel)) storage hash shown = Some (Some p, h)) ∧
    render storage h = inr p ∧ page_allowed storage p.
Proof.
  destruct (settles storage hash shown) as (p & h & Hs & Hr). exists p, h. split; [|split; [exact Hr|by eapply render_allowed]].
  intros fuel. by apply (settle_more 2).
Qed.
