(* ===== verification/Views.v ===== *)
(** The forms of the page: what src/apps/frontend/client/views does with a
    submission: requests, messages, tokens, the location. The elements they are
    made of are in Dom and Screens. *)
From S2P Require Import Prelude Async JsString Encoding Errors Store Evolution Toy Password Http Client Router.
From stdpp Require Import base gmap strings list relations.
From Stdlib Require Import ZArith Ascii.
Local Open Scope string_scope.
Local Open Scope list_scope.
Local Open Scope Z_scope.

(** * Checks before a request *)

(** A "." with a character after it. *)
Fixpoint dot_inside (s : string) : bool :=
  match s with
  | String c (String _ _ as rest) => Ascii.eqb c "." || dot_inside rest
  | _ => false
  end.

Definition mail_char (c : ascii) : bool := negb (is_space c || Ascii.eqb c "@").

(** [/^[^\s@]+@[^\s@]+\.[^\s@]+$/] *)
Definition email_pattern (s : string) : bool :=
  match split_first "@" s with
  | Some (EmptyString, _) | Some (_, EmptyString) => false
  | Some (local, String d domain) =>
      all_chars mail_char local && all_chars mail_char (String d domain) && dot_inside domain
  | None => false
  end.

Definition special (c : ascii) : bool := negb (is_digit c || is_lower c || is_upper c).

(** The strength meter of the registration. *)
Definition scorePassword (password : string) : nat :=
  let n := String.length password in
  Nat.min 4 (Nat.b2n (12 <=? n)%nat + Nat.b2n (16 <=? n)%nat
    + Nat.b2n (some_char is_lower password && some_char is_upper password)
    + Nat.b2n (some_char is_digit password) + Nat.b2n (some_char special password)).

(** A value used as a condition. *)
Definition js_true (v : option json) : bool :=
  match v with
  | None | Some JNull | Some (JBool false) | Some (JNum 0) | Some (JStr EmptyString) => false
  | _ => true
  end.

Section views.
Context (cfg : ClientConfig).
Context {N : Type} (network : FetchRequest → N → outcome JsErr FetchResponse * N).
(** The text of the errors the browser makes. *)
Context (engine_message : JsErr → string).

Definition error_message (e : JsErr) : string :=
  match e with ApiError _ _ m => m | e => engine_message e end.

Definition toast (message kind : string) : B N () :=
  writes (λ b, b <| br_toasts ::= λ ts, ts ++ [(message, kind)] |>).

(** An entry of the form that fails the check of the browser's side. *)
Definition bad_email (email : option string) : bool :=
  match truthy email with Some e => negb (email_pattern e) | None => false end.

(** A property of the answer: reading one of [undefined] or [null] throws. *)
Definition property (res : option json) (k : string) : B N (option json) :=
  match res with
  | None | Some JNull => Throw TypeError
  | Some v => mret (jget v k)
  end.

(** [setTokens(res.access_token, res.refresh_token)] *)
Definition keep_tokens (res : option json) : B N () :=
  access ← property res "access_token";
  refresh ← property res "refresh_token";
  setTokens (stored_text access) (stored_text refresh).

(** * Login *)

Definition mfa_path (challenge : string) : string := "/mfa?challenge=" +:+ encodeURIComponent challenge.

Definition signed_in (res : option json) : B N () :=
  required ← property res "mfa_required";
  challenge ← property res "mfa_challenge_id";
  if js_true required && js_true challenge then navigate (mfa_path (stored_text challenge))
  else
    _ ← keep_tokens res;
    _ ← toast "Signed in successfully" "success";
    navigate "/account".

Definition on_error (p : B N ()) : B N () := catch (λ e, toast (error_message e) "error") p.

Definition login_attempt (email password : option string) : B N () :=
  on_error (res ← api_login cfg network email password; signed_in res).
Definition login_submit (email password : option string) : B N () :=
  if bad_email email then mret () else login_attempt email password.

(** * The second factor *)

Definition mfa_attempt (challengeId code : string) : B N () :=
  res ← verifyMfa cfg network challengeId code;
  _ ← keep_tokens res;
  _ ← toast "Authenticated" "success";
  navigate "/account".
Definition mfa_submit (challengeId : string) (boxes : list string) : B N () :=
  let code := js_join "" boxes in
  if negb (String.length code =? 6)%nat then mret () else on_error (mfa_attempt challengeId code).

(** * Registration *)

Definition register_attempt (email password first last : option string) : B N () :=
  on_error
    (_ ← api_register cfg network email password first last;
     _ ← toast "Registration submitted — check your inbox for a verification link" "success";
     navigate "/login").

(** The meter reads the length of [undefined] when no password is given. *)
Definition register_submit (email password first last : option string) : B N () :=
  if bad_email email then mret ()
  else
    match password with
    | None => Throw TypeError
    | Some p => if (scorePassword p <? 2)%nat then mret () else register_attempt email password first last
    end.

(** * Password recovery *)

(** [new URLSearchParams({ email })] *)
Definition forgot_path (email : option string) : string :=
  "/reset?token=&email=" +:+ form_encode (stored_text (JStr <$> email)).

Definition forgot_attempt (email : option string) : B N () :=
  on_error
    (_ ← api_forgotPassword cfg network email;
     _ ← toast "If that email exists, a reset code is on its way" "info";
     navigate (forgot_path email)).
Definition forgot_submit (email : option string) : B N () :=
  if bad_email email then mret () else forgot_attempt email.

Definition reset_submit (token password : option string) : B N () :=
  on_error
    (_ ← api_resetPassword cfg network token password;
     _ ← toast "Password reset — sign in with your new password" "success";
     navigate "/login").

(** * The account *)

(** What [makeAccount] does when one of the two requests fails. *)
Definition account_failed (e : JsErr) : B N () :=
  _ ← toast (error_message e) "error";
  _ ← clearTokens;
  navigate "/login".

(** [reload] keeps the page as it is. *)
Definition reload_failed (e : JsErr) : B N () := toast (error_message e) "error".

Definition doLogout : B N () :=
  refresh ← getRefreshToken;
  _ ← catch (λ _, mret ())
        (match truthy refresh with
         | Some t => _ ← api_logout cfg network t; mret ()
         | None => mret ()
         end);
  _ ← clearTokens;
  _ ← toast "Signed out" "info";
  navigate "/login".

(** [[first, last].filter(Boolean).join(' ') || email] *)
Definition displayName (first last : option string) (email : string) : string :=
  match js_join " " (omap truthy [first; last]) with EmptyString => email | n => n end.

(** * What the page shows next *)

(** After the events that follow, the page shows [p]. *)
Definition shows (p : Page) (b : Browser N) : Prop :=
  ∃ h, ∀ shown, settle_at 2 (br_storage b) (br_hash b) shown = Some (Some p, h).

Lemma run_navigate path (b : Browser N) :
  run (navigate path) b =
    (Resolved (), if bool_decide (br_hash b = "#" +:+ path) then
                    match render (br_storage b) (br_hash b) with
                    | inl p => b <| br_hash := hash_of p |>
                    | inr _ => b
                    end
                  else b <| br_hash := hash_of path |>).
Proof. done. Qed.

Lemma navigate_shows path p (b : Browser N) :
  hash_of path = "#" +:+ path → render (br_storage b) ("#" +:+ path) = inr p →
  ∃ b', run (navigate path) b = (Resolved (), b') ∧ br_storage b' = br_storage b ∧
    br_toasts b' = br_toasts b ∧ shows p b'.
Proof.
  intros Hp Hr. rewrite run_navigate. case_bool_decide as Heq.
  - rewrite Heq, Hr. exists b. split_and!; try done. exists ("#" +:+ path). intros shown.
    cbn [settle_at]. by rewrite Heq, Hr.
  - eexists. split; [reflexivity|]. split_and!; try done. exists ("#" +:+ path). intros shown.
    change (settle_at 2 (br_storage b) (hash_of path) shown = Some (Some p, "#" +:+ path)).
    rewrite Hp. cbn [settle_at]. by rewrite Hr.
Qed.

(** A query of one parameter. *)
Lemma search_param k v :
  all_chars (λ c, negb (Ascii.eqb c "=")) k = true → all_chars (λ c, negb (Ascii.eqb c "&")) k = true →
  search_params (k +:+ "=" +:+ encodeURIComponent v) = [(form_decode k, v)].
Proof.
  intros Hk Hk'. unfold search_params.
  rewrite (split_on_none "&").
  2: { rewrite !all_chars_app, Hk'. simpl. by apply encode_avoids. }
  rewrite filter_cons, decide_True by (by destruct k). rewrite filter_nil. cbn [fmap list_fmap].
  change (k +:+ "=" +:+ encodeURIComponent v) with (k +:+ String "=" (encodeURIComponent v)).
  by rewrite split_first_app, form_decode_uri.
Qed.

(** The link to the second factor carries any identifier. *)
Lemma render_mfa storage challenge :
  render storage ("#" +:+ mfa_path challenge) = inr (MfaPage challenge).
Proof.
  assert (Hp : parse ("#" +:+ mfa_path challenge) = ("/mfa", [("challenge", challenge)])).
  { unfold parse.
    change (match strip_leading (slice_from 1 ("#" +:+ mfa_path challenge)) with
            | EmptyString => defaultRoute | h => h end)
      with ("mfa" +:+ String "?" ("challenge" +:+ "=" +:+ encodeURIComponent challenge)).
    rewrite (split_on_app "?") by done. rewrite (split_on_none "?").
    2: { rewrite !all_chars_app. simpl. by apply encode_avoids. }
    exact (f_equal (pair "/mfa") (search_param "challenge" challenge eq_refl eq_refl)). }
  unfold render. rewrite Hp. reflexivity.
Qed.

Lemma render_account_page access storage :
  storage !! ACCESS_KEY = Some access → render storage "#/account" = inr AccountPage.
Proof. intros Ht. by rewrite render_account, Ht. Qed.

Lemma run_keep_tokens v (b : Browser N) :
  v ≠ JNull →
  run (keep_tokens (Some v)) b =
    (Resolved (), with_tokens (stored_text (jget v "access_token")) (stored_text (jget v "refresh_token")) b).
Proof. by destruct v. Qed.

Lemma stored_tokens x y (b : Browser N) :
  br_storage (with_tokens x y b) !! ACCESS_KEY = Some x ∧ br_storage (with_tokens x y b) !! REFRESH_KEY = Some y.
Proof.
  change (br_storage (with_tokens x y b)) with (<[REFRESH_KEY := y]> (<[ACCESS_KEY := x]> (br_storage b))).
  by rewrite lookup_insert_ne, !lookup_insert_eq.
Qed.

(** The way on to the account after tokens have been stored. *)
Lemma enter_account message v (b : Browser N) :
  v ≠ JNull →
  ∃ b', run (_ ← keep_tokens (Some v); _ ← toast message "success"; navigate "/account") b = (Resolved (), b') ∧
    br_storage b' !! ACCESS_KEY = Some (stored_text (jget v "access_token")) ∧
    br_storage b' !! REFRESH_KEY = Some (stored_text (jget v "refresh_token")) ∧
    br_net b' = br_net b ∧ shows AccountPage b'.
Proof.
  intros Hv. rewrite (run_bind_eq _ _ _ _ _ (run_keep_tokens v b Hv)).
  set (b1 := with_tokens _ _ b). destruct (stored_tokens (stored_text (jget v "access_token"))
    (stored_text (jget v "refresh_token")) b) as [Ha Hr]. fold b1 in Ha, Hr.
  set (b2 := b1 <| br_toasts ::= λ ts, ts ++ [(message, "success")] |>).
  rewrite (run_bind_eq _ _ _ () b2) by done.
  destruct (navigate_shows "/account" AccountPage b2) as (b3 & Hrun & Hs & _ & Hshow); [done|by eapply render_account_page|].
  exists b3. split; [exact Hrun|]. rewrite Hs. split; [exact Ha|]. split; [exact Hr|]. split; [|exact Hshow].
  rewrite run_navigate in Hrun. injection Hrun as <-.
  destruct (bool_decide _); [destruct (render _ _)|]; done.
Qed.

Lemma run_login_submit (email password : option string) (b : Browser N) :
  bad_email email = false →
  let '(r, b1) := run (api_login cfg network email password) b in
  ∃ b2, run (login_submit email password) b = (Resolved (), b2) ∧ br_net b2 = br_net b1 ∧
  match r with
  | Rejected e => b2 = b1 <| br_toasts ::= λ ts, ts ++ [(error_message e, "error")] |>
  | Resolved (None | Some JNull) =>
      b2 = b1 <| br_toasts ::= λ ts, ts ++ [(error_message TypeError, "error")] |>
  | Resolved (Some v) =>
      if js_true (jget v "mfa_required") && js_true (jget v "mfa_challenge_id")
      then br_storage b2 = br_storage b1 ∧ shows (MfaPage (stored_text (jget v "mfa_challenge_id"))) b2
      else br_storage b2 !! ACCESS_KEY = Some (stored_text (jget v "access_token")) ∧
           br_storage b2 !! REFRESH_KEY = Some (stored_text (jget v "refresh_token")) ∧ shows AccountPage b2
  end.
Proof.
  intros He. destruct (run (api_login cfg network email password) b) as [r b1] eqn:Hlogin.
  unfold login_submit. rewrite He. unfold login_attempt, on_error. rewrite run_catch, run_bind, Hlogin.
  destruct r as [e|[v|]]; [by eexists| |by eexists].
  assert (Hcase : v = JNull ∨ v ≠ JNull) by (destruct v; (by left) || by right).
  destruct Hcase as [->|Hv]; [by eexists|].
  set (required := jget v "mfa_required"). set (challenge := jget v "mfa_challenge_id").
  assert (Hsigned : run (signed_in (Some v)) b1 =
    run (if js_true required && js_true challenge then navigate (mfa_path (stored_text challenge))
         else _ ← keep_tokens (Some v); _ ← toast "Signed in successfully" "success"; navigate "/account") b1)
    by by destruct v.
  rewrite Hsigned. destruct (js_true required && js_true challenge) eqn:Hm.
  - destruct (navigate_shows (mfa_path (stored_text challenge)) (MfaPage (stored_text challenge)) b1)
      as (b2 & Hrun & Hs & _ & Hshow); [done|apply render_mfa|].
    rewrite Hrun. exists b2. split; [done|]. split.
    { rewrite run_navigate in Hrun. injection Hrun as <-. destruct (bool_decide _); [destruct (render _ _)|]; done. }
    unfold required, challenge in Hm. destruct v; try done; rewrite Hm; by split.
  - destruct (enter_account "Signed in successfully" v b1 Hv) as (b2 & Hrun & Ha & Hr & Hn & Hshow).
    rewrite Hrun. exists b2. split; [done|]. split; [done|].
    unfold required, challenge in Hm. destruct v; try done; rewrite Hm; by split_and!.
Qed.

(** What the sign-in form does with every answer. An error is shown, and
    nothing else changes; an answer that asks for a second factor takes the
    page to the challenge it names, whatever characters its identifier has,
    and stores nothing; any other answer's tokens are stored and the page goes
    to the account. The form itself never fails. *)
Theorem login_form (email password : option string) (b : Browser N) :
  bad_email email = false →
  let '(r, b1) := run (api_login cfg network email password) b in
  ∃ b2, run (login_submit email password) b = (Resolved (), b2) ∧ br_net b2 = br_net b1 ∧
  match r with
  | Rejected e => b2 = b1 <| br_toasts ::= λ ts, ts ++ [(error_message e, "error")] |>
  | Resolved (None | Some JNull) =>
      b2 = b1 <| br_toasts ::= λ ts, ts ++ [(error_message TypeError, "error")] |>
  | Resolved (Some v) =>
      if js_true (jget v "mfa_required") && js_true (jget v "mfa_challenge_id")
      then br_storage b2 = br_storage b1 ∧ shows (MfaPage (stored_text (jget v "mfa_challenge_id"))) b2
      else br_storage b2 !! ACCESS_KEY = Some (stored_text (jget v "access_token")) ∧
           br_storage b2 !! REFRESH_KEY = Some (stored_text (jget v "refresh_token")) ∧ shows AccountPage b2
  end.
Proof. apply run_login_submit. Qed.

Lemma no_tokens (b : Browser N) :
  br_storage (without_tokens b) !! ACCESS_KEY = None ∧ br_storage (without_tokens b) !! REFRESH_KEY = None.
Proof.
  change (br_storage (without_tokens b)) with (delete REFRESH_KEY (delete ACCESS_KEY (br_storage b))).
  by rewrite lookup_delete_ne, !lookup_delete_eq.
Qed.

(** The way back to the login. *)
Lemma leave_account message kind (b : Browser N) :
  ∃ b', run (_ ← clearTokens; _ ← toast message kind; navigate "/login") b = (Resolved (), b') ∧
    br_storage b' !! ACCESS_KEY = None ∧ br_storage b' !! REFRESH_KEY = None ∧ shows LoginPage b'.
Proof.
  rewrite (run_bind_eq _ _ _ () (without_tokens b)) by done.
  destruct (no_tokens b) as [Ha Hr].
  rewrite (run_bind_eq _ _ _ () (without_tokens b <| br_toasts ::= λ ts, ts ++ [(message, kind)] |>)) by done.
  destruct (navigate_shows "/login" LoginPage (without_tokens b <| br_toasts ::= λ ts, ts ++ [(message, kind)] |>))
    as (b2 & Hrun & Hs & _ & Hshow); [done| |].
  - change (render (br_storage (without_tokens b)) "#/login" = inr LoginPage).
    rewrite render_login, bool_decide_eq_false_2; [done|]. rewrite Ha. by intros [].
  - exists b2. split; [exact Hrun|]. rewrite Hs. split; [exact Ha|]. by split.
Qed.

(** Signing out always works. Whatever the server answers, or if it cannot
    be reached, the page forgets both tokens, says so, and shows the login. *)
Theorem sign_out (b : Browser N) :
  ∃ b', run doLogout b = (Resolved (), b') ∧
    br_storage b' !! ACCESS_KEY = None ∧ br_storage b' !! REFRESH_KEY = None ∧ shows LoginPage b'.
Proof.
  unfold doLogout. rewrite (run_bind_eq _ _ _ (br_storage b !! REFRESH_KEY) b) by done.
  assert (∃ b1, run (catch (λ _, mret ())
        (match truthy (br_storage b !! REFRESH_KEY) with
         | Some t => _ ← api_logout cfg network t; mret ()
         | None => mret ()
         end)) b = (Resolved (), b1)) as [b1 Hb1].
  { rewrite run_catch. destruct (truthy _) as [t|]; [|by eexists]. rewrite run_bind.
    destruct (run (api_logout cfg network t) b) as [[e|v] b1]; by eexists. }
  rewrite (run_bind_eq _ _ _ _ _ Hb1). apply leave_account.
Qed.

(** A request for a reset leads back to the same form: the link the page
    follows carries an empty token. *)
Lemma forgot_returns (email : option string) (b b1 : Browser N) (v : option json) :
  bad_email email = false → run (api_forgotPassword cfg network email) b = (Resolved v, b1) →
  ∃ b2, run (forgot_submit email) b = (Resolved (), b2) ∧ shows ForgotPage b2.
Proof.
  intros He Hf. unfold forgot_submit. rewrite He. unfold forgot_attempt, on_error. rewrite run_catch.
  rewrite (run_bind_eq _ _ _ _ _ Hf).
  set (b2 := b1 <| br_toasts ::= λ ts, ts ++ [("If that email exists, a reset code is on its way", "info")] |>).
  rewrite (run_bind_eq _ _ _ () b2) by done.
  destruct (navigate_shows (forgot_path email) ForgotPage b2) as (b3 & Hrun & _ & _ & Hshow); [done| |].
  - unfold render.
    assert (Hp : ∃ q, parse ("#" +:+ forgot_path email) = ("/reset", ("token", "") :: q)).
    { unfold parse, forgot_path. set (e := form_encode _).
      change (match strip_leading (slice_from 1 ("#" +:+ "/reset?token=&email=" +:+ e)) with
              | EmptyString => defaultRoute | h => h end)
        with ("reset" +:+ String "?" (("token=" +:+ String "&" ("email=" +:+ e)))).
      rewrite (split_on_app "?") by done.
      assert (He' : all_chars (λ c, negb (Ascii.eqb c "?")) e = true) by apply form_encode_no_question.
      rewrite (split_on_none "?") by exact He'.
      exists (search_params ("email=" +:+ e)). reflexivity. }
    destruct Hp as [q ->]. unfold view_page. reflexivity.
  - exists b3. rewrite Hrun. by split.
Qed.
End views.

(** The strength meter never stands in the way: a password the server's
    policy accepts passes the check of the registration form. *)
Theorem meter_admits_acceptable `{P : Platform} (password : string) :
  acceptable password → (2 ≤ scorePassword password)%nat.
Proof.
  intros [_ Hl Hu Hd _ _]. unfold scorePassword. rewrite Hl, Hu, Hd. cbn [andb Nat.b2n]. lia.
Qed.

(** * At concrete inputs *)

Lemma meter_admits_acceptable_witness : (2 ≤ scorePassword "Correct-Horse-42")%nat.
Proof. apply (meter_admits_acceptable (P := toy)), password_policy_ok. by vm_compute. Defined.

(** A server that always asks for a second factor. *)
Definition challenging (q : FetchRequest) (n : ()) : outcome JsErr FetchResponse * () :=
  (Resolved (mkFetched 200 (BJson (JObj [("mfa_required", JBool true); ("mfa_challenge_id", JStr "a&b=c?d")]))), n).

Lemma login_form_witness :
  ∃ b2, run (login_submit (readConfig None) challenging (λ _, "") (Some "ada@example.com") (Some "pw"))
      (mkBrowser ∅ "#/login" [] ()) = (Resolved (), b2) ∧ br_storage b2 = ∅ ∧ shows (MfaPage "a&b=c?d") b2.
Proof.
  pose proof (login_form (readConfig None) challenging (λ _, "") (Some "ada@example.com") (Some "pw")
    (mkBrowser ∅ "#/login" [] ()) ltac:(by vm_compute)) as H.
  assert (E : run (api_login (readConfig None) challenging (Some "ada@example.com") (Some "pw")) (mkBrowser ∅ "#/login" [] ())
    = (Resolved (Some (JObj [("mfa_required", JBool true); ("mfa_challenge_id", JStr "a&b=c?d")])),
       mkBrowser ∅ "#/login" [] ())) by reflexivity.
  rewrite E in H. destruct H as (b2 & Hrun & _ & Hs & Hshow). exists b2. split; [exact Hrun|]. by split.
Defined.

