(* ===== verification/Dom.v ===== *)
(** The document tree and the helpers of src/apps/frontend/client/ui.ts: how an
    element is built from its attributes and children, which elements a selector
    finds, what a form holds, and the marks on buttons and inputs. *)
From S2P Require Import Prelude Async JsString Errors Store Evolution Redis RateLimit Http.
From stdpp Require Import base gmap strings list.
From Stdlib Require Import ZArith Ascii.
Local Open Scope string_scope.
Local Open Scope list_scope.
Local Open Scope Z_scope.

(** * Nodes *)

(** The attributes of an element, in the order they were first set. *)
Inductive Node : Type :=
  | Text (data : string)
  | Elem (tag : string) (attrs : list (string * string)) (children : list Node).

Section node_ind.
Context (Φ : Node → Prop).
Context (Htext : ∀ s, Φ (Text s)) (Helem : ∀ t a cs, Forall Φ cs → Φ (Elem t a cs)).

Fixpoint node_forall (n : Node) : Φ n :=
  match n with
  | Text s => Htext s
  | Elem t a cs =>
      Helem t a cs
        ((fix go (l : list Node) : Forall Φ l :=
            match l with
            | [] => Forall_nil_2 Φ
            | c :: l => Forall_cons_2 Φ c l (node_forall c) (go l)
            end) cs)
  end.
End node_ind.

(** [node.textContent] *)
Fixpoint text_content (n : Node) : string :=
  match n with
  | Text s => s
  | Elem _ _ cs => js_join "" (map text_content cs)
  end.

(** The markup without what the text nodes say. *)
Fixpoint markup (n : Node) : Node :=
  match n with
  | Text _ => Text ""
  | Elem t a cs => Elem t a (map markup cs)
  end.

(** * Building elements *)

(** The values an attribute may be given. *)
Inductive AttrValue : Type :=
  | AStr (s : string) | ANum (n : Z) | ABool (b : bool) | ANull | AUndefined.
Coercion AStr : string >-> AttrValue.

(** A child is a node, a string, or an array of them. *)
Inductive Child : Type := CNode (n : Node) | CText (s : string) | CMany (cs : list (Node + string)).
Coercion CNode : Node >-> Child.
Coercion CText : string >-> Child.

(** [String(value)] *)
Definition attr_string (v : AttrValue) : string :=
  match v with
  | AStr s => s
  | ANum n => decimal_of n
  | ABool b => if b then "true" else "false"
  | ANull => "null"
  | AUndefined => "undefined"
  end.

(** [node.setAttribute(key, value)] on an element of HTML. *)
Fixpoint set_attr (key value : string) (attrs : list (string * string)) : list (string * string) :=
  match attrs with
  | [] => [(key, value)]
  | (k, v) :: attrs => if bool_decide (k = key) then (key, value) :: attrs else (k, v) :: set_attr key value attrs
  end.
Definition setAttribute (key value : string) : list (string * string) → list (string * string) :=
  set_attr (to_lower key) value.

(** One entry of the attributes: the branches in the order of the code. *)
Definition el_attr (attrs : list (string * string)) (entry : string * AttrValue) : list (string * string) :=
  let '(key, value) := entry in
  match value with
  | ANull | AUndefined | ABool false => attrs
  | _ =>
      if bool_decide (key = "class") then setAttribute "class" (attr_string value) attrs
      else if bool_decide (key = "dataset") then attrs
      else match value with
           | ABool true => setAttribute key "" attrs
           | v => setAttribute key (attr_string v) attrs
           end
  end.

Definition append_child (child : Node + string) : Node :=
  match child with inl n => n | inr s => Text s end.
Definition el_child (child : Child) : list Node :=
  match child with
  | CNode n => [n]
  | CText s => [Text s]
  | CMany cs => map append_child cs
  end.

Definition el (tag : string) (attrs : list (string * AttrValue)) (children : list Child) : Node :=
  Elem tag (fold_left el_attr attrs []) (flat_map el_child children).

(** Attributes and children as the views write them. *)
Declare Scope dom_scope.
Delimit Scope dom_scope with dom.
Notation "k =: v" := (@pair string AttrValue k v) (at level 60) : dom_scope.
Notation "⟨ x , .. , y ⟩" := (@cons Child x .. (@cons Child y (@nil Child)) ..) : dom_scope.

(** [parent.append(..)], [parent.appendChild(..)]; [clear] *)
Definition append_nodes (parent : Node) (cs : list Node) : Node :=
  match parent with Elem t a cs0 => Elem t a (cs0 ++ cs) | n => n end.
Definition clear (parent : Node) : Node :=
  match parent with Elem t a _ => Elem t a [] | n => n end.

(** * Selectors *)

Definition attr_of (n : Node) (key : string) : option string :=
  match n with
  | Text _ => None
  | Elem _ a _ => snd <$> List.find (λ kv, bool_decide (kv.1 = key)) a
  end.
Definition classes (n : Node) : list string := scope_list (default "" (attr_of n "class")).

(** A compound selector, such as [button[type="submit"]], and a selector of
    descendants, the innermost compound first. *)
Inductive Simple : Type := Tag (t : string) | Class_ (c : string) | Id (i : string) | AttrIs (k v : string).
Definition Selector : Type := list (list Simple).

Definition meets (n : Node) (s : Simple) : bool :=
  match n with
  | Text _ => false
  | Elem t _ _ =>
      match s with
      | Tag t' => bool_decide (t = t')
      | Class_ c => includes (classes n) c
      | Id i => bool_decide (attr_of n "id" = Some i)
      | AttrIs k v => bool_decide (attr_of n k = Some v)
      end
  end.

(** The ancestors, nearest first, contain the rest of the selector. *)
Fixpoint within (sel : Selector) (ancestors : list Node) : bool :=
  match ancestors with
  | [] => match sel with [] => true | _ => false end
  | a :: ancestors =>
      match sel with
      | [] => true
      | c :: sel' => (forallb (meets a) c && within sel' ancestors) || within sel ancestors
      end
  end.

Definition selected (sel : Selector) (ancestors : list Node) (n : Node) : bool :=
  match sel with
  | [] => false
  | c :: sel => forallb (meets n) c && within sel ancestors
  end.

(** The descendants in document order, each with its path and ancestors. *)
Fixpoint walk (ancestors : list Node) (path : list nat) (n : Node) : list (list nat * list Node * Node) :=
  match n with
  | Text _ => []
  | Elem _ _ cs =>
      (fix go (i : nat) (cs : list Node) : list (list nat * list Node * Node) :=
         match cs with
         | [] => []
         | c :: cs => (path ++ [i], n :: ancestors, c) :: walk (n :: ancestors) (path ++ [i]) c ++ go (S i) cs
         end) 0%nat cs
  end.

Definition querySelectorAll (sel : Selector) (root : Node) : list (list nat * Node) :=
  map (λ e, (e.1.1, e.2)) (List.filter (λ e, selected sel e.1.2 e.2) (walk [] [] root)).
Definition querySelector (sel : Selector) (root : Node) : option (list nat * Node) :=
  head (querySelectorAll sel root).

(** A change of the element at a path; of the first one a selector finds. *)
Fixpoint alter_at (path : list nat) (f : Node → Node) (n : Node) : Node :=
  match path, n with
  | [], n => f n
  | i :: path, Elem t a cs => Elem t a (alter (alter_at path f) i cs)
  | _, Text s => Text s
  end.
Definition alter_first (sel : Selector) (f : Node → Node) (root : Node) : Node :=
  match querySelector sel root with Some (path, _) => alter_at path f root | None => root end.

(** * Attributes that change *)

Definition on_attrs (f : list (string * string) → list (string * string)) (n : Node) : Node :=
  match n with Elem t a cs => Elem t (f a) cs | n => n end.
Definition set_attribute (key value : string) : Node → Node := on_attrs (setAttribute key value).
Definition remove_attribute (key : string) : Node → Node :=
  on_attrs (List.filter (λ kv, negb (bool_decide (kv.1 = key)))).

(** [classList.toggle(name, force)] *)
Definition toggle_class (name : string) (force : bool) (n : Node) : Node :=
  let cs := classes n in
  if Bool.eqb (includes cs name) force then n
  else set_attribute "class" (js_join " " (if force then cs ++ [name] else filter (λ c, c ≠ name) cs)) n.

(** [button.disabled = busy] reflects as an attribute without a value. *)
Definition set_disabled (busy : bool) (n : Node) : Node :=
  if busy then set_attribute "disabled" "" n else remove_attribute "disabled" n.

Definition disableButton (busy : bool) (button : Node) : Node :=
  let button := toggle_class "is-busy" busy (set_disabled busy button) in
  alter_first [[Class_ "spinner"]] (set_attribute "aria-hidden" (if busy then "true" else "false")) button.

(** The message only decides the marks. *)
Definition inputError (message : option string) (input : Node) : Node :=
  let bad := bool_decide (is_Some message) in
  set_attribute "aria-invalid" (if bad then "true" else "false") (toggle_class "input--error" bad input).

(** * Forms *)

(** The names of the entries [new FormData(form)] has: the named inputs, in
    document order. *)
Definition field_names (form : Node) : list string :=
  omap (λ e, match e.2 with
             | Elem "input" _ _ => truthy (attr_of e.2 "name")
             | _ => None
             end) (walk [] [] form).

(** [formData(form)]: [value] gives what each input holds. *)
Definition formData (value : string → string) (form : Node) : list (string * string) :=
  omap (λ k, match value k with EmptyString => None | v => Some (k, v) end) (field_names form).
Definition entry (data : list (string * string)) (k : string) : option string :=
  snd <$> List.find (λ kv, bool_decide (kv.1 = k)) data.

(** * Messages *)

Definition TOAST_ICONS (kind : string) : string :=
  if bool_decide (kind = "success") then "✓" else if bool_decide (kind = "error") then "✕" else "ℹ".

Definition toast_element (message kind : string) : Node :=
  el "div" [("class", AStr ("toast toast--" +:+ kind))]
    [CNode (el "span" [("class", AStr "toast__icon")] [CText (TOAST_ICONS kind)]);
     CNode (el "span" [("class", AStr "toast__msg")] [CText message])].

Definition mountToasts : Node := el "div" [("id", AStr "toasts"); ("class", AStr "toasts")] [].

(** [toast]: the host, made when there is none, with one message more. *)
Definition show_toast (message kind : string) (host : option Node) : Node :=
  append_nodes (default mountToasts host) [toast_element message kind].

(** A message is text, whatever it says. *)
Lemma toast_markup message message' kind :
  markup (toast_element message kind) = markup (toast_element message' kind).
Proof. done. Qed.
