(* ===== verification/Otp.v ===== *)
(** The six boxes of src/apps/frontend/client/views/mfa.ts: what an input, a
    backspace and a paste do to them, and when they submit the form. *)
From S2P Require Import Prelude JsString.
From stdpp Require Import base strings list.
From Stdlib Require Import ZArith Ascii.
Local Open Scope string_scope.
Local Open Scope list_scope.

(** The values of the boxes, and the one that has the focus. *)
Record Otp : Type := mkOtp { boxes : list string; focused : option nat }.

Definition fresh_otp : Otp := mkOtp (repeat "" 6) (Some 0%nat).

(** [s.replace(/\D/g, '')] *)
Fixpoint digits_of (s : string) : string :=
  match s with
  | EmptyString => EmptyString
  | String c s => if is_digit c then String c (digits_of s) else digits_of s
  end.

Definition filled (v : string) : bool := negb (bool_decide (v = "")).

(** [boxes.map((b) => b.value).join('')] *)
Definition code_of (bs : list string) : string := js_join "" bs.

Inductive OtpEvent : Type :=
  | Input (i : nat) (value : string)
  | Backspace (i : nat)
  | Paste (i : nat) (text : string).

(** A handler gives the boxes and, for every call of [requestSubmit], the code
    they hold at that moment. *)
Definition on_input (i : nat) (value : string) (o : Otp) : Otp * list string :=
  let v := slice_to 1 (digits_of value) in
  let bs := <[i := v]> (boxes o) in
  let focus := if filled v && (i <? length bs - 1)%nat then Some (S i) else focused o in
  (mkOtp bs focus,
   if (i =? length bs - 1)%nat && filled v && forallb filled bs then [code_of bs] else []).

Definition on_backspace (i : nat) (o : Otp) : Otp * list string :=
  (if bool_decide (boxes o !! i = Some "") && (0 <? i)%nat then mkOtp (boxes o) (Some (i - 1)%nat) else o, []).

(** The characters of the pasted text, one by one. *)
Fixpoint paste_from (idx : nat) (text : string) (o : Otp) : Otp * list string :=
  match text with
  | EmptyString => (o, [])
  | String ch text =>
      if (idx <? length (boxes o))%nat then
        let bs := <[idx := String ch ""]> (boxes o) in
        if (idx =? length bs - 1)%nat then
          let '(o', codes) := paste_from (S idx) text (mkOtp bs (focused o)) in (o', code_of bs :: codes)
        else paste_from (S idx) text (mkOtp bs (Some (S idx)))
      else paste_from (S idx) text o
  end.
Definition on_paste (text : string) (o : Otp) : Otp * list string :=
  paste_from 0 (slice_to 6 (digits_of text)) o.

Definition otp_event (e : OtpEvent) (o : Otp) : Otp * list string :=
  match e with
  | Input i v => on_input i v o
  | Backspace i => on_backspace i o
  | Paste _ text => on_paste text o
  end.

Fixpoint otp_events (es : list OtpEvent) (o : Otp) : Otp * list string :=
  match es with
  | [] => (o, [])
  | e :: es =>
      let '(o1, codes1) := otp_event e o in
      let '(o2, codes2) := otp_events es o1 in (o2, codes1 ++ codes2)
  end.

(** * The boxes hold digits *)

Definition digit_or_empty (v : string) : Prop := v = "" ∨ ∃ c, v = String c "" ∧ is_digit c = true.
Definition otp_wf (o : Otp) : Prop := length (boxes o) = 6%nat ∧ Forall digit_or_empty (boxes o).

(** A code: six digits. *)
Definition six_digit_code (s : string) : Prop := String.length s = 6%nat ∧ all_chars is_digit s = true.

Lemma digits_of_digits s : all_chars is_digit (digits_of s) = true.
Proof. induction s as [|c s IH]; [done|]. simpl. destruct (is_digit c) eqn:Hc; [|done]. simpl. by rewrite Hc. Qed.

Lemma digits_of_id s : all_chars is_digit s = true → digits_of s = s.
Proof. induction s as [|c s IH]; [done|]. simpl. intros [-> Hs]%andb_true_iff. by rewrite IH. Qed.

Lemma slice_to_le n s : (String.length (slice_to n s) ≤ n)%nat.
Proof. revert s. induction n as [|n IH]; intros [|c s]; simpl; try lia. specialize (IH s). lia. Qed.

Lemma slice_to_all n s : (String.length s ≤ n)%nat → slice_to n s = s.
Proof. revert s. induction n as [|n IH]; intros [|c s]; simpl; try done; [lia|]. intros H. by rewrite IH by lia. Qed.

Lemma first_digit s : digit_or_empty (slice_to 1 (digits_of s)).
Proof.
  pose proof (digits_of_digits s) as Hd. destruct (digits_of s) as [|c d]; [by left|]. right.
  exists c. simpl in Hd. apply andb_true_iff in Hd as [Hc _]. split; [by destruct d|done].
Qed.

Lemma all_chars_empty_join (p : ascii → bool) bs :
  Forall (λ v, all_chars p v = true) bs → all_chars p (code_of bs) = true.
Proof.
  unfold code_of, js_join. induction 1 as [|v bs Hv Hbs IH]; [done|].
  destruct bs; [done|]. change (all_chars p (v +:+ ("" +:+ String.concat "" (s :: bs))) = true).
  by rewrite all_chars_app, Hv.
Qed.

Lemma app_nil_string s : s +:+ "" = s.
Proof. induction s as [|c s IH]; [done|]. by rewrite string_app_cons, IH. Qed.

Lemma code_cons v bs : code_of (v :: bs) = v +:+ code_of bs.
Proof. unfold code_of, js_join. destruct bs; [by rewrite app_nil_string|done]. Qed.

Lemma filled_code bs :
  Forall digit_or_empty bs → forallb filled bs = true → String.length (code_of bs) = length bs.
Proof.
  intros Hd Hf. induction Hd as [|v bs Hv Hbs IH]; [done|]. rewrite code_cons. simpl in Hf.
  apply andb_true_iff in Hf as [Hv' Hf]. destruct Hv as [->|(c & -> & _)]; [done|].
  rewrite string_app_cons. cbn [String.length length].
  by rewrite <- IH.
Qed.

Lemma full_code bs :
  length bs = 6%nat → Forall digit_or_empty bs → forallb filled bs = true → six_digit_code (code_of bs).
Proof.
  intros Hl Hd Hf. split; [by rewrite filled_code|]. apply all_chars_empty_join.
  eapply Forall_impl; [exact Hd|]. intros v [->|(c & -> & Hc)]; [done|]. simpl. by rewrite Hc.
Qed.

(** A text as the boxes hold it. *)
Fixpoint spread (s : string) : list string :=
  match s with EmptyString => [] | String c s => String c "" :: spread s end.

Lemma code_spread s : code_of (spread s) = s.
Proof. induction s as [|c s IH]; [done|]. cbn [spread]. by rewrite code_cons, IH, string_app_cons. Qed.

Lemma spread_length s : length (spread s) = String.length s.
Proof. induction s as [|c s IH]; [done|]. simpl. by rewrite IH. Qed.

Lemma spread_digits s : all_chars is_digit s = true → Forall digit_or_empty (spread s).
Proof.
  induction s as [|c s IH]; simpl; [constructor|]. intros [Hc Hs]%andb_true_iff.
  constructor; [right; by exists c|by apply IH].
Qed.

(** Pasting overwrites the boxes from the first on; the last one submits. *)
Lemma paste_from_spec text idx o :
  length (boxes o) = 6%nat → (idx + String.length text ≤ 6)%nat →
  let bs := take idx (boxes o) ++ spread text ++ drop (idx + String.length text) (boxes o) in
  ∃ focus, paste_from idx text o =
    (mkOtp bs focus,
     if (idx + String.length text =? 6)%nat && filled text then [code_of bs] else []).
Proof.
  revert idx o. induction text as [|ch text IH]; intros idx o Hl Hn; cbn zeta.
  - exists (focused o). cbn [paste_from spread String.length filled]. rewrite andb_false_r, Nat.add_0_r.
    cbn [app]. rewrite take_drop. by destruct o.
  - cbn [paste_from spread String.length] in *. rewrite (proj2 (Nat.ltb_lt _ _)) by lia.
    set (bs := <[idx := String ch ""]> (boxes o)).
    assert (Hbs : length bs = 6%nat) by (unfold bs; by rewrite length_insert).
    assert (Htake : take (S idx) bs = take idx (boxes o) ++ [String ch ""]).
    { unfold bs. rewrite (take_S_r _ _ (String ch "")) by (apply list_lookup_insert_eq; lia).
      by rewrite take_insert_ge by lia. }
    assert (Hdrop : ∀ k, drop (S idx + k) bs = drop (S idx + k) (boxes o)).
    { intros k. unfold bs. by rewrite drop_insert_lt by lia. }
    assert (Hmid : take idx (boxes o) ++ (String ch "" :: spread text) ++ drop (idx + S (String.length text)) (boxes o)
      = take (S idx) bs ++ spread text ++ drop (S idx + String.length text) bs).
    { rewrite Htake, Hdrop, <- app_assoc. by rewrite Nat.add_succ_r. }
    rewrite Hmid, Nat.add_succ_r. change (S (idx + String.length text)) with (S idx + String.length text)%nat.
    rewrite Hbs. destruct (Nat.eqb_spec idx (6 - 1)) as [He|Hne].
    + assert (text = "") as -> by (destruct text; [done|simpl in Hn; lia]).
      destruct (IH (S idx) (mkOtp bs (focused o)) Hbs ltac:(simpl; lia)) as [f Hf].
      rewrite Hf. exists f. cbn [boxes String.length spread app filled]. rewrite Nat.add_0_r, andb_false_r, take_drop.
      rewrite (proj2 (Nat.eqb_eq _ _)) by lia. done.
    + destruct (IH (S idx) (mkOtp bs (Some (S idx))) Hbs ltac:(lia)) as [f Hf].
      exists f. rewrite Hf. cbn [boxes]. f_equal.
      destruct text as [|c t]; [|done]. cbn [String.length filled]. rewrite andb_false_r.
      rewrite (proj2 (Nat.eqb_neq _ _)) by lia. done.
Qed.

Lemma paste_spec text o :
  otp_wf o →
  let d := slice_to 6 (digits_of text) in
  ∃ focus, on_paste text o =
    (mkOtp (spread d ++ drop (String.length d) (boxes o)) focus,
     if (String.length d =? 6)%nat then [d] else []).
Proof.
  intros [Hl _] d.
  assert (Hd : (String.length d ≤ 6)%nat) by apply slice_to_le.
  destruct (paste_from_spec d 0 o Hl ltac:(simpl; lia)) as [f Hf]. exists f. unfold on_paste. fold d. rewrite Hf.
  cbn [take app Nat.add]. f_equal. destruct (Nat.eqb_spec (String.length d) 6) as [H6|]; [|done].
  rewrite drop_ge by lia. rewrite app_nil_r. change (take 0 (boxes o)) with (@nil string).
  cbn [app]. rewrite code_spread. by destruct d.
Qed.

(** Every event keeps the boxes to digits, and submits nothing but a code. *)
Lemma event_wf e o :
  otp_wf o → otp_wf (otp_event e o).1 ∧ Forall six_digit_code (otp_event e o).2.
Proof.
  intros Ho. pose proof Ho as [Hl Hd]. destruct e as [i v|i|i text]; cbn [otp_event].
  - unfold on_input. set (bs := <[i := slice_to 1 (digits_of v)]> (boxes o)).
    assert (Hbs : length bs = 6%nat) by (unfold bs; by rewrite length_insert).
    assert (Hds : Forall digit_or_empty bs) by (apply Forall_insert; [done|apply first_digit]).
    split; [by split|]. cbn [snd]. destruct (_ && forallb filled bs) eqn:Hf; [|constructor].
    apply andb_true_iff in Hf as [_ Hf]. constructor; [|constructor]. by apply full_code.
  - unfold on_backspace. destruct (_ && _); (split; [|constructor]); by split.
  - destruct (paste_spec text o Ho) as [f ->]. set (d := slice_to 6 (digits_of text)).
    assert (Hdd : all_chars is_digit d = true) by apply all_chars_slice_to, digits_of_digits.
    cbn [fst snd]. split; [split|].
    + cbn [boxes]. rewrite length_app, spread_length, length_drop.
      pose proof (slice_to_le 6 (digits_of text)). fold d in H. lia.
    + apply Forall_app_2; [by apply spread_digits|by apply Forall_drop].
    + destruct (Nat.eqb_spec (String.length d) 6); [|constructor]. by constructor.
Qed.

Lemma events_wf es o :
  otp_wf o → otp_wf (otp_events es o).1 ∧ Forall six_digit_code (otp_events es o).2.
Proof.
  revert o. induction es as [|e es IH]; intros o Ho; [by split|]. cbn [otp_events].
  destruct (event_wf e o Ho) as [Ho1 Hc1]. destruct (otp_event e o) as [o1 codes1].
  destruct (IH o1 Ho1) as [Ho2 Hc2]. destruct (otp_events es o1) as [o2 codes2]. split; [done|].
  by apply Forall_app_2.
Qed.

(** C20: The code of the second factor. Whatever is typed into the six boxes,
    deleted or pasted, in any order, each of them holds a digit or nothing, and
    the form is submitted only with a code of six digits. Pasting a text that
    has six digits among other characters submits exactly these digits, once,
    whatever the boxes held. *)
Theorem otp_code (es : list OtpEvent) (text : string) :
  let '(o, codes) := otp_events es fresh_otp in
  Forall digit_or_empty (boxes o) ∧ Forall six_digit_code codes ∧
  (String.length (digits_of text) = 6%nat →
   (on_paste text o).2 = [digits_of text] ∧ code_of (boxes (on_paste text o).1) = digits_of text).
Proof.
  pose proof (events_wf es fresh_otp ltac:(split; [done|repeat constructor])) as [Ho Hc].
  destruct (otp_events es fresh_otp) as [o codes]. cbn [fst snd] in Ho, Hc. split; [apply Ho|]. split; [exact Hc|]. intros H6.
  assert (Hs : slice_to 6 (digits_of text) = digits_of text) by (apply slice_to_all; lia).
  destruct (paste_spec text o Ho) as [f ->]. rewrite Hs, H6. cbn [fst snd boxes]. split; [done|].
  rewrite drop_ge by (destruct Ho as [-> _]; lia). by rewrite app_nil_r, code_spread.
Qed.

Lemma otp_code_witness : (on_paste "123 456" fresh_otp).2 = ["123456"].
Proof.
  destruct (otp_code [] "123 456") as (_ & _ & H). apply H. reflexivity.
Defined.

(** Six digits typed one after the other. *)
Definition typed (s : string) : list OtpEvent := imap Input (spread s).

Lemma otp_typed a b c d e f :
  forallb is_digit [a; b; c; d; e; f] = true →
  let s := String a (String b (String c (String d (String e (String f ""))))) in
  (otp_events (typed s) fresh_otp).2 = [s].
Proof.
  cbn [forallb]. rewrite !andb_true_iff. intros (Ha & Hb & Hc & Hd & He & Hf & _).
  cbn. by rewrite Ha, Hb, Hc, Hd, He, Hf.
Qed.
