(* ===== verification/Screens.v ===== *)
(** The screens of src/apps/frontend/client/views: the elements each view
    builds, what its handlers find in them, and its form as it changes while a
    submission is under way. *)
From S2P Require Import Prelude Async JsString Encoding Errors Store Evolution Toy Password Http Client Router Views Dom Otp.
From stdpp Require Import base gmap strings list relations.
From Stdlib Require Import ZArith Ascii.
Local Open Scope string_scope.
Local Open Scope list_scope.
Local Open Scope dom_scope.

(** * Parts *)

Definition brand : Node :=
  el "div" ["class" =: "card__brand"]
    ⟨el "span" ["class" =: "brand-mark"] ⟨"◈"⟩, el "span" ["class" =: "brand-name"] ⟨"Identity Platform"⟩⟩.

Definition heading (title subtitle : string) : list (Node + string) :=
  [inl brand; inl (el "h1" ["class" =: "card__title"] ⟨title⟩);
   inl (el "p" ["class" =: "card__subtitle"] ⟨subtitle⟩)].

Definition label_of (label : string) : Node := el "span" ["class" =: "field__label"] ⟨label⟩.

Definition email_field : Node :=
  el "label" ["class" =: "field"]
    ⟨label_of "Email",
     el "input" ["class" =: "input"; "type" =: "email"; "name" =: "email"; "placeholder" =: "you@example.com";
                 "required" =: ""; "autocomplete" =: "email"] []⟩.

Definition submit_button (label : string) : Node :=
  el "button" ["class" =: "btn btn--primary btn--block"; "type" =: "submit"]
    ⟨el "span" ["class" =: "spinner"; "aria-hidden" =: "true"] [], el "span" ["class" =: "btn__label"] ⟨label⟩⟩.

Definition link_button (label : string) : Node := el "button" ["class" =: "link"; "type" =: "button"] ⟨label⟩.

Definition back_footer (label : string) : Node := el "div" ["class" =: "card__footer"] ⟨link_button label⟩.

Definition card_form (id : string) (children : list Child) : Node :=
  el "form" ["class" =: "card card--enter"; "id" =: id; "novalidate" =: ""] children.

Definition screen (form : Node) : Node := append_nodes (el "div" ["class" =: "auth"] []) [form].

(** * The forms *)

Definition login_elements : Node :=
  card_form "login-form"
    ⟨CMany (heading "Sign in" "Welcome back. Sign in to continue."),
     email_field,
     el "label" ["class" =: "field"]
       ⟨label_of "Password",
        el "input" ["class" =: "input"; "type" =: "password"; "name" =: "password"; "placeholder" =: "••••••••••••";
                    "required" =: ""; "autocomplete" =: "current-password"] []⟩,
     submit_button "Sign in",
     el "div" ["class" =: "card__footer"]
       ⟨el "span" [] ⟨"Don't have an account?"⟩, link_button "Create one"⟩,
     el "div" ["class" =: "card__footer card__footer--tight"] ⟨link_button "Forgot password?"⟩⟩.

Definition METER_LABELS : list string := ["Too weak"; "Weak"; "Fair"; "Good"; "Strong"].

Definition name_field (label name placeholder autocomplete : string) : Node :=
  el "label" ["class" =: "field"]
    ⟨label_of label,
     el "input" ["class" =: "input"; "type" =: "text"; "name" =: name; "placeholder" =: placeholder;
                 "autocomplete" =: autocomplete] []⟩.

(** A new password; the registration has the meter below it. *)
Definition new_password_field (label : string) (meter : list Child) : Node :=
  el "label" ["class" =: "field"]
    ([CNode (label_of label);
      CNode (el "input" ["class" =: "input"; "type" =: "password"; "name" =: "password";
                         "placeholder" =: "At least 12 characters"; "required" =: "";
                         "autocomplete" =: "new-password"] [])] ++ meter).

Definition meter : Node :=
  el "div" ["class" =: "meter"]
    ⟨el "div" ["class" =: "meter__bar"; "data-level" =: "0"] [],
     el "div" ["class" =: "meter__label"] ⟨nth 0 METER_LABELS ""⟩⟩.

Definition register_elements : Node :=
  card_form "register-form"
    ⟨CMany (heading "Create your account" "Register to access protected resources."),
     el "div" ["class" =: "field-row"]
       ⟨name_field "First name" "first_name" "Ada" "given-name",
        name_field "Last name" "last_name" "Lovelace" "family-name"⟩,
     email_field,
     new_password_field "Password" ⟨meter⟩,
     submit_button "Create account",
     el "div" ["class" =: "card__footer"]
       ⟨el "span" [] ⟨"Already have an account?"⟩, link_button "Sign in"⟩⟩.

Definition forgot_elements : Node :=
  card_form "forgot-form"
    ⟨CMany (heading "Reset your password" "Enter your email and we will send you a reset token via email inbox."),
     email_field,
     submit_button "Send reset code",
     back_footer "Back to sign in"⟩.

Definition reset_elements (token : string) : Node :=
  card_form "reset-form"
    ⟨CMany (heading "Choose a new password"
              "Enter the reset token from your email and choose a new strong password."),
     el "label" ["class" =: "field"]
       ⟨label_of "Reset token",
        el "input" ["class" =: "input"; "type" =: "text"; "name" =: "token"; "value" =: token;
                    "required" =: ""; "autocomplete" =: "off"] []⟩,
     new_password_field "New password" [],
     submit_button "Reset password",
     back_footer "Back to sign in"⟩.

(** One of the six boxes. *)
Definition otp_box : Node :=
  el "input" ["class" =: "otp__box"; "type" =: "tel"; "inputmode" =: "numeric"; "pattern" =: "[0-9]*";
              "maxlength" =: "1"] [].

Definition mfa_elements : Node :=
  card_form "mfa-form"
    ⟨CMany (heading "Two-factor authentication" "Enter the 6-digit code from your authenticator app."),
     el "label" ["class" =: "field"]
       ⟨label_of "Six-digit code", el "div" ["class" =: "otp"] (repeat (CNode otp_box) 6)⟩,
     submit_button "Verify",
     back_footer "Back to sign in"⟩.

(** [makeReset]; the other views do not look at the location's token. *)
Definition form_of (p : Page) : option Node :=
  match p with
  | LoginPage => Some login_elements
  | RegisterPage => Some register_elements
  | MfaPage _ => Some mfa_elements
  | ForgotPage => Some forgot_elements
  | ResetPage token => Some (reset_elements token)
  | AccountPage => None
  end.

(** * A form and its page *)

(** The browser, the form on the page, and the boxes of the second factor. *)
Record FormPage (N : Type) : Type := mkFormPage {
  fp_browser : Browser N; fp_form : Node; fp_otp : Otp;
}.
Global Arguments mkFormPage {N} _ _ _.
Global Arguments fp_browser {N} _.
Global Arguments fp_form {N} _.
Global Arguments fp_otp {N} _.
#[export] Instance eta_FormPage {N} : Settable (FormPage N) := λ s,
  mkFormPage (fp_browser s) (fp_form s) (fp_otp s).
Notation F N := (Async (FormPage N) JsErr).

Definition input_named (name : string) : Selector := [[Tag "input"; AttrIs "name" name]].
Definition submit_of : Selector := [[Tag "button"; AttrIs "type" "submit"]].

Section forms.
Context (cfg : ClientConfig).
Context {N : Type} (network : FetchRequest → N → outcome JsErr FetchResponse * N).
Context (engine_message : JsErr → string).

(** A part of a handler that does not touch the form. *)
Fixpoint on_browser {A} (p : B N A) : F N A :=
  match p with
  | Ret a => Ret a
  | Throw e => Throw e
  | Await op k =>
      Await (λ s, let '(x, b) := op (fp_browser s) in (x, s <| fp_browser := b |>)) (λ x, on_browser (k x))
  end.

Definition change (sel : Selector) (f : Node → Node) : F N () :=
  writes (λ s, s <| fp_form ::= alter_first sel f |>).
Definition mark (name : string) (message : option string) : F N () := change (input_named name) (inputError message).
Definition busy (b : bool) : F N () := change submit_of (disableButton b).

(** The request of a form, between the two states of its button. *)
Definition while_busy (p : F N ()) : F N () := _ ← busy true; finally p (busy false).

Definition INVALID_EMAIL : string := "Enter a valid email address".

(** The handler of each form. *)
Definition on_login (data : list (string * string)) : F N () :=
  if bad_email (entry data "email") then mark "email" (Some INVALID_EMAIL)
  else
    _ ← mark "email" None;
    while_busy (on_browser (login_attempt cfg network engine_message (entry data "email") (entry data "password"))).

Definition on_register (data : list (string * string)) : F N () :=
  if bad_email (entry data "email") then mark "email" (Some INVALID_EMAIL)
  else
    _ ← mark "email" None;
    match entry data "password" with
    | None => Throw TypeError
    | Some p =>
        if (scorePassword p <? 2)%nat
        then mark "password" (Some "Password must be at least 12 characters with upper, lower and digits.")
        else
          _ ← mark "password" None;
          while_busy (on_browser (register_attempt cfg network engine_message (entry data "email") (Some p)
                                    (entry data "first_name") (entry data "last_name")))
    end.

Definition on_forgot (data : list (string * string)) : F N () :=
  if bad_email (entry data "email") then mark "email" (Some INVALID_EMAIL)
  else
    _ ← mark "email" None;
    while_busy (on_browser (forgot_attempt cfg network engine_message (entry data "email"))).

Definition on_reset (data : list (string * string)) : F N () :=
  while_busy (on_browser (reset_submit cfg network engine_message (entry data "token") (entry data "password"))).

(** A failure empties the boxes. *)
Definition on_mfa (challengeId : string) : F N () :=
  code ← reads (λ s, code_of (boxes (fp_otp s)));
  if negb (String.length code =? 6)%nat then mret ()
  else while_busy
    (catch (λ e, _ ← on_browser (toast (error_message engine_message e) "error");
                 writes (λ s, s <| fp_otp := mkOtp (repeat "" 6) (Some 0%nat) |>))
       (on_browser (mfa_attempt cfg network challengeId code))).

(** [bindForm(form, onSubmit)]: what a submission does. *)
Definition bindForm (onSubmit : list (string * string) → F N ()) (value : string → string) : F N () :=
  form ← reads fp_form; onSubmit (formData value form).

Definition submit (p : Page) (value : string → string) : F N () :=
  match p with
  | LoginPage => bindForm on_login value
  | RegisterPage => bindForm on_register value
  | ForgotPage => bindForm on_forgot value
  | ResetPage _ => bindForm on_reset value
  | MfaPage challenge => bindForm (λ _, on_mfa challenge) value
  | AccountPage => mret ()
  end.

(** * Submissions *)

Lemma run_on_browser {A} (p : B N A) (s : FormPage N) :
  run (on_browser p) s = ((run p (fp_browser s)).1, s <| fp_browser := (run p (fp_browser s)).2 |>).
Proof.
  revert s. induction p as [a|e|X op k IH]; intros s; [by destruct s..|]. cbn [on_browser run].
  destruct (op (fp_browser s)) as [x b]. by rewrite IH.
Qed.

Lemma run_on_error (p : B N ()) (b : Browser N) : (run (on_error engine_message p) b).1 = Resolved ().
Proof. unfold on_error. rewrite run_catch. by destruct (run p b) as [[e|[]] b']. Qed.

(** The steps of a computation: the states before and after each. *)
Fixpoint steps {A} (p : F N A) (s : FormPage N) : list (FormPage N * FormPage N) :=
  match p with
  | Await op k => let '(x, s') := op s in (s, s') :: steps (k x) s'
  | _ => []
  end.

Lemma steps_bind {A C} (p : F N A) (f : A → F N C) s :
  steps (p ≫= f) s = steps p s ++ match run p s with (Resolved a, s') => steps (f a) s' | _ => [] end.
Proof.
  unfold mbind, async_bind. revert s. induction p as [a|e|Y op k IH]; intros s; [done..|]. cbn [abind steps run].
  destruct (op s) as [x s']. by rewrite IH.
Qed.

Lemma steps_catch {A} (h : JsErr → F N A) (p : F N A) s :
  steps (catch h p) s = steps p s ++ match run p s with (Rejected e, s') => steps (h e) s' | _ => [] end.
Proof.
  revert s. induction p as [a|e|Y op k IH]; intros s; [done..|]. cbn [catch steps run].
  destruct (op s) as [x s']. by rewrite IH.
Qed.

Definition marked (sel : Selector) (key : string) (value : option string) (form : Node) : Prop :=
  ∃ path n, querySelector sel form = Some (path, n) ∧ attr_of n key = value.

(** A step that only changes the form, or one with the button held. *)
Definition held (st : FormPage N * FormPage N) : Prop :=
  fp_browser st.2 = fp_browser st.1 ∨ marked submit_of "disabled" (Some "") (fp_form st.1).

Lemma held_form_step {A} (f : FormPage N → A * FormPage N) s :
  fp_browser (f s).2 = fp_browser s → Forall held (steps (atomically f) s).
Proof. intros Hf. simpl. destruct (f s) as [x s']. constructor; [by left|constructor]. Qed.

Lemma held_browser {A} (p : B N A) s :
  marked submit_of "disabled" (Some "") (fp_form s) → Forall held (steps (on_browser p) s).
Proof.
  revert s. induction p as [a|e|Y op k IH]; intros s Hs; [constructor..|]. cbn [on_browser steps].
  destruct (op (fp_browser s)) as [x b]. constructor; [by right|]. by apply IH.
Qed.

Definition hold : Node → Node := alter_first submit_of (disableButton true).
Definition release : Node → Node := alter_first submit_of (disableButton false).

(** The button is held from the start of the request to its end. *)
Lemma run_while_busy (p : F N ()) (s s1 : FormPage N) :
  run p (s <| fp_form ::= hold |>) = (Resolved (), s1) →
  run (while_busy p) s = (Resolved (), s1 <| fp_form ::= release |>).
Proof.
  intros Hp. unfold while_busy, finally. rewrite (run_bind_eq _ _ _ () (s <| fp_form ::= hold |>)) by done.
  rewrite run_bind, run_catch, Hp. done.
Qed.

Lemma run_busy_browser (p : B N ()) (s : FormPage N) :
  (run p (fp_browser s)).1 = Resolved () →
  run (while_busy (on_browser p)) s
    = (Resolved (), mkFormPage (run p (fp_browser s)).2 (release (hold (fp_form s))) (fp_otp s)).
Proof.
  intros Hp. rewrite (run_while_busy _ s (mkFormPage (run p (fp_browser s)).2 (hold (fp_form s)) (fp_otp s))); [done|].
  rewrite run_on_browser. change (fp_browser (s <| fp_form ::= hold |>)) with (fp_browser s). by rewrite Hp.
Qed.

Lemma held_while_busy (p : F N ()) s :
  Forall held (steps p (s <| fp_form ::= hold |>)) → Forall held (steps (while_busy p) s).
Proof.
  intros Hp. unfold while_busy, finally. rewrite steps_bind. apply Forall_app_2; [by apply held_form_step|].
  change (run (busy true) s) with (@Resolved JsErr () (), s <| fp_form ::= hold |>). cbv iota.
  rewrite steps_bind, steps_catch. apply Forall_app_2; [apply Forall_app_2; [done|]|].
  - destruct (run p _) as [[e|a] s1]; [|constructor]. rewrite steps_bind.
    apply Forall_app_2; [by apply held_form_step|constructor].
  - destruct (run (catch _ _) _) as [[e|a] s1]; [constructor|]. rewrite steps_bind.
    apply Forall_app_2; [by apply held_form_step|constructor].
Qed.

Lemma held_busy_browser (p : B N ()) s :
  marked submit_of "disabled" (Some "") (hold (fp_form s)) → Forall held (steps (while_busy (on_browser p)) s).
Proof. intros Hm. by apply held_while_busy, held_browser. Qed.

(** What a form asks of the browser. *)
Definition attempt_of (p : Page) (field : string → option string) (code : string) : B N () :=
  match p with
  | LoginPage => login_attempt cfg network engine_message (field "email") (field "password")
  | RegisterPage => register_attempt cfg network engine_message (field "email") (field "password")
                      (field "first_name") (field "last_name")
  | ForgotPage => forgot_attempt cfg network engine_message (field "email")
  | ResetPage _ => reset_submit cfg network engine_message (field "token") (field "password")
  | MfaPage challenge => on_error engine_message (mfa_attempt cfg network challenge code)
  | AccountPage => mret ()
  end.

(** What becomes of a submission: an input is refused; the request is made;
    nothing happens; or the handler throws. *)
Inductive Submission : Type :=
  | Refused (name : string)
  | Sent
  | Ignored
  | Thrown.

Definition submission_of (p : Page) (field : string → option string) (otp : Otp) : Submission :=
  match p with
  | LoginPage | ForgotPage => if bad_email (field "email") then Refused "email" else Sent
  | RegisterPage =>
      if bad_email (field "email") then Refused "email"
      else match field "password" with
           | Some p => if (scorePassword p <? 2)%nat then Refused "password" else Sent
           | None => Thrown
           end
  | MfaPage _ => if (String.length (code_of (boxes otp)) =? 6)%nat then Sent else Ignored
  | _ => Sent
  end.

(** How the submission ends, for the form and the browser. *)
Definition submitted (p : Page) (field : string → option string) (b : Browser N) (form : Node) (otp : Otp)
    (r : outcome JsErr ()) (s' : FormPage N) : Prop :=
  match submission_of p field otp with
  | Refused name =>
      r = Resolved () ∧ fp_browser s' = b ∧ marked (input_named name) "aria-invalid" (Some "true") (fp_form s')
  | Sent =>
      r = Resolved () ∧ fp_browser s' = (run (attempt_of p field (code_of (boxes otp))) b).2 ∧
      marked submit_of "disabled" None (fp_form s')
  | Ignored => r = Resolved () ∧ s' = mkFormPage b form otp
  | Thrown => r = Rejected TypeError ∧ fp_browser s' = b ∧ marked submit_of "disabled" None (fp_form s')
  end.

Ltac found := eexists _, _; split; vm_compute; reflexivity.

Lemma run_mark name message (s : FormPage N) :
  run (mark name message) s = (Resolved (), s <| fp_form ::= alter_first (input_named name) (inputError message) |>).
Proof. done. Qed.

Section submissions.
Context (value : string → string) (b : Browser N) (otp : Otp).
Let field (k : string) : option string := truthy (Some (value k)).

Lemma entry_value names k :
  entry (omap (λ k, match value k with EmptyString => None | v => Some (k, v) end) names) k
  = if bool_decide (k ∈ names) then field k else None.
Proof.
  unfold entry, field. induction names as [|x names IH]; [done|]. cbn [omap list_omap].
  destruct (decide (k = x)) as [<-|Hne].
  - rewrite bool_decide_eq_true_2 by by left. destruct (value k) as [|c v] eqn:Hv.
    + rewrite IH. by destruct (bool_decide _).
    + simpl. by rewrite bool_decide_eq_true_2.
  - assert (E : bool_decide (k ∈ x :: names) = bool_decide (k ∈ names)).
    { apply bool_decide_ext. rewrite elem_of_cons. naive_solver. }
    rewrite E, <- IH. destruct (value x) as [|c v]; [done|]. simpl. by rewrite bool_decide_eq_false_2.
Qed.

Lemma entry_form form k : k ∈ field_names form → entry (formData value form) k = field k.
Proof. intros Hk. unfold formData. rewrite entry_value. by rewrite bool_decide_eq_true_2. Qed.

Ltac is_field := vm_compute; set_solver.

Lemma submits_login :
  ∃ r s', run (submit LoginPage value) (mkFormPage b login_elements otp) = (r, s') ∧
    submitted LoginPage field b login_elements otp r s'.
Proof.
  set (s := mkFormPage b login_elements otp). unfold submit, bindForm.
  rewrite (run_bind_eq _ _ _ login_elements s) by done.
  unfold on_login. rewrite !entry_form by is_field.
  unfold submitted, submission_of. destruct (bad_email (field "email")).
  - eexists _, _. split; [apply run_mark|]. do 2 (split; [done|]). found.
  - rewrite (run_bind_eq _ _ _ _ _ (run_mark _ _ _)), run_busy_browser by apply run_on_error.
    eexists _, _. split; [reflexivity|]. do 2 (split; [done|]). found.
Qed.

Lemma submits_register :
  ∃ r s', run (submit RegisterPage value) (mkFormPage b register_elements otp) = (r, s') ∧
    submitted RegisterPage field b register_elements otp r s'.
Proof.
  set (s := mkFormPage b register_elements otp). unfold submit, bindForm.
  rewrite (run_bind_eq _ _ _ register_elements s) by done.
  unfold on_register. rewrite !entry_form by is_field.
  unfold submitted, submission_of, attempt_of. destruct (bad_email (field "email")).
  - eexists _, _. split; [apply run_mark|]. do 2 (split; [done|]). found.
  - rewrite (run_bind_eq _ _ _ _ _ (run_mark _ _ _)). destruct (field "password") as [pw|];
      [|eexists _, _; split; [reflexivity|]; do 2 (split; [done|]); found].
    destruct (scorePassword pw <? 2)%nat.
    + eexists _, _. split; [apply run_mark|]. do 2 (split; [done|]). found.
    + rewrite (run_bind_eq _ _ _ _ _ (run_mark _ _ _)), run_busy_browser by apply run_on_error.
      eexists _, _. split; [reflexivity|]. do 2 (split; [done|]). found.
Qed.

Lemma submits_forgot :
  ∃ r s', run (submit ForgotPage value) (mkFormPage b forgot_elements otp) = (r, s') ∧
    submitted ForgotPage field b forgot_elements otp r s'.
Proof.
  set (s := mkFormPage b forgot_elements otp). unfold submit, bindForm.
  rewrite (run_bind_eq _ _ _ forgot_elements s) by done.
  unfold on_forgot. rewrite !entry_form by is_field.
  unfold submitted, submission_of. destruct (bad_email (field "email")).
  - eexists _, _. split; [apply run_mark|]. do 2 (split; [done|]). found.
  - rewrite (run_bind_eq _ _ _ _ _ (run_mark _ _ _)), run_busy_browser by apply run_on_error.
    eexists _, _. split; [reflexivity|]. do 2 (split; [done|]). found.
Qed.

Lemma submits_reset token :
  ∃ r s', run (submit (ResetPage token) value) (mkFormPage b (reset_elements token) otp) = (r, s') ∧
    submitted (ResetPage token) field b (reset_elements token) otp r s'.
Proof.
  set (s := mkFormPage b (reset_elements token) otp). unfold submit, bindForm.
  rewrite (run_bind_eq _ _ _ (reset_elements token) s) by done.
  unfold on_reset. rewrite !entry_form by is_field. rewrite run_busy_browser by apply run_on_error.
  eexists _, _. split; [reflexivity|]. do 2 (split; [done|]). found.
Qed.

Lemma submits_mfa challenge :
  ∃ r s', run (submit (MfaPage challenge) value) (mkFormPage b mfa_elements otp) = (r, s') ∧
    submitted (MfaPage challenge) field b mfa_elements otp r s' ∧
    fp_otp s' = (if negb (String.length (code_of (boxes otp)) =? 6)%nat then otp else if is_resolved (run (mfa_attempt cfg network challenge (code_of (boxes otp))) b).1
                 then otp else fresh_otp).
Proof.
  set (s := mkFormPage b mfa_elements otp). set (code := code_of (boxes otp)) in *.
  unfold submit, bindForm. rewrite (run_bind_eq _ _ _ mfa_elements s) by done.
  unfold on_mfa, submitted, submission_of. rewrite (run_bind_eq _ _ _ code s) by done. fold code.
  destruct (String.length code =? 6)%nat; cbn [negb]; [|by eexists _, s].
  destruct (run (mfa_attempt cfg network challenge code) b) as [r b1] eqn:Hr.
  set (otp1 := if is_resolved r then otp else fresh_otp).
  set (b2 := (run (on_error engine_message (mfa_attempt cfg network challenge code)) b).2).
  rewrite (run_while_busy _ s (mkFormPage b2 (hold mfa_elements) otp1)).
  - exists (Resolved ()), (mkFormPage b2 (release (hold mfa_elements)) otp1). split; [done|]. split; [|done].
    do 2 (split; [done|]). cbn [fp_form]. clear. found.
  - unfold b2, on_error. rewrite !run_catch, run_on_browser.
    change (fp_browser (s <| fp_form ::= hold |>)) with b. rewrite Hr. unfold otp1.
    destruct r as [e|[]]; [|done]. done.
Qed.
End submissions.

(** * The button is held *)

Lemma held_after {A} (f : FormPage N → FormPage N) (g : () → F N A) s :
  fp_browser (f s) = fp_browser s → Forall held (steps (g ()) (f s)) → Forall held (steps (writes f ≫= g) s).
Proof. intros Hf Hg. rewrite steps_bind. apply Forall_app_2; [by apply held_form_step|exact Hg]. Qed.

Lemma held_bindForm onSubmit value s :
  Forall held (steps (onSubmit (formData value (fp_form s))) s) → Forall held (steps (bindForm onSubmit value) s).
Proof. intros H. unfold bindForm. rewrite steps_bind. apply Forall_app_2; [by apply held_form_step|exact H]. Qed.

Ltac held_end := apply held_busy_browser; clear; found.

Lemma held_submit p form value b otp :
  form_of p = Some form → Forall held (steps (submit p value) (mkFormPage b form otp)).
Proof.
  intros Hf. destruct p; cbn [form_of] in Hf; injection Hf as <- || discriminate Hf; apply held_bindForm;
    cbn [fp_form]; generalize (formData value); intros data.
  - unfold on_login. destruct (bad_email _); [by apply held_form_step|].
    apply held_after; [done|]. held_end.
  - unfold on_register. destruct (bad_email _); [by apply held_form_step|].
    apply held_after; [done|]. destruct (entry _ "password") as [pw|]; [|constructor].
    destruct (scorePassword pw <? 2)%nat; [by apply held_form_step|]. apply held_after; [done|]. held_end.
  - unfold on_mfa. rewrite steps_bind. apply Forall_app_2; [by apply held_form_step|].
    rewrite run_reads. destruct (negb _); [constructor|]. apply held_while_busy.
    rewrite steps_catch. apply Forall_app_2; [apply held_browser; clear; found|].
    destruct (run (on_browser _) _) as [[e|a] s1] eqn:Hr; [|constructor].
    rewrite run_on_browser in Hr. injection Hr as _ <-.
    rewrite steps_bind. apply Forall_app_2; [apply held_browser; clear; found|].
    destruct (run (on_browser _) _) as [[e'|a] s2]; [constructor|by apply held_form_step].
  - unfold on_forgot. destruct (bad_email _); [by apply held_form_step|].
    apply held_after; [done|]. held_end.
  - unfold on_reset. held_end.
Qed.

(** C19: What submitting a form does, for each of the five and whatever its
    inputs hold. An input is refused: it is marked invalid and nothing is sent.
    Or the request of the form is made with the values of its inputs, and in the
    end, whatever the answer was, the button can be pressed again. Or the code
    of the second factor does not have six characters, and nothing happens at
    all. Or a registration has no password: the handler throws, and nothing is
    sent. All the while nothing is sent, stored, shown or navigated to except
    with the button held. *)
Theorem form_submission (p : Page) (form : Node) (value : string → string) (b : Browser N) (otp : Otp) :
  form_of p = Some form →
  let field k := truthy (Some (value k)) in
  (∃ r s', run (submit p value) (mkFormPage b form otp) = (r, s') ∧ submitted p field b form otp r s') ∧
  Forall held (steps (submit p value) (mkFormPage b form otp)).
Proof.
  intros Hf field. split; [|by apply held_submit]. destruct p; cbn [form_of] in Hf; injection Hf as <- || discriminate Hf.
  - apply submits_login.
  - apply submits_register.
  - destruct (submits_mfa value b otp challenge) as (r & s' & Hr & Hs & _). by exists r, s'.
  - apply submits_forgot.
  - apply submits_reset.
Qed.
End forms.

(** * Links and the strength meter *)

(** The buttons of the footer and where they lead. *)
Definition footer_buttons : Selector := [[Tag "button"]; [Class_ "card__footer"]].
Definition link_targets (p : Page) : list string :=
  match p with
  | LoginPage => ["/register"; "/reset"]
  | AccountPage => []
  | _ => ["/login"]
  end.

(** Every link a view attaches a handler to is there. *)
Lemma links_found p form :
  form_of p = Some form → length (querySelectorAll footer_buttons form) = length (link_targets p).
Proof. intros Hf. destruct p; injection Hf as <- || discriminate Hf; by vm_compute. Qed.

(** [node.textContent = s] *)
Definition set_text (s : string) (n : Node) : Node :=
  append_nodes (clear n) (match s with EmptyString => [] | _ => [Text s] end).

Definition meter_label (value : string) : string :=
  match value with
  | EmptyString => nth 0 METER_LABELS ""
  | _ => nth (scorePassword value) METER_LABELS ""
  end.

(** The handler of the password's input event. *)
Definition on_password (value : string) (form : Node) : Node :=
  alter_first [[Class_ "meter__label"]] (set_text (meter_label value))
    (alter_first [[Class_ "meter__bar"]]
       (set_attribute "data-level" (decimal_of (Z.of_nat (scorePassword value)))) form).

Lemma score_bound s : (scorePassword s ≤ 4)%nat.
Proof. unfold scorePassword. lia. Qed.

(** The label is always one of the five. *)
Lemma meter_label_known value : meter_label value ∈ METER_LABELS.
Proof.
  assert (Hn : ∀ k, (k ≤ 4)%nat → nth k METER_LABELS "" ∈ METER_LABELS).
  { intros k Hk. apply list_elem_of_In, nth_In. simpl. lia. }
  unfold meter_label. destruct value as [|c s]; apply Hn; [lia|apply score_bound].
Qed.

(** * At concrete inputs *)

(** An address that is not one: nothing is sent. *)
Lemma form_submission_witness :
  let value k := if bool_decide (k = "email") then "ada" else "pw" in
  let b := mkBrowser ∅ "#/login" [] () in
  ∃ s', run (submit (readConfig None) challenging (λ _, "") LoginPage value)
      (mkFormPage b login_elements fresh_otp) = (Resolved (), s') ∧
    fp_browser s' = b ∧ marked (input_named "email") "aria-invalid" (Some "true") (fp_form s').
Proof.
  intros value b.
  destruct (form_submission (readConfig None) challenging (λ _, "") LoginPage login_elements value b fresh_otp eq_refl)
    as [(r & s' & Hrun & -> & Hs) _].
  exists s'. split; [exact Hrun|exact Hs].
Defined.
