(* ===== verification/Account.v ===== *)
(** The account page of src/apps/frontend/client/views/account.ts: what it
    reads of the two answers, the elements it builds from them, and the card of
    the second factor. *)
From S2P Require Import Prelude Async JsString Encoding Errors Store Evolution Toy Redis RateLimit Http Mfa Risk AuthService AuthRoutes Gateway Resource Client Router Views Dom Otp Screens.
From stdpp Require Import base gmap strings list.
From Stdlib Require Import ZArith Ascii.
Local Open Scope string_scope.
Local Open Scope list_scope.
Local Open Scope dom_scope.

(** * The two answers *)

(** The interfaces the page declares for the answers. *)
Record AccountProfile : Type := mkAccountProfile {
  ap_id : string; ap_email : string; ap_first_name : option string; ap_last_name : option string;
  ap_status : string; ap_roles : list string; ap_permissions : list string; ap_mfa_enabled : bool;
}.
Record GatewayIdentity : Type := mkGatewayIdentity {
  gi_userId : option string; gi_scopes : list string; gi_roles : list string; gi_requestId : option string;
}.

(** A value of a type the interfaces use; [None] where it is another. *)
Definition a_string (v : option json) : option string := match v with Some (JStr s) => Some s | _ => None end.
Definition a_boolean (v : option json) : option bool := match v with Some (JBool b) => Some b | _ => None end.
Definition strings (v : option json) : option (list string) :=
  match v with Some (JArr vs) => mapM (λ v, a_string (Some v)) vs | _ => None end.
Definition optional (v : option json) : option (option string) :=
  match v with None => Some None | Some (JStr s) => Some (Some s) | _ => None end.
Definition nullable (v : option json) : option (option string) :=
  match v with Some JNull => Some None | v => optional v end.

Definition as_profile (v : json) : option AccountProfile :=
  id ← a_string (jget v "id"); email ← a_string (jget v "email");
  first ← nullable (jget v "first_name"); last ← nullable (jget v "last_name");
  status ← a_string (jget v "status"); roles ← strings (jget v "roles");
  permissions ← strings (jget v "permissions"); mfa ← a_boolean (jget v "mfa_enabled");
  Some (mkAccountProfile id email first last status roles permissions mfa).

Definition as_identity (v : json) : option GatewayIdentity :=
  userId ← optional (jget v "userId"); scopes ← strings (jget v "scopes");
  roles ← strings (jget v "roles"); requestId ← optional (jget v "requestId");
  Some (mkGatewayIdentity userId scopes roles requestId).

(** * The cards *)

(** [s.toUpperCase()]; two of the characters have no capital in Latin-1. *)
Definition upper_char (c : ascii) : string :=
  let n := nat_of_ascii c in
  if (n =? 223)%nat then "SS"
  else if is_lower c || ((224 <=? n)%nat && (n <=? 254)%nat && negb (n =? 247)%nat)
  then String (ascii_of_nat (n - 32)) "" else String c "".
Fixpoint to_upper (s : string) : string :=
  match s with EmptyString => "" | String c s => upper_char c +:+ to_upper s end.

Definition spans (class : string) (xs : list string) : Child :=
  CMany (map (λ x : string, inl (el "span" ["class" =: class] ⟨x⟩)) xs).
(** [xs.length ? chips : el('span', { class: 'muted' }, 'None')] *)
Definition chips_or_none (class : string) (xs : list string) : Child :=
  match xs with [] => CNode (el "span" ["class" =: "muted"] ⟨"None"⟩) | _ => spans class xs end.

Definition kv_row (label : string) (dd_attrs : list (string * AttrValue)) (value : Child) : Node :=
  el "div" ["class" =: "kv__row"] ⟨el "dt" [] ⟨label⟩, el "dd" dd_attrs [value]⟩.

Definition account_header (p : AccountProfile) : Node :=
  el "header" ["class" =: "account__head card--enter"]
    ⟨el "div" ["class" =: "avatar"] ⟨to_upper (slice_to 2 (ap_email p))⟩,
     el "div" ["class" =: "account__who"]
       ⟨el "h1" ["class" =: "account__name"] ⟨displayName (ap_first_name p) (ap_last_name p) (ap_email p)⟩,
        el "p" ["class" =: "account__email"] ⟨ap_email p⟩⟩,
     el "div" ["class" =: "account__actions"]
       ⟨el "button" ["class" =: "btn btn--ghost"; "type" =: "button"; "id" =: "logout-btn"] ⟨"Sign out"⟩⟩⟩.

Definition statusPill (p : AccountProfile) : Node :=
  el "span" ["class" =: ("pill pill--" +:+ (if bool_decide (ap_status p = "active") then "ok" else "warn"))]
    ⟨ap_status p⟩.

Definition identityCard (p : AccountProfile) : Node :=
  el "section" ["class" =: "card"]
    ⟨el "div" ["class" =: "card__row"]
       ⟨el "h2" ["class" =: "card__title"] ⟨"Identity (auth-server)"⟩, statusPill p⟩,
     el "dl" ["class" =: "kv"]
       ⟨kv_row "User ID" ["class" =: "mono"] (ap_id p),
        kv_row "MFA" [] (if ap_mfa_enabled p then "Enabled" else "Not enrolled"),
        kv_row "Roles" [] (spans "chip" (ap_roles p)),
        kv_row "Permissions" [] (chips_or_none "chip chip--dim" (ap_permissions p))⟩⟩.

Definition gatewayCard (g : GatewayIdentity) : Node :=
  el "section" ["class" =: "card"]
    ⟨el "h2" ["class" =: "card__title"] ⟨"Identity via gateway"⟩,
     el "p" ["class" =: "card__hint"]
       ⟨"Returned by the zero-trust resource API after gateway token verification."⟩,
     el "dl" ["class" =: "kv"]
       ⟨kv_row "Subject (X-User-Id)" ["class" =: "mono"] (default "—" (gi_userId g)),
        kv_row "Scopes" [] (spans "chip chip--primary" (gi_scopes g)),
        kv_row "Roles" [] (chips_or_none "chip" (gi_roles g)),
        kv_row "Request ID" ["class" =: "mono"] (default "—" (gi_requestId g))⟩⟩.

(** * The card of the second factor *)

Definition totp_field (class label : string) : Node :=
  el "div" ["class" =: "field-row"]
    ⟨el "label" ["class" =: "field"]
       ⟨el "span" ["class" =: "field__label"] ⟨"Six-digit code"⟩,
        el "input" ["class" =: "input"; "type" =: "tel"; "name" =: "code"; "inputmode" =: "numeric";
                    "pattern" =: "[0-9]*"; "maxlength" =: "6"; "required" =: ""] []⟩,
     el "button" ["class" =: class; "type" =: "submit"] ⟨label⟩⟩.

Definition disable_form : Node :=
  el "form" ["class" =: "mfa-form"; "novalidate" =: ""]
    ⟨el "p" ["class" =: "card__hint"]
       ⟨"TOTP is active on this account. To remove it, enter the current code."⟩,
     totp_field "btn btn--danger mfa-ctrl" "Disable"⟩.

Definition renderMfaCard (mfa_enabled : bool) (card : Node) : Node :=
  let card := append_nodes (clear card) [el "h2" ["class" =: "card__title"] ⟨"Multi-factor authentication"⟩] in
  if mfa_enabled then append_nodes card [disable_form]
  else append_nodes card
    [el "button" ["class" =: "btn btn--primary"; "type" =: "button"] ⟨"Enroll TOTP"⟩;
     el "p" ["class" =: "card__hint"] ⟨"Add an authenticator app for second-factor verification on sign in."⟩].

(** [s.replace(/^otpauth:\/\/[^?]+\?/, '')] *)
Definition without_label (url : string) : string :=
  if starts_with url "otpauth://" then
    match split_first "?" (slice_from 10 url) with
    | Some (EmptyString, _) | None => url
    | Some (_, query) => query
    end
  else url.

(** What is there before the address is looked at. *)
Definition enroll_start (qrDataUrl : AttrValue) (card : Node) : Node :=
  append_nodes (clear card)
    [el "h2" ["class" =: "card__title"] ⟨"Scan with your authenticator"⟩;
     el "img" ["class" =: "qr"; "src" =: qrDataUrl; "alt" =: "TOTP QR code"] []].
Definition renderEnroll (otpauthUrl : string) (qrDataUrl : AttrValue) (card : Node) : Node :=
  append_nodes (enroll_start qrDataUrl card)
    [el "p" ["class" =: "card__hint mono"; "style" =: "word-break:break-all;font-size:.78rem"]
       ⟨without_label otpauthUrl⟩;
     el "form" ["class" =: "mfa-form"; "novalidate" =: ""]
       ⟨totp_field "btn btn--primary mfa-ctrl" "Verify & enable"⟩].

(** A value of an answer as the value of an attribute. *)
Definition json_attr (v : option json) : AttrValue :=
  match v with
  | None => AUndefined
  | Some JNull => ANull
  | Some (JBool b) => ABool b
  | Some (JNum n) => ANum n
  | v => AStr (stored_text v)
  end.

(** * The page *)

Definition account_root : Node := el "div" ["class" =: "account"] [].

(** While the two requests are under way. *)
Definition placeholder : Node :=
  el "div" ["class" =: "account__placeholder card--enter"]
    ⟨el "div" ["class" =: "spinner spinner--lg"] [], el "p" [] ⟨"Loading your session…"⟩⟩.

Definition render_account (root : Node) (p : AccountProfile) (g : GatewayIdentity) : Node :=
  append_nodes root
    [account_header p; identityCard p; gatewayCard g;
     renderMfaCard (ap_mfa_enabled p) (el "section" ["class" =: "card"] [])].

(** After both answers: the page is emptied and rendered. [None] when an
    answer is not of the interface's type. *)
Definition on_loaded (root : Node) (profile gateway : json) : option Node :=
  p ← as_profile profile; g ← as_identity gateway; Some (render_account (clear root) p g).

(** * What is markup and what is text *)

Lemma map_markup_spans class xs :
  map markup (el_child (spans class xs)) = repeat (markup (el "span" ["class" =: class] ⟨""⟩)) (length xs).
Proof. unfold spans. cbn [el_child]. rewrite !map_map. induction xs as [|x xs IH]; [done|]. cbn [map length repeat]. by rewrite IH. Qed.

Lemma map_markup_chips class xs ys :
  length xs = length ys → map markup (el_child (chips_or_none class xs)) = map markup (el_child (chips_or_none class ys)).
Proof.
  intros Hl. destruct xs as [|x xs], ys as [|y ys]; try done. unfold chips_or_none.
  by rewrite !map_markup_spans, Hl.
Qed.

Lemma markup_kv_row label attrs v v' :
  map markup (el_child v) = map markup (el_child v') →
  markup (kv_row label attrs v) = markup (kv_row label attrs v').
Proof. intros H. unfold kv_row. cbn. by rewrite !app_nil_r, H. Qed.

(** Two accounts that differ only in what their values say. *)
Definition same_layout (p p' : AccountProfile) (g g' : GatewayIdentity) : Prop :=
  (ap_status p = "active" ↔ ap_status p' = "active") ∧ ap_mfa_enabled p = ap_mfa_enabled p' ∧
  length (ap_roles p) = length (ap_roles p') ∧ length (ap_permissions p) = length (ap_permissions p') ∧
  length (gi_scopes g) = length (gi_scopes g') ∧ length (gi_roles g) = length (gi_roles g').

Lemma identity_markup p p' :
  (ap_status p = "active" ↔ ap_status p' = "active") → ap_mfa_enabled p = ap_mfa_enabled p' →
  length (ap_roles p) = length (ap_roles p') → length (ap_permissions p) = length (ap_permissions p') →
  markup (identityCard p) = markup (identityCard p').
Proof.
  intros Hst Hm Hr Hp. unfold identityCard, statusPill. rewrite (bool_decide_ext _ _ Hst).
  pose proof (markup_kv_row "Roles" [] (spans "chip" (ap_roles p)) (spans "chip" (ap_roles p'))
    ltac:(by rewrite !map_markup_spans, Hr)) as H1.
  pose proof (markup_kv_row "Permissions" [] _ _ (map_markup_chips "chip chip--dim" _ _ Hp)) as H2.
  revert H1 H2. generalize (kv_row "Roles" [] (spans "chip" (ap_roles p))),
    (kv_row "Roles" [] (spans "chip" (ap_roles p'))),
    (kv_row "Permissions" [] (chips_or_none "chip chip--dim" (ap_permissions p))),
    (kv_row "Permissions" [] (chips_or_none "chip chip--dim" (ap_permissions p'))).
  intros n1 n2 n3 n4 H1 H2. cbn. by rewrite H1, H2, Hm.
Qed.

Lemma gateway_markup g g' :
  length (gi_scopes g) = length (gi_scopes g') → length (gi_roles g) = length (gi_roles g') →
  markup (gatewayCard g) = markup (gatewayCard g').
Proof.
  intros Hs Hg. unfold gatewayCard.
  pose proof (markup_kv_row "Scopes" [] (spans "chip chip--primary" (gi_scopes g))
    (spans "chip chip--primary" (gi_scopes g')) ltac:(by rewrite !map_markup_spans, Hs)) as H1.
  pose proof (markup_kv_row "Roles" [] _ _ (map_markup_chips "chip" _ _ Hg)) as H2.
  revert H1 H2. generalize (kv_row "Scopes" [] (spans "chip chip--primary" (gi_scopes g))),
    (kv_row "Scopes" [] (spans "chip chip--primary" (gi_scopes g'))),
    (kv_row "Roles" [] (chips_or_none "chip" (gi_roles g))), (kv_row "Roles" [] (chips_or_none "chip" (gi_roles g'))).
  intros n1 n2 n3 n4 H1 H2. cbn. by rewrite H1, H2.
Qed.

(** C21: Nothing a user or an administrator can choose becomes markup. Two
    accounts whose values differ arbitrarily, names, addresses, identifiers,
    roles, permissions and scopes, but that have as many of each, have the
    same elements with the same attributes: the values are in text nodes only. *)
Theorem account_markup (p p' : AccountProfile) (g g' : GatewayIdentity) :
  same_layout p p' g g' →
  markup (render_account account_root p g) = markup (render_account account_root p' g').
Proof.
  intros (Hst & Hm & Hr & Hp & Hs & Hg). unfold render_account. cbn [append_nodes account_root]. rewrite Hm.
  pose proof (identity_markup p p' Hst Hm Hr Hp) as H1. pose proof (gateway_markup g g' Hs Hg) as H2.
  revert H1 H2. generalize (identityCard p), (identityCard p'), (gatewayCard g), (gatewayCard g').
  intros n1 n2 n3 n4 H1 H2. cbn. by rewrite H1, H2.
Qed.

(** * What the page says *)

Definition children (n : Node) : list Node := match n with Elem _ _ cs => cs | Text _ => [] end.

(** The rows of the lists, each with its label and the texts of its value. *)
Fixpoint rows (n : Node) : list (string * list string) :=
  match n with
  | Text _ => []
  | Elem _ _ cs =>
      if includes (classes n) "kv__row"
      then match cs with dt :: dd :: _ => [(text_content dt, map text_content (children dd))] | _ => [] end
      else concat (map rows cs)
  end.

(** The answers of the two servers, as the page reads them. *)
Definition profile_view (p : Profile) : AccountProfile :=
  mkAccountProfile (pf_id p) (pf_email p) (pf_first_name p) (pf_last_name p) (pf_status p) (pf_roles p)
    (pf_permissions p) (pf_mfa_enabled p).
Definition identity_view (i : ResourceIdentity) : GatewayIdentity :=
  mkGatewayIdentity (id_userId i) (id_scopes i) (id_roles i) (id_requestId i).

Lemma strings_json xs : strings (Some (JArr (JStr <$> xs))) = Some xs.
Proof. cbn [strings]. induction xs as [|x xs IH]; [done|]. cbn [fmap list_fmap mapM a_string] in *. by rewrite IH. Qed.

Lemma nullable_json v : nullable (Some (json_opt v)) = Some v.
Proof. by destruct v. Qed.

Lemma as_profile_json p : as_profile (profile_json p) = Some (profile_view p).
Proof.
  unfold as_profile.
  change (jget (profile_json p) "id") with (Some (JStr (pf_id p))).
  change (jget (profile_json p) "email") with (Some (JStr (pf_email p))).
  change (jget (profile_json p) "first_name") with (Some (json_opt (pf_first_name p))).
  change (jget (profile_json p) "last_name") with (Some (json_opt (pf_last_name p))).
  change (jget (profile_json p) "status") with (Some (JStr (pf_status p))).
  change (jget (profile_json p) "roles") with (Some (JArr (JStr <$> pf_roles p))).
  change (jget (profile_json p) "permissions") with (Some (JArr (JStr <$> pf_permissions p))).
  change (jget (profile_json p) "mfa_enabled") with (Some (JBool (pf_mfa_enabled p))).
  by rewrite !nullable_json, !strings_json.
Qed.

Lemma as_identity_json i : as_identity (identity_json i) = Some (identity_view i).
Proof.
  unfold as_identity.
  assert (jget (identity_json i) "scopes" = Some (JArr (JStr <$> id_scopes i)) ∧
    jget (identity_json i) "roles" = Some (JArr (JStr <$> id_roles i)) ∧
    jget (identity_json i) "userId" = JStr <$> id_userId i ∧
    jget (identity_json i) "requestId" = JStr <$> id_requestId i) as (-> & -> & -> & ->)
    by (destruct i as [[u|] [c|] scopes roles [r|]]; by vm_compute).
  rewrite !strings_json. by destruct i as [[u|] c scopes roles [r|]].
Qed.

Lemma texts_spans class xs : map text_content (el_child (spans class xs)) = xs.
Proof. unfold spans. cbn [el_child]. rewrite !map_map. induction xs as [|x xs IH]; [done|]. cbn [map]. by rewrite IH. Qed.

Lemma rows_kv label attrs v :
  rows (kv_row label attrs v) = [(label, map text_content (el_child v))].
Proof. unfold kv_row. cbn. by rewrite app_nil_r. Qed.

Definition or_none (xs : list string) : list string := match xs with [] => ["None"] | _ => xs end.

Lemma texts_chips class xs : map text_content (el_child (chips_or_none class xs)) = or_none xs.
Proof. destruct xs as [|x xs]; [done|]. apply texts_spans. Qed.

Lemma rows_identity p :
  rows (identityCard p) =
    [("User ID", [ap_id p]); ("MFA", [if ap_mfa_enabled p then "Enabled" else "Not enrolled"]);
     ("Roles", ap_roles p); ("Permissions", or_none (ap_permissions p))].
Proof.
  pose proof (rows_kv "Roles" [] (spans "chip" (ap_roles p))) as H1. rewrite texts_spans in H1.
  pose proof (rows_kv "Permissions" [] (chips_or_none "chip chip--dim" (ap_permissions p))) as H2.
  rewrite texts_chips in H2. revert H1 H2. unfold identityCard.
  generalize (kv_row "Roles" [] (spans "chip" (ap_roles p))),
    (kv_row "Permissions" [] (chips_or_none "chip chip--dim" (ap_permissions p))).
  intros n1 n2 H1 H2. unfold statusPill.
  destruct (bool_decide _), (ap_mfa_enabled p); cbn; by rewrite H1, H2.
Qed.

Lemma rows_gateway g :
  rows (gatewayCard g) =
    [("Subject (X-User-Id)", [default "—" (gi_userId g)]); ("Scopes", gi_scopes g);
     ("Roles", or_none (gi_roles g)); ("Request ID", [default "—" (gi_requestId g)])].
Proof.
  pose proof (rows_kv "Scopes" [] (spans "chip chip--primary" (gi_scopes g))) as H1. rewrite texts_spans in H1.
  pose proof (rows_kv "Roles" [] (chips_or_none "chip" (gi_roles g))) as H2.
  rewrite texts_chips in H2. revert H1 H2. unfold gatewayCard.
  generalize (kv_row "Scopes" [] (spans "chip chip--primary" (gi_scopes g))),
    (kv_row "Roles" [] (chips_or_none "chip" (gi_roles g))).
  intros n1 n2 H1 H2. cbn. by rewrite H1, H2.
Qed.

Lemma rows_root p g :
  rows (render_account account_root p g) = rows (identityCard p) ++ rows (gatewayCard g).
Proof.
  unfold render_account. cbn [append_nodes account_root].
  generalize (identityCard p), (gatewayCard g). intros n1 n2. destruct (ap_mfa_enabled p); cbn; by rewrite !app_nil_r.
Qed.

Definition shown_rows (p : Profile) (i : ResourceIdentity) : list (string * list string) :=
  [("User ID", [pf_id p]); ("MFA", [if pf_mfa_enabled p then "Enabled" else "Not enrolled"]);
   ("Roles", pf_roles p); ("Permissions", or_none (pf_permissions p));
   ("Subject (X-User-Id)", [default "—" (id_userId i)]); ("Scopes", id_scopes i);
   ("Roles", or_none (id_roles i)); ("Request ID", [default "—" (id_requestId i)])].

Lemma page_rows p i :
  ∃ page, on_loaded account_root (profile_json p) (identity_json i) = Some page ∧ rows page = shown_rows p i.
Proof.
  unfold on_loaded. rewrite as_profile_json, as_identity_json. eexists. split; [reflexivity|].
  change (clear account_root) with account_root. by rewrite rows_root, rows_identity, rows_gateway.
Qed.

(** The account page shows what the two servers said. The page reads the
    answers of the authorization server and of the resource API as its own
    types say, without a mismatch, and its lists then show exactly their
    values: the identifier, the state of the second factor, all the roles and
    permissions; the subject, the scopes and the roles that came through the
    gateway, and the request's identifier, or a dash where there is none. *)
Theorem account_page_shows (p : Profile) (i : ResourceIdentity) :
  ∃ page, on_loaded account_root (profile_json p) (identity_json i) = Some page ∧ rows page = shown_rows p i.
Proof. apply page_rows. Qed.

(** * The handlers *)

Section handlers.
Context (cfg : ClientConfig).
Context {N : Type} (network : FetchRequest → N → outcome JsErr FetchResponse * N).
Context (engine_message : JsErr → string).

(** [makeAccount]: without a token, an empty element and the login. *)
Definition makeAccount : B N Node :=
  has ← hasAccessToken;
  if (has : bool) then mret (append_nodes account_root [placeholder])
  else _ ← navigate "/login"; mret account_root.

(** What follows when both requests are answered, or one of them failed. *)
Definition account_settled (root : Node) (answers : outcome JsErr (AccountProfile * GatewayIdentity)) : B N Node :=
  match answers with
  | Resolved (profile, gateway) => mret (render_account (clear root) profile gateway)
  | Rejected e => _ ← account_failed engine_message e; mret root
  end.
Definition reload_settled (root : Node) (answers : outcome JsErr (AccountProfile * GatewayIdentity)) : B N Node :=
  match answers with
  | Resolved (profile, gateway) => mret (render_account (clear root) profile gateway)
  | Rejected e => _ ← reload_failed engine_message e; mret root
  end.

(** The card's buttons; the form of the page is the card here. A success is
    followed by [reload]: the result says so. *)
Definition with_button (sel : Selector) (p : F N bool) : F N bool :=
  _ ← change sel (disableButton true);
  catch (λ e, _ ← on_browser (toast (error_message engine_message e) "error");
              _ ← change sel (disableButton false); mret false) p.

Definition on_disable (value : string) : F N bool :=
  with_button submit_of
    (_ ← on_browser (disableTotp cfg network (js_trim value));
     _ ← on_browser (toast "MFA disabled" "success"); mret true).

Definition on_confirm (value : string) : F N bool :=
  with_button submit_of
    (_ ← on_browser (confirmTotp cfg network (js_trim value));
     _ ← on_browser (toast "MFA enabled" "success"); mret true).

Definition enroll_of : Selector := [[Tag "button"; Class_ "btn--primary"]].
Definition on_enroll : F N bool :=
  with_button enroll_of
    (res ← on_browser (enrollTotp cfg network);
     otpauth ← on_browser (property res "otpauth_url");
     qr ← on_browser (property res "qr_data_url");
     match a_string otpauth with
     | Some url => _ ← writes (λ s, s <| fp_form ::= renderEnroll url (json_attr qr) |>); mret false
     | None => _ ← writes (λ s, s <| fp_form ::= enroll_start (json_attr qr) |>); Throw TypeError
     end).

(** * The second factor's card *)

Definition enabled_card : Node := renderMfaCard true (el "section" ["class" =: "card"] []).
Definition enroll_card : Node := renderMfaCard false (el "section" ["class" =: "card"] []).

Lemma run_with_button sel p (s : FormPage N) :
  run (with_button sel p) s =
    match run p (s <| fp_form ::= alter_first sel (disableButton true) |>) with
    | (Resolved r, s') => (Resolved r, s')
    | (Rejected e, s') =>
        (Resolved false, s' <| fp_browser ::= λ b, b <| br_toasts ::= λ ts, ts ++ [(error_message engine_message e, "error")] |> |>
                            <| fp_form ::= alter_first sel (disableButton false) |>)
    end.
Proof.
  unfold with_button. rewrite (run_bind_eq _ _ _ () (s <| fp_form ::= alter_first sel (disableButton true) |>)) by done.
  rewrite run_catch. by destruct (run p _) as [[e|r] s'].
Qed.

(** A card with a form for a code, whose one submit button is enabled. *)
Definition code_card (card : Node) : Prop :=
  marked submit_of "disabled" (Some "") (hold card) ∧ marked submit_of "disabled" None (release (hold card)).

Lemma enabled_code_card : code_card enabled_card.
Proof. split; (eexists _, _; split; vm_compute; reflexivity). Qed.
Lemma enroll_code_card url qr : code_card (renderEnroll url (AStr qr) enroll_card).
Proof. split; (eexists _, _; split; vm_compute; reflexivity). Qed.

(** Trying a code: a success leaves the button held, for the reload that
    follows; a failure shows its message and lets the user try again. *)
Lemma run_code_card (call : B N (option json)) message card b otp :
  code_card card →
  let p := with_button submit_of (_ ← on_browser call; _ ← on_browser (toast message "success"); mret true) in
  ∃ ok s', run p (mkFormPage b card otp) = (Resolved ok, s') ∧ ok = is_resolved (run call b).1 ∧
    marked submit_of "disabled" (if ok then Some "" else None) (fp_form s') ∧
    br_toasts (fp_browser s') = br_toasts (run call b).2 ++
      [match (run call b).1 with Resolved _ => (message, "success") | Rejected e => (error_message engine_message e, "error") end].
Proof.
  intros [Hhold Hrel] p. unfold p. rewrite run_with_button, run_bind, run_on_browser.
  change (fp_browser (mkFormPage b card otp <| fp_form ::= alter_first submit_of (disableButton true) |>)) with b.
  destruct (run call b) as [[e|v] b1]; cbn [fst snd is_resolved].
  - eexists false, _. split; [reflexivity|]. split; [done|]. by split.
  - eexists true, _. split; [reflexivity|]. split; [done|]. by split.
Qed.
End handlers.

(** * At concrete inputs *)

Lemma account_markup_witness :
  let p name := mkAccountProfile "1" name None None "active" ["user"] [] false in
  let g := mkGatewayIdentity None ["openid"] [] None in
  markup (render_account account_root (p "ada@example.com") g)
  = markup (render_account account_root (p "<script>alert(1)</script>") g).
Proof. intros p g. apply account_markup. by split_and!. Defined.
