(* ===== verification/App.v ===== *)
(** The authorization server as a whole: src/app.factory.ts mounts the routers
    under their prefixes, and dispatches a request to the routes in the order
    they were mounted. *)
From S2P Require Import Prelude Async JsString Errors Store Evolution Toy Redis RateLimit Http AuditLog Users Keys Jwt Guards Mfa Risk AuthService AuthRoutes Rbac Clients AdminRoutes Codes OAuth OAuthRoutes.
From stdpp Require Import base gmap strings list relations.
From Stdlib Require Import ZArith Ascii.
Local Open Scope string_scope.
Local Open Scope list_scope.
Local Open Scope Z_scope.

(** * Dispatch *)

(** The matching of a path against the pattern of a route: the parameters, or
    [None]. The law is what the routes without parameters rely on. *)
Class Express : Type := { path_match : string → string → option (list (string * json)) }.

Definition literal (pattern : string) : bool := all_chars (λ c, negb (Ascii.eqb c ":")) pattern.

Class ExpressLaws (X : Express) : Prop := {
  path_match_self : ∀ p, literal p = true → path_match p p = Some [];
  path_match_literal : ∀ p q, literal p = true → is_Some (path_match p q) →
    to_lower q = to_lower p ∨ to_lower q = to_lower p +:+ "/";
}.

Record Route : Type := mkRoute {
  rt_method : string; rt_pattern : string; rt_handlers : list RequestHandler;
}.

(** [app.use(prefix, router)] *)
Definition mount (prefix : string) (router : list (string * string * list RequestHandler)) : list Route :=
  (λ r, mkRoute r.1.1 (if bool_decide (r.1.2 = "/") then prefix else prefix +:+ r.1.2) r.2) <$> router.

Definition admin_routes_of (rs : list AdminRoute) : list (string * string * list RequestHandler) :=
  (λ r, (ar_method r, ar_path r, ar_handlers r)) <$> rs.

Section dispatch.
Context `{X : Express}.

(** Express serves HEAD with the routes of GET; Node then sends no body. *)
Definition serves (r : Route) (method : string) : bool :=
  bool_decide (rt_method r = method) || (bool_decide (rt_method r = "GET") && bool_decide (method = "HEAD")).

(** A route that matches runs its handlers; when all of them call [next()]
    the search goes on. *)
Fixpoint dispatch (routes : list Route) (method path : string) : RequestHandler := λ rq,
  match routes with
  | [] => mret (Next rq)
  | r :: routes =>
      match (if serves r method then path_match (rt_pattern r) path else None) with
      | None => dispatch routes method path rq
      | Some params =>
          h ← chain (rt_handlers r) (rq <| rq_params := JObj params |>);
          match h with
          | Next rq' => dispatch routes method path rq'
          | h => mret h
          end
      end
  end.
End dispatch.

Section app.
Context `{P : Platform, K : KeyManagementService, J : Jose, R : RiskEngine, U : UrlApi, Z0 : Zod, W : Jwk, X : Express, MW : Middlewares}.

(** The pings of the readiness check reach services outside of the state. *)
Context (db_ping redis_ping : M ()).

Definition readinessChecks : list (string * M ()) :=
  [("postgres", db_ping); ("redis", redis_ping); ("kms", _ ← getCurrentSigningKey; mret ())].

(** The routers in the order [createAuthServer] mounts them; the API
    documentation is left out. *)
Definition createAuthServer : list Route :=
  mount "" [("GET", "/.well-known/jwks.json", get_jwks)]
  ++ mount "/auth" authRoutes
  ++ mount "/mfa" mfaRoutes
  ++ mount "/admin" (admin_routes_of adminRoutes)
  ++ mount "/admin/clients" (admin_routes_of clientsRoutes)
  ++ mount "/oauth" oauthRoutes
  ++ mount "" [("GET", "/.well-known/openid-configuration", get_discovery)]
  ++ mount "" [("GET", "/userinfo", get_userinfo)]
  ++ mount "/health" [("GET", "/live", get_live); ("GET", "/ready", get_ready readinessChecks)].

(** The origins and methods the program allows to other sites. *)
Definition cors_options : CorsOptions :=
  mkCors (CORS_ORIGINS_LIST cfg) (Some ["GET"; "POST"; "PUT"; "PATCH"; "DELETE"; "OPTIONS"]).

(** A request from arrival to answer, its body and cookies read: the security
    headers, the request identifier, the routes, the 404 handler and the error
    handler ([finalizeApp]). *)
Definition auth_server (method path : string) (rq : HttpRequest) : M (list (string * string) * Response) :=
  answer [security cors_options method; requestIdMiddleware "x-request-id"; dispatch createAuthServer method path] rq.

(** * Every request is answered *)

(** A handler keeps the request's identifier and the headers set so far. *)
Definition request_kept (rq : HttpRequest) (h : handled) : Prop :=
  let rq' := match h with Next rq' => rq' | NextErr rq' _ => rq' | Done rq' _ => rq' end in
  rq_requestId rq' = rq_requestId rq ∧ rq_sent rq `prefix_of` rq_sent rq'.

Definition well_behaved (h : RequestHandler) : Prop := answers h ∧ ∀ rq, leaves (request_kept rq) (h rq).

Lemma request_kept_trans rq rq1 h : request_kept rq (Next rq1) → request_kept rq1 h → request_kept rq h.
Proof. intros [H1 H2] [H3 H4]. split; [congruence|by etrans]. Qed.

Ltac leaves_step :=
  lazymatch goal with
  | |- leaves _ (_ ≫= _) => apply leaves_bind; intros
  | |- leaves _ (catch _ _) => apply leaves_catch; [|intros]
  | |- leaves _ (Throw _) => exact I
  | |- leaves _ (mret _) => apply leaves_ret
  | |- leaves _ (respond _ _ _) => apply leaves_ret
  | |- leaves _ (match ?x with _ => _ end) => destruct x
  | |- request_kept _ _ => (split; [reflexivity|]; first [reflexivity | simpl; rewrite <-?app_assoc; eexists; reflexivity])
  end.
Ltac leaves_solve := cbv beta zeta; repeat (leaves_step; cbv beta zeta).

Lemma behaved_async fn : (∀ rq, leaves (request_kept rq) (fn rq)) → well_behaved (asyncHandler fn).
Proof.
  intros Hf. split; [apply answers_asyncHandler|]. intros rq. apply leaves_catch; [apply Hf|].
  intros e. by split.
Qed.

Lemma behaved_rate_limit o (identity : HttpRequest → string) :
  well_behaved (λ rq, rate_limit o (identity rq) rq).
Proof. split; [apply answers_rate_limit|]. intros rq. unfold rate_limit. leaves_solve. Qed.

Lemma behaved_authenticate : well_behaved authenticate.
Proof. split; [apply answers_authenticate|]. intros rq. unfold authenticate. leaves_solve. Qed.

Lemma behaved_maybeAuthenticate : well_behaved maybeAuthenticate.
Proof.
  split; [apply answers_maybeAuthenticate|]. intros rq. unfold maybeAuthenticate.
  destruct (bearer rq); [apply behaved_authenticate|by split].
Qed.

Lemma behaved_requirePermission ps : well_behaved (requirePermission ps).
Proof.
  split; [apply answers_pure, pure_requirePermission|]. intros rq. unfold requirePermission. leaves_solve.
Qed.

Lemma behaved_respond status body : well_behaved (respond status body).
Proof. split; [by intros rq w|]. intros rq. unfold respond. leaves_solve. Qed.

Lemma behaved_chain hs : Forall well_behaved hs → well_behaved (chain hs).
Proof.
  intros Hall. split; [apply answers_chain; by eapply Forall_impl; [exact Hall|intros ? []]|].
  induction Hall as [|h hs [_ Hh] _ IH]; intros rq; [by split|]. cbn [chain].
  apply (leaves_seq (request_kept rq)); [apply Hh|]. intros [rq1|rq1 e|rq1 res] H1; try done.
  eapply leaves_mono; [|apply IH]. intros r. by apply request_kept_trans.
Qed.

Lemma behaved_validate b q p : well_behaved (validate b q p).
Proof.
  apply behaved_chain. repeat constructor; try apply answers_pure, pure_validate_part;
    intros rq; unfold validate_part; leaves_solve.
Qed.

Lemma behaved_dispatch routes method path :
  Forall (λ r, Forall well_behaved (rt_handlers r)) routes →
  well_behaved (dispatch routes method path).
Proof.
  intros Hall. split.
  - induction Hall as [|r routes Hr _ IH]; intros rq w; [done|]. cbn [dispatch].
    destruct (if serves _ _ then _ else None) as [params|]; [|apply IH].
    pose proof (proj1 (behaved_chain _ Hr) (rq <| rq_params := JObj params |>) w) as Hc. rewrite run_bind.
    destruct (run (chain _ _) w) as [[e|[rq1|rq1 e|rq1 res]] w1]; [done|apply IH|done..].
  - induction Hall as [|r routes Hr _ IH]; intros rq; [by split|]. cbn [dispatch].
    destruct (if serves _ _ then _ else None) as [params|]; [|apply IH].
    apply (leaves_seq (request_kept rq)).
    { eapply leaves_mono; [|apply (proj2 (behaved_chain _ Hr) (rq <| rq_params := JObj params |>))]. by intros h. }
    intros [rq1|rq1 e|rq1 res] H1; try done.
    eapply leaves_mono; [|apply IH]. intros h. by apply request_kept_trans.
Qed.

Create HintDb behaved.
#[local] Hint Resolve behaved_rate_limit behaved_authenticate behaved_maybeAuthenticate
  behaved_requirePermission behaved_respond behaved_validate : behaved.

Ltac behaved_route :=
  repeat (apply Forall_cons; split); try apply Forall_nil; try exact I;
  first [solve [eauto with behaved] | apply behaved_async; intros rq; leaves_solve].

Ltac behaved_routes := repeat (apply Forall_cons; split); [..|by apply Forall_nil]; behaved_route.

Lemma behaved_auth : Forall (λ r, Forall well_behaved r.2) authRoutes.
Proof. behaved_routes. Qed.
Lemma behaved_mfa : Forall (λ r, Forall well_behaved r.2) mfaRoutes.
Proof. behaved_routes. Qed.
Lemma behaved_admin : Forall (λ r, Forall well_behaved (ar_handlers r)) (adminRoutes ++ clientsRoutes).
Proof. behaved_routes. Qed.
Lemma behaved_oauth : Forall (λ r, Forall well_behaved r.2) oauthRoutes.
Proof. behaved_routes. Qed.
Lemma behaved_others :
  Forall (Forall well_behaved) [get_jwks; get_discovery; get_userinfo; get_live; get_ready readinessChecks].
Proof. behaved_routes. Qed.

Lemma behaved_mount prefix router :
  Forall (λ r, Forall well_behaved r.2) router → Forall (λ r, Forall well_behaved (rt_handlers r)) (mount prefix router).
Proof. intros Hall. by apply Forall_fmap. Qed.

Lemma behaved_server : Forall (λ r, Forall well_behaved (rt_handlers r)) createAuthServer.
Proof.
  pose proof behaved_others as Ho. rewrite !Forall_cons in Ho. destruct Ho as (? & ? & ? & ? & ? & _).
  pose proof behaved_admin as Ha. apply Forall_app in Ha as [Hadmin Hclients].
  unfold createAuthServer. rewrite !Forall_app. split_and!; apply behaved_mount.
  - by apply Forall_singleton.
  - apply behaved_auth.
  - apply behaved_mfa.
  - by apply Forall_fmap.
  - by apply Forall_fmap.
  - apply behaved_oauth.
  - by apply Forall_singleton.
  - by apply Forall_singleton.
  - apply Forall_cons. split; [done|]. by apply Forall_singleton.
Qed.

(** What the first middleware does with the identifier. *)
Lemma run_requestId_sent name rq w :
  ∃ id rq1 w1, run (requestIdMiddleware name rq) w = (Resolved (Next rq1), w1) ∧
    rq_requestId rq1 = id ∧ rq_sent rq1 = rq_sent rq ++ [("X-Request-ID", id)] ∧
    ∀ incoming, truthy (header rq name) = Some incoming → request_id_ok incoming = true → id = incoming.
Proof.
  unfold requestIdMiddleware. destruct (truthy (header rq name)) as [incoming|] eqn:Hin.
  - destruct (request_id_ok incoming) eqn:Hok.
    + eexists _, _, _. split; [reflexivity|]. split; [reflexivity|]. split; [done|]. by intros ? [= ->].
    + eexists _, _, _. split; [reflexivity|]. split; [reflexivity|]. split; [done|]. by intros ? [= ->] ?; congruence.
  - eexists _, _, _. split; [reflexivity|]. split; [reflexivity|]. by split.
Qed.

(** What the first two middlewares do: OPTIONS ends there. *)
Lemma run_security `{!MiddlewaresLaws MW} o method rq w :
  ∃ hs, "X-Request-ID" ∉ hs.*1 ∧ run (security o method rq) w =
    (Resolved (if bool_decide (method = "OPTIONS") then Done (with_headers rq hs) (mkResponse 204 JNull)
               else Next (with_headers rq hs)), w).
Proof.
  destruct (helmet_next rq) as (hs1 & Hh & Hn1). unfold security. cbn [chain].
  assert (Hs : ∀ hs2, with_headers (with_headers rq hs1) hs2 = with_headers rq (hs1 ++ hs2)).
  { intros hs2. destruct rq as [h ip qu pa bo id us idn se].
    change (mkRequest h ip qu pa bo id us idn ((se ++ hs1) ++ hs2) = mkRequest h ip qu pa bo id us idn (se ++ hs1 ++ hs2)).
    by rewrite <- app_assoc. }
  assert (Hno : ∀ hs2 : list (string * string), "X-Request-ID" ∉ hs2.*1 → "X-Request-ID" ∉ (hs1 ++ hs2).*1).
  { intros hs2 Hn2. rewrite fmap_app, not_elem_of_app. done. }
  destruct (decide (method = "OPTIONS")) as [->|Hm].
  - destruct (cors_preflight o (with_headers rq hs1)) as (hs2 & Hc & Hn2). exists (hs1 ++ hs2).
    split; [by apply Hno|]. cbn. rewrite Hh. cbn. by rewrite Hc, Hs.
  - destruct (cors_next o method (with_headers rq hs1) Hm) as (hs2 & Hc & Hn2). exists (hs1 ++ hs2).
    split; [by apply Hno|]. rewrite bool_decide_eq_false_2 by done. cbn. rewrite Hh. cbn. by rewrite Hc, Hs.
Qed.

(** C23: Every request is answered. Whatever the method, the path, the state
    and the libraries, the authorization server sends one answer to a request
    whose body it can read. To OPTIONS the middleware for other origins answers,
    204 with its headers and without an identifier, and nothing is changed. Any
    other answer names the request: by the identifier of the client when it is
    well formed; and a failure anywhere below becomes the answer of the error
    handler, with the same identifier. *)
Theorem auth_server_answers `{!MiddlewaresLaws MW} (method path : string) (rq : HttpRequest) (w : World) :
  rq_sent rq = [] →
  (method = "OPTIONS" ∧ ∃ safety, "X-Request-ID" ∉ safety.*1 ∧
     run (auth_server method path rq) w = (Resolved (safety, mkResponse 204 JNull), w)) ∨
  (method ≠ "OPTIONS" ∧ ∃ id safety h headers w',
     "X-Request-ID" ∉ safety.*1 ∧
     run (chain [requestIdMiddleware "x-request-id"; dispatch createAuthServer method path] (with_headers rq safety)) w
       = (Resolved h, w') ∧
     run (auth_server method path rq) w
       = (Resolved (safety ++ ("X-Request-ID", id) :: headers, (finalize h).2), w') ∧
     (∀ incoming, truthy (header rq "x-request-id") = Some incoming → request_id_ok incoming = true →
        id = incoming) ∧
     (∀ rq' e, h = NextErr rq' e → (finalize h).2 = errorHandler e id)).
Proof.
  intros Hsent. destruct (run_security cors_options method rq w) as (safety & Hno & Hsec).
  unfold auth_server, answer. destruct (decide (method = "OPTIONS")) as [Hm|Hm]; [left|right]; (split; [done|]).
  { exists safety. split; [done|]. rewrite bool_decide_eq_true_2 in Hsec by done.
    rewrite run_bind, (run_chain_cons _ _ _ _ _ _ Hsec). cbn. by rewrite Hsent. }
  rewrite bool_decide_eq_false_2 in Hsec by done. set (rq0 := with_headers rq safety) in *.
  destruct (run_requestId_sent "x-request-id" rq0 w) as (id & rq1 & w1 & Hr & Hid & Hs & Hin).
  destruct (behaved_dispatch _ method path behaved_server) as [Hans Hleaves].
  revert Hans Hleaves. generalize (dispatch createAuthServer method path). intros d Hans Hleaves.
  destruct (run (d rq1) w1) as [[e|h] w'] eqn:Hd.
  { specialize (Hans rq1 w1). by rewrite Hd in Hans. }
  destruct (leaves_run _ _ _ _ _ (Hleaves rq1) Hd) as [Hkept [headers Hprefix]].
  assert (Hrun : run (chain [requestIdMiddleware "x-request-id"; d] rq0) w = (Resolved h, w')).
  { rewrite (run_chain_cons _ _ _ _ _ _ Hr), (run_chain_cons _ _ _ _ _ _ Hd). by destruct h. }
  exists id, safety, h, headers, w'. split; [done|]. split; [exact Hrun|]. split; [|split; [exact Hin|]].
  - rewrite run_bind, (run_chain_cons _ _ _ _ _ _ Hsec), Hrun.
    assert (Hall : rq_sent rq1 ++ headers = safety ++ ("X-Request-ID", id) :: headers).
    { rewrite Hs. change (rq_sent rq0) with (rq_sent rq ++ safety). rewrite Hsent. cbn [app]. by rewrite <- app_assoc. }
    rewrite Hall in Hprefix. destruct h; simpl in *; by rewrite Hprefix.
  - intros rq' e ->. simpl in *. by rewrite Hkept, Hid.
Qed.
End app.
