(* ===== verification/Wiring.v ===== *)
(** How the factories put the servers together: src/app.factory.ts and
    src/modules/gateway/gateway.factory.ts construct the services on a heap of
    objects, hand references to them to each other and to the routers, and set
    the revocation checker of an object that others already hold. *)
From S2P Require Import Prelude Async JsString Errors Store Evolution Toy Redis RateLimit Http AuditLog Users Keys Jwt Guards Mfa Risk AuthService AuthRoutes Rbac Clients AdminRoutes Codes OAuth OAuthRoutes App.
From stdpp Require Import base gmap strings list relations.
Local Open Scope string_scope.
Local Open Scope list_scope.

(** * Objects *)

Definition loc : Type := nat.

(** [new PostgresAuditSink(() => db.withClient(), ..)] *)
Inductive Sink : Type := PostgresSink (db : loc).

(** An object with the references it holds. [OSupplied] is what the caller
    supplies; a revocation checker is a closure over a [TokenRevocationService]. *)
Inductive Supply : Type := SDatabase | SRedis | SKms | SEmail.
Inductive Object : Type :=
  | OSupplied (what : Supply)
  | OAuditLogService (sinks : list Sink)
  | OUserRepository (db : loc)
  | OEmailTokenService (db : loc)
  | OUserService (users emailTokens audit email : loc)
  | OJwtService (kms : loc) (options : JwtServiceOptions) (revocationChecker : option loc)
  | ORefreshTokenService (db : loc)
  | OSessionRepository (db redis : loc)
  | OMfaService (db kms redis : loc)
  | ORulesRiskEngine (redis : loc)
  | ORiskEventRepository (db : loc)
  | OAuthService (users sessions refreshTokens jwt mfa riskEngine riskEvents audit emailTokens emailProvider redis : loc)
  | ORbacRepository (db : loc)
  | OClientRepository (db : loc)
  | OAuthorizationCodeRepository (db : loc)
  | OTokenRevocationService (redis : loc)
  | OOAuthService (clients codes jwt refreshTokens sessions users audit tokenRevocation : loc)
  | ORemoteTokenVerifier (revocationChecker : option loc).

Definition sink_refs (s : Sink) : loc := match s with PostgresSink db => db end.

Definition refs (o : Object) : list loc :=
  match o with
  | OSupplied _ => []
  | OAuditLogService sinks => sink_refs <$> sinks
  | OUserRepository db | OEmailTokenService db | ORefreshTokenService db | ORiskEventRepository db
  | ORbacRepository db | OClientRepository db | OAuthorizationCodeRepository db => [db]
  | OUserService users emailTokens audit email => [users; emailTokens; audit; email]
  | OJwtService kms _ checker => kms :: option_list checker
  | OSessionRepository db redis => [db; redis]
  | OMfaService db kms redis => [db; kms; redis]
  | ORulesRiskEngine redis | OTokenRevocationService redis => [redis]
  | OAuthService users sessions refreshTokens jwt mfa riskEngine riskEvents audit emailTokens email redis =>
      [users; sessions; refreshTokens; jwt; mfa; riskEngine; riskEvents; audit; emailTokens; email; redis]
  | OOAuthService clients codes jwt refreshTokens sessions users audit tokenRevocation =>
      [clients; codes; jwt; refreshTokens; sessions; users; audit; tokenRevocation]
  | ORemoteTokenVerifier checker => option_list checker
  end.

Notation Heap := (list Object).
Definition points (h : Heap) (l l' : loc) : Prop := ∃ o, h !! l = Some o ∧ l' ∈ refs o.

(** * What is supplied and what is built *)

Record AuthServerDeps : Type := mkDeps {
  dp_db : loc; dp_redis : loc; dp_kms : loc; dp_email : loc; dp_audit : option loc;
}.

Record Services : Type := mkServices {
  sv_db : loc; sv_redis : loc; sv_kms : loc; sv_audit : loc; sv_jwt : loc; sv_users : loc;
  sv_userService : loc; sv_authService : loc; sv_mfa : loc;
}.

(** The routers, with the objects their handlers close over. *)
Inductive Router : Type :=
  | KeysRoutes (kms : loc)
  | AuthRouter (authService userService jwt redis : loc)
  | MfaRouter (mfa audit jwt authService : loc)
  | AdminRouter (rbac audit jwt : loc)
  | ClientsRouter (clients audit jwt : loc)
  | OAuthRouter (oauth jwt clients audit redis : loc)
  | DiscoveryRoutes
  | OidcRoutes (users jwt : loc)
  | DocsRoutes
  | HealthRouter (db redis kms : loc).

Definition closure (r : Router) : list loc :=
  match r with
  | KeysRoutes kms => [kms]
  | AuthRouter authService userService jwt redis => [authService; userService; jwt; redis]
  | MfaRouter mfa audit jwt authService => [mfa; audit; jwt; authService]
  | AdminRouter rbac audit jwt => [rbac; audit; jwt]
  | ClientsRouter clients audit jwt => [clients; audit; jwt]
  | OAuthRouter oauth jwt clients audit redis => [oauth; jwt; clients; audit; redis]
  | DiscoveryRoutes | DocsRoutes => []
  | OidcRoutes users jwt => [users; jwt]
  | HealthRouter db redis kms => [db; redis; kms]
  end.

(** The service a router authenticates with. *)
Definition authenticates_with (r : Router) : option loc :=
  match r with
  | AuthRouter _ _ jwt _ | MfaRouter _ _ jwt _ | AdminRouter _ _ jwt | ClientsRouter _ _ jwt
  | OAuthRouter _ jwt _ _ _ | OidcRoutes _ jwt => Some jwt
  | _ => None
  end.

(** * Synchronous code on the heap *)

(** The objects, and the routers mounted so far with their prefixes. *)
Record Assembly : Type := mkAssembly { as_heap : Heap; as_routers : list (string * Router) }.

Definition H (A : Type) : Type := Assembly → A * Assembly.
#[export] Instance heap_ret : MRet H := λ A a s, (a, s).
#[export] Instance heap_bind : MBind H := λ A B f p s, let '(a, s) := p s in f a s.

Definition new (o : Object) : H loc := λ s,
  (length (as_heap s), mkAssembly (as_heap s ++ [o]) (as_routers s)).

(** [app.use(prefix, router)] *)
Definition use_router (prefix : string) (r : Router) : H () := λ s,
  ((), mkAssembly (as_heap s) (as_routers s ++ [(prefix, r)])).

(** [jwtService.setRevocationChecker(..)], [verifier.setRevocationChecker(..)] *)
Definition with_checker (r : loc) (o : Object) : Object :=
  match o with
  | OJwtService kms options _ => OJwtService kms options (Some r)
  | ORemoteTokenVerifier _ => ORemoteTokenVerifier (Some r)
  | o => o
  end.
Definition setRevocationChecker (l r : loc) : H () := λ s,
  ((), mkAssembly (alter (with_checker r) l (as_heap s)) (as_routers s)).

(** [audit.registerSink(sink)] *)
Definition with_sink (k : Sink) (o : Object) : Object :=
  match o with OAuditLogService sinks => OAuditLogService (sinks ++ [k]) | o => o end.
Definition registerSink (l : loc) (k : Sink) : H () := λ s,
  ((), mkAssembly (alter (with_sink k) l (as_heap s)) (as_routers s)).

(** [AuditLogService.withDefaults(db)] *)
Definition withDefaults (db : loc) : H loc := new (OAuditLogService [PostgresSink db]).

(** * The factories *)

Section factory.
Context `{P : Platform}.

Definition buildServices (deps : AuthServerDeps) : H Services :=
  audit ← (match dp_audit deps with Some audit => mret audit | None => withDefaults (dp_db deps) end);
  users ← new (OUserRepository (dp_db deps));
  emailTokens ← new (OEmailTokenService (dp_db deps));
  userService ← new (OUserService users emailTokens audit (dp_email deps));
  jwt ← new (OJwtService (dp_kms deps) app_jwt_options None);
  refreshTokens ← new (ORefreshTokenService (dp_db deps));
  sessions ← new (OSessionRepository (dp_db deps) (dp_redis deps));
  mfa ← new (OMfaService (dp_db deps) (dp_kms deps) (dp_redis deps));
  riskEngine ← new (ORulesRiskEngine (dp_redis deps));
  riskEvents ← new (ORiskEventRepository (dp_db deps));
  authService ← new (OAuthService users sessions refreshTokens jwt mfa riskEngine riskEvents audit
                       emailTokens (dp_email deps) (dp_redis deps));
  mret (mkServices (dp_db deps) (dp_redis deps) (dp_kms deps) audit jwt users userService authService mfa).

(** The rest of [createAuthServer]: most routers are mounted before the checker
    is set. *)
Definition installRoutes (services : Services) : H () :=
  _ ← use_router "" (KeysRoutes (sv_kms services));
  _ ← use_router "/auth" (AuthRouter (sv_authService services) (sv_userService services) (sv_jwt services) (sv_redis services));
  _ ← use_router "/mfa" (MfaRouter (sv_mfa services) (sv_audit services) (sv_jwt services) (sv_authService services));
  rbac ← new (ORbacRepository (sv_db services));
  _ ← use_router "/admin" (AdminRouter rbac (sv_audit services) (sv_jwt services));
  clientsRepo ← new (OClientRepository (sv_db services));
  _ ← use_router "/admin/clients" (ClientsRouter clientsRepo (sv_audit services) (sv_jwt services));
  codes ← new (OAuthorizationCodeRepository (sv_db services));
  tokenRevocation ← new (OTokenRevocationService (sv_redis services));
  _ ← setRevocationChecker (sv_jwt services) tokenRevocation;
  refreshTokens ← new (ORefreshTokenService (sv_db services));
  sessions ← new (OSessionRepository (sv_db services) (sv_redis services));
  oauth ← new (OOAuthService clientsRepo codes (sv_jwt services) refreshTokens sessions
                 (sv_users services) (sv_audit services) tokenRevocation);
  _ ← use_router "/oauth" (OAuthRouter oauth (sv_jwt services) clientsRepo (sv_audit services) (sv_redis services));
  _ ← use_router "" DiscoveryRoutes;
  _ ← use_router "" (OidcRoutes (sv_users services) (sv_jwt services));
  _ ← use_router "" DocsRoutes;
  use_router "/health" (HealthRouter (sv_db services) (sv_redis services) (sv_kms services)).

(** [createAuthServer] *)
Definition assembleAuthServer (deps : AuthServerDeps) : H () :=
  services ← buildServices deps;
  installRoutes services.

(** [createGatewayApp]: the verifier its middleware holds. *)
Definition assembleGateway (redis : loc) : H loc :=
  verifier ← new (ORemoteTokenVerifier None);
  revocation ← new (OTokenRevocationService redis);
  _ ← setRevocationChecker verifier revocation;
  mret verifier.

(** ** The objects of the authorization server

    Every object is found at an offset from the end of the heap at first. *)

Lemma new_at h xs rs o :
  new o (mkAssembly (h ++ xs) rs) = ((length h + length xs)%nat, mkAssembly (h ++ (xs ++ [o])) rs).
Proof. unfold new. cbn. by rewrite length_app, <- app_assoc. Qed.

Lemma checker_set_at h xs rs k r :
  setRevocationChecker (length h + k) r (mkAssembly (h ++ xs) rs)
  = ((), mkAssembly (h ++ alter (with_checker r) k xs) rs).
Proof. unfold setRevocationChecker. cbn. by rewrite alter_app_r. Qed.
(** What is built on top of the [k] first objects, for this audit service. *)
Definition built (deps : AuthServerDeps) (audit k : loc) : list Object :=
  let db := dp_db deps in let redis := dp_redis deps in let kms := dp_kms deps in let email := dp_email deps in
  [OUserRepository db; OEmailTokenService db; OUserService k (k + 1) audit email;
   OJwtService kms app_jwt_options (Some (k + 13)); ORefreshTokenService db; OSessionRepository db redis;
   OMfaService db kms redis; ORulesRiskEngine redis; ORiskEventRepository db;
   OAuthService k (k + 5) (k + 4) (k + 3) (k + 6) (k + 7) (k + 8) audit (k + 1) email redis;
   ORbacRepository db; OClientRepository db; OAuthorizationCodeRepository db; OTokenRevocationService redis;
   ORefreshTokenService db; OSessionRepository db redis;
   OOAuthService (k + 11) (k + 12) (k + 3) (k + 14) (k + 15) k audit (k + 13)]%nat.

Definition mounted (deps : AuthServerDeps) (audit k : loc) : list (string * Router) :=
  let redis := dp_redis deps in
  [("", KeysRoutes (dp_kms deps)); ("/auth", AuthRouter (k + 9) (k + 2) (k + 3) redis);
   ("/mfa", MfaRouter (k + 6) audit (k + 3) (k + 9)); ("/admin", AdminRouter (k + 10) audit (k + 3));
   ("/admin/clients", ClientsRouter (k + 11) audit (k + 3));
   ("/oauth", OAuthRouter (k + 16) (k + 3) (k + 11) audit redis); ("", DiscoveryRoutes);
   ("", OidcRoutes k (k + 3)); ("", DocsRoutes); ("/health", HealthRouter (dp_db deps) redis (dp_kms deps))]%nat.

Ltac construct :=
  repeat (rewrite new_at;
          cbn [length app use_router as_heap as_routers sv_db sv_redis sv_kms sv_audit sv_jwt sv_users
               sv_userService sv_authService sv_mfa]).

Lemma assembled_with db redis kms email audit h :
  let deps := mkDeps db redis kms email (Some audit) in
  (assembleAuthServer deps (mkAssembly h [])).2
    = mkAssembly (h ++ built deps audit (length h)) (mounted deps audit (length h)).
Proof.
  intros deps. transitivity (assembleAuthServer deps (mkAssembly (h ++ []) [])).2; [by rewrite app_nil_r|].
  unfold assembleAuthServer, buildServices, installRoutes, mbind, heap_bind, mret, heap_ret. cbn [dp_audit deps].
  construct. rewrite checker_set_at. cbn [alter list_alter with_checker]. construct. cbn. by rewrite Nat.add_0_r.
Qed.

(** Without an audit service of the caller, the default one is the first object. *)
Definition audit_of (deps : AuthServerDeps) (h : Heap) : loc := default (length h) (dp_audit deps).
Definition base_of (deps : AuthServerDeps) (h : Heap) : Heap :=
  match dp_audit deps with Some _ => h | None => h ++ [OAuditLogService [PostgresSink (dp_db deps)]] end.

Lemma bind_same {A B} (p p' : H A) (f : A → H B) s s' : p s = p' s' → (p ≫= f) s = (p' ≫= f) s'.
Proof. unfold mbind, heap_bind. by intros ->. Qed.

Lemma default_audit db redis kms email h rs :
  buildServices (mkDeps db redis kms email None) (mkAssembly h rs)
  = buildServices (mkDeps db redis kms email (Some (length h)))
      (mkAssembly (h ++ [OAuditLogService [PostgresSink db]]) rs).
Proof. reflexivity. Qed.

Lemma assembled deps h :
  let h1 := base_of deps h in
  (assembleAuthServer deps (mkAssembly h [])).2
    = mkAssembly (h1 ++ built deps (audit_of deps h) (length h1)) (mounted deps (audit_of deps h) (length h1)).
Proof.
  destruct deps as [db redis kms email [audit|]]; cbn [base_of audit_of dp_audit default].
  - apply (assembled_with db redis kms email audit).
  - etrans; [|exact (assembled_with db redis kms email (length h) (h ++ [OAuditLogService [PostgresSink db]]))].
    exact (f_equal snd (bind_same _ _ installRoutes _ _ (default_audit db redis kms email h []))).
Qed.

(** ** What the routers reach *)

Definition given (deps : AuthServerDeps) (what : Supply) : loc :=
  match what with
  | SDatabase => dp_db deps | SRedis => dp_redis deps | SKms => dp_kms deps | SEmail => dp_email deps
  end.

(** What is supplied is on the heap; an audit service of the caller writes to
    the database of the caller. *)
Record supplied (deps : AuthServerDeps) (h : Heap) : Prop := {
  su_given : ∀ what, h !! given deps what = Some (OSupplied what);
  su_audit : ∀ a, dp_audit deps = Some a →
    ∃ sinks, h !! a = Some (OAuditLogService sinks) ∧ Forall (λ s, sink_refs s = dp_db deps) sinks;
}.

(** The parts of the server. *)
Inductive part (deps : AuthServerDeps) (h : Heap) : loc → Prop :=
  | part_given what : part deps h (given deps what)
  | part_audit : part deps h (audit_of deps h)
  | part_built i : (i < 17)%nat → part deps h (length (base_of deps h) + i).

(** What is right of a part: the object supplied for its purpose, and one token
    service with the configured options, the keys and a denylist in the Redis
    of the caller. *)
Definition jwt_of (deps : AuthServerDeps) (h : Heap) : loc := (length (base_of deps h) + 3)%nat.

Definition right_part (deps : AuthServerDeps) (h final : Heap) (l : loc) (o : Object) : Prop :=
  match o with
  | OSupplied what => l = given deps what
  | OJwtService kms options checker =>
      l = jwt_of deps h ∧ kms = dp_kms deps ∧ options = app_jwt_options ∧
      ∃ t, checker = Some t ∧ final !! t = Some (OTokenRevocationService (dp_redis deps))
  | ORemoteTokenVerifier _ => False
  | _ => True
  end.

Notation final_heap deps h := (as_heap (assembleAuthServer deps (mkAssembly h [])).2).

Lemma final_lookup_old deps h l o : h !! l = Some o → final_heap deps h !! l = Some o.
Proof.
  intros Hl. rewrite assembled. cbn [as_heap]. apply lookup_app_l_Some.
  unfold base_of. destruct (dp_audit deps); [done|]. by apply lookup_app_l_Some.
Qed.

Lemma final_lookup_built deps h i :
  final_heap deps h !! (length (base_of deps h) + i)%nat = built deps (audit_of deps h) (length (base_of deps h)) !! i.
Proof. rewrite assembled. cbn [as_heap]. rewrite lookup_app_r by lia. f_equal. lia. Qed.

Ltac a_part :=
  lazymatch goal with
  | |- part _ _ (audit_of _ _) => apply part_audit
  | |- part _ _ (dp_db ?d) => apply (part_given d _ SDatabase)
  | |- part _ _ (dp_redis ?d) => apply (part_given d _ SRedis)
  | |- part _ _ (dp_kms ?d) => apply (part_given d _ SKms)
  | |- part _ _ (dp_email ?d) => apply (part_given d _ SEmail)
  | |- part _ _ (_ + _)%nat => apply part_built; lia
  | |- part ?d ?h (length (base_of ?d ?h)) =>
      rewrite <- (Nat.add_0_r (length (base_of d h))); apply part_built; lia
  end.

Lemma part_lookup deps h l :
  supplied deps h → part deps h l →
  ∃ o, final_heap deps h !! l = Some o ∧ Forall (part deps h) (refs o) ∧ right_part deps h (final_heap deps h) l o.
Proof.
  intros Hs [what| |i Hi].
  - exists (OSupplied what). split; [|by split]. apply final_lookup_old, Hs.
  - unfold audit_of. destruct (dp_audit deps) as [a|] eqn:Ha; cbn [default].
    + destruct (su_audit _ _ Hs a Ha) as (sinks & Hl & Hsinks). exists (OAuditLogService sinks).
      split; [by apply final_lookup_old|]. split; [|done]. apply Forall_fmap.
      eapply Forall_impl; [exact Hsinks|]. intros s Hdb. unfold compose. rewrite Hdb. a_part.
    + exists (OAuditLogService [PostgresSink (dp_db deps)]). split.
      * rewrite assembled. cbn [as_heap]. apply lookup_app_l_Some. unfold base_of. rewrite Ha.
        by apply list_lookup_middle.
      * split; [|done]. constructor; [cbn; a_part|constructor].
  - rewrite final_lookup_built. set (k := length (base_of deps h)).
    assert (Hjwt : right_part deps h (final_heap deps h) (k + 3)
      (OJwtService (dp_kms deps) app_jwt_options (Some (k + 13)%nat))).
    { split_and!; [done..|]. eexists. split; [done|]. subst k. by rewrite final_lookup_built. }
    do 17 (destruct i as [|i];
      [eexists; split; [reflexivity|];
       (split; [subst k; cbn; rewrite ?Forall_cons, Forall_nil; split_and?; try exact I; a_part|first [exact I|exact Hjwt]])|]).
    lia.
Qed.

Lemma reachable_part deps h l0 l :
  supplied deps h → rtc (points (final_heap deps h)) l0 l → part deps h l0 → part deps h l.
Proof.
  intros Hs. induction 1 as [|l0 l1 l2 (o & Ho & Hin) _ IH]; [done|]. intros Hp. apply IH.
  destruct (part_lookup deps h l0 Hs Hp) as (o' & Ho' & Hrefs & _). rewrite Ho in Ho'. injection Ho' as <-.
  rewrite Forall_forall in Hrefs. by apply Hrefs.
Qed.

Lemma routers_parts deps h p r :
  (p, r) ∈ as_routers (assembleAuthServer deps (mkAssembly h [])).2 →
  Forall (part deps h) (closure r) ∧ ∀ l, authenticates_with r = Some l → l = jwt_of deps h.
Proof.
  rewrite assembled. cbn [as_routers]. unfold mounted, jwt_of. rewrite !elem_of_cons, elem_of_nil. intros Hr.
  repeat (destruct Hr as [[= -> ->]|Hr];
    [split; [cbn; rewrite ?Forall_cons, Forall_nil; split_and?; try exact I; a_part|by intros l [= <-]]|]). done.
Qed.

(** ** What the wiring means *)

Context `{K : KeyManagementService, J : Jose, R : RiskEngine, U : UrlApi, Z0 : Zod, W : Jwk, X : Express}.

Definition checker_at (h : Heap) (checker : option loc) : option (string → M bool) :=
  match checker with
  | Some t =>
      match h !! t with
      | Some (OTokenRevocationService _) => Some TokenRevocationService.isRevoked
      | _ => None
      end
  | None => None
  end.

(** [jwtService.verifyAccessToken(token)] of the object at [jwt]. *)
Definition verify_at (h : Heap) (jwt : loc) (token : string) : M Claims :=
  match h !! jwt with
  | Some (OJwtService _ options checker) => JwtService.verifyAccessToken options (checker_at h checker) token
  | _ => Throw (ELib None None "not a JwtService")
  end.

(** The routes of a router. *)
Definition routes_of (db_ping redis_ping : M ()) (r : Router) : list (string * string * list RequestHandler) :=
  match r with
  | KeysRoutes _ => [("GET", "/.well-known/jwks.json", get_jwks)]
  | AuthRouter _ _ _ _ => authRoutes
  | MfaRouter _ _ _ _ => mfaRoutes
  | AdminRouter _ _ _ => admin_routes_of adminRoutes
  | ClientsRouter _ _ _ => admin_routes_of clientsRoutes
  | OAuthRouter _ _ _ _ _ => oauthRoutes
  | DiscoveryRoutes => [("GET", "/.well-known/openid-configuration", get_discovery)]
  | OidcRoutes _ _ => [("GET", "/userinfo", get_userinfo)]
  | DocsRoutes => []
  | HealthRouter _ _ _ =>
      [("GET", "/live", get_live); ("GET", "/ready", get_ready (readinessChecks db_ping redis_ping))]
  end.

(** C8: The parts of the authorization server belong together. Whatever a router
    reaches through the objects it holds exists; every database, Redis, key and
    mail service among them is the one the caller supplied; there is one token
    service, with the configured issuer, audience and life time, and although
    most routers got it before its revocation checker was set, each of them
    verifies a token as the guards of this library do, against the denylist in
    that Redis. The routers, in the order they are mounted, are the server the
    other theorems are about. *)
Theorem auth_server_wired (deps : AuthServerDeps) (h : Heap) (db_ping redis_ping : M ()) :
  supplied deps h →
  let a := (assembleAuthServer deps (mkAssembly h [])).2 in
  (∀ p r l0 l, (p, r) ∈ as_routers a → l0 ∈ closure r → rtc (points (as_heap a)) l0 l →
     ∃ o, as_heap a !! l = Some o ∧ right_part deps h (as_heap a) l o) ∧
  (∀ p r jwt token, (p, r) ∈ as_routers a → authenticates_with r = Some jwt →
     verify_at (as_heap a) jwt token = verify_token token) ∧
  as_routers a ≫= (λ pr, mount pr.1 (routes_of db_ping redis_ping pr.2)) = createAuthServer db_ping redis_ping.
Proof.
  intros Hs a. split; [|split].
  - intros p r l0 l Hr Hl0 Hreach. destruct (routers_parts deps h p r Hr) as [Hparts _].
    rewrite Forall_forall in Hparts.
    destruct (part_lookup deps h l Hs) as (o & Ho & _ & Hright); [|by exists o].
    eapply reachable_part; [done|exact Hreach|by apply Hparts].
  - intros p r jwt token Hr Hauth. destruct (routers_parts deps h p r Hr) as [_ Hjwt]. rewrite (Hjwt _ Hauth).
    destruct (part_lookup deps h (jwt_of deps h) Hs) as (o & Ho & _ & Hright); [apply part_built; lia|].
    subst a. unfold jwt_of, verify_at in *. rewrite final_lookup_built in Ho |- *. cbn in Ho |- *.
    injection Ho as <-. destruct Hright as (_ & _ & _ & t & [= <-] & Ht). unfold checker_at. by rewrite Ht.
  - subst a. rewrite assembled. reflexivity.
Qed.

(** The verifier of the gateway has a denylist in the gateway's Redis. *)
Lemma gateway_wired (redis : loc) (h : Heap) (rs : list (string * Router)) :
  let '(verifier, a) := assembleGateway redis (mkAssembly h rs) in
  ∃ t, as_heap a !! verifier = Some (ORemoteTokenVerifier (Some t)) ∧
    as_heap a !! t = Some (OTokenRevocationService redis).
Proof.
  destruct (assembleGateway redis (mkAssembly h rs)) as [verifier a] eqn:E. revert E.
  rewrite <- (app_nil_r h) at 1. unfold assembleGateway, mbind, heap_bind, mret, heap_ret. construct.
  rewrite checker_set_at. cbn [alter list_alter with_checker]. intros [= <- <-]. exists (length h + 1)%nat.
  cbn [as_heap]. rewrite !lookup_app_r by lia.
  rewrite Nat.add_0_r, Nat.sub_diag. by replace (length h + 1 - length h)%nat with 1%nat by lia.
Qed.
End factory.
