(* ===== verification/Site.v ===== *)
(** src/apps/frontend/server.ts: the server of the page, and the configuration
    script by which it tells the page (src/apps/frontend/client/config.ts)
    where the services are. *)
From S2P Require Import Prelude JsString Numbers Encoding Errors Store Http Config Client App.
From stdpp Require Import base gmap strings list.
From Stdlib Require Import ZArith NArith Ascii Lia.
Local Open Scope string_scope.
Local Open Scope list_scope.
Local Open Scope Z_scope.

(** * String literals *)

Definition quote : ascii := "034".
Definition backslash : ascii := "092".

Definition lower_hex (n : N) : ascii := if (n <? 10)%N then ascii_of_N (n + 48) else ascii_of_N (n + 87).

(** The characters with an escape of their own: the letter after the
    backslash. *)
Definition escapes : list (ascii * ascii) :=
  [(quote, quote); (backslash, backslash); ("008", "b"); ("009", "t"); ("010", "n"); ("012", "f");
   ("013", "r")]%char.

Definition escape_of (c : ascii) : option ascii := snd <$> sql_first (λ p, p.1 = c) escapes.
Definition escaped_by (e : ascii) : option ascii := fst <$> sql_first (λ p, p.2 = e) escapes.

(** [JSON.stringify(s)] between its quotes. *)
Fixpoint json_escape (s : string) : string :=
  match s with
  | EmptyString => EmptyString
  | String c rest =>
      match escape_of c with
      | Some e => String backslash (String e (json_escape rest))
      | None =>
          if (N_of_ascii c <? 32)%N then
            String backslash (String "u" (String "0" (String "0"
              (String (lower_hex (N_of_ascii c / 16)) (String (lower_hex (N_of_ascii c mod 16)) (json_escape rest))))))
          else String c (json_escape rest)
      end
  end.

Definition json_string (s : string) : string := String quote (json_escape s +:+ String quote EmptyString).

(** A string literal of the language, from behind its opening quote: its value
    and the text behind the closing quote. A line end inside is an error; the
    escapes read are those of a JSON text, for code units below 256. *)
Fixpoint string_literal (s : string) : option (string * string) :=
  match s with
  | EmptyString => None
  | String c rest =>
      if Ascii.eqb c quote then Some ("", rest)
      else if Ascii.eqb c backslash then
        match rest with
        | String "u" (String "0" (String "0" (String a (String b rest')))) =>
            match hex_val a, hex_val b, string_literal rest' with
            | Some x, Some y, Some (v, after) => Some (String (ascii_of_N (16 * x + y)) v, after)
            | _, _, _ => None
            end
        | String e rest' =>
            match escaped_by e, string_literal rest' with
            | Some x, Some (v, after) => Some (String x v, after)
            | _, _ => None
            end
        | EmptyString => None
        end
      else if Ascii.eqb c "010" || Ascii.eqb c "013" then None
      else match string_literal rest with Some (v, after) => Some (String c v, after) | None => None end
  end.

Lemma lower_hex_val n : (n < 16)%N → hex_val (lower_hex n) = Some n.
Proof.
  intros Hn. assert (Hall : forallb (λ n, bool_decide (hex_val (lower_hex (N.of_nat n)) = Some (N.of_nat n)))
    (seq 0 16) = true) by by vm_compute.
  rewrite forallb_forall in Hall. specialize (Hall (N.to_nat n)). rewrite N2Nat.id in Hall.
  apply bool_decide_eq_true in Hall; [done|]. apply in_seq. lia.
Qed.

(** An escape is read back, and its letter is not the one of a code. *)
Lemma escape_read c e : escape_of c = Some e → escaped_by e = Some c ∧ e ≠ "u"%char.
Proof. destruct c as [[] [] [] [] [] [] [] []]; intros H; try discriminate H; injection H as <-; done. Qed.

Lemma escape_plain c :
  escape_of c = None → (N_of_ascii c <? 32)%N = false →
  Ascii.eqb c quote = false ∧ Ascii.eqb c backslash = false ∧ Ascii.eqb c "010" || Ascii.eqb c "013" = false.
Proof.
  intros H1 H2.
  assert (H : bool_decide (escape_of c = None ∧ (N_of_ascii c <? 32)%N = false →
    Ascii.eqb c quote = false ∧ Ascii.eqb c backslash = false ∧ Ascii.eqb c "010" || Ascii.eqb c "013" = false) = true).
  { clear H1 H2. revert c. apply ascii_forall. vm_compute. reflexivity. }
  apply bool_decide_eq_true in H. by apply H.
Qed.

Lemma string_literal_escape e rest' :
  e ≠ "u"%char →
  string_literal (String backslash (String e rest')) =
    match escaped_by e, string_literal rest' with
    | Some x, Some (v, after) => Some (String x v, after)
    | _, _ => None
    end.
Proof. intros He. destruct e as [[] [] [] [] [] [] [] []]; reflexivity || done. Qed.

(** Whatever the string, its literal ends where it was written to end. *)
Lemma string_literal_json s rest : string_literal (json_escape s +:+ String quote rest) = Some (s, rest).
Proof.
  induction s as [|c s IH]; [reflexivity|]. cbn [json_escape].
  destruct (escape_of c) as [e|] eqn:He.
  - apply escape_read in He as [Hc He]. rewrite !string_app_cons.
    rewrite string_literal_escape by done. by rewrite Hc, IH.
  - destruct (N_of_ascii c <? 32)%N eqn:Hc.
    + apply N.ltb_lt in Hc. rewrite !string_app_cons.
      change (string_literal (String backslash (String "u" (String "0" (String "0"
        (String (lower_hex (N_of_ascii c / 16)) (String (lower_hex (N_of_ascii c mod 16))
          (json_escape s +:+ String quote rest))))))) = Some (String c s, rest)).
      cbn [string_literal]. change (Ascii.eqb backslash quote) with false.
      change (Ascii.eqb backslash backslash) with true. cbv iota.
      rewrite !lower_hex_val, IH.
      * do 2 f_equal. rewrite <- (ascii_N_embedding c) at 3. do 2 f_equal.
        symmetry. apply N.div_mod'.
      * by apply N.mod_lt.
      * apply N.Div0.div_lt_upper_bound; lia.
    + destruct (escape_plain c He Hc) as (Hq & Hb & Hn). rewrite string_app_cons. cbn [string_literal].
      by rewrite Hq, Hb, Hn, IH.
Qed.

(** * The configuration script *)

(** The body of GET /config.js. [package_version] is the environment's
    npm_package_version. *)
Definition config_js (c : LoadedConfig) (package_version : option string) : string :=
  js_join nl
    ["window.__APP_CONFIG__ = {";
     "  authBase: " +:+ json_string (text (lc_settings c) "PUBLIC_AUTH_BASE") +:+ ",";
     "  apiBase: " +:+ json_string (text (lc_settings c) "PUBLIC_API_BASE") +:+ ",";
     "  version: " +:+ json_string (default "dev" package_version) +:+ ",";
     "};"].

(** How a page evaluates such a script: one assignment of an object literal
    whose properties are string literals, and nothing else. *)
Definition expect (word s : string) : option string :=
  if starts_with s word then Some (slice_from (String.length word) s) else None.

Definition property_at (s : string) : option (string * string * string) :=
  '(name, after) ← split_first ":" (trim_start s);
  body ← expect (String quote EmptyString) (trim_start after);
  '(v, rest) ← string_literal body;
  rest ← expect "," (trim_start rest);
  if all_chars is_word name then Some (name, v, rest) else None.

(** Each property takes at least three characters, so the length of the text
    is enough fuel. *)
Fixpoint properties (fuel : nat) (s : string) : option (list (string * string)) :=
  if bool_decide (js_trim s = "};") then Some []
  else
    match fuel with
    | O => None
    | S fuel =>
        '(name, v, rest) ← property_at s;
        ps ← properties fuel rest;
        Some ((name, v) :: ps)
    end.

(** The properties of [window.__APP_CONFIG__] after the script. *)
Definition run_config_script (script : string) : option (list (string * string)) :=
  body ← expect "window.__APP_CONFIG__ = {" script;
  properties (String.length script) body.

Definition raw_config (ps : list (string * string)) : RawConfig :=
  let get k := snd <$> sql_first (λ p, p.1 = k) ps in
  mkRawConfig (get "authBase") (get "apiBase") (get "version").

Lemma expect_app word s : expect word (word +:+ s) = Some s.
Proof. unfold expect. by rewrite starts_with_app, slice_from_app. Qed.

Lemma word_not_space c : is_word c = true → is_space c = false.
Proof.
  assert (H : implb (is_word c) (negb (is_space c)) = true).
  { revert c. by apply ascii_forall. }
  by destruct (is_word c), (is_space c).
Qed.

(** A line of the script is one property, whatever its value. *)
Lemma property_line name v rest :
  all_chars is_word name = true → name ≠ "" →
  property_at (nl +:+ "  " +:+ name +:+ ": " +:+ json_string v +:+ "," +:+ rest) = Some (name, v, rest).
Proof.
  intros Hw Hne. unfold property_at.
  assert (trim_start (nl +:+ "  " +:+ name +:+ ": " +:+ json_string v +:+ "," +:+ rest)
    = name +:+ String ":" (" " +:+ json_string v +:+ "," +:+ rest)) as ->.
  { destruct name as [|c name]; [done|]. simpl in Hw. apply andb_prop in Hw as [Hc _].
    pose proof (word_not_space c Hc) as Hs.
    change (trim_start (String c (name +:+ ": " +:+ json_string v +:+ "," +:+ rest))
      = String c (name +:+ String ":" (" " +:+ json_string v +:+ "," +:+ rest))).
    cbn [trim_start]. by rewrite Hs. }
  rewrite split_first_app.
  2: { clear -Hw. induction name as [|c name IH]; [done|]. simpl in *. apply andb_prop in Hw as [Hc Hw].
       rewrite (IH Hw), andb_true_r. revert Hc. clear. by destruct c as [[] [] [] [] [] [] [] []]. }
  unfold json_string. cbn [mbind option_bind].
  change (trim_start (" " +:+ String quote (json_escape v +:+ String quote EmptyString) +:+ "," +:+ rest))
    with (String quote EmptyString +:+ ((json_escape v +:+ String quote EmptyString) +:+ "," +:+ rest)).
  rewrite string_assoc.
  change (String quote EmptyString +:+ "," +:+ rest) with (String quote ("," +:+ rest)).
  rewrite expect_app. simpl. rewrite string_literal_json. simpl.
  rewrite (expect_app "," rest : expect "," (String "," ("" +:+ rest)) = _). simpl. by rewrite Hw.
Qed.

Lemma properties_cons fuel name v rest :
  all_chars is_word name = true → name ≠ "" →
  properties (S fuel) (nl +:+ "  " +:+ name +:+ ": " +:+ json_string v +:+ "," +:+ rest)
    = ps ← properties fuel rest; Some ((name, v) :: ps).
Proof.
  intros Hw Hne. cbn [properties]. rewrite bool_decide_eq_false_2.
  { by rewrite property_line. }
  intros H. unfold js_trim in H.
  (* the trimmed text starts with the name *)
  destruct name as [|c name]; [done|]. simpl in Hw. apply andb_prop in Hw as [Hc _].
  pose proof (word_not_space c Hc) as Hs.
  change (trim_end (trim_start (String c (name +:+ ": " +:+ json_string v +:+ "," +:+ rest))) = "};") in H.
  cbn [trim_start] in H. rewrite Hs in H. cbn [trim_end] in H. rewrite Hs in H.
  destruct (trim_end _); injection H as -> _; discriminate Hc.
Qed.

(** C40: Whatever the two bases and the version are, quotes, backslashes and
    control characters included, the script defines exactly the three
    properties with those values, and the client that reads it has the bases
    without their trailing slashes. *)
Theorem config_script_roundtrip (c : LoadedConfig) (package_version : option string) :
  ∃ ps, run_config_script (config_js c package_version) = Some ps ∧ ps.*1 = ["authBase"; "apiBase"; "version"] ∧
    readConfig (Some (raw_config ps)) =
      mkClientConfig (strip_slashes (text (lc_settings c) "PUBLIC_AUTH_BASE"))
        (strip_slashes (text (lc_settings c) "PUBLIC_API_BASE")) (default "dev" package_version).
Proof.
  set (a := text (lc_settings c) "PUBLIC_AUTH_BASE"). set (b := text (lc_settings c) "PUBLIC_API_BASE").
  set (v := default "dev" package_version).
  exists [("authBase", a); ("apiBase", b); ("version", v)]. split; [|done].
  assert (config_js c package_version = "window.__APP_CONFIG__ = {" +:+
    (nl +:+ "  " +:+ "authBase" +:+ ": " +:+ json_string a +:+ "," +:+
    (nl +:+ "  " +:+ "apiBase" +:+ ": " +:+ json_string b +:+ "," +:+
    (nl +:+ "  " +:+ "version" +:+ ": " +:+ json_string v +:+ "," +:+ (nl +:+ "};"))))) as Hjs.
  { unfold config_js, js_join. fold a b v. cbn [String.concat]. rewrite !string_assoc. reflexivity. }
  rewrite Hjs. unfold run_config_script. rewrite expect_app. cbn [mbind option_bind].
  change (String.length ("window.__APP_CONFIG__ = {" +:+ ?s))
    with (S (S (S (String.length ("dow.__APP_CONFIG__ = {" +:+ s))))).
  rewrite !properties_cons by done. by destruct (String.length _).
Qed.

(** * The server *)

(** The options of [express.static]. *)
Record StaticOptions : Type := mkStatic {
  so_directory : string;
  so_index : option string;
  so_immutable : bool;
  so_maxAge : option string;
  so_headers : list (string * string);
}.

(** [express.static], [sendFile] and the mounting of a handler: the file a
    path leads to, with the headers it is sent with. A file found carries the
    headers of [setHeaders]. *)
Class StaticFiles : Type := {
  static_file : StaticOptions → string → option (list (string * string) * string);
  send_file : string → option (list (string * string) * string);
  under : string → string → option string;
}.

Class StaticLaws (S : StaticFiles) : Prop := {
  static_headers : ∀ o path hs content, static_file o path = Some (hs, content) → so_headers o ⊆ hs;
}.

Inductive SiteBody : Type :=
  | SiteJson (v : json)
  | SiteText (content_type text : string)
  | SiteFile (content : string).

Record SiteResponse : Type := mkSite {
  site_status : Z; site_headers : list (string * string); site_body : SiteBody;
}.

(** There is no request identifier here: [request_id] is undefined and is left
    out of the JSON text. *)
Definition without_id (r : Response) : SiteResponse :=
  mkSite (status r) []
    (SiteJson match body r with
              | JObj fs => JObj (filter (λ f, f.1 ≠ "request_id") fs)
              | v => v
              end).

Definition get_or_head (method : string) : bool := includes ["GET"; "HEAD"] method.

Section site.
Context `{X : Express, S : StaticFiles}.
Context (c : LoadedConfig) (package_version : option string) (staticRoot : string).

Definition noStore : list (string * string) := [("Cache-Control", "no-store")].

Definition app_assets : StaticOptions := mkStatic (staticRoot +:+ "/app") None true (Some "1y") [].
Definition page_assets : StaticOptions := mkStatic staticRoot (Some "index.html") false None noStore.

(** What [next(err)] of a failed [sendFile] is answered. *)
Definition missing_shell : Err := ELib (Some 404) (Some "ENOENT") "no such file or directory".

Definition get_healthz : SiteResponse :=
  mkSite 200 [] (SiteJson (JObj [("status", JStr "ok"); ("service", JStr "frontend")])).
Definition get_config_js : SiteResponse :=
  mkSite 200 noStore (SiteText "application/javascript" (config_js c package_version)).

Definition fallback (method : string) : SiteResponse :=
  if get_or_head method then
    match send_file (staticRoot +:+ "/index.html") with
    | Some (hs, content) => mkSite 200 hs (SiteFile content)
    | None => without_id (errorHandler missing_shell "")
    end
  else without_id notFoundHandler.

Definition static_page (method path : string) : SiteResponse :=
  match (if get_or_head method then static_file page_assets path else None) with
  | Some (hs, content) => mkSite 200 hs (SiteFile content)
  | None => fallback method
  end.

Definition createFrontendApp (method path : string) : SiteResponse :=
  if get_or_head method && bool_decide (is_Some (path_match "/healthz" path)) then get_healthz
  else if get_or_head method && bool_decide (is_Some (path_match "/config.js" path)) then get_config_js
  else
    match (if get_or_head method then rest ← under "/app" path; static_file app_assets rest else None) with
    | Some (hs, content) => mkSite 200 hs (SiteFile content)
    | None => static_page method path
    end.

(** The server of the page has an answer to every request: the probe and
    the configuration at their paths; otherwise the asset the path leads to,
    or else the shell of the application, so that a deep link works; a method
    other than GET and HEAD is answered 404. Only what is under /app may be
    kept by a cache of the program's making: the configuration and the files
    of the page carry no-store. *)
Theorem site_answers `{!ExpressLaws X, !StaticLaws S} (method path : string) :
  let r := createFrontendApp method path in
  (get_or_head method = false → r = without_id notFoundHandler) ∧
  (get_or_head method = true →
    (path = "/healthz" → r = get_healthz) ∧
    (path = "/config.js" → path_match "/healthz" path = None → r = get_config_js) ∧
    (∀ content, site_body r = SiteFile content →
      (∃ rest hs, under "/app" path = Some rest ∧ static_file app_assets rest = Some (hs, content)) ∨
      (∃ hs, static_file page_assets path = Some (hs, content) ∧ ("Cache-Control", "no-store") ∈ site_headers r) ∨
      (static_file page_assets path = None ∧ ∃ hs, send_file (staticRoot +:+ "/index.html") = Some (hs, content))) ∧
    (path_match "/healthz" path = None → path_match "/config.js" path = None → under "/app" path = None →
      static_file page_assets path = None → r = fallback method)).
Proof.
  cbv zeta. unfold createFrontendApp. split.
  { intros Hm. rewrite Hm. cbn [andb]. unfold static_page, fallback. by rewrite Hm. }
  intros Hm. rewrite Hm. cbn [andb]. split_and!.
  - intros ->. by rewrite path_match_self.
  - intros -> ->. rewrite bool_decide_eq_false_2 by (by intros []). by rewrite path_match_self.
  - intros content. case_bool_decide; [done|]. case_bool_decide; [done|].
    destruct (under "/app" path ≫= _) as [[hs file]|] eqn:Ha.
    + simpl. intros [= <-]. left. apply bind_Some in Ha as (rest & ? & ?). by exists rest, hs.
    + unfold static_page. rewrite Hm. destruct (static_file page_assets path) as [[hs file]|] eqn:Hp.
      * simpl. intros [= <-]. right. left. exists hs. split; [done|].
        apply (static_headers _ _ _ _ Hp). left.
      * unfold fallback. rewrite Hm. destruct (send_file _) as [[hs file]|] eqn:Hf; [|done].
        simpl. intros [= <-]. right. right. split; [done|]. by exists hs.
  - intros -> -> -> Hp. rewrite !bool_decide_eq_false_2 by (by intros []). simpl. unfold static_page.
    by rewrite Hm, Hp.
Qed.
End site.
