(* ===== verification/Deployment.v ===== *)
(** The browser in front of the services: one host that routes /api/v1 to the
    gateway and everything else to the authorization server, as the empty base
    URLs of the frontend ask for (src/apps/frontend/server.ts), and what the
    client of src/apps/frontend/client/api.ts does with it. *)
From S2P Require Import Prelude Async JsString Errors Store Evolution Toy Redis RateLimit Http AuditLog RefreshTokens Sessions Users Keys Jwt Guards Mfa Risk AuthService Recovery AuthRoutes OAuth OAuthRoutes Gateway Resource Edge App Client.
From stdpp Require Import base gmap strings list relations.
From Stdlib Require Import ZArith Ascii.
Local Open Scope string_scope.
Local Open Scope list_scope.
Local Open Scope Z_scope.

(** * The services behind the host *)

Section deployment.
Context `{P : Platform, K : KeyManagementService, J : Jose, R : RiskEngine, U : UrlApi, Z0 : Zod, W : Jwk, X : Express, Q : RemoteJose, MW : Middlewares}.
Context (db_ping redis_ping : M ()).
(** The address of the browser, as the services see it. *)
Context (ip : option string).

(** A request of the browser on arrival. *)
Definition http_request (q : FetchRequest) : HttpRequest :=
  mkRequest (match fq_bearer q with
             | Some t => <["authorization" := "Bearer " +:+ t]> ∅
             | None => ∅
             end)
    ip (JObj []) (JObj []) (default (JObj []) (fq_body q)) "" None None [].

Definition resource_server (method path : string) (rq : HttpRequest) : M (list (string * string) * Response) :=
  answer (security (mkCors (CORS_ORIGINS_LIST cfg) None) method
    :: resource_api [dispatch (mount "/api/v1" documentsRoutes) method path]) rq.

(** The requests of /api/v1. *)
Definition gateway_server (method path : string) (rq : HttpRequest) : M (list (string * string) * Response) :=
  answer (security cors_options method :: gateway_api (resource_server method path)) rq.

(** The answer on arrival; a rejected computation never answers. *)
Definition delivered (out : outcome Err (list (string * string) * Response) * World)
    : outcome JsErr FetchResponse * World :=
  match out with
  | (Resolved r, w) =>
      (Resolved (mkFetched (status r.2) (if bool_decide (status r.2 = 204) then BEmpty else BJson (body r.2))), w)
  | (Rejected _, w) => (Rejected NetworkError, w)
  end.

Definition backend (q : FetchRequest) (w : World) : outcome JsErr FetchResponse * World :=
  delivered (run (if starts_with (fq_url q) "/api/v1"
                  then gateway_server (fq_method q) (fq_url q) (http_request q)
                  else auth_server db_ping redis_ping (fq_method q) (fq_url q) (http_request q)) w).

(** * Dispatch to a route without parameters *)

Context `{XL : !ExpressLaws X, ML : !MiddlewaresLaws MW}.

Lemma no_match p q :
  literal p = true → bool_decide (to_lower q = to_lower p ∨ to_lower q = to_lower p +:+ "/") = false →
  path_match p q = None.
Proof.
  intros Hl Hb. apply bool_decide_eq_false in Hb.
  destruct (path_match p q) eqn:E; [|done]. destruct Hb. apply path_match_literal; [done|by rewrite E].
Qed.

Lemma dispatch_skip r routes method path rq :
  serves r method = false ∨ path_match (rt_pattern r) path = None →
  dispatch (r :: routes) method path rq = dispatch routes method path rq.
Proof. cbn [dispatch]. intros [->| ->]; [done|]. by destruct (serves _ _). Qed.

Lemma dispatch_hit r routes rq w h w' :
  literal (rt_pattern r) = true →
  run (chain (rt_handlers r) (rq <| rq_params := JObj [] |>)) w = (Resolved h, w') →
  match h with Next _ => False | _ => True end →
  run (dispatch (r :: routes) (rt_method r) (rt_pattern r) rq) w = (Resolved h, w').
Proof.
  intros Hl Hrun Hh. cbn [dispatch]. unfold serves.
  rewrite (bool_decide_eq_true_2 (rt_method r = rt_method r)), path_match_self by done. cbn [orb].
  rewrite (run_bind_eq _ _ _ _ _ Hrun). by destruct h.
Qed.

Ltac skip_route :=
  rewrite dispatch_skip by
    (first [left; reflexivity | right; apply no_match; [reflexivity|vm_compute; reflexivity]]).

Lemma dispatch_refresh rq w h w' :
  run (chain post_refresh (rq <| rq_params := JObj [] |>)) w = (Resolved h, w') →
  match h with Next _ => False | _ => True end →
  run (dispatch (createAuthServer db_ping redis_ping) "POST" "/auth/refresh" rq) w = (Resolved h, w').
Proof.
  intros Hrun Hh. unfold createAuthServer, mount, authRoutes. cbn [fmap list_fmap app fst snd].
  do 4 skip_route. by apply (dispatch_hit (mkRoute "POST" "/auth/refresh" post_refresh)).
Qed.

Lemma dispatch_me rq w h w' :
  run (chain AuthRoutes.get_me (rq <| rq_params := JObj [] |>)) w = (Resolved h, w') →
  match h with Next _ => False | _ => True end →
  run (dispatch (createAuthServer db_ping redis_ping) "GET" "/auth/me" rq) w = (Resolved h, w').
Proof.
  intros Hrun Hh. unfold createAuthServer, mount, authRoutes. cbn [fmap list_fmap app fst snd].
  do 8 skip_route. by apply (dispatch_hit (mkRoute "GET" "/auth/me" AuthRoutes.get_me)).
Qed.

(** * One request *)

(** A request of the browser carries no identifier: the server draws one. *)
Definition identified (w : World) (rq : HttpRequest) : HttpRequest :=
  set_header "X-Request-ID" (random_uuid (w_draws w)) (rq <| rq_requestId := random_uuid (w_draws w) |>).
Definition drawn (w : World) : World := w <| w_draws ::= N.succ |>.

Lemma run_identify rq w :
  header rq "x-request-id" = None →
  run (requestIdMiddleware "x-request-id" rq) w = (Resolved (Next (identified w rq)), drawn w).
Proof. intros Hh. unfold requestIdMiddleware. by rewrite Hh. Qed.

Lemma no_request_id q : header (http_request q) "x-request-id" = None.
Proof. unfold header, http_request. simpl. by destruct (fq_bearer q). Qed.

(** A request other than OPTIONS passes the first middlewares of a server, with
    some headers set on its answer. *)
Lemma enter_server o method hs q w :
  method ≠ "OPTIONS" → ∃ safety, ∀ h w',
    run (chain hs (identified w (with_headers (http_request q) safety))) (drawn w) = (Resolved h, w') →
    run (answer (security o method :: requestIdMiddleware "x-request-id" :: hs) (http_request q)) w
      = (Resolved (finalize h), w').
Proof.
  intros Hm. destruct (run_security o method (http_request q) w) as (safety & _ & Hs).
  rewrite bool_decide_eq_false_2 in Hs by done. exists safety. intros h w' Hd. unfold answer.
  rewrite (run_bind_eq _ _ _ h w'); [done|]. rewrite (run_chain_cons _ _ _ _ _ _ Hs).
  by rewrite (run_chain_cons _ _ _ _ _ _ (run_identify (with_headers (http_request q) safety) w (no_request_id q))).
Qed.

Lemma enter_auth method path q w :
  method ≠ "OPTIONS" → ∃ safety, ∀ h w',
    run (dispatch (createAuthServer db_ping redis_ping) method path
           (identified w (with_headers (http_request q) safety))) (drawn w) = (Resolved h, w') →
    run (auth_server db_ping redis_ping method path (http_request q)) w = (Resolved (finalize h), w').
Proof.
  intros Hm. unfold auth_server. generalize (dispatch (createAuthServer db_ping redis_ping) method path). intros d.
  destruct (enter_server cors_options method [d] q w Hm) as [safety He]. exists safety.
  intros h w' Hd. apply He. rewrite (run_chain_cons _ _ _ _ _ _ Hd). by destruct h.
Qed.

(** An access token that neither the server nor the gateway accepts any
    more at the present time. *)
Definition access_refused (a : string) (w : World) : Prop :=
  ∀ w', w_now w' = w_now w →
    is_resolved (run (verify_token a) w').1 = false ∧
    is_resolved (run (RemoteTokenVerifier.verify (js_trim a)) w').1 = false.

Context `{KL : !KmsLaws K, JL : !JoseLaws J keypair, QL : !RemoteLaws J Q keypair}.

Definition me_request (a : option string) : FetchRequest := mkFetch "/auth/me" "GET" a None.
Definition gateway_me_request (a : string) : FetchRequest := mkFetch "/api/v1/me" "GET" (Some a) None.

Lemma bearer_request q a : fq_bearer q = Some a → bearer (http_request q) = Some a.
Proof.
  intros Hb. unfold bearer, header, http_request. rewrite Hb. cbn [rq_headers]. rewrite lookup_insert_eq.
  rewrite (starts_with_app "Bearer " a). done.
Qed.

(** Without a token, or with a refused one, the profile is a 401. *)
Lemma refused_me a w :
  match a with Some a => access_refused a w | None => True end →
  ∃ res, backend (me_request a) w = (Resolved res, drawn w) ∧ fs_status res = 401.
Proof.
  intros Href. destruct (enter_auth "GET" "/auth/me" (me_request a) w) as [safety He]; [done|].
  set (rq := identified w (with_headers (http_request (me_request a)) safety) <| rq_params := JObj [] |>).
  assert (Hb : bearer rq = a) by (destruct a as [a|]; [by apply (bearer_request (me_request (Some a)))|done]).
  assert (∃ e, run (authenticate rq) (drawn w) = (Resolved (NextErr rq e), drawn w) ∧
    ∀ id, status (errorHandler e id) = 401) as (e & Hr & Hst).
  { destruct (run_authenticate rq (drawn w)) as [(t & c & Ht & Hv & _)|(e & Hr & _ & Hv)].
    - rewrite Hb in Ht. rewrite Ht in Href. destruct (Href (drawn w) eq_refl) as [Hno _]. by rewrite Hv in Hno.
    - exists e. split; [done|]. destruct a as [a|].
      + by destruct (verify_token_rejects a (drawn w) e (drawn w) (Hv a Hb)) as (msg & code & ->).
      + clear Hv. unfold authenticate in Hr. rewrite Hb in Hr. by injection Hr as <-. }
  assert (Hchain : run (chain AuthRoutes.get_me rq) (drawn w) = (Resolved (NextErr rq e), drawn w)).
  { unfold AuthRoutes.get_me. by rewrite (run_chain_cons _ _ _ _ _ _ Hr). }
  eexists. split.
  - unfold backend. cbn [fq_url fq_method me_request].
    change (starts_with "/auth/me" "/api/v1") with false. cbv beta iota.
    rewrite (He _ _ (dispatch_me _ _ _ _ Hchain I)). reflexivity.
  - apply Hst.
Qed.

(** The state after a request that only draws an identifier and counts. *)
Definition counted (k : string) (w w' : World) : Prop := redis_at k (drawn w) w'.

Definition gw_limit : RateLimitOptions := mkRateLimit "gw" (RATE_LIMIT_API cfg) (RATE_LIMIT_WINDOW cfg).
Definition token_limit : RateLimitOptions := mkRateLimit "token" (RATE_LIMIT_TOKEN cfg) (RATE_LIMIT_WINDOW cfg).
Definition address : string := default "unknown" ip.

Lemma refused_gateway a n w :
  access_refused a w → 0 < RATE_LIMIT_WINDOW cfg → rl_used gw_limit address n w →
  n + 1 ≤ RATE_LIMIT_API cfg →
  ∃ res w', backend (gateway_me_request a) w = (Resolved res, w') ∧ fs_status res = 401 ∧
    counted (rl_key gw_limit address) w w'.
Proof.
  intros Href Hwin Hused Hlim.
  destruct (enter_server cors_options "GET" (tail (gateway_api (resource_server "GET" "/api/v1/me")))
    (gateway_me_request a) w) as [safety He]; [done|].
  set (rq1 := identified w (with_headers (http_request (gateway_me_request a)) safety)).
  destruct (run_ip_limit_below gw_limit rq1 n (drawn w)) as (sent & w2 & Hr2 & _ & Hat); [|done..|].
  { by apply (rl_used_stable _ _ _ w). }
  set (rq2 := rq1 <| rq_sent := sent |>).
  set (rq3 := rq2 <| rq_headers ::= λ hs, foldr delete hs PROTECTED_HEADERS |>).
  assert (Hr3 : run (strip_identity rq2) w2 = (Resolved (Next rq3), w2)) by done.
  assert (Hnow : w_now w2 = w_now w) by exact (f_equal (λ v, v.1.1.1.1.1.1) (proj1 Hat)).
  destruct (run_authenticateRemote rq3 w2) as [(t & c & Ht & Hv & _)|(e & Hr4 & Hst)].
  { assert (Hb : bearer rq3 = Some a).
    { transitivity (bearer (http_request (gateway_me_request a))); [|by apply bearer_request].
      unfold bearer, header. do 2 f_equal. }
    unfold bearerToken in Ht. rewrite Hb in Ht. destruct (Href w2 Hnow) as [_ Hno].
    assert (t = js_trim a) as -> by (revert Ht; destruct (js_trim a); [done|by intros [= <-]]). by rewrite Hv in Hno. }
  assert (Hchain : run (gateway_server "GET" "/api/v1/me" (http_request (gateway_me_request a))) w
      = (Resolved (finalize (NextErr rq3 e)), w2)).
  { apply He. cbn [gateway_api tail]. fold rq1.
    rewrite (run_chain_cons _ _ _ _ _ _ Hr2), (run_chain_cons _ _ _ _ _ _ Hr3).
    by rewrite (run_chain_cons _ _ _ _ _ _ Hr4). }
  eexists _, w2. split; [|split; [|exact Hat]].
  - unfold backend. cbn [fq_url fq_method gateway_me_request].
    change (starts_with "/api/v1/me" "/api/v1") with true. cbv beta iota. by rewrite Hchain.
  - cbn. apply Hst.
Qed.

(** The frontend's configuration in this deployment: empty base URLs. *)
Definition same_origin : ClientConfig := readConfig None.

Definition refresh_body (t : string) : json := JObj [("refresh_token", JStr t)].

(** The schema accepts a token that is long enough. *)
Context (zod_refresh : ∀ t, (32 ≤ String.length t)%nat →
  safeParse refreshSchema (refresh_body t) = inr (refresh_body t)).

(** A refresh request below the limit reaches the service. *)
Lemma backend_refresh t n w :
  (32 ≤ String.length t)%nat → 0 < RATE_LIMIT_WINDOW cfg → rl_used token_limit address n w →
  n + 1 ≤ RATE_LIMIT_TOKEN cfg →
  ∃ ctx id w1, counted (rl_key token_limit address) w w1 ∧ rl_used token_limit address (n + 1) w1 ∧
    backend (refresh_request same_origin t) w =
      match run (AuthService.refresh t ctx) w1 with
      | (Resolved r, w') => (Resolved (mkFetched 200 (BJson (refresh_json r))), w')
      | (Rejected e, w') => delivered (Resolved ([], errorHandler e id), w')
      end.
Proof.
  intros Hlen Hwin Hused Hlim.
  destruct (enter_auth "POST" "/auth/refresh" (refresh_request same_origin t) w) as [safety He]; [done|].
  set (rq1 := identified w (with_headers (http_request (refresh_request same_origin t)) safety) <| rq_params := JObj [] |>).
  assert (Hv : run (validate_body refreshSchema rq1) (drawn w) = (Resolved (Next rq1), drawn w)).
  { rewrite run_validate_body. change (rq_body rq1) with (refresh_body t). by rewrite zod_refresh. }
  destruct (run_ip_limit_below token_limit rq1 n (drawn w)) as (sent & w1 & Hr & Hu & Hat); [|done..|].
  { by apply (rl_used_stable _ _ _ w). }
  set (rq2 := rq1 <| rq_sent := sent |>).
  exists (requestContext rq2), (rq_requestId rq2), w1. split; [exact Hat|]. split; [exact Hu|].
  set (out := run (AuthService.refresh t (requestContext rq2)) w1).
  set (h := match out.1 with
            | Resolved r => Done rq2 (mkResponse 200 (refresh_json r))
            | Rejected e => NextErr rq2 e
            end).
  assert (Hchain : run (chain post_refresh rq1) (drawn w) = (Resolved h, out.2)).
  { unfold post_refresh. rewrite (run_chain_cons _ _ _ _ _ _ Hv).
    change (AuthRoutes.limit "token" (RATE_LIMIT_TOKEN cfg)) with (ip_limit token_limit).
    rewrite (run_chain_cons _ _ _ _ _ _ Hr). fold rq2. cbn [chain].
    rewrite run_bind, run_asyncHandler, run_bind. change (jstr (rq_body rq2) "refresh_token") with t.
    fold out. unfold h. by destruct out as [[e|r] w']. }
  unfold backend. cbn [fq_url fq_method refresh_request].
  change (starts_with (baseFor same_origin AuthApi +:+ "/auth/refresh") "/api/v1") with false. cbv beta iota.
  change (baseFor same_origin AuthApi +:+ "/auth/refresh") with "/auth/refresh".
  rewrite (He _ _ (dispatch_refresh _ _ _ _ Hchain ltac:(unfold h; by destruct out.1))).
  unfold h. by destruct out as [[e|r] w'].
Qed.

(** * A page with an expired access token *)

Context `{PL : !PlatformLaws P}.

(** The refresh token [t] of the page is live, in a well-formed state. *)
Record live_login (t : string) (r : RefreshTokenRow) (s : SessionRow) (w : World) : Prop := {
  ll_wf : rt_wf w;
  ll_row : r ∈ refresh_tokens (w_db w);
  ll_consumable : rt_consumable (rt_hash t) (w_now w) r;
  ll_session : s ∈ sessions (w_db w);
  ll_session_id : s_id s = rt_session_id r;
  ll_active : s_status s = SActive;
  ll_unique : sess_unique w;
  ll_cache : cache_ok w;
  ll_keys : kms_wf w;
}.

Lemma counted_same k w w' :
  counted k w w' → w_db w' = w_db w ∧ w_now w' = w_now w ∧ same_keys w w' ∧
  (w_draws w ≤ w_draws w')%N ∧ ∀ k', k' ≠ k → w_redis w' !! k' = w_redis w !! k'.
Proof.
  intros [Hn Hr]. unfold non_redis in Hn. injection Hn as Hnow Hdraws Hdb _ Hkeys _ Hfile.
  simpl in *. split_and!; [done|done|by split|lia|done].
Qed.

Lemma limit_key_not_session o id sid : rl_key o id ≠ session_key sid.
Proof. unfold rl_key, session_key, RedisService.key. simpl. discriminate. Qed.

Lemma rt_wf_counted k w w' : counted k w w' → rt_wf w → rt_wf w'.
Proof.
  intros (Hdb & _ & _ & Hdr & _)%counted_same [Hu Hd].
  split; [unfold rt_unique; by rewrite Hdb|]. rewrite Hdb.
  eapply Forall_impl; [exact Hd|]. intros x (n & Hn & Hx). exists n. split; [lia|done].
Qed.

Lemma live_login_counted t r s o id w w' :
  counted (rl_key o id) w w' → live_login t r s w → live_login t r s w'.
Proof.
  intros Hc []. pose proof (rt_wf_counted _ _ _ Hc ll_wf0).
  destruct (counted_same _ _ _ Hc) as (Hdb & Hnow & Hkeys & _ & Hred).
  split; rewrite ?Hdb, ?Hnow; try done.
  - unfold sess_unique. by rewrite Hdb.
  - intros sid e c He Hv. rewrite Hred in He by (intros E; by eapply limit_key_not_session).
    destruct (ll_cache0 sid e c He Hv) as [Hid Ho]. split; [done|]. unfold once_stored in *. by rewrite Hdb.
  - by apply (kms_wf_stable w).
Qed.

Lemma drawn_counted k w : counted k w (drawn w).
Proof. unfold counted. reflexivity. Qed.

(** A second refresh with the token that the first one rotated. *)
Lemma refused_refresh t r s m w w1 :
  live_login t r s w → rotated_state r s w w1 → (32 ≤ String.length t)%nat →
  0 < RATE_LIMIT_WINDOW cfg → rl_used token_limit address m w1 → m + 1 ≤ RATE_LIMIT_TOKEN cfg →
  ∃ res w2, backend (refresh_request same_origin t) w1 = (Resolved res, w2) ∧ fs_ok res = false ∧
    (∀ x, x ∈ sessions (w_db w2) → s_id x = s_id s → s_status x = SRevoked) ∧
    (∀ x, x ∈ refresh_tokens (w_db w2) → rt_family_id x = rt_family_id r → rt_status_ x = RRevoked).
Proof.
  intros Hl (Hu & Hrow & Hnow & _) Hlen Hwin Hused Hlim.
  destruct (backend_refresh t m w1 Hlen Hwin Hused Hlim) as (ctx & id & w2 & Hc & _ & Hb).
  destruct (counted_same _ _ _ Hc) as (Hdb & _).
  destruct (refresh_reuse_audited t ctx w2 (rt_rotate (w_now w) r)) as (msg & w3 & row & Hrun & _ & _ & Hs & Hf).
  - unfold rt_unique. by rewrite Hdb.
  - by rewrite Hdb.
  - apply (ll_consumable _ _ _ _ Hl).
  - by intros (_ & Ha & _).
  - rewrite Hrun in Hb. eexists _, w3. split; [exact Hb|]. split; [done|]. split; [|exact Hf].
    intros x Hx Hid. apply Hs; [done|]. rewrite Hid. apply (ll_session_id _ _ _ _ Hl).
Qed.

(** C6: Two requests can refresh against each other. The account page sends two
    requests at once. When its access token is refused, there is an order of
    their steps that ends in a sign-out: both are answered 401 and both read the
    same refresh token before either has exchanged it; the one that comes second
    presents a token that has just been rotated, which the server takes for
    theft: both calls fail, the session is revoked with every token of the
    family, and the page has thrown away the tokens the first one had
    obtained. *)
Theorem parallel_refresh_logs_out (a t : string) (r : RefreshTokenRow) (s : SessionRow) (n m : Z)
    (b : Browser World) :
  br_storage b !! ACCESS_KEY = Some a → a ≠ "" → access_refused a (br_net b) →
  br_storage b !! REFRESH_KEY = Some t → (32 ≤ String.length t)%nat → live_login t r s (br_net b) →
  0 < RATE_LIMIT_WINDOW cfg →
  rl_used gw_limit address n (br_net b) → n + 1 ≤ RATE_LIMIT_API cfg →
  rl_used token_limit address m (br_net b) → m + 2 ≤ RATE_LIMIT_TOKEN cfg →
  ∃ e1 e2 b',
    rtc (pstep eq (λ _, False)) ([fetchMe same_origin backend; fetchGatewayIdentity same_origin backend], b)
      ([Throw e1; Throw e2], b') ∧
    br_storage b' !! ACCESS_KEY = None ∧ br_storage b' !! REFRESH_KEY = None ∧
    (∀ x, x ∈ sessions (w_db (br_net b')) → s_id x = s_id s → s_status x = SRevoked) ∧
    (∀ x, x ∈ refresh_tokens (w_db (br_net b')) → rt_family_id x = rt_family_id r → rt_status_ x = RRevoked).
Proof.
  intros Ha Hane Href Ht Hlen Hl Hwin Hgw Hgwl Htk Htkl.
  assert (Htne : t ≠ "") by (intros ->; simpl in Hlen; lia).
  set (w := br_net b) in *.
  destruct (refused_me (Some a) w Href) as (res1 & Hme & Hst1).
  destruct (refused_gateway a n (drawn w)) as (res2 & w2 & Hgwr & Hst2 & Hc2);
    [exact Href|done|by apply (rl_used_stable _ _ _ w)|done|].
  assert (Hl2 : live_login t r s w2).
  { eapply live_login_counted; [exact Hc2|]. eapply (live_login_counted _ _ _ token_limit address); [|exact Hl].
    apply drawn_counted. }
  assert (Htk2 : rl_used token_limit address m w2).
  { destruct (counted_same _ _ _ Hc2) as (_ & Hnow & _ & _ & Hred).
    apply (rl_used_stable _ _ _ w); [done| |done]. by rewrite Hred. }
  destruct (backend_refresh t m w2) as (ctx & id & w3 & Hc3 & Hu3 & Hb3); [done|done|done|lia|].
  assert (Hl3 : live_login t r s w3) by by eapply live_login_counted.
  destruct (run_refresh_live t ctx w3 r s) as (res & w4 & kid & priv & jti & Hrun & _ & _ & _ & _ & Hrot & _);
    [apply Hl3..|].
  rewrite Hrun in Hb3.
  assert (Hu4 : rl_used token_limit address (m + 1) w4).
  { destruct Hrot as (_ & _ & Hnow & _ & Hred). apply (rl_used_stable _ _ _ w3); [done| |done].
    apply Hred, limit_key_not_session. }
  destruct (refused_refresh t r s (m + 1) w3 w4) as (res5 & w5 & Hb5 & Hok5 & Hs5 & Hf5);
    [done|done|done|done|done|lia|].
  destruct (refused_me None w5 I) as (res6 & Hb6 & Hst6).
  assert (Hta : truthy (Some a) = Some a) by by destruct a.
  destruct (run_race same_origin backend "/auth/me" "/api/v1/me" default_options
    (default_options <| op_api := ResourceApi |>) t b res1 (drawn w) res2 w2
    (mkFetched 200 (BJson (refresh_json res))) w4 (lr_access_token res) (lr_refresh_token res) res5 w5 res6 (drawn w5))
    as (e1 & e2 & Hsteps); try done.
  - unfold request_of. cbn [op_bearer default_options]. rewrite Ha, Hta. exact Hme.
  - unfold request_of. cbn [op_bearer default_options]. simpl. rewrite Ha, Hta. exact Hgwr.
  - unfold request_of. cbn [op_bearer default_options]. rewrite lookup_delete_ne, lookup_delete_eq by done. exact Hb6.
  - unfold fs_ok. by rewrite Hst6.
  - exists e1, e2, (without_tokens (b <| br_net := drawn w5 |>)). split; [exact Hsteps|].
    unfold without_tokens. split; [|split; [|split; [exact Hs5|exact Hf5]]].
    + change (delete REFRESH_KEY (delete ACCESS_KEY (br_storage b)) !! ACCESS_KEY = None).
      by rewrite lookup_delete_ne, lookup_delete_eq.
    + change (delete REFRESH_KEY (delete ACCESS_KEY (br_storage b)) !! REFRESH_KEY = None).
      by rewrite lookup_delete_eq.
Qed.

(** The profile of a user in the database. *)
Definition profile_of (u : UserRow) (d : Db) : Profile :=
  mkProfile (u_id u) (u_email u) (u_first_name u) (u_last_name u) (user_status_string (u_status u))
    (order_by_name (UserRepository.roles_joined (u_id u) d))
    (order_by_name (remove_dups (UserRepository.permissions_joined (u_id u) d)))
    (bool_decide (is_Some (MfaService.method_with MActive (u_id u) d))).

Lemma granted_me a c u w :
  run (verify_token a) (drawn w) = (Resolved c, drawn w) → cl_sub c = Some (u_id u) →
  sql_first (λ x, u_id x = u_id u) (users (w_db w)) = Some u →
  backend (me_request (Some a)) w
    = (Resolved (mkFetched 200 (BJson (profile_json (profile_of u (w_db w))))), drawn w).
Proof.
  intros Hv Hsub Hu. destruct (enter_auth "GET" "/auth/me" (me_request (Some a)) w) as [safety He]; [done|].
  set (rq := identified w (with_headers (http_request (me_request (Some a))) safety) <| rq_params := JObj [] |>).
  set (rq1 := rq <| rq_user := Some (user_of_claims c) |>).
  assert (Hauth : run (authenticate rq) (drawn w) = (Resolved (Next rq1), drawn w)).
  { unfold authenticate. rewrite run_catch.
    assert (Hb : bearer rq = Some a) by by apply (bearer_request (me_request (Some a))).
    rewrite Hb. by rewrite (run_bind_eq _ _ _ _ _ Hv). }
  assert (Hme : run (AuthService.me (u_id u)) (drawn w) = (Resolved (profile_of u (w_db w)), drawn w)).
  { unfold AuthService.me. rewrite (run_bind_eq _ _ _ (Some u) (drawn w)); [reflexivity|].
    exact (f_equal (λ v, (Resolved v, drawn w)) Hu). }
  assert (Hchain : run (chain AuthRoutes.get_me rq) (drawn w)
      = (Resolved (Done rq1 (mkResponse 200 (profile_json (profile_of u (w_db w))))), drawn w)).
  { unfold AuthRoutes.get_me. rewrite (run_chain_cons _ _ _ _ _ _ Hauth). cbn [chain].
    rewrite run_bind, run_asyncHandler.
    assert (Hs : user_sub rq1 = u_id u) by (unfold user_sub; simpl; by rewrite Hsub).
    rewrite Hs, (run_bind_eq _ _ _ _ _ Hme). reflexivity. }
  unfold backend. cbn [fq_url fq_method me_request].
  change (starts_with "/auth/me" "/api/v1") with false. cbv beta iota.
  by rewrite (He _ _ (dispatch_me _ _ _ _ Hchain I)).
Qed.

Lemma profile_of_accounts u d d' : accounts d = accounts d' → profile_of u d = profile_of u d'.
Proof.
  unfold accounts. intros [= Hus Hr Hur Hp Hrp Hm].
  unfold profile_of, UserRepository.roles_joined, UserRepository.permissions_joined, MfaService.method_with.
  by rewrite ?Hr, ?Hur, ?Hp, ?Hrp, ?Hm.
Qed.

Lemma revoked_key_apart j :
  (∀ o id, TokenRevocationService.revoked_key j ≠ rl_key o id) ∧
  (∀ sid, TokenRevocationService.revoked_key j ≠ session_key sid).
Proof.
  unfold rl_key, session_key, TokenRevocationService.revoked_key, RedisService.key.
  split; intros; simpl; discriminate.
Qed.

(** The claims of an exchange are valid when the token is made. *)
Lemma refreshed_valid r s w jti :
  0 < ACCESS_TOKEN_TTL cfg →
  claims_verdict (JwtService.verify_options app_jwt_options) (w_now w / 1000) (refreshed_claims r s w jti) = None.
Proof.
  intros Httl. unfold refreshed_claims. rewrite access_verdict.
  destruct (Z.ltb_spec (w_now w / 1000 + 5) (w_now w / 1000)); [lia|].
  destruct (Z.leb_spec (w_now w / 1000 + ACCESS_TOKEN_TTL cfg) (w_now w / 1000 - 5)); [lia|done].
Qed.

(** The compact form of a token is never empty. *)
Context (jwt_nonempty : ∀ kid c priv, SignJWT kid c priv ≠ "").

(** C7: An expired access token is no interruption. A page whose access token
    is refused but whose refresh token is live, and whose address is below the
    limit of the refresh requests, asks for the profile: it is answered, after
    one exchange of the refresh token, with the profile of its user; the page
    then holds an access token that the server accepts for the same user and
    session, and an active refresh token of that session. *)
Theorem expired_token_recovers (a t : string) (r : RefreshTokenRow) (s : SessionRow) (u : UserRow) (m : Z)
    (b : Browser World) :
  let w := br_net b in
  br_storage b !! ACCESS_KEY = Some a → a ≠ "" → access_refused a w →
  br_storage b !! REFRESH_KEY = Some t → (32 ≤ String.length t)%nat → live_login t r s w →
  0 < RATE_LIMIT_WINDOW cfg → rl_used token_limit address m w → m + 1 ≤ RATE_LIMIT_TOKEN cfg →
  0 < ACCESS_TOKEN_TTL cfg → u_id u = rt_user_id r →
  sql_first (λ x, u_id x = u_id u) (users (w_db w)) = Some u →
  (∀ n, (w_draws w ≤ n)%N → redis_value_at w (TokenRevocationService.revoked_key (random_uuid n)) = None) →
  ∃ access refresh jti b',
    run (fetchMe same_origin backend) b = (Resolved (Some (profile_json (profile_of u (w_db w)))), b') ∧
    br_storage b' !! ACCESS_KEY = Some access ∧ br_storage b' !! REFRESH_KEY = Some refresh ∧
    run (verify_token access) (br_net b') = (Resolved (refreshed_claims r s w jti), br_net b') ∧
    ∃ next, next ∈ refresh_tokens (w_db (br_net b')) ∧ rt_token_hash next = rt_hash refresh ∧
      rt_status_ next = RActive ∧ rt_session_id next = s_id s.
Proof.
  intros w Ha Hane Href Ht Hlen Hl Hwin Htk Htkl Httl Huid Hu Hden.
  assert (Htne : t ≠ "") by (intros ->; simpl in Hlen; lia).
  destruct (refused_me (Some a) w Href) as (res1 & Hme & Hst1).
  destruct (backend_refresh t m (drawn w)) as (ctx & id & w3 & Hc3 & _ & Hb3); [done|done|by apply (rl_used_stable _ _ _ w)|lia|].
  assert (Hl1 : live_login t r s (drawn w)).
  { eapply (live_login_counted _ _ _ token_limit address); [|exact Hl]. apply drawn_counted. }
  assert (Hl3 : live_login t r s w3) by by eapply live_login_counted.
  destruct (counted_same _ _ _ Hc3) as (Hdb3 & Hnow3 & _ & Hdr3 & Hred3). cbn [drawn w_db w_now w_redis] in *.
  destruct (run_refresh_live t ctx w3 r s) as (res & w4 & kid & priv & jti & Hrun & _ & Htok & Hnext & _ & Hrot & Hsig & Hjti);
    [apply Hl3..|].
  change (N.succ (w_draws w) ≤ w_draws w3)%N in Hdr3.
  rewrite Hrun in Hb3. destruct Hrot as (_ & _ & Hnow4 & Hacc4 & Hred4).
  assert (Hclaims : refreshed_claims r s w3 jti = refreshed_claims r s w jti).
  { unfold refreshed_claims. rewrite Hdb3, Hnow3. reflexivity. }
  rewrite Hclaims in Hsig.
  assert (Hver : ∀ w', w_now w' = w_now w → w_redis w' = w_redis w4 → same_keys w4 w' →
    run (verify_token (lr_access_token res)) w' = (Resolved (refreshed_claims r s w jti), w')).
  { intros w' Hnow' Hred' Hk'. apply published_verifies.
    - by apply (published_stable _ _ w4).
    - intros j [= <-]. destruct Hjti as (n & Hn & ->). rewrite <- (Hden n) by lia.
      unfold redis_value_at, redis_live. rewrite Hred', Hred4, Hred3, Hnow' by apply revoked_key_apart. done.
    - rewrite Hnow'. by apply refreshed_valid. }
  assert (Hme4 : backend (me_request (Some (lr_access_token res))) w4
      = (Resolved (mkFetched 200 (BJson (profile_json (profile_of u (w_db w))))), drawn w4)).
  { rewrite (granted_me _ (refreshed_claims r s w jti) u w4).
    - by rewrite (profile_of_accounts u (w_db w4) (w_db w)) by by rewrite Hacc4, Hdb3.
    - apply Hver; [exact (eq_trans Hnow4 Hnow3)|done|done].
    - simpl. by rewrite Huid.
    - unfold accounts in Hacc4. injection Hacc4 as Hus _ _ _ _ _. by rewrite Hus, Hdb3. }
  assert (Hta : truthy (Some a) = Some a) by by destruct a.
  assert (Htn : truthy (Some (lr_access_token res)) = Some (lr_access_token res)).
  { pose proof (jwt_nonempty kid (refreshed_claims r s w3 jti) priv) as Hne. rewrite <- Htok in Hne.
    by destruct (lr_access_token res). }
  exists (lr_access_token res), (lr_refresh_token res), jti,
    (with_tokens (lr_access_token res) (lr_refresh_token res) (b <| br_net := drawn w4 |>)).
  split_and!.
  - unfold fetchMe. rewrite (run_recovers same_origin backend "/auth/me" default_options t b res1 (drawn w)
      (mkFetched 200 (BJson (refresh_json res))) w4 (lr_access_token res) (lr_refresh_token res)
      (mkFetched 200 (BJson (profile_json (profile_of u (w_db w))))) (drawn w4)); try done.
    + unfold request_of. cbn [op_bearer default_options]. rewrite Ha, Hta. exact Hme.
    + unfold request_of. cbn [op_bearer default_options].
      rewrite lookup_insert_ne, lookup_insert_eq, Htn by done. exact Hme4.
  - change (<[REFRESH_KEY := lr_refresh_token res]> (<[ACCESS_KEY := lr_access_token res]> (br_storage b)) !! ACCESS_KEY
      = Some (lr_access_token res)). by rewrite lookup_insert_ne, lookup_insert_eq.
  - change (<[REFRESH_KEY := lr_refresh_token res]> (<[ACCESS_KEY := lr_access_token res]> (br_storage b)) !! REFRESH_KEY
      = Some (lr_refresh_token res)). by rewrite lookup_insert_eq.
  - apply Hver; [exact (eq_trans Hnow4 Hnow3)|done|done].
  - destruct Hnext as (next & Hin & Hh & Hst & _ & Hsid). exists next. split; [exact Hin|].
    split; [exact Hh|]. split; [exact Hst|]. by rewrite Hsid, (ll_session_id _ _ _ _ Hl).
Qed.
End deployment.
