(* ===== verification/SignIn.v ===== *)
(** Signing in, from the form to the resource API: what the gateway does for a
    valid token, and the way from the credentials a user types into the page
    (src/apps/frontend/client/views/login.ts) to the two answers its account
    page shows (src/apps/frontend/client/views/account.ts). *)
From S2P Require Import Prelude Async JsString Errors Store Evolution Toy Redis RateLimit Http AuditLog RefreshTokens Sessions Users UserService Keys Jwt Guards Mfa Risk AuthService Recovery AuthRoutes OAuth OAuthRoutes Gateway Resource Edge App Client Router Views Account Deployment.
From stdpp Require Import base gmap strings list relations.
From Stdlib Require Import ZArith Ascii.
Local Open Scope string_scope.
Local Open Scope list_scope.
Local Open Scope Z_scope.

(** * The gateway lets a valid token pass *)

Section gateway.
Context `{P : Platform, K : KeyManagementService, J : Jose, Q : RemoteJose}.
Context `{KL : !KmsLaws K, QL : !RemoteLaws J Q keypair}.

(** The library holds every key that is published. It fetches the set when it
    is asked for a key it does not hold, though not within its cooldown of half
    a minute after a fetch: the hypothesis leaves out the moments after a
    rotation in which a new key can still be unknown to the gateway. *)
Context (remote_fetches : ∀ w kid pub, publishes w kid pub → remote_knows w kid pub).

Lemma run_remote_published token c w :
  published_signature token c w → claims_verdict RemoteTokenVerifier.options (w_now w / 1000) c = None →
  (∀ j, cl_jti c = Some j → redis_value_at w (TokenRevocationService.revoked_key j) = None) →
  run (RemoteTokenVerifier.verify token) w = (Resolved c, w).
Proof.
  intros (kid & pub & priv & _ & Hpub & Hpair & ->) Hc Hden.
  unfold RemoteTokenVerifier.verify. rewrite run_catch, run_bind, run_attempt.
  rewrite (remote_complete kid pub priv c) by auto. rewrite run_bind.
  destruct (cl_jti c) as [[|a j]|] eqn:Hj; cbn [truthy]; [done| |done].
  unfold TokenRevocationService.isRevoked, RedisService.get. rewrite run_bind, run_attempt.
  by rewrite (Hden _ eq_refl).
Qed.

(** Every value the gateway writes into a header can be sent. *)
Definition sendable (user : AuthenticatedUser) : Prop :=
  Forall (λ v, all_chars header_char v = true)
    [au_sub user; au_scope user; js_join "," (default [] (au_roles user)); default "" (au_sid user);
     default "" (au_client_id user); default "" (GATEWAY_SHARED_SECRET cfg)].

Lemma put_header_some name v hs :
  all_chars header_char v = true → ∃ hs', put_header name (Some v) (Some hs) = Some hs'.
Proof. intros Hv. unfold put_header. rewrite Hv. by eexists. Qed.

Lemma put_header_opt name v hs :
  all_chars header_char (default "" v) = true → ∃ hs', put_header name (truthy v) (Some hs) = Some hs'.
Proof.
  intros Hv. destruct v as [[|c v]|]; [by eexists| |by eexists]. by apply put_header_some.
Qed.

Lemma forwarded_sendable rq user :
  rq_user rq = Some user → sendable user → ∃ hs, forwarded_headers rq = Some hs.
Proof.
  intros Hu Hs. unfold sendable in Hs. rewrite !Forall_cons in Hs.
  destruct Hs as (H1 & H2 & H3 & H4 & H5 & H6 & _). unfold forwarded_headers. rewrite Hu.
  destruct (put_header_some "x-user-id" _ (rq_headers rq) H1) as [h1 ->].
  destruct (put_header_some "x-user-scopes" _ h1 H2) as [h2 ->].
  destruct (put_header_some "x-user-roles" _ h2 H3) as [h3 ->].
  destruct (put_header_opt "x-token-sid" _ h3 H4) as [h4 ->].
  destruct (put_header_opt "x-client-id" _ h4 H5) as [h5 ->]. by apply put_header_opt.
Qed.

(** The upstream request of a valid token. *)
Definition forwards (rq : HttpRequest) (c : Claims) (rq2 : HttpRequest) : Prop :=
  identity_of rq2 = edge_identity (edge_user c) (received (header rq "x-request-id")) ∧
  header rq2 "x-request-id" = js_trim <$> header rq "x-request-id" ∧
  ∀ s, truthy (GATEWAY_SHARED_SECRET cfg) = Some s → header rq2 "x-internal-secret" = Some (js_trim s).

(** The gateway does not keep valid requests out: below the rate limit, a
    request whose token is signed with a published key, unexpired and
    unrevoked, and carries the read scope, is forwarded, with the identity of
    the token and the proof of origin, and the upstream's answer is returned. *)
Lemma run_gateway_complete (upstream : HttpRequest → M (list (string * string) * Response))
    (rq : HttpRequest) (token : string) (c : Claims) (n : Z) (w : World) :
  bearerToken rq = Some token → header rq "x-request-id" = None →
  published_signature token c w → claims_verdict RemoteTokenVerifier.options (w_now w / 1000) c = None →
  (∀ j, cl_jti c = Some j → redis_value_at w (TokenRevocationService.revoked_key j) = None) →
  "api.read" ∈ scope_list (default "" (cl_scope c)) → sendable (edge_user c) →
  0 < RATE_LIMIT_WINDOW cfg → rl_used gw_limit (client_ip rq) n w → n + 1 ≤ RATE_LIMIT_API cfg →
  ∃ w1 rq1 rq2, redis_at (rl_key gw_limit (client_ip rq)) (w <| w_draws ::= N.succ |>) w1 ∧ forwards rq c rq2 ∧
    run (chain (gateway_api upstream) rq) w
      = match run (upstream rq2) w1 with
        | (Resolved r, w2) => (Resolved (Done (rq1 <| rq_sent ::= λ sent, sent ++ r.1 |>) r.2), w2)
        | (Rejected _, w2) => (Resolved (Done rq1 bad_gateway), w2)
        end.
Proof.
  intros Hb Hid Hsig Hc Hden Hscope Hsend Hwin Hused Hlim.
  set (rq0 := set_header "X-Request-ID" (random_uuid (w_draws w)) (rq <| rq_requestId := random_uuid (w_draws w) |>)).
  set (w0 := w <| w_draws ::= N.succ |>).
  assert (Hr0 : run (requestIdMiddleware "x-request-id" rq) w = (Resolved (Next rq0), w0))
    by (unfold requestIdMiddleware; by rewrite Hid).
  destruct (run_ip_limit_below gw_limit rq0 n w0) as (sent & w1 & Hr1 & _ & Hat); [|done..|].
  { by apply (rl_used_stable _ _ _ w). }
  set (rq1 := rq0 <| rq_sent := sent |>).
  set (rq2 := rq1 <| rq_headers ::= λ hs, foldr delete hs PROTECTED_HEADERS |>).
  assert (Hr2 : run (strip_identity rq1) w1 = (Resolved (Next rq2), w1)) by done.
  assert (Hnow : w_now w1 = w_now w) by exact (f_equal (λ v, v.1.1.1.1.1.1) (proj1 Hat)).
  assert (Hver : run (RemoteTokenVerifier.verify token) w1 = (Resolved c, w1)).
  { apply run_remote_published.
    - apply (published_stable _ _ w); [|done].
      split; [exact (f_equal (λ v, v.1.1.2) (proj1 Hat))|exact (f_equal (λ v, v.2) (proj1 Hat))].
    - by rewrite Hnow.
    - intros j Hj. rewrite <- (Hden j Hj). unfold redis_value_at, redis_live.
      rewrite Hnow, (proj2 Hat); [done|]. unfold rl_key, TokenRevocationService.revoked_key, RedisService.key.
      simpl. discriminate. }
  assert (Hb2 : bearerToken rq2 = Some token).
  { rewrite <- Hb. apply bearerToken_headers. simpl. rewrite !lookup_delete_ne by done. done. }
  set (rq3 := rq2 <| rq_user := Some (edge_user c) |>).
  assert (Hr3 : run (authenticateRemote rq2) w1 = (Resolved (Next rq3), w1)).
  { unfold authenticateRemote. rewrite Hb2, run_catch. by rewrite (run_bind_eq _ _ _ _ _ Hver). }
  assert (Hr4 : run (requireScopes ["api.read"] rq3) w1 = (Resolved (Next rq3), w1)).
  { unfold requireScopes. simpl. by rewrite (proj2 (includes_spec _ _) Hscope). }
  assert (Hstrip : stripped rq3).
  { intros h Hh. unfold PROTECTED_HEADERS in Hh. simpl.
    repeat (apply elem_of_cons in Hh as [->|Hh]; [by simplify_map_eq|]). by apply not_elem_of_nil in Hh. }
  destruct (forwarded_sendable rq3 (edge_user c) eq_refl Hsend) as [hs Hf].
  destruct (forwarded_user rq3 (edge_user c) hs eq_refl Hstrip Hf) as (_ & _ & _ & _ & _ & Hrid & Hsec).
  assert (Hkept : rq_headers rq3 !! "x-request-id" = header rq "x-request-id").
  { simpl. rewrite !lookup_delete_ne by done. done. }
  exists w1, rq3, (upstream_request rq3 hs). split; [exact Hat|]. split; [split; [|split]|].
  - rewrite (identity_of_forwarded rq3 (edge_user c) hs) by done. by rewrite Hkept.
  - rewrite header_transmitted, Hrid. by rewrite Hkept.
  - intros s Hs. rewrite header_transmitted, (Hsec s Hs). done.
  - unfold gateway_api.
    rewrite (run_chain_cons _ _ _ _ _ _ Hr0), (run_chain_cons _ _ _ _ _ _ Hr1), (run_chain_cons _ _ _ _ _ _ Hr2),
      (run_chain_cons _ _ _ _ _ _ Hr3), (run_chain_cons _ _ _ _ _ _ Hr4).
    cbn [chain]. rewrite run_bind. unfold proxy. rewrite Hf, run_catch, run_bind.
    by destruct (run (upstream _) w1) as [[e|r] w2].
Qed.
End gateway.

(** * From the form to the account *)

Section sign_in.
Context `{P : Platform, K : KeyManagementService, J : Jose, R : RiskEngine, U : UrlApi, Z0 : Zod, W : Jwk, X : Express, Q : RemoteJose, MW : Middlewares}.
Context (db_ping redis_ping : M ()).
Context (ip : option string).
Context `{XL : !ExpressLaws X, ML : !MiddlewaresLaws MW, KL : !KmsLaws K, JL : !JoseLaws J keypair, QL : !RemoteLaws J Q keypair, PL : !PlatformLaws P, RL : !RiskLaws R}.
Context (remote_fetches : ∀ w kid pub, publishes w kid pub → remote_knows w kid pub).
Context (jwt_nonempty : ∀ kid c priv, SignJWT kid c priv ≠ "").
Context (engine_message : JsErr → string).

Notation host := (backend db_ping redis_ping ip).

Definition login_body (email password : string) : json :=
  JObj [("email", JStr email); ("password", JStr password)].
Definition login_request (email password : string) : FetchRequest :=
  mkFetch "/auth/login" "POST" None (Some (login_body email password)).
Definition login_limit : RateLimitOptions := mkRateLimit "login" (RATE_LIMIT_LOGIN cfg) (RATE_LIMIT_WINDOW cfg).

Ltac skip_route :=
  rewrite dispatch_skip by
    (first [left; reflexivity | right; apply no_match; [reflexivity|vm_compute; reflexivity]]).

Lemma dispatch_login rq w h w' :
  run (chain post_login (rq <| rq_params := JObj [] |>)) w = (Resolved h, w') →
  match h with Next _ => False | _ => True end →
  run (dispatch (createAuthServer db_ping redis_ping) "POST" "/auth/login" rq) w = (Resolved h, w').
Proof.
  intros Hrun Hh. unfold createAuthServer, mount, authRoutes. cbn [fmap list_fmap app fst snd].
  do 3 skip_route. by apply (dispatch_hit (mkRoute "POST" "/auth/login" post_login)).
Qed.

(** Credentials that pass the schema, below the limit, reach the service. *)
Lemma backend_login email password n w :
  safeParse loginSchema (login_body email password) = inr (login_body email password) →
  0 < RATE_LIMIT_WINDOW cfg → rl_used login_limit (address ip) n w → n + 1 ≤ RATE_LIMIT_LOGIN cfg →
  ∃ ctx id w1, counted (rl_key login_limit (address ip)) w w1 ∧ ctx_ip ctx = ip ∧ ctx_userAgent ctx = None ∧
    host (login_request email password) w =
      match run (AuthService.login email password ctx) w1 with
      | (Resolved r, w') => (Resolved (mkFetched 200 (BJson (login_json r))), w')
      | (Rejected e, w') => delivered (Resolved ([], errorHandler e id), w')
      end.
Proof.
  intros Hparse Hwin Hused Hlim.
  destruct (enter_auth db_ping redis_ping ip "POST" "/auth/login" (login_request email password) w) as [safety He];
    [done|].
  set (rq1 := identified w (with_headers (http_request ip (login_request email password)) safety)
    <| rq_params := JObj [] |>).
  assert (Hv : run (validate_body loginSchema rq1) (drawn w) = (Resolved (Next rq1), drawn w)).
  { rewrite run_validate_body. change (rq_body rq1) with (login_body email password). by rewrite Hparse. }
  destruct (run_ip_limit_below login_limit rq1 n (drawn w)) as (sent & w1 & Hr & _ & Hat); [|done..|].
  { by apply (rl_used_stable _ _ _ w). }
  set (rq2 := rq1 <| rq_sent := sent |>).
  exists (requestContext rq2), (rq_requestId rq2), w1. split; [exact Hat|]. split; [done|]. split; [done|].
  set (out := run (AuthService.login email password (requestContext rq2)) w1).
  set (h := match out.1 with
            | Resolved r => Done rq2 (mkResponse 200 (login_json r))
            | Rejected e => NextErr rq2 e
            end).
  assert (Hchain : run (chain post_login rq1) (drawn w) = (Resolved h, out.2)).
  { unfold post_login. rewrite (run_chain_cons _ _ _ _ _ _ Hv).
    change (AuthRoutes.limit "login" (RATE_LIMIT_LOGIN cfg)) with (ip_limit login_limit).
    rewrite (run_chain_cons _ _ _ _ _ _ Hr). fold rq2. cbn [chain].
    rewrite run_bind, run_asyncHandler, run_bind.
    change (jstr (rq_body rq2) "email") with email. change (jstr (rq_body rq2) "password") with password.
    fold out. unfold h. by destruct out as [[e|r] w']. }
  unfold backend. cbn [fq_url fq_method login_request].
  change (starts_with "/auth/login" "/api/v1") with false. cbv beta iota.
  rewrite (He _ _ (dispatch_login _ _ _ _ Hchain ltac:(unfold h; by destruct out.1))).
  unfold h. by destruct out as [[e|r] w'].
Qed.

(** A call that is answered at once. *)
Lemma run_answered {N} (c : ClientConfig) (network : FetchRequest → N → outcome JsErr FetchResponse * N)
    path o v (b : Browser N) n' :
  network (request_of c path o (br_storage b)) (br_net b) = (Resolved (mkFetched 200 (BJson v)), n') →
  run (apiRequest c network path o) b = (Resolved (Some v), b <| br_net := n' |>).
Proof.
  intros Hn. unfold apiRequest. cbn [apiRequest_rec]. rewrite run_bind, run_send, Hn. reflexivity.
Qed.

(** * The resource API behind the gateway *)

(** What is sent on the way can be sent, and arrives as it was sent. *)
Definition carried (v : string) : bool := all_chars (λ c, header_char c && no_blank c) v.

Lemma carried_header v : carried v = true → all_chars header_char v = true.
Proof. apply all_chars_impl. by intros c [Hc _]%andb_true_iff. Qed.

Lemma carried_trim v : carried v = true → js_trim v = v.
Proof. intros Hv. apply js_trim_word. revert Hv. apply all_chars_impl. by intros c [_ Hc]%andb_true_iff. Qed.

Lemma carried_received v : carried v = true → v ≠ "" → received (Some v) = Some v.
Proof. intros Hv Hne. unfold received. rewrite carried_trim by done. by destruct v. Qed.

Lemma hex_carried c : is_hex c || Ascii.eqb c "-" = true → header_char c && no_blank c = true.
Proof. by destruct c as [[] [] [] [] [] [] [] []]. Qed.

Lemma uuid_carried u : uuid_ok u = true → carried u = true ∧ u ≠ "".
Proof.
  unfold uuid_ok. intros [Hl%bool_decide_eq_true Hh]%andb_true_iff. split; [|by intros ->].
  apply split_on_chars in Hh. revert Hh. apply all_chars_impl. exact hex_carried.
Qed.

(** The secret the gateway shares with the resource API is a word. *)
Context (secret_carried : ∀ s, truthy (GATEWAY_SHARED_SECRET cfg) = Some s → carried s = true).

Lemma resource_me rq u w :
  header rq "x-request-id" = None → id_userId (identity_of rq) = Some u →
  (∀ s, truthy (GATEWAY_SHARED_SECRET cfg) = Some s → header rq "x-internal-secret" = Some (js_trim s)) →
  ∃ sent, run (resource_server "GET" "/api/v1/me" rq) w
    = (Resolved (sent, mkResponse 200 (identity_json (identity_of rq))), drawn w).
Proof.
  intros Hid Hu Hsec. destruct (run_security (mkCors (CORS_ORIGINS_LIST cfg) None) "GET" rq w) as (safety & _ & H0).
  rewrite bool_decide_eq_false_2 in H0 by done. set (rq0 := with_headers rq safety) in *.
  set (rq1 := identified w rq0).
  set (rq2 := rq1 <| rq_identity := Some (identity_of rq) |>).
  assert (H1 : run (requireGatewaySecret rq1) (drawn w) = (Resolved (Next rq1), drawn w)).
  { unfold requireGatewaySecret. destruct (truthy _) as [s|]; [|done].
    change (header rq1 "x-internal-secret") with (header rq "x-internal-secret").
    by rewrite (Hsec s eq_refl), (carried_trim s (secret_carried s eq_refl)), bool_decide_eq_true_2. }
  assert (H2 : run (requireIdentity rq1) (drawn w) = (Resolved (Next rq2), drawn w)).
  { unfold requireIdentity. change (identity_of rq1) with (identity_of rq). by rewrite Hu. }
  set (h := Done (rq2 <| rq_params := JObj [] |>) (mkResponse 200 (identity_json (identity_of rq)))).
  assert (H3 : run (dispatch (mount "/api/v1" documentsRoutes) "GET" "/api/v1/me" rq2) (drawn w)
    = (Resolved h, drawn w)).
  { unfold mount, documentsRoutes. cbn [fmap list_fmap].
    by apply (dispatch_hit (mkRoute "GET" "/api/v1/me" get_identity)). }
  exists (rq_sent rq2). unfold resource_server, answer, resource_api.
  revert H3. generalize (dispatch (mount "/api/v1" documentsRoutes) "GET" "/api/v1/me"). intros d H3.
  rewrite (run_bind_eq _ _ _ h (drawn w)); [done|].
  rewrite (run_chain_cons _ _ _ _ _ _ H0), (run_chain_cons _ _ _ _ _ _ (run_identify rq0 w Hid)),
    (run_chain_cons _ _ _ _ _ _ H1), (run_chain_cons _ _ _ _ _ _ H2). by rewrite (run_chain_cons _ _ _ _ _ _ H3).
Qed.

(** The compact form of a token is a word, and not the empty one. *)
Context (jwt_compact : ∀ kid c priv, carried (SignJWT kid c priv) = true).

(** The identity of a valid token, from the browser's side. *)
Lemma granted_gateway_me token c u n w :
  published_signature token c w → claims_verdict RemoteTokenVerifier.options (w_now w / 1000) c = None →
  (∀ j, cl_jti c = Some j → redis_value_at w (TokenRevocationService.revoked_key j) = None) →
  "api.read" ∈ scope_list (default "" (cl_scope c)) → sendable (edge_user c) →
  id_userId (edge_identity (edge_user c) None) = Some u →
  0 < RATE_LIMIT_WINDOW cfg → rl_used gw_limit (address ip) n w → n + 1 ≤ RATE_LIMIT_API cfg →
  ∃ w1, counted (rl_key gw_limit (address ip)) w w1 ∧ host (gateway_me_request token) w
    = (Resolved (mkFetched 200 (BJson (identity_json (edge_identity (edge_user c) None)))), drawn w1).
Proof.
  intros Hsig Hc Hden Hscope Hsend Hu Hwin Hused Hlim.
  destruct (run_security cors_options "GET" (http_request ip (gateway_me_request token)) w) as (safety & _ & H0).
  rewrite bool_decide_eq_false_2 in H0 by done.
  set (rq := with_headers (http_request ip (gateway_me_request token)) safety) in *.
  assert (Hb : bearerToken rq = Some token).
  { unfold bearerToken. assert (Hbr : bearer rq = Some token) by by apply (bearer_request ip (gateway_me_request token)).
    destruct Hsig as (kid & pub & priv & _ & _ & _ & ->). rewrite Hbr, (carried_trim _ (jwt_compact kid c priv)).
    pose proof (jwt_nonempty kid c priv). by destruct (SignJWT kid c priv). }
  assert (Hid : header rq "x-request-id" = None) by apply (no_request_id ip (gateway_me_request token)).
  destruct (run_gateway_complete remote_fetches (resource_server "GET" "/api/v1/me") rq token c n w)
    as (w1 & rq1 & rq2 & Hcount & (Hi & Hrid & Hsec) & Hrun); [done..|].
  rewrite Hid in Hi, Hrid. change (received None) with (@None string) in Hi.
  destruct (resource_me rq2 u w1) as [sent Hres]; [done|by rewrite Hi|done|].
  rewrite Hres, Hi in Hrun. exists w1. split; [exact Hcount|]. unfold backend. cbn [fq_url fq_method gateway_me_request].
  change (starts_with "/api/v1/me" "/api/v1") with true. cbv beta iota.
  unfold gateway_server, answer. by rewrite run_bind, (run_chain_cons _ _ _ _ _ _ H0), Hrun.
Qed.

(** * The token of a login *)

Context (uuid_header : ∀ n, all_chars header_char (random_uuid n) = true).

(** A name of a role that survives the list in a header. *)
Definition role_word (r : string) : Prop := plain r ∧ no_comma r ∧ all_chars header_char r = true.

Definition scopes_of_roles (roles : list string) : list string :=
  ["openid"; "profile"; "email"; "api.read"] ++ (if includes roles "admin" then ["api.write"] else []).

Lemma scopes_plain roles : Forall plain (scopes_of_roles roles).
Proof. unfold scopes_of_roles. destruct (includes roles "admin"); by repeat constructor. Qed.

Lemma scope_list_roles roles : scope_list (AuthService.defaultScopeForRoles roles) = scopes_of_roles roles.
Proof. apply scope_list_join, scopes_plain. Qed.

Lemma all_chars_join (p : ascii → bool) sep xs :
  all_chars p sep = true → Forall (λ x, all_chars p x = true) xs → all_chars p (js_join sep xs) = true.
Proof.
  intros Hs Hx. induction Hx as [|x xs Hx Hxs IH]; [done|]. destruct xs as [|y xs]; [done|].
  rewrite join_cons2, !all_chars_app, Hx, Hs. exact IH.
Qed.

(** The claims of a login at both ends of the deployment. *)
Lemma login_claims_valid uid sid amr w jti :
  0 < ACCESS_TOKEN_TTL cfg →
  let c := AuthService.login_claims uid sid amr w jti in
  claims_verdict (JwtService.verify_options app_jwt_options) (w_now w / 1000) c = None ∧
  claims_verdict RemoteTokenVerifier.options (w_now w / 1000) c = None.
Proof.
  intros Httl. split.
  - unfold AuthService.login_claims. rewrite access_verdict.
    destruct (Z.ltb_spec (w_now w / 1000 + 5) (w_now w / 1000)); [lia|].
    destruct (Z.leb_spec (w_now w / 1000 + ACCESS_TOKEN_TTL cfg) (w_now w / 1000 - 5)); [lia|done].
  - unfold claims_verdict. simpl. rewrite !bool_decide_eq_true_2; [|set_solver|done].
    destruct (Z.ltb_spec (w_now w / 1000 + 5) (w_now w / 1000)); [lia|].
    destruct (Z.leb_spec (w_now w / 1000 + ACCESS_TOKEN_TTL cfg) (w_now w / 1000 - 5)); [lia|done].
Qed.

Lemma nonempty_default (xs : list string) :
  default [] (match xs with [] => None | _ :: _ => Some xs end) = xs.
Proof. by destruct xs. Qed.

Lemma login_sendable uid n amr w jti :
  uuid_ok uid = true → Forall role_word (AuthService.roles_at uid (w_db w)) →
  sendable (edge_user (AuthService.login_claims uid (random_uuid n) amr w jti)).
Proof.
  intros Hu Hr. unfold sendable. cbn -[all_chars]. set (roles := AuthService.roles_at uid (w_db w)) in *.
  rewrite !Forall_cons. split_and!; [| | | |done| |constructor].
  - by apply carried_header, uuid_carried.
  - by destruct (includes roles "admin").
  - rewrite nonempty_default. apply (all_chars_join _ ","); [done|].
    eapply Forall_impl; [exact Hr|]. by intros r (_ & _ & H).
  - pose proof (uuid_header n) as Hn. by destruct (random_uuid n).
  - destruct (GATEWAY_SHARED_SECRET cfg) as [[|c s]|]; [done| |done].
    by apply carried_header, secret_carried.
Qed.

Lemma login_identity uid sid amr w jti :
  uuid_ok uid = true → Forall role_word (AuthService.roles_at uid (w_db w)) →
  let roles := AuthService.roles_at uid (w_db w) in
  edge_identity (edge_user (AuthService.login_claims uid sid amr w jti)) None
  = mkIdentity (Some uid) None (scopes_of_roles roles) roles None.
Proof.
  intros Hu Hr roles. unfold edge_identity. cbn -[received uuid_ok commas_to_blanks scope_list js_join]. fold roles.
  destruct (uuid_carried uid Hu) as [Hc Hne]. rewrite carried_received, Hu by done. f_equal.
  - rewrite commas_none; [apply scope_list_roles|]. apply all_chars_join; [done|].
    destruct (includes roles "admin"); by repeat constructor.
  - fold roles in Hr. rewrite nonempty_default. apply roles_roundtrip; eapply Forall_impl; try exact Hr; by intros r (? & ? & _).
Qed.

(** * Signing in *)

(** The risk engine lets the user pass from this browser, and touches neither
    the counter of the gateway nor the denylist. *)
Definition waved_through (u : UserRow) (w : World) : Prop :=
  ∀ ctx w1, ctx_ip ctx = ip → ctx_userAgent ctx = None → counted (rl_key login_limit (address ip)) w w1 →
  ∃ w2, run (AuthService.assess u ctx) w1 = (Resolved Allow, w2) ∧
    w_redis w2 !! rl_key gw_limit (address ip) = w_redis w1 !! rl_key gw_limit (address ip) ∧
    ∀ j, w_redis w2 !! TokenRevocationService.revoked_key j = w_redis w1 !! TokenRevocationService.revoked_key j.

(** An account that these credentials open, in a well-formed state. *)
Record account_open (email password : string) (u : UserRow) (w : World) : Prop := {
  ao_user : find_user email w = Some u;
  ao_allowed : AuthService.login_allowed u password (w_now w);
  ao_single : MfaService.method_with MActive (u_id u) (w_db w) = None;
  ao_risk : waved_through u w;
  ao_id : uuid_ok (u_id u) = true;
  ao_roles : Forall role_word (AuthService.roles_at (u_id u) (w_db w));
  ao_unique : NoDup (u_id <$> users (w_db w));
  ao_keys : kms_wf w;
  ao_tokens : rt_wf w;
  ao_sessions : AuthService.session_ids_drawn w;
  ao_unrevoked : ∀ n, (w_draws w ≤ n)%N →
    redis_value_at w (TokenRevocationService.revoked_key (random_uuid n)) = None;
}.

(** The request of the form, answered. *)
Lemma login_answered email password u n w :
  account_open email password u w →
  safeParse loginSchema (login_body email password) = inr (login_body email password) →
  0 < RATE_LIMIT_WINDOW cfg → rl_used login_limit (address ip) n w → n + 1 ≤ RATE_LIMIT_LOGIN cfg →
  ∃ r w' sid k jti, host (login_request email password) w
      = (Resolved (mkFetched 200 (BJson (login_json (LoginSuccess r)))), w') ∧
    w_now w' = w_now w ∧ AuthService.grants (w_db w') = AuthService.grants (w_db w) ∧
    sql_first (λ x, u_id x = u_id u) (users (w_db w')) = Some (AuthService.logged_in (w_now w) u) ∧
    w_redis w' !! rl_key gw_limit (address ip) = w_redis w !! rl_key gw_limit (address ip) ∧
    redis_value_at w' (TokenRevocationService.revoked_key jti) = None ∧ sid = random_uuid k ∧
    published_signature (lr_access_token r) (AuthService.login_claims (u_id u) sid ["pwd"] w jti) w'.
Proof.
  intros [] Hparse Hwin Hused Hlim.
  destruct (backend_login email password n w) as (ctx & id & w1 & Hc & Hip & Hua & Hb); [done..|].
  destruct (counted_same _ _ _ Hc) as (Hdb & Hnow & Hkeys & Hdr & Hred).
  destruct (ao_risk0 ctx w1 Hip Hua Hc) as (w2 & Hassess & Hgw2 & Hrev2).
  destruct (AuthService.run_login_granted email password ctx w1 w2 u)
    as (r & w' & sid & Hrun & _ & _ & Hu' & Hnow' & Hred' & Hgr' & ((jti & k & Hk & -> & Hsig) & _) & (k' & Hsid)).
  - unfold find_user in *. by rewrite Hdb.
  - by rewrite Hnow.
  - by rewrite Hdb.
  - exact Hassess.
  - by rewrite Hdb.
  - by apply (kms_wf_stable w).
  - by eapply rt_wf_counted.
  - unfold AuthService.session_ids_drawn in *. rewrite Hdb.
    eapply Forall_impl; [exact ao_sessions0|]. intros x (i & Hi & Hx). exists i. split; [lia|done].
  - rewrite Hrun in Hb. exists r, w', sid, k', (random_uuid k). split; [exact Hb|].
    rewrite Hnow in Hnow', Hu'. rewrite Hdb in Hgr'. split_and!; try done.
    + by rewrite Hred', Hgw2, Hred by done.
    + rewrite <- (ao_unrevoked0 k) by lia. unfold redis_value_at, redis_live.
      rewrite Hred', Hrev2, Hnow', Hred; [done|]. apply revoked_key_apart.
    + unfold AuthService.login_claims in *. by rewrite Hdb, Hnow in Hsig.
Qed.

Lemma profile_of_grants u d d' :
  AuthService.grants d = AuthService.grants d' → profile_of u d = profile_of u d'.
Proof.
  unfold AuthService.grants. intros [= Hr Hur Hp Hrp Hm].
  unfold profile_of, UserRepository.roles_joined, UserRepository.permissions_joined, MfaService.method_with.
  by rewrite ?Hr, ?Hur, ?Hp, ?Hrp, ?Hm.
Qed.

(** The token of [u] is accepted by both servers, below the gateway's limit. *)
Record accepted (token : string) (c : Claims) (u : UserRow) (n : Z) (w : World) : Prop := {
  ac_signed : published_signature token c w;
  ac_valid : claims_verdict (JwtService.verify_options app_jwt_options) (w_now w / 1000) c = None;
  ac_remote : claims_verdict RemoteTokenVerifier.options (w_now w / 1000) c = None;
  ac_unrevoked : ∀ j, cl_jti c = Some j → redis_value_at w (TokenRevocationService.revoked_key j) = None;
  ac_sub : cl_sub c = Some (u_id u);
  ac_user : sql_first (λ x, u_id x = u_id u) (users (w_db w)) = Some u;
  ac_used : rl_used gw_limit (address ip) n w;
}.

Lemma unrevoked_stable j k w w' :
  w_now w' = w_now w → (∀ k', k' ≠ k → w_redis w' !! k' = w_redis w !! k') →
  (TokenRevocationService.revoked_key j ≠ k) →
  redis_value_at w (TokenRevocationService.revoked_key j) = None →
  redis_value_at w' (TokenRevocationService.revoked_key j) = None.
Proof. intros Hnow Hred Hk <-. unfold redis_value_at, redis_live. by rewrite Hnow, Hred. Qed.

Lemma accepted_drawn token c u n w : accepted token c u n w → accepted token c u n (drawn w).
Proof.
  intros []. split; [by apply (published_stable _ _ w)|done..|by apply (rl_used_stable _ _ _ w)].
Qed.

(** The profile, while the token is accepted. *)
Lemma accepted_me token c u n w :
  accepted token c u n w →
  host (me_request (Some token)) w
    = (Resolved (mkFetched 200 (BJson (profile_json (profile_of u (w_db w))))), drawn w).
Proof.
  intros Ha%accepted_drawn. apply (granted_me db_ping redis_ping ip token c); [|apply Ha..].
  apply published_verifies; apply Ha.
Qed.

(** The identity, which counts against the limit and changes nothing else. *)
Lemma accepted_gateway token c u n w :
  "api.read" ∈ scope_list (default "" (cl_scope c)) → sendable (edge_user c) →
  id_userId (edge_identity (edge_user c) None) = Some (u_id u) →
  0 < RATE_LIMIT_WINDOW cfg → n + 1 ≤ RATE_LIMIT_API cfg → accepted token c u n w →
  ∃ w', host (gateway_me_request token) w
      = (Resolved (mkFetched 200 (BJson (identity_json (edge_identity (edge_user c) None)))), w') ∧
    w_db w' = w_db w ∧ host (me_request (Some token)) w'
      = (Resolved (mkFetched 200 (BJson (profile_json (profile_of u (w_db w))))), drawn w').
Proof.
  intros Hscope Hsend Hid Hwin Hlim [].
  destruct (granted_gateway_me token c (u_id u) n w) as (w1 & Hc & Hgw); [done..|].
  destruct (counted_same _ _ _ Hc) as (Hdb & Hnow & Hkeys & _ & Hred).
  exists (drawn w1). split; [exact Hgw|]. split; [exact Hdb|].
  rewrite <- Hdb. apply (granted_me db_ping redis_ping ip token c u (drawn w1)); [|done|cbn; by rewrite Hdb].
  apply published_verifies; [by apply (published_stable _ _ w)| |cbn; by rewrite Hnow].
  intros j Hj. apply (unrevoked_stable j (rl_key gw_limit (address ip)) w); [done|done| |by auto].
  apply revoked_key_apart.
Qed.

(** The two requests of the account page, with a token that is accepted: in
    any order and interleaving. *)
Lemma account_answered token c u n (b : Browser World) ps b' :
  let w := br_net b in
  br_storage b !! ACCESS_KEY = Some token → accepted token c u n w →
  "api.read" ∈ scope_list (default "" (cl_scope c)) → sendable (edge_user c) →
  id_userId (edge_identity (edge_user c) None) = Some (u_id u) →
  0 < RATE_LIMIT_WINDOW cfg → n + 1 ≤ RATE_LIMIT_API cfg →
  rtc (pstep eq (λ _, False)) ([fetchMe same_origin host; fetchGatewayIdentity same_origin host], b) (ps, b') →
  let profile := profile_json (profile_of u (w_db w)) in
  let identity := identity_json (edge_identity (edge_user c) None) in
  (∀ r, ps !! 0%nat = Some (settled r) → r = Resolved (Some profile)) ∧
  (∀ r, ps !! 1%nat = Some (settled r) → r = Resolved (Some identity)) ∧
  ∃ n', rtc (pstep eq (λ _, False)) (ps, b') ([mret (Some profile); mret (Some identity)], b <| br_net := n' |>).
Proof.
  intros w Ht Ha Hscope Hsend Hid Hwin Hlim Hsteps profile identity.
  assert (Htok : truthy (Some token) = Some token).
  { destruct (ac_signed _ _ _ _ _ Ha) as (kid & pub & priv & _ & _ & _ & ->).
    pose proof (jwt_nonempty kid c priv). by destruct (SignJWT kid c priv). }
  destruct (accepted_gateway token c u n w) as (w2 & H2 & _ & H21); [done..|].
  destruct (accepted_gateway token c u n (drawn w)) as (w12 & H12 & _ & _); [done..|by apply accepted_drawn|].
  apply (both_answered same_origin host "/auth/me" "/api/v1/me" default_options
    (default_options <| op_api := ResourceApi |>) b profile identity (drawn w) w2 w12 (drawn w2)); [done|done| | | | |exact Hsteps];
    unfold request_of; cbn [op_bearer default_options]; simpl; rewrite Ht, Htok;
    [by eapply accepted_me|exact H2|exact H12|exact H21].
Qed.

(** C1: Signing in works, from the form to the resource API and back to the
    page. With the credentials of an account that may log in and has no active
    second factor, from a browser that the risk engine lets pass, below the
    limits, and while the gateway holds the keys the server publishes, the form
    stores an access token and a refresh token and goes to the account
    page. The two requests of the page, however they interleave, can only be
    answered as follows and from wherever they are both come to their answers:
    the authorization server answers with the profile of the user, and the
    resource API, through the gateway, with the identity that it saw: the user,
    the scopes of the user's roles and those roles. The page shows exactly
    these values. *)
Theorem sign_in (email password : string) (u : UserRow) (n m : Z) (b : Browser World) :
  let w := br_net b in
  let roles := AuthService.roles_at (u_id u) (w_db w) in
  let profile := profile_of (AuthService.logged_in (w_now w) u) (w_db w) in
  let identity := mkIdentity (Some (u_id u)) None (scopes_of_roles roles) roles None in
  bad_email (Some email) = false →
  safeParse loginSchema (login_body email password) = inr (login_body email password) →
  account_open email password u w → 0 < ACCESS_TOKEN_TTL cfg → 0 < RATE_LIMIT_WINDOW cfg →
  rl_used login_limit (address ip) n w → n + 1 ≤ RATE_LIMIT_LOGIN cfg →
  rl_used gw_limit (address ip) m w → m + 1 ≤ RATE_LIMIT_API cfg →
  ∃ access refresh b1 page,
    run (login_submit same_origin host engine_message (Some email) (Some password)) b = (Resolved (), b1) ∧
    shows AccountPage b1 ∧ br_storage b1 !! ACCESS_KEY = Some access ∧ br_storage b1 !! REFRESH_KEY = Some refresh ∧
    (∀ ps b2,
      rtc (pstep eq (λ _, False)) ([fetchMe same_origin host; fetchGatewayIdentity same_origin host], b1) (ps, b2) →
      (∀ r, ps !! 0%nat = Some (settled r) → r = Resolved (Some (profile_json profile))) ∧
      (∀ r, ps !! 1%nat = Some (settled r) → r = Resolved (Some (identity_json identity))) ∧
      ∃ b3, rtc (pstep eq (λ _, False)) (ps, b2)
        ([mret (Some (profile_json profile)); mret (Some (identity_json identity))], b3)) ∧
    on_loaded account_root (profile_json profile) (identity_json identity) = Some page ∧
    rows page = shown_rows profile identity.
Proof.
  intros w roles profile identity Hmail Hparse Hopen Httl Hwin Hlogin Hloginl Hgw Hgwl.
  destruct (login_answered email password u n w)
    as (r & w' & sid & k & jti & Hb & Hnow & Hgr & Hu & Hred & Hden & -> & Hsig); [done..|].
  assert (Hcall : run (Client.api_login same_origin host (Some email) (Some password)) b
    = (Resolved (Some (login_json (LoginSuccess r))), b <| br_net := w' |>)) by by apply run_answered.
  pose proof (run_login_submit same_origin host engine_message (Some email) (Some password) b Hmail) as Hform.
  rewrite Hcall in Hform. destruct Hform as (b1 & Hrun & Hnet & Ha & Hr & Hshow).
  change (br_net (b <| br_net := w' |>)) with w' in Hnet.
  set (c := AuthService.login_claims (u_id u) (random_uuid k) ["pwd"] w jti) in *.
  destruct (login_claims_valid (u_id u) (random_uuid k) ["pwd"] w jti Httl) as [Hv1 Hv2]. fold c in Hv1, Hv2.
  pose proof (login_identity (u_id u) (random_uuid k) ["pwd"] w jti (ao_id _ _ _ _ Hopen) (ao_roles _ _ _ _ Hopen))
    as Hident. cbv zeta in Hident. fold c roles in Hident.
  destruct (page_rows profile identity) as (page & Hp & Hrows).
  exists (lr_access_token r), (lr_refresh_token r), b1, page. split_and!; [done..| |done|done].
  intros ps b2 Hsteps.
  destruct (account_answered (lr_access_token r) c (AuthService.logged_in (w_now w) u) m b1 ps b2)
    as (Hme & Hid & n3 & Hend); [exact Ha| | |by apply login_sendable; apply Hopen|by rewrite Hident|done|done|exact Hsteps|].
  - split; rewrite ?Hnet, ?Hnow; try done; [by intros j [= <-]|by apply (rl_used_stable _ _ _ w)].
  - change (default "" (cl_scope c)) with (AuthService.defaultScopeForRoles roles).
    rewrite scope_list_roles. unfold scopes_of_roles. set_solver.
  - rewrite Hnet, (profile_of_grants _ (w_db w') (w_db w) Hgr) in Hme, Hend. rewrite Hident in Hid, Hend.
    split; [exact Hme|]. split; [exact Hid|]. by eexists.
Qed.
End sign_in.
