(* ===== verification/DeploymentDemo.v ===== *)
(** The properties of the deployed system at concrete inputs. *)
From S2P Require Import Prelude Async JsString Numbers Errors Store Evolution Toy Redis RateLimit Http AuditLog RefreshTokens Sessions Users UserService Keys Jwt ToyJose Guards Mfa Risk AuthService Recovery AuthRoutes OAuth OAuthFlow OAuthDemo OAuthRoutes Gateway Resource Edge Documents EdgeApi Client App Router Views Deployment SignIn Wiring.
From stdpp Require Import base gmap strings list pretty relations.
From Stdlib Require Import ZArith Ascii.
Local Open Scope string_scope.
Local Open Scope list_scope.
Local Open Scope Z_scope.

(** Paths are matched character by character. *)
Definition toy_express : Express := {| path_match p q := if bool_decide (p = q) then Some [] else None |}.

#[export] Instance toy_express_laws : ExpressLaws toy_express.
Proof.
  split.
  - intros p _. simpl. by rewrite bool_decide_eq_true_2.
  - intros p q _. simpl. case_bool_decide; [|by intros []]. subst. by left.
Qed.

Definition toy_jwk : Jwk := {| jwk_of_pem p := Resolved [("x", JStr p)] |}.

(** A few of the headers. *)
Definition toy_middlewares : Middlewares := {|
  helmet rq := Next (with_headers rq [("X-Content-Type-Options", "nosniff")]);
  cors o method rq :=
    if bool_decide (method = "OPTIONS")
    then Done (with_headers rq [("Access-Control-Allow-Methods", js_join "," (default [] (co_methods o)))])
           (mkResponse 204 JNull)
    else Next (with_headers rq [("Vary", "Origin")]);
|}.

#[export] Instance toy_middlewares_laws : MiddlewaresLaws toy_middlewares.
Proof.
  assert (Hno : ∀ k v, k ≠ "X-Request-ID" → "X-Request-ID" ∉ [(k, v) : string * string].*1).
  { intros k v Hk. cbn. rewrite list_elem_of_singleton. congruence. }
  split.
  - intros rq. eexists. split; [reflexivity|by apply Hno].
  - intros o rq. eexists. split; [reflexivity|by apply Hno].
  - intros o method rq Hm. eexists. cbn. rewrite bool_decide_eq_false_2 by done. split; [reflexivity|by apply Hno].
Qed.

Section witnesses.
#[local] Existing Instances toy toy_crypto toy_jose toy_formats toy_zod toy_url toy_remote toy_remote_laws
  toy_express toy_jwk toy_middlewares.

Definition no_ping : M () := mret ().

(** A request for a page that does not exist, and an inquiry about its methods. *)
Lemma auth_server_answers_witness :
  let rq := mkRequest (<["x-request-id" := "0f8fad5b-d9cb-469f-a165-70867728950e"]> ∅) None (JObj []) (JObj [])
    (JObj []) "" None None [] in
  (∃ safety headers, (run (auth_server no_ping no_ping "GET" "/nowhere" rq) (empty_world 0)).1
      = Resolved (safety ++ ("X-Request-ID", "0f8fad5b-d9cb-469f-a165-70867728950e") :: headers, notFoundHandler)) ∧
  ∃ safety, (run (auth_server no_ping no_ping "OPTIONS" "/nowhere" rq) (empty_world 0)).1
      = Resolved (safety, mkResponse 204 JNull).
Proof.
  intros rq. split.
  - destruct (auth_server_answers no_ping no_ping "GET" "/nowhere" rq (empty_world 0) eq_refl)
      as [[? _]|(_ & id & safety & h & headers & w' & _ & Hc & Hr & Hid & _)]; [done|].
    exists safety, headers. rewrite <- (Hid _ eq_refl eq_refl), Hr.
    assert (E : (run (auth_server no_ping no_ping "GET" "/nowhere" rq) (empty_world 0)).1
      = Resolved ([("X-Content-Type-Options", "nosniff"); ("Vary", "Origin");
          ("X-Request-ID", "0f8fad5b-d9cb-469f-a165-70867728950e")], notFoundHandler)) by (vm_compute; reflexivity).
    rewrite Hr in E. by injection E as _ ->.
  - destruct (auth_server_answers no_ping no_ping "OPTIONS" "/nowhere" rq (empty_world 0) eq_refl)
      as [(_ & safety & _ & Hr)|[? _]]; [|done]. exists safety. by rewrite Hr.
Defined.

(** A user with a live session, and a page that holds its tokens; the access
    token has become unreadable. *)
Definition page_user : UserRow :=
  mkUserRow "user-1" "ada@example.com" "argon2:Correct-Horse-42" (Some "Ada") None UActive 0 None false None 0 0 0.
Definition page_world : World :=
  demo_world 1000 <| w_db ::= λ d, d <| users := [page_user] |> |>.
Definition page : Browser World :=
  mkBrowser (<[ACCESS_KEY := "stale"]> (<[REFRESH_KEY := demo_token]> ∅)) "" [] page_world.

Lemma page_refused : access_refused "stale" page_world.
Proof. intros w' _. split; by vm_compute. Qed.

Lemma page_live : live_login demo_token demo_row demo_session page_world.
Proof.
  split.
  - apply demo_wf.
  - apply list_elem_of_here.
  - by split_and!.
  - apply list_elem_of_here.
  - done.
  - done.
  - apply NoDup_singleton.
  - intros id e c Hk. simpl in Hk. by rewrite lookup_empty in Hk.
  - split; [done|]. split; [constructor|by left].
Qed.

Lemma page_unlimited o : rl_used o "unknown" 0 page_world.
Proof. left. by split. Qed.

Lemma toy_refresh t : (32 ≤ String.length t)%nat →
  safeParse refreshSchema (refresh_body t) = inr (refresh_body t).
Proof.
  intros Hl. cbn [safeParse toy_zod]. 
  assert (E : conforms (F := toy_formats) refreshSchema (Some (refresh_body t))
      = (32 <=? String.length t)%nat && true && true) by reflexivity.
  by rewrite E, (proj2 (Nat.leb_le _ _) Hl).
Qed.

Lemma toy_jwt_nonempty kid c priv : SignJWT kid c priv ≠ "".
Proof.
  cbn [SignJWT toy_jose]. intros E. pose proof (toy_read_sign kid c priv) as H. rewrite E in H.
  by vm_compute in H.
Qed.

Lemma parallel_refresh_logs_out_witness :
  ∃ e1 e2 b',
    rtc (pstep eq (λ _, False)) ([fetchMe same_origin (backend no_ping no_ping None);
        fetchGatewayIdentity same_origin (backend no_ping no_ping None)], page)
      ([Throw e1; Throw e2], b') ∧
    br_storage b' !! ACCESS_KEY = None.
Proof.
  destruct (parallel_refresh_logs_out no_ping no_ping None toy_refresh "stale" demo_token demo_row demo_session
    0 0 page) as (e1 & e2 & b' & Hr & Ha & _); try done; try lia.
  - apply page_live.
  - apply page_unlimited.
  - apply page_unlimited.
  - exists e1, e2, b'. split; [exact Hr|exact Ha].
Defined.

Lemma expired_token_recovers_witness :
  ∃ access b',
    run (fetchMe same_origin (backend no_ping no_ping None)) page
      = (Resolved (Some (profile_json (mkProfile "user-1" "ada@example.com" (Some "Ada") None "active" [] [] false))), b') ∧
    br_storage b' !! ACCESS_KEY = Some access ∧ access ≠ "stale".
Proof.
  destruct (expired_token_recovers no_ping no_ping None toy_refresh toy_jwt_nonempty "stale" demo_token demo_row
    demo_session page_user 0 page) as (access & refresh & jti & b' & Hr & Ha & _ & Hv & _).
  - reflexivity.
  - discriminate.
  - apply page_refused.
  - reflexivity.
  - vm_compute. lia.
  - apply page_live.
  - reflexivity.
  - apply page_unlimited.
  - discriminate.
  - reflexivity.
  - reflexivity.
  - reflexivity.
  - intros n _. by apply nothing_stored.
  - exists access, b'. split; [exact Hr|]. split; [exact Ha|]. intros ->.
    revert Hv. unfold verify_token. vm_compute. discriminate.
Defined.

(** A user with a role, and a page without tokens. *)
Definition clerk : UserRow :=
  mkUserRow ada_id "ada@example.com" "argon2:Correct-Horse-42" (Some "Ada") None UActive 2 None false None 0 0 0.
Definition clerk_world : World :=
  empty_world 1000 <| w_draws := 4%N |>
    <| w_db := empty_db <| users := [clerk] |> <| roles := [mkRoleRow "r-1" "admin" None true] |>
         <| user_roles := [mkUserRoleRow ada_id "r-1"] |> |>.
Definition blank_page : Browser World := mkBrowser ∅ "#/login" [] clerk_world.

(** A first login from an unknown address is of low risk. *)
Lemma clerk_waved : waved_through None clerk clerk_world.
Proof.
  intros ctx w1 Hip Hua Hc. destruct (counted_same _ _ _ Hc) as (_ & _ & _ & _ & Hred).
  assert (Hnone : redis_value_at w1 (RulesRiskEngine.failed_key ada_id) = None).
  { unfold redis_value_at, redis_live. by rewrite Hred. }
  unfold AuthService.assess, AuthService.isKnownDevice. rewrite Hua. eexists. split.
  - cbn [truthy]. rewrite run_bind. cbn [evaluateLogin rules_engine].
    unfold RulesRiskEngine.evaluateLogin, RulesRiskEngine.failed_logins, RedisService.get. rewrite run_ret, Hip, ?Hua.
    cbn [ri_userId]. change (u_id clerk) with ada_id. rewrite !run_bind, run_attempt, Hnone. reflexivity.
  - by split.
Qed.

Lemma toy_secret s : truthy (GATEWAY_SHARED_SECRET (@cfg toy)) = Some s → carried s = true.
Proof. done. Qed.

Lemma toy_jwt_carried kid c priv : carried (SignJWT kid c priv) = true.
Proof.
  cbn [SignJWT toy_jose]. unfold toy_sign. generalize (encode (GenNode 0 [GenLeaf (inl kid : leaf); claims_tree c; GenLeaf (inl priv)])).
  intros p. induction p as [p IH|p IH|]; [exact IH|exact IH|done].
Qed.

Lemma toy_uuid_header n : all_chars header_char (random_uuid n) = true.
Proof.
  cbn [random_uuid toy]. rewrite all_chars_app. destruct (pretty_N_digits n) as (_ & _ & Hd).
  assert (Hp : all_chars header_char (pretty n) = true).
  { revert Hd. apply all_chars_impl. intros c. by destruct c as [[] [] [] [] [] [] [] []]. }
  by rewrite Hp.
Qed.

Lemma toy_fetches w kid pub : publishes w kid pub → remote_knows w kid pub.
Proof. done. Qed.

Lemma clerk_open : account_open None "ada@example.com" "Correct-Horse-42" clerk clerk_world.
Proof.
  split.
  - by vm_compute.
  - by split.
  - done.
  - apply clerk_waved.
  - by vm_compute.
  - repeat constructor; discriminate.
  - apply NoDup_singleton.
  - split; [done|]. split; [constructor|by left].
  - split; constructor.
  - constructor.
  - intros n _. by apply nothing_stored.
Qed.

Lemma sign_in_witness :
  ∃ b1 b3,
    run (login_submit same_origin (backend no_ping no_ping None) (λ _, "error") (Some "ada@example.com")
           (Some "Correct-Horse-42")) blank_page = (Resolved (), b1) ∧ shows AccountPage b1 ∧
    rtc (pstep eq (λ _, False))
      ([fetchMe same_origin (backend no_ping no_ping None); fetchGatewayIdentity same_origin (backend no_ping no_ping None)], b1)
      ([mret (Some (profile_json (mkProfile ada_id "ada@example.com" (Some "Ada") None "active" ["admin"] [] false)));
        mret (Some (identity_json (mkIdentity (Some ada_id) None
           ["openid"; "profile"; "email"; "api.read"; "api.write"] ["admin"] None)))], b3).
Proof.
  destruct (sign_in no_ping no_ping None toy_fetches toy_jwt_nonempty (λ _, "error") toy_secret toy_jwt_carried
    toy_uuid_header "ada@example.com" "Correct-Horse-42" clerk 0 0 blank_page)
    as (access & refresh & b1 & page & H1 & H2 & _ & _ & H3 & _).
  - reflexivity.
  - reflexivity.
  - apply clerk_open.
  - reflexivity.
  - reflexivity.
  - left. by split.
  - discriminate.
  - left. by split.
  - discriminate.
  - destruct (H3 _ _ (rtc_refl _ _)) as (_ & _ & b3 & Hend). exists b1, b3.
    split; [exact H1|]. split; [exact H2|exact Hend].
Defined.

(** The server on a database, a Redis, a key and a mail service of its own: the
    administration of clients, mounted before the denylist was set, uses it,
    and the sessions of the login are in that Redis. *)
Lemma auth_server_wired_witness :
  let deps := mkDeps 0%nat 1%nat 2%nat 3%nat None in
  let h := OSupplied <$> [SDatabase; SRedis; SKms; SEmail] in
  let a := (assembleAuthServer deps (mkAssembly h [])).2 in
  ("/admin/clients", ClientsRouter 16%nat 4%nat 8%nat) ∈ as_routers a ∧
  (∀ token, verify_at (as_heap a) 8%nat token = verify_token token) ∧
  ∃ o, as_heap a !! 1%nat = Some o ∧ right_part deps h (as_heap a) 1%nat o.
Proof.
  intros deps h a.
  assert (Hs : supplied deps h) by (split; [by intros []|done]).
  pose proof (auth_server_wired deps h no_ping no_ping Hs) as Hw. cbv zeta in Hw. fold a in Hw.
  destruct Hw as (Hreach & Hverify & _).
  assert (Hr : as_routers a = mounted deps 4%nat 5%nat) by (subst a; by rewrite assembled).
  assert (Hh : as_heap a = h ++ [OAuditLogService [PostgresSink 0%nat]] ++ built deps 4%nat 5%nat)
    by (subst a; by rewrite assembled).
  assert (Hc : ("/admin/clients", ClientsRouter 16%nat 4%nat 8%nat) ∈ as_routers a)
    by (rewrite Hr; by do 4 apply list_elem_of_further; left).
  assert (Ha : ("/auth", AuthRouter 14%nat 7%nat 8%nat 1%nat) ∈ as_routers a)
    by (rewrite Hr; by apply list_elem_of_further; left).
  split; [exact Hc|]. split; [intros token; by apply (Hverify _ _ _ _ Hc)|].
  apply (Hreach _ _ 14%nat 1%nat Ha); [left|]. rewrite Hh.
  apply (rtc_l _ _ 10%nat); [by eexists; split; [reflexivity|right; left]|].
  apply rtc_once. by eexists; split; [reflexivity|right; left].
Defined.
End witnesses.
